(* ===== verification/_CoqProject ===== *)
-Q . S2P
Prelude.v
Riscv.v
Mem.v
Cstring.v
State.v
Spinlock.v
Sched.v
SchedSpec.v
Harts.v
HartsSpec.v
HartsClaims.v
Uart.v
Bio.v
BioLocks.v
BioList.v
Cache.v
BioSpec.v
Virtio.v
VirtioSys.v
VirtioSpec.v
VirtioClaims.v
Session.v
Log.v
LogSpec.v
Txn.v
LogCrash.v
Kalloc.v
PageTable.v
Vm.v
VmSpec.v
Asm.v
Uvm.v
UvmGrow.v
UvmCopy.v
UvmFree.v
UvmIo.v
Sample.v
VmClaims.v
SampleFs.v
LogClaims.v
Fs.v
FsBlocks.v
FsFiles.v
FsClaims.v
FsDir.v
Mkfs.v
MkfsSpec.v
MkfsImage.v
MkfsFiles.v
MkfsMain.v
MkfsClaims.v
Console.v
Pipe.v
PipeSpec.v
PipeClaims.v
File.v
Proc.v
CoreClaims.v
Exec.v
Syscall.v
Sysfile.v
Trap.v
TrapClaims.v
Uprog.v
Ulib.v
Uos.v
Pingpong.v
Usmall.v
UsmallSpec.v
MyShell.v
MyShellSpec.v
MyShellClaims.v
Sh.v
ShSpec.v
ShParse.v
ShClaims.v
Umalloc.v
UmallocSpec.v
Grep.v
GrepSpec.v
