(* ===== verification/Prelude.v ===== *)
(** * xv6: a verification development of the kernel and its user programs

    The program is xv6, a small Unix for RISC-V: a kernel in C and assembly
    ([src/kernel]), the user library and programs ([src/user]) with the
    repository's own shell [my_shell.c], [pingpong.c], [sleep.c], [uptime.c] and
    [hw.c], and the host tool [mkfs] that makes the disk image.  This library is
    a shallow embedding of it: every C function is a Rocq function that can be
    evaluated, and the theorems are about those functions.

    ** The parts and where they are

    - [Prelude] (this file): integers at their C widths, the monad
      [M S A := S -> outcome S A] of the kernel's code with its outcomes [Ok],
      [Panic] (the kernel's [panic]), [Fault] (undefined behaviour or a trap),
      [Block] (sleeping for ever) and [Hang] (a loop out of fuel), the predicate
      [wp] to reason about it, and the tactics and list lemmas that are shared.
    - [Riscv], [Mem], [Cstring]: [riscv.h], [memlayout.h] and [param.h]; byte
      memory; [string.c].
    - [State]: the kernel's global variables as one record [kstate], the
      structures of [proc.h], [file.h], [buf.h], [fs.h], [log.c], [pipe.c],
      [console.c] as records, and the class [Env] of what other harts and
      processes do while a process sleeps.
    - [Spinlock], [Sched], [SchedSpec]: [spinlock.c] (on lock words, and over
      several harts as a step relation), [sleep], [wakeup], [yield], [sched] and
      [kill] of [proc.c].
    - [Harts], [HartsSpec], [HartsClaims]: [scheduler], [sched], [yield], [sleep]
      and [wakeup] as steps of several harts, each step one access to a lock or to
      a process.
    - [Bio], [BioLocks], [BioList], [BioSpec]: [bio.c] and [sleeplock.c];
      [Cache] is the interface [BlockCache] that they promise to the file system
      and [Session] the rules for its clients.
    - [Log], [LogSpec], [LogCrash], [LogClaims], [SampleFs]: [log.c], against
      [BlockCache], with a crash at any block that reaches the disk.
    - [Virtio], [VirtioSys], [VirtioSpec], [VirtioClaims]: [virtio_disk.c], its
      descriptors and rings; [VirtioSys] runs the driver beside a device that is a
      parameter.
    - [Txn], [Fs], [FsBlocks], [FsFiles], [FsDir], [FsClaims]: [fs.c]; [Txn] is
      the state of the file system in the middle of a transaction.
    - [Mkfs], [MkfsSpec], [MkfsImage], [MkfsFiles], [MkfsMain], [MkfsClaims]:
      [mkfs.c]; [MkfsImage] is the invariant of the image while [main] runs, and
      [MkfsClaims] reads the image with the functions of [Fs].
    - [Kalloc], [PageTable], [Vm], [VmSpec], [Uvm], [UvmGrow], [UvmCopy],
      [UvmFree], [UvmIo], [Sample], [VmClaims]: [kalloc.c] and [vm.c], on page
      tables kept in byte memory.
    - [Asm], [Trap], [TrapClaims]: [trampoline.S], [swtch.S], [kernelvec.S],
      [entry.S] as lists of instructions, [trap.c], [plic.c], [start.c], [main.c].
    - [Uart], [Console], [Pipe], [PipeSpec], [PipeClaims], [File], [Proc],
      [Exec], [Syscall], [Sysfile], [CoreClaims]: [uart.c], [printf.c],
      [console.c], [pipe.c], [file.c], [proc.c], [exec.c], [syscall.c],
      [sysproc.c], [sysfile.c].
    - [Uprog], [Ulib], [Uos]: user programs as trees of system calls ([usys.pl]),
      the user library ([ulib.c], [printf.c]), and the contract of the system
      calls towards several processes, as a step function.
    - [Umalloc], [UmallocSpec]: the allocator [umalloc.c], on the memory of the
      process.
    - [Usmall], [UsmallSpec], [Grep], [GrepSpec], [Pingpong], [MyShell],
      [MyShellSpec], [MyShellClaims], [Sh], [ShSpec], [ShParse], [ShClaims]: the
      user programs; [Sh] is [sh.c], with a line and its tokens in memory.

    ** How the models correspond to the code

    A function keeps its name; the body of a loop is [f_body], run by [mloop]
    with fuel, or [f_loop] by recursion.  Pointers to the kernel's structures are
    indices of the tables of [kstate]; user and page-table memory is a function
    from addresses to bytes.  Locks are the set of held locks, which
    [Spinlock.spin_refines_sets] ties to the lock words.  [sleep] gives the
    processor away: what others do before it returns is taken from [Env], a
    relation that the theorems assume only keeps what the lock of the sleeper
    protects.

    ** What the theorems show

    - The log: a crash at any point of [commit] leaves the disk with all of the
      transaction or none of it after recovery, and recovery can crash and be
      repeated.
    - The buffer cache refines one cell per block.
    - The disk driver with its device refines a disk whose requests take effect
      one at a time; a descriptor belongs to one request; every request that is
      made ends.  The device is assumed to serve what is in the ring
      ([dev_serves]) and, for the last, to go on working ([dev_works]).
    - Files: [writei] and [readi] round trip through [bmap], [balloc] and the
      bitmap; [iget] keeps one copy of an inode; [dirlookup] and [skipelem] do what
      paths need.
    - [mkfs] makes an image on which the kernel's [readi] returns the bytes of
      every file, [dirlookup] finds every name, and the free map is exact.
    - Virtual memory: [mappages], [uvmalloc], [uvmcopy], [uvmfree] and the
      copies between kernel and user space are correct on the page tables in
      memory, with no leak of pages; [kalloc] and [kfree] refine a set.
    - Locks exclude each other over any number of harts, and interrupts nest.
    - Scheduling: on any number of harts a process runs on one of them at most,
      [sched] never panics, and no wakeup is lost between the test of a condition
      and [sleep].
    - Traps: the trampoline brings back every register; [swtch] resumes; a trap
      in the kernel keeps the interrupted state.
    - Pipes carry the bytes that are written, in order.
    - [malloc] returns a block that overlaps no other and [free] takes it back:
      the heap stays a partition into free and used blocks.
    - [sh]: parsing ends for every line, and a printed tree of commands is parsed
      and run as that tree.
    - User programs: [grep] and its matcher, [wc], [my_shell]'s parser and
      redirections, and [pingpong], which completes on every schedule.

    ** Fuel and bounds

    The fuel of a loop is a bound of its turns computed from its arguments (the
    pages of a range, the blocks of a file, the length of a string), and the
    theorems of kind functional and termination show that it is enough: their
    conclusions are [Ok] outcomes, not implications from one.  Loops that wait
    for another process take a turn for each move of that process; loops of user
    programs that read to the end of a file have the fuel as an argument and the
    theorems a lower bound for it.  The parser of [sh.c] has 4n + 4 turns for a
    line of n bytes, and strings in its memory are below 4096 bytes; [malloc] has
    a turn for each block, and the process stays below 32 GiB, where an [int]
    counts its units.  [mkfs] is shown to finish for fewer than 199 files that fit
    the disk, with names of at most 14 bytes and at most 268 blocks each.

    ** Not modelled

    - Device registers: [uartinit] and the PLIC's and the machine-mode set-up
      beyond the values that they write.
    - The timing of interrupts, and the TLB: a fence has no effect.
    - The file system's proofs take a transfer to be a read or a write of one
      block, which is what [VirtioClaims] shows of the driver; the two are not
      composed into one state.  Of the device only what the driver relies on is
      modelled.
    - The test programs [usertests.c] and [grind.c].
    - [defs.h], the linker scripts and the Makefile contain no code that runs. *)

From Stdlib Require Export ZArith Lia String.
From stdpp Require Export base tactics decidable list numbers gmap.
From Stdlib Require Import FunctionalExtensionality.

#[global] Set Default Goal Selector "!".
#[export] Set Default Proof Using "Type".

Open Scope Z_scope.

(** A closed decidable fact. *)
Ltac by_dec := apply (bool_decide_unpack _); vm_compute; exact I.

(** [lia] knows division and remainder by a constant. *)
Ltac Zify.zify_post_hook ::= Z.to_euclidean_division_equations.

(** ** Machine integers

    A C integer of width [w] is a [Z] kept in range by an explicit
    wrap-around: [u8], [u16], [u32], [u64] for the unsigned types
    ([uchar], [ushort], [uint], [uint64]) and [s16], [s32] for [short] and
    [int].  On RISC-V [char] is unsigned. *)

Definition u8 (x : Z) : Z := x mod 2 ^ 8.
Definition u16 (x : Z) : Z := x mod 2 ^ 16.
Definition u32 (x : Z) : Z := x mod 2 ^ 32.
Definition u64 (x : Z) : Z := x mod 2 ^ 64.

Definition s16 (x : Z) : Z :=
  let y := u16 x in if y <? 2 ^ 15 then y else y - 2 ^ 16.
Definition s32 (x : Z) : Z :=
  let y := u32 x in if y <? 2 ^ 31 then y else y - 2 ^ 32.

Lemma s32_id x : - 2 ^ 31 <= x < 2 ^ 31 -> s32 x = x.
Proof. intros Hx. unfold s32, u32. cbv zeta. destruct (Z.ltb_spec (x mod 2 ^ 32) (2 ^ 31)); lia. Qed.

(** ** Outcomes and the kernel monad

    A kernel routine maps a state to an outcome.  [Panic] is a call of
    [panic()]; [Fault] is an access the C program has no right to make (a
    null pointer, an index outside an array); [Block] is a process that is
    still asleep when the schedule it was given ends; [Hang] is a loop that
    never ends, or a loop whose fuel ran out. *)

Inductive outcome (S A : Type) : Type :=
| Ok (a : A) (s : S)
| Panic (msg : string)
| Fault (msg : string)
| Block (s : S)
| Hang.
Arguments Ok {S A} a s.
Arguments Panic {S A} msg.
Arguments Fault {S A} msg.
Arguments Block {S A} s.
Arguments Hang {S A}.

Definition M (S A : Type) : Type := S -> outcome S A.

Definition ret {S A} (a : A) : M S A := fun s => Ok a s.

Definition bind {S A B} (m : M S A) (f : A -> M S B) : M S B := fun s =>
  match m s with
  | Ok a s' => f a s'
  | Panic msg => Panic msg
  | Fault msg => Fault msg
  | Block s' => Block s'
  | Hang => Hang
  end.

Definition panic {S A} (msg : string) : M S A := fun _ => Panic msg.
Definition fault {S A} (msg : string) : M S A := fun _ => Fault msg.
Definition hang {S A} : M S A := fun _ => Hang.
Definition gets {S A} (f : S -> A) : M S A := fun s => Ok (f s) s.
Definition modify {S} (f : S -> S) : M S unit := fun s => Ok tt (f s).

Declare Scope kern_scope.
Delimit Scope kern_scope with kern.

Notation "'let!' x ':=' m 'in' k" := (bind m (fun x => k))
  (at level 10, x name, m at level 100, k at level 200) : kern_scope.
Notation "'let!' ' x ':=' m 'in' k" := (bind m (fun p => match p with x => k end))
  (at level 10, x pattern, m at level 100, k at level 200) : kern_scope.
Notation "m ;;; k" := (bind m (fun _ => k))
  (at level 199, right associativity) : kern_scope.

Open Scope kern_scope.

(** [if(cond) m], with nothing on the other branch. *)
Definition when {S} (b : bool) (m : M S unit) : M S unit :=
  if b then m else ret tt.

(** [if(cond) panic(msg);] *)
Definition panic_if {S} (b : bool) (msg : string) : M S unit :=
  when b (panic msg).

(** A [for] loop over the elements of a list, with no early exit. *)
Fixpoint mfor {S A} (l : list A) (f : A -> M S unit) : M S unit :=
  match l with
  | [] => ret tt
  | x :: l' => f x ;;; mfor l' f
  end.

(** A [for] loop whose body may leave the loop with a value: [Some r] is a
    [return] or [goto] out of the loop, [None] a normal end of the body. *)
Fixpoint mfind {S A R} (l : list A) (f : A -> M S (option R)) : M S (option R) :=
  match l with
  | [] => ret None
  | x :: l' => let! r := f x in
               match r with Some _ => ret r | None => mfind l' f end
  end.

(** A loop with a state of its own: [inl] goes on, [inr] leaves.  Running
    out of fuel is [Hang], never a result. *)
Fixpoint mloop {S T R} (fuel : nat) (body : T -> M S (T + R)) (t : T) : M S R :=
  match fuel with
  | O => hang
  | Datatypes.S n => let! r := body t in
           match r with inl t' => mloop n body t' | inr r => ret r end
  end.

(** ** Weakest preconditions

    [wp m Q s]: from [s], [m] returns, and what it returns satisfies [Q].
    A panic, a fault, a process left asleep and a hang all fail it. *)

Definition wp {S A} (m : M S A) (Q : A -> S -> Prop) (s : S) : Prop :=
  match m s with Ok a s' => Q a s' | _ => False end.

Section wp.
Context {S : Type}.

Lemma bind_ok {A B} (m : M S A) (f : A -> M S B) s a s' :
  m s = Ok a s' -> bind m f s = f a s'.
Proof. unfold bind. by intros ->. Qed.

Lemma bind_panic {A B} (m : M S A) (f : A -> M S B) s msg :
  m s = Panic msg -> bind m f s = Panic msg.
Proof. unfold bind. by intros ->. Qed.

Lemma bind_assoc {A B C} (m : M S A) (f : A -> M S B) (g : B -> M S C) :
  bind (bind m f) g = bind m (fun x => bind (f x) g).
Proof. extensionality s. unfold bind. by destruct (m s). Qed.

Lemma bind_ret_r {A} (m : M S A) : bind m ret = m.
Proof. extensionality s. unfold bind. by destruct (m s). Qed.

Lemma bind_ret {A B} (a : A) (f : A -> M S B) s : bind (ret a) f s = f a s.
Proof. done. Qed.

Lemma bind_gets {A B} (g : S -> A) (f : A -> M S B) s : bind (gets g) f s = f (g s) s.
Proof. done. Qed.

Lemma bind_modify {B} (g : S -> S) (f : unit -> M S B) s : bind (modify g) f s = f tt (g s).
Proof. done. Qed.

Lemma bind_no_panic {B} msg (f : unit -> M S B) s : bind (panic_if false msg) f s = f tt s.
Proof. done. Qed.

Lemma bind_inv {A B} (m : M S A) (f : A -> M S B) s b s'' :
  bind m f s = Ok b s'' -> exists a s', m s = Ok a s' /\ f a s' = Ok b s''.
Proof. unfold bind. destruct (m s); naive_solver. Qed.

Lemma wp_bind {A B} (m : M S A) (f : A -> M S B) Q s :
  wp m (fun a s' => wp (f a) Q s') s -> wp (bind m f) Q s.
Proof. unfold wp, bind. by destruct (m s). Qed.

Lemma wp_ret {A} (a : A) (Q : A -> S -> Prop) s : Q a s -> wp (ret a) Q s.
Proof. done. Qed.

Lemma wp_gets {A} (f : S -> A) (Q : A -> S -> Prop) s : Q (f s) s -> wp (gets f) Q s.
Proof. done. Qed.

Lemma wp_modify (f : S -> S) (Q : unit -> S -> Prop) s : Q tt (f s) -> wp (modify f) Q s.
Proof. done. Qed.

Lemma wp_mono {A} (m : M S A) (P Q : A -> S -> Prop) s :
  wp m P s -> (forall a s', P a s' -> Q a s') -> wp m Q s.
Proof. unfold wp. destruct (m s); eauto. Qed.

Lemma wp_ok {A} (m : M S A) Q s a s' : m s = Ok a s' -> Q a s' -> wp m Q s.
Proof. unfold wp. by intros ->. Qed.

Lemma wp_elim {A} (m : M S A) Q s :
  wp m Q s -> exists a s', m s = Ok a s' /\ Q a s'.
Proof. unfold wp. destruct (m s); naive_solver. Qed.

Lemma mfor_app {A} (l1 l2 : list A) (f : A -> M S unit) :
  mfor (l1 ++ l2) f = bind (mfor l1 f) (fun _ => mfor l2 f).
Proof.
  induction l1 as [|x l1 IH]; [done|]. cbn [mfor app]. by rewrite bind_assoc, IH.
Qed.

Lemma wp_panic_if b msg (Q : unit -> S -> Prop) s :
  b = false -> Q tt s -> wp (panic_if b msg) Q s.
Proof. by intros ->. Qed.

Lemma mloop_exit {T R} fuel (body : T -> M S (T + R)) t s r s' :
  body t s = Ok (inr r) s' -> mloop (Datatypes.S fuel) body t s = Ok r s'.
Proof. intros H. cbn [mloop]. by rewrite (bind_ok _ _ _ _ _ H). Qed.

Lemma mloop_step {T R} fuel (body : T -> M S (T + R)) t s t' s' :
  body t s = Ok (inl t') s' -> mloop (Datatypes.S fuel) body t s = mloop fuel body t' s'.
Proof. intros H. cbn [mloop]. by rewrite (bind_ok _ _ _ _ _ H). Qed.

(** The loop rule for [mfor]: an invariant indexed by what is left. *)
Lemma wp_mfor {A} (I : list A -> S -> Prop) (f : A -> M S unit) l s :
  I l s ->
  (forall x l' s, I (x :: l') s -> wp (f x) (fun _ s' => I l' s') s) ->
  wp (mfor l f) (fun _ s' => I [] s') s.
Proof.
  intros HI Hstep. revert s HI. induction l as [|x l' IH]; intros s HI; [done|].
  apply wp_bind. eapply wp_mono; [by apply Hstep|]. simpl. auto.
Qed.

(** The same for a counting loop, with the invariant indexed by the counter. *)
Lemma wp_mfor_seqZ (I : nat -> S -> Prop) (f : Z -> M S unit) n s :
  I 0%nat s ->
  (forall i s, (i < n)%nat -> I i s -> wp (f (Z.of_nat i)) (fun _ s' => I (Datatypes.S i) s') s) ->
  wp (mfor (seqZ 0 (Z.of_nat n)) f) (fun _ s' => I n s') s.
Proof.
  intros H0 Hstep. unfold seqZ. rewrite Nat2Z.id.
  assert (forall k, (k <= n)%nat -> wp (mfor ((fun i : nat => Z.of_nat i + 0) <$> seq 0 k) f) (fun _ s' => I k s') s) as H.
  { induction k as [|k IH]; intros Hk; [done|]. rewrite seq_S, fmap_app, mfor_app.
    apply wp_bind. eapply wp_mono; [apply IH; lia|]. intros u s1 Hs1. cbn. apply wp_bind.
    rewrite Z.add_0_r. eapply wp_mono; [apply Hstep; [lia|exact Hs1]|]. intros v s2 Hs2. exact Hs2. }
  by apply H.
Qed.
End wp.

(** Runs the primitive at the head of a sequence; [run H] runs a call by its
    equation [H : m s = Ok a s']. *)
Ltac ksimp :=
  repeat first [rewrite bind_assoc | rewrite bind_ret | rewrite bind_gets | rewrite bind_modify | rewrite bind_no_panic];
  cbv beta.
Tactic Notation "run" uconstr(H) := rewrite ?bind_assoc; rewrite (bind_ok _ _ _ _ _ H); cbv beta; ksimp.

Create HintDb kern discriminated.
Create HintDb kconst.
#[export] Hint Resolve wp_ret wp_gets wp_modify : kern.

(** Turns boolean tests of the code into arithmetic facts. *)
Ltac zbool :=
  repeat match goal with
  | H : (_ =? _) = true |- _ => apply Z.eqb_eq in H
  | H : (_ =? _) = false |- _ => apply Z.eqb_neq in H
  | H : (_ <? _) = true |- _ => apply Z.ltb_lt in H
  | H : (_ <? _) = false |- _ => apply Z.ltb_ge in H
  | H : (_ <=? _) = true |- _ => apply Z.leb_le in H
  | H : (_ <=? _) = false |- _ => apply Z.leb_gt in H
  | H : _ && _ = true |- _ => apply andb_true_iff in H as [? ?]
  | H : _ || _ = false |- _ => apply orb_false_iff in H as [? ?]
  | H : negb _ = true |- _ => apply negb_true_iff in H
  | H : negb _ = false |- _ => apply negb_false_iff in H
  end.

(** Case analysis on the boolean test at the head of the goal. *)
Ltac zcase :=
  match goal with
  | |- context [if ?b then _ else _] => destruct b eqn:?; zbool
  end.

(** Case analysis on every comparison of integers in the goal. *)
Ltac zdec :=
  repeat match goal with
  | |- context [Z.leb ?a ?b] => destruct (Z.leb_spec a b)
  | |- context [Z.ltb ?a ?b] => destruct (Z.ltb_spec a b)
  | |- context [Z.eqb ?a ?b] => destruct (Z.eqb_spec a b)
  end; cbn [andb orb negb].

(** Membership in lists built with [::] and [++]. *)
Ltac elems :=
  repeat (rewrite elem_of_cons || rewrite elem_of_app || rewrite elem_of_nil);
  clear; tauto.

(** ** Lists *)

Lemma alter_insert {A} (f : A -> A) i (l : list A) x : l !! i = Some x -> alter f i l = <[i := f x]> l.
Proof.
  intros H. apply list_eq. intros j. destruct (decide (j = i)) as [->|Hj].
  - rewrite list_lookup_alter_eq, list_lookup_insert_eq, H by (by eapply lookup_lt_Some). done.
  - by rewrite list_lookup_alter_ne, list_lookup_insert_ne.
Qed.

Lemma alter_alter {A} (f g : A -> A) (i : nat) (l : list A) : alter f i (alter g i l) = alter (fun x => f (g x)) i l.
Proof. revert i. induction l as [|x l IH]; intros [|i]; cbn; try done. f_equal. apply IH. Qed.

(** The parts of a list between the occurrences of [c], and those not empty. *)
Fixpoint split_on (c : Z) (l : list Z) : list (list Z) :=
  match l with
  | [] => [[]]
  | x :: l' => if x =? c then [] :: split_on c l'
               else match split_on c l' with w :: ws => (x :: w) :: ws | [] => [[x]] end
  end.
Definition pieces (c : Z) (l : list Z) : list (list Z) := filter (fun w => w <> []) (split_on c l).

Lemma split_on_not_nil c l : exists w ws, split_on c l = w :: ws.
Proof.
  destruct l as [|x l]; cbn; [by eexists _, _|]. destruct (x =? c); [by eexists _, _|].
  destruct (split_on c l); by eexists _, _.
Qed.

Lemma split_on_word c w l : c ∉ w -> exists v vs, split_on c l = v :: vs /\ split_on c (w ++ l) = (w ++ v) :: vs.
Proof.
  intros Hw. destruct (split_on_not_nil c l) as (v & vs & H). exists v, vs. split; [done|].
  induction w as [|x w IH]; [done|]. apply not_elem_of_cons in Hw as [Hx Hw]. cbn. destruct (Z.eqb_spec x c); [done|].
  by rewrite IH.
Qed.

Lemma pieces_sep c l : pieces c (c :: l) = pieces c l.
Proof. unfold pieces. cbn. rewrite Z.eqb_refl. by rewrite filter_cons_False by (by intros ?). Qed.

Lemma pieces_word c w l : w <> [] -> c ∉ w -> pieces c (w ++ c :: l) = w :: pieces c l.
Proof.
  intros Hne Hw. destruct (split_on_word c w (c :: l) Hw) as (v & vs & H1 & H2). unfold pieces. rewrite H2.
  cbn in H1. rewrite Z.eqb_refl in H1. injection H1 as <- <-. rewrite app_nil_r. by rewrite filter_cons_True by done.
Qed.

Lemma pieces_last c w : w <> [] -> c ∉ w -> pieces c w = [w].
Proof.
  intros Hne Hw. destruct (split_on_word c w [] Hw) as (v & vs & H1 & H2). rewrite app_nil_r in H2. unfold pieces. rewrite H2.
  cbn in H1. injection H1 as <- <-. rewrite app_nil_r. by rewrite filter_cons_True by done.
Qed.
