(* ===== verification/Riscv.v ===== *)
(** * Constants and address macros

    [kernel/param.h], [kernel/memlayout.h], the macros at the end of
    [kernel/riscv.h] and the constants of [kernel/fs.h].  Every macro is kept
    in the bit operations the source writes; the lemmas give the arithmetic
    the rest of the development reasons with. *)

From S2P Require Import Prelude.

(** ** param.h *)

Definition NPROC : Z := 64.
Definition NCPU : Z := 8.
Definition NOFILE : Z := 16.
Definition NFILE : Z := 100.
Definition NINODE : Z := 50.
Definition NDEV : Z := 10.
Definition ROOTDEV : Z := 1.
Definition MAXARG : Z := 32.
Definition MAXOPBLOCKS : Z := 10.
Definition LOGSIZE : Z := MAXOPBLOCKS * 3.
Definition NBUF : Z := MAXOPBLOCKS * 3.
Definition FSSIZE : Z := 2000.
Definition MAXPATH : Z := 128.
Definition USERSTACK : Z := 1.

(** ** Page tables (riscv.h) *)

Definition PGSIZE : Z := 4096.
Definition PGSHIFT : Z := 12.

Definition PGROUNDUP (sz : Z) : Z := u64 (Z.land (u64 (sz + PGSIZE - 1)) (Z.lnot (PGSIZE - 1))).
Definition PGROUNDDOWN (a : Z) : Z := u64 (Z.land a (Z.lnot (PGSIZE - 1))).

Definition PTE_V : Z := Z.shiftl 1 0.
Definition PTE_R : Z := Z.shiftl 1 1.
Definition PTE_W : Z := Z.shiftl 1 2.
Definition PTE_X : Z := Z.shiftl 1 3.
Definition PTE_U : Z := Z.shiftl 1 4.

Definition PA2PTE (pa : Z) : Z := u64 (Z.shiftl (Z.shiftr pa 12) 10).
Definition PTE2PA (pte : Z) : Z := u64 (Z.shiftl (Z.shiftr pte 10) 12).
Definition PTE_FLAGS (pte : Z) : Z := Z.land pte 0x3FF.

Definition PXMASK : Z := 0x1FF.
Definition PXSHIFT (level : Z) : Z := PGSHIFT + 9 * level.
Definition PX (level va : Z) : Z := Z.land (Z.shiftr va (PXSHIFT level)) PXMASK.

Definition MAXVA : Z := Z.shiftl 1 (9 + 9 + 9 + 12 - 1).

Definition SATP_SV39 : Z := Z.shiftl 8 60.
Definition MAKE_SATP (pagetable : Z) : Z := Z.lor SATP_SV39 (Z.shiftr pagetable 12).

(** The test [x & flag] of a C condition. *)
Definition has (x flag : Z) : bool := negb (Z.land x flag =? 0).

(** ** memlayout.h *)

Definition UART0 : Z := 0x10000000.
Definition UART0_IRQ : Z := 10.
Definition VIRTIO0 : Z := 0x10001000.
Definition VIRTIO0_IRQ : Z := 1.
Definition PLIC : Z := 0x0c000000.
Definition KERNBASE : Z := 0x80000000.
Definition PHYSTOP : Z := KERNBASE + 128 * 1024 * 1024.
Definition TRAMPOLINE : Z := MAXVA - PGSIZE.
Definition KSTACK (p : Z) : Z := TRAMPOLINE - (p + 1) * 2 * PGSIZE.
Definition TRAPFRAME : Z := TRAMPOLINE - PGSIZE.

#[export] Hint Unfold NPROC NCPU NOFILE NFILE NINODE NDEV ROOTDEV MAXARG MAXOPBLOCKS
  LOGSIZE NBUF FSSIZE MAXPATH USERSTACK PGSIZE PGSHIFT PXMASK KERNBASE PHYSTOP
  UART0 VIRTIO0 PLIC : kconst.

Lemma MAXVA_eq : MAXVA = 2 ^ 38.
Proof. reflexivity. Qed.
Lemma TRAMPOLINE_eq : TRAMPOLINE = 2 ^ 38 - 4096.
Proof. reflexivity. Qed.
Lemma TRAPFRAME_eq : TRAPFRAME = 2 ^ 38 - 8192.
Proof. reflexivity. Qed.

(** [lia] after unfolding the constants of the headers. *)
Ltac klia :=
  rewrite ?MAXVA_eq, ?TRAMPOLINE_eq, ?TRAPFRAME_eq in *;
  autounfold with kconst in *; unfold u8, u16, u32, u64 in *; lia.

(** ** Arithmetic of the macros *)

Lemma land_lnot_ones x n : 0 <= n -> Z.land x (Z.lnot (Z.ones n)) = x / 2 ^ n * 2 ^ n.
Proof.
  intros Hn. rewrite <- Z.ldiff_land, Z.ldiff_ones_r by done.
  by rewrite Z.shiftl_mul_pow2, Z.shiftr_div_pow2 by done.
Qed.

Lemma land_shiftl_small a b n : 0 <= n -> 0 <= b < 2 ^ n -> Z.land (Z.shiftl a n) b = 0.
Proof.
  intros Hn Hb. apply Z.bits_inj'. intros i Hi.
  rewrite Z.land_spec, Z.bits_0, Z.shiftl_spec by done.
  destruct (Z.lt_ge_cases i n).
  - by rewrite Z.testbit_neg_r by lia.
  - rewrite <- (Z.mod_small b (2 ^ n)) by done.
    by rewrite Z.mod_pow2_bits_high, andb_false_r by lia.
Qed.

Lemma lor_shiftl_add a b n :
  0 <= n -> 0 <= b < 2 ^ n -> Z.lor (Z.shiftl a n) b = a * 2 ^ n + b.
Proof.
  intros Hn Hb. pose proof (land_shiftl_small a b n Hn Hb).
  rewrite <- Z.lxor_lor, <- Z.add_nocarry_lxor by done.
  by rewrite Z.shiftl_mul_pow2.
Qed.

Lemma PGROUNDDOWN_eq a : 0 <= a < 2 ^ 64 -> PGROUNDDOWN a = a / 4096 * 4096.
Proof.
  intros Ha. unfold PGROUNDDOWN.
  change (PGSIZE - 1) with (Z.ones 12). rewrite land_lnot_ones by lia.
  change (2 ^ 12) with 4096. apply Z.mod_small. lia.
Qed.

Lemma PGROUNDUP_eq sz : 0 <= sz <= 2 ^ 64 - 4096 -> PGROUNDUP sz = (sz + 4095) / 4096 * 4096.
Proof.
  intros Hs. unfold PGROUNDUP.
  change (PGSIZE - 1) with (Z.ones 12). rewrite land_lnot_ones by lia.
  change (2 ^ 12) with 4096. unfold PGSIZE, u64.
  rewrite (Z.mod_small (sz + 4096 - 1)) by lia.
  replace (sz + 4096 - 1) with (sz + 4095) by lia. apply Z.mod_small. lia.
Qed.

Lemma PX_eq level va : 0 <= level -> PX level va = va / 2 ^ (12 + 9 * level) mod 512.
Proof.
  intros. unfold PX, PXSHIFT, PGSHIFT, PXMASK. change 511 with (Z.ones 9).
  by rewrite Z.land_ones, Z.shiftr_div_pow2 by lia.
Qed.

Lemma PX_range level va : 0 <= level -> 0 <= PX level va < 512.
Proof. intros. rewrite PX_eq by done. by apply Z.mod_pos_bound. Qed.

(** The three 9-bit indices and the offset rebuild a 39-bit address. *)
Lemma PX_split va : 0 <= va < 2 ^ 39 ->
  va = PX 2 va * 2 ^ 30 + PX 1 va * 2 ^ 21 + PX 0 va * 2 ^ 12 + va mod 4096.
Proof.
  intros Hva. rewrite !PX_eq by lia.
  change (12 + 9 * 2) with 30. change (12 + 9 * 1) with 21. change (12 + 9 * 0) with 12.
  lia.
Qed.

Lemma PX_inj va va' :
  0 <= va < 2 ^ 39 -> 0 <= va' < 2 ^ 39 ->
  PX 2 va = PX 2 va' -> PX 1 va = PX 1 va' -> PX 0 va = PX 0 va' ->
  va / 4096 = va' / 4096.
Proof.
  intros H H' E2 E1 E0.
  pose proof (PX_split va H) as Es. pose proof (PX_split va' H') as Es'.
  rewrite E2, E1, E0 in Es. lia.
Qed.

(** Indices only depend on the page of an address. *)
Lemma PX_page level va va' :
  0 <= level -> va / 4096 = va' / 4096 -> PX level va = PX level va'.
Proof.
  intros Hl E. rewrite !PX_eq by done. f_equal.
  rewrite Z.pow_add_r by lia. change (2 ^ 12) with 4096.
  rewrite <- !Z.div_div by lia. by rewrite E.
Qed.

(** Physical addresses a page-table entry can hold. *)
Definition page_addr (pa : Z) : Prop := pa mod 4096 = 0 /\ 0 <= pa < 2 ^ 56.

Lemma PA2PTE_eq pa : page_addr pa -> PA2PTE pa = pa / 4.
Proof.
  intros [Hm Hb]. unfold PA2PTE, u64.
  rewrite Z.shiftl_mul_pow2, Z.shiftr_div_pow2 by lia.
  change (2 ^ 10) with 1024. change (2 ^ 12) with 4096. rewrite Z.mod_small; lia.
Qed.

Lemma pte_lor_eq pa f : page_addr pa -> 0 <= f < 1024 -> Z.lor (PA2PTE pa) f = pa / 4 + f.
Proof.
  intros Hpa Hf. pose proof Hpa as [Hm Hb].
  rewrite PA2PTE_eq by done.
  replace (pa / 4) with (Z.shiftl (pa / 4096) 10) at 1
    by (rewrite Z.shiftl_mul_pow2 by lia; change (2 ^ 10) with 1024; lia).
  rewrite lor_shiftl_add by (change (2 ^ 10) with 1024; lia).
  change (2 ^ 10) with 1024. lia.
Qed.

Lemma PTE2PA_lor pa f : page_addr pa -> 0 <= f < 1024 -> PTE2PA (Z.lor (PA2PTE pa) f) = pa.
Proof.
  intros Hpa Hf. pose proof Hpa as [Hm Hb]. rewrite pte_lor_eq by done.
  unfold PTE2PA, u64. rewrite Z.shiftl_mul_pow2, Z.shiftr_div_pow2 by lia.
  change (2 ^ 10) with 1024. change (2 ^ 12) with 4096. rewrite Z.mod_small; lia.
Qed.

Lemma PTE_FLAGS_lor pa f : page_addr pa -> 0 <= f < 1024 -> PTE_FLAGS (Z.lor (PA2PTE pa) f) = f.
Proof.
  intros Hpa Hf. pose proof Hpa as [Hm Hb]. rewrite pte_lor_eq by done.
  unfold PTE_FLAGS. change 1023 with (Z.ones 10). rewrite Z.land_ones by lia.
  change (2 ^ 10) with 1024. lia.
Qed.

Lemma PTE2PA_0 : PTE2PA 0 = 0.
Proof. reflexivity. Qed.

Lemma PTE2PA_aligned pte : PTE2PA pte mod 4096 = 0.
Proof.
  unfold PTE2PA, u64. rewrite Z.shiftl_mul_pow2 by lia. change (2 ^ 12) with 4096.
  change (2 ^ 64) with (4096 * 2 ^ 52).
  rewrite (Z.mul_comm _ 4096), Z.mul_mod_distr_l by lia.
  rewrite Z.mul_comm. apply Z.mod_mul. lia.
Qed.

(** A flag of a page-table entry is a flag of its low ten bits. *)
Lemma has_flag_lor pa f b :
  page_addr pa -> 0 <= f < 1024 -> 0 <= b < 1024 -> has (Z.lor (PA2PTE pa) f) b = has f b.
Proof.
  intros Hpa Hf Hb. pose proof Hpa as [Hm Hb']. unfold has. f_equal. f_equal.
  rewrite PA2PTE_eq by done.
  replace (pa / 4) with (Z.shiftl (pa / 4096) 10)
    by (rewrite Z.shiftl_mul_pow2 by lia; change (2 ^ 10) with 1024; lia).
  rewrite Z.land_lor_distr_l, land_shiftl_small, Z.lor_0_l by (try lia; change (2 ^ 10) with 1024; lia).
  done.
Qed.

Lemma has_0 b : has 0 b = false.
Proof. done. Qed.
