(* ===== verification/Mem.v ===== *)
(** * Physical memory

    RAM as the kernel sees it through its direct map: a byte at every
    address.  Words are little-endian, as on RISC-V.  A multi-byte store is
    one update of the function, so a state stays cheap to evaluate. *)

From S2P Require Import Prelude.

Definition mem : Type := Z -> Z.

Definition load8 (m : mem) (a : Z) : Z := u8 (m a).
Definition store8 (m : mem) (a v : Z) : mem := fun x => if x =? a then u8 v else m x.

(** Little-endian load and store of [n] bytes. *)
Fixpoint loadn (n : nat) (m : mem) (a : Z) : Z :=
  match n with
  | O => 0
  | S n' => load8 m a + 256 * loadn n' m (a + 1)
  end.

Definition storen (n : nat) (m : mem) (a v : Z) : mem := fun x =>
  if (a <=? x) && (x <? a + Z.of_nat n) then u8 (Z.shiftr v (8 * (x - a))) else m x.

Definition load32 := loadn 4.
Definition load64 := loadn 8.
Definition store32 := storen 4.
Definition store64 := storen 8.

(** A run of bytes, as a list. *)
Definition load_bytes (m : mem) (a : Z) (n : nat) : list Z :=
  map (fun i => load8 m (a + Z.of_nat i)) (seq 0 n).

Definition store_bytes (m : mem) (a : Z) (bs : list Z) : mem := fun x =>
  if (a <=? x) && (x <? a + Z.of_nat (length bs))
  then u8 (nth (Z.to_nat (x - a)) bs 0) else m x.

Lemma u8_range x : 0 <= u8 x < 256.
Proof. unfold u8. lia. Qed.
Lemma u8_small x : 0 <= x < 256 -> u8 x = x.
Proof. unfold u8. lia. Qed.
Lemma u8_u8 x : u8 (u8 x) = u8 x.
Proof. unfold u8. lia. Qed.

Lemma load8_range m a : 0 <= load8 m a < 256.
Proof. apply u8_range. Qed.

Lemma load8_store8 m a v x : load8 (store8 m a v) x = if x =? a then u8 v else load8 m x.
Proof. unfold load8, store8. zcase; [apply u8_u8|done]. Qed.

Lemma load8_storen n m a v x :
  load8 (storen n m a v) x =
    if (a <=? x) && (x <? a + Z.of_nat n) then u8 (Z.shiftr v (8 * (x - a))) else load8 m x.
Proof. unfold load8, storen. by destruct (_ && _); rewrite ?u8_u8. Qed.

Lemma load8_store_bytes m a bs x :
  load8 (store_bytes m a bs) x =
    if (a <=? x) && (x <? a + Z.of_nat (length bs))
    then u8 (nth (Z.to_nat (x - a)) bs 0) else load8 m x.
Proof. unfold load8, store_bytes. by destruct (_ && _); rewrite ?u8_u8. Qed.

Lemma load8_storen_out n m a v x :
  x < a \/ a + Z.of_nat n <= x -> load8 (storen n m a v) x = load8 m x.
Proof. intros H. rewrite load8_storen. zdec; lia. Qed.

(** A load depends on the bytes it reads, and on nothing else. *)
Lemma loadn_ext n m m' a :
  (forall x, a <= x < a + Z.of_nat n -> load8 m x = load8 m' x) -> loadn n m a = loadn n m' a.
Proof.
  revert a. induction n as [|n IH]; intros a H; [done|]. cbn [loadn].
  rewrite (H a) by lia. f_equal. f_equal. apply IH. intros x Hx. apply H. lia.
Qed.

Lemma loadn_range n m a : 0 <= loadn n m a < 256 ^ Z.of_nat n.
Proof.
  revert a. induction n as [|n IH]; intros a; [done|]. cbn [loadn].
  pose proof (load8_range m a). pose proof (IH (a + 1)).
  rewrite Nat2Z.inj_succ, Z.pow_succ_r by lia. lia.
Qed.

Lemma load64_range m a : 0 <= load64 m a < 2 ^ 64.
Proof. apply (loadn_range 8). Qed.
Lemma load32_range m a : 0 <= load32 m a < 2 ^ 32.
Proof. apply (loadn_range 4). Qed.

(** The bytes of a store are the base-256 digits of the value. *)
Lemma loadn_digits n m a v :
  (forall i, 0 <= i < Z.of_nat n -> load8 m (a + i) = u8 (Z.shiftr v (8 * i))) ->
  loadn n m a = v mod 256 ^ Z.of_nat n.
Proof.
  revert a v. induction n as [|n IH]; intros a v H.
  - change (256 ^ Z.of_nat 0) with 1. by rewrite Z.mod_1_r.
  - cbn [loadn]. pose proof (H 0 ltac:(lia)) as H0. rewrite Z.add_0_r, Z.shiftr_0_r in H0.
    rewrite H0. rewrite (IH (a + 1) (Z.shiftr v 8)).
    + rewrite Z.shiftr_div_pow2 by lia. unfold u8. change (2 ^ 8) with 256.
      rewrite Nat2Z.inj_succ, Z.pow_succ_r by lia.
      rewrite Z.rem_mul_r by lia. done.
    + intros i Hi. replace (a + 1 + i) with (a + (i + 1)) by lia.
      rewrite H by lia. rewrite Z.shiftr_shiftr by lia. do 2 f_equal. lia.
Qed.

Lemma loadn_storen_same n m a v : loadn n (storen n m a v) a = v mod 256 ^ Z.of_nat n.
Proof.
  apply loadn_digits. intros i Hi. rewrite load8_storen.
  zdec; try lia. by replace (a + i - a) with i by lia.
Qed.

Lemma loadn_storen_out n k m a b v :
  a + Z.of_nat n <= b \/ b + Z.of_nat k <= a -> loadn n (storen k m b v) a = loadn n m a.
Proof. intros H. apply loadn_ext. intros x Hx. apply load8_storen_out. lia. Qed.

Lemma load64_store64_same m a v : 0 <= v < 2 ^ 64 -> load64 (store64 m a v) a = v.
Proof.
  intros. unfold load64, store64. rewrite loadn_storen_same.
  change (256 ^ Z.of_nat 8) with (2 ^ 64). by apply Z.mod_small.
Qed.

Lemma load64_store64_out m a b v :
  a + 8 <= b \/ b + 8 <= a -> load64 (store64 m b v) a = load64 m a.
Proof. apply (loadn_storen_out 8 8). Qed.

Lemma load8_store64_out m a v x :
  x < a \/ a + 8 <= x -> load8 (store64 m a v) x = load8 m x.
Proof. apply (load8_storen_out 8). Qed.

(** Two distinct 8-aligned words do not overlap. *)
Lemma load64_store64_aligned m a b v :
  a mod 8 = 0 -> b mod 8 = 0 -> 0 <= v < 2 ^ 64 ->
  load64 (store64 m b v) a = if a =? b then v else load64 m a.
Proof.
  intros Ha Hb Hv. zcase; [subst; by apply load64_store64_same|].
  apply load64_store64_out. lia.
Qed.

Lemma load_bytes_length m a n : length (load_bytes m a n) = n.
Proof. unfold load_bytes. by rewrite length_map, length_seq. Qed.

Lemma load_bytes_nth m a n i d :
  (i < n)%nat -> nth i (load_bytes m a n) d = load8 m (a + Z.of_nat i).
Proof.
  intros H. unfold load_bytes.
  rewrite (nth_indep _ d (load8 m (a + Z.of_nat 0))) by (rewrite length_map, length_seq; lia).
  rewrite (map_nth (fun i => load8 m (a + Z.of_nat i))), seq_nth by done. done.
Qed.

Lemma load_bytes_ext m m' a a' n :
  (forall i, 0 <= i < Z.of_nat n -> load8 m (a + i) = load8 m' (a' + i)) ->
  load_bytes m a n = load_bytes m' a' n.
Proof.
  intros H. unfold load_bytes. apply map_ext_in. intros i Hi%in_seq. apply H. lia.
Qed.

Lemma load_bytes_S m a n : load_bytes m a (S n) = load8 m a :: load_bytes m (a + 1) n.
Proof.
  unfold load_bytes. cbn [seq map]. rewrite Z.add_0_r. f_equal.
  rewrite <- seq_shift, map_map. apply map_ext. intros i. f_equal. lia.
Qed.

Lemma load_bytes_app m a n k :
  load_bytes m a (n + k) = load_bytes m a n ++ load_bytes m (a + Z.of_nat n) k.
Proof.
  revert a. induction n as [|n IH]; intros a.
  - simpl. by rewrite Z.add_0_r.
  - cbn [Nat.add]. rewrite !load_bytes_S, IH. simpl. do 3 f_equal. lia.
Qed.

(** Bytes that a store put there are the bytes read back. *)
Lemma load_store_bytes m a bs :
  Forall (fun b => 0 <= b < 256) bs -> load_bytes (store_bytes m a bs) a (length bs) = bs.
Proof.
  intros Hbs. apply (nth_ext _ _ 0 0); [by rewrite load_bytes_length|].
  intros i Hi. rewrite load_bytes_length in Hi.
  rewrite load_bytes_nth by done. rewrite load8_store_bytes.
  zdec; try lia. replace (Z.to_nat (a + Z.of_nat i - a)) with i by lia.
  apply u8_small. rewrite List.Forall_forall in Hbs. by apply Hbs, nth_In.
Qed.

#[global] Arguments loadn : simpl never.
#[global] Arguments storen : simpl never.
#[global] Arguments load32 : simpl never.
#[global] Arguments load64 : simpl never.
#[global] Arguments store32 : simpl never.
#[global] Arguments store64 : simpl never.
#[global] Arguments load_bytes : simpl never.
#[global] Arguments store_bytes : simpl never.
