(* ===== verification/Cstring.v ===== *)
(** * kernel/string.c

    Byte-wise routines on memory, loop by loop.  A routine that only reads
    through a pointer takes the pointer as a reader, [p i] being the byte at
    [p + i]; [at_mem m a] is the reader of address [a]. *)

From S2P Require Import Prelude Mem.

Definition cptr : Type := Z -> Z.
Definition at_mem (m : mem) (a : Z) : cptr := fun i => load8 m (a + i).

(** The reader of an array given as a list of bytes. *)
Definition at_list (l : list Z) : cptr := fun i => u8 (nth (Z.to_nat i) l 0).

(** A string literal. *)
Definition str_bytes (s : string) : list Z :=
  map (fun c => Z.of_N (Ascii.N_of_ascii c)) (list_ascii_of_string s).

(** The arguments of [printf] after the format, and what it prints for a null
    string. *)
Inductive parg : Type := Num (z : Z) | Str (s : option (list Z)).
Definition null_str : list Z := str_bytes "(null)".

(** [for(i = 0; i < n; i++) cdst[i] = c;] *)
Fixpoint memset_loop (k : nat) (m : mem) (dst c i : Z) : mem :=
  match k with
  | O => m
  | S k' => memset_loop k' (store8 m (dst + i) c) dst c (i + 1)
  end.

Definition memset (m : mem) (dst c n : Z) : mem := memset_loop (Z.to_nat n) m dst c 0.

(** The loop stops at the first pair of bytes that differ. *)
Fixpoint memcmp_loop (k : nat) (s1 s2 : cptr) (i : Z) : Z :=
  match k with
  | O => 0
  | S k' => if negb (s1 i =? s2 i) then s1 i - s2 i else memcmp_loop k' s1 s2 (i + 1)
  end.

Definition memcmp (v1 v2 : cptr) (n : Z) : Z := memcmp_loop (Z.to_nat n) v1 v2 0.

(** Copy from the last byte down to the first. *)
Fixpoint copy_down (k : nat) (m : mem) (d s : Z) : mem :=
  match k with
  | O => m
  | S k' => let d := d - 1 in let s := s - 1 in
            copy_down k' (store8 m d (load8 m s)) d s
  end.

(** Copy from the first byte up to the last. *)
Fixpoint copy_up (k : nat) (m : mem) (d s : Z) : mem :=
  match k with
  | O => m
  | S k' => copy_up k' (store8 m d (load8 m s)) (d + 1) (s + 1)
  end.

Definition memmove (m : mem) (dst src n : Z) : mem :=
  if n =? 0 then m
  else if (src <? dst) && (dst <? src + n)
  then copy_down (Z.to_nat n) m (dst + n) (src + n)
  else copy_up (Z.to_nat n) m dst src.

Definition memcpy (m : mem) (dst src n : Z) : mem := memmove m dst src n.

(** Skip equal bytes up to [n] of them or to a NUL, then compare. *)
Fixpoint strncmp_loop (k : nat) (p q : cptr) (i : Z) : Z :=
  match k with
  | O => 0
  | S k' => if negb (p i =? 0) && (p i =? q i) then strncmp_loop k' p q (i + 1)
            else p i - q i
  end.

Definition strncmp (p q : cptr) (n : Z) : Z := strncmp_loop (Z.to_nat n) p q 0.

(** The two loops of [strncpy]: copy until the NUL, then pad with NULs. *)
Fixpoint strncpy_loop (k : nat) (m : mem) (s : Z) (t : cptr) (i : Z) : mem :=
  match k with
  | O => m
  | S k' => let m := store8 m (s + i) (t i) in
            if negb (t i =? 0) then strncpy_loop k' m s t (i + 1)
            else memset_loop k' m s 0 (i + 1)
  end.

Definition strncpy (m : mem) (s : Z) (t : cptr) (n : Z) : mem :=
  strncpy_loop (Z.to_nat n) m s t 0.

(** Copy at most [n - 1] bytes, stop after a NUL, then write one NUL more. *)
Fixpoint safestrcpy_loop (k : nat) (m : mem) (s : Z) (t : cptr) (i : Z) : mem :=
  match k with
  | O => store8 m (s + i) 0
  | S k' => let m := store8 m (s + i) (t i) in
            if negb (t i =? 0) then safestrcpy_loop k' m s t (i + 1)
            else store8 m (s + (i + 1)) 0
  end.

Definition safestrcpy (m : mem) (s : Z) (t : cptr) (n : Z) : mem :=
  if n <=? 0 then m else safestrcpy_loop (Z.to_nat (n - 1)) m s t 0.

(** [for(n = 0; s[n]; n++) ;] ends at the first NUL; without one within the
    fuel there is no result. *)
Fixpoint strlen_loop (fuel : nat) (s : cptr) (n : Z) : option Z :=
  match fuel with
  | O => None
  | S f => if s n =? 0 then Some n else strlen_loop f s (n + 1)
  end.

Definition strlen (fuel : nat) (s : cptr) : option Z := strlen_loop fuel s 0.

(** ** What the routines do *)

Lemma load8_memset_loop k m dst c i x :
  load8 (memset_loop k m dst c i) x =
    if (dst + i <=? x) && (x <? dst + i + Z.of_nat k) then u8 c else load8 m x.
Proof.
  revert m i. induction k as [|k IH]; intros m i; cbn [memset_loop].
  - zdec; try lia; done.
  - rewrite IH, load8_store8. zdec; try lia; done.
Qed.

Lemma load8_memset m dst c n x :
  load8 (memset m dst c n) x = if (dst <=? x) && (x <? dst + n) then u8 c else load8 m x.
Proof. unfold memset. rewrite load8_memset_loop. zdec; try lia; done. Qed.

Lemma load64_memset_out m dst c n a :
  a + 8 <= dst \/ dst + n <= a -> load64 (memset m dst c n) a = load64 m a.
Proof. intros H. apply loadn_ext. intros x Hx. rewrite load8_memset. zdec; lia. Qed.

Lemma load64_memset_0 m dst n a :
  dst <= a -> a + 8 <= dst + n -> load64 (memset m dst 0 n) a = 0.
Proof.
  intros H1 H2. unfold load64. rewrite (loadn_digits 8 _ a 0); [done|].
  intros i Hi. rewrite load8_memset, Z.shiftr_0_l. zdec; try lia; done.
Qed.

Lemma load8_copy_up k m d s x :
  (d <= s \/ s + Z.of_nat k <= d) ->
  load8 (copy_up k m d s) x =
    if (d <=? x) && (x <? d + Z.of_nat k) then load8 m (s + (x - d)) else load8 m x.
Proof.
  revert m d s. induction k as [|k IH]; intros m d s H; cbn [copy_up].
  - zdec; try lia; done.
  - rewrite IH by lia. rewrite !load8_store8, (u8_small (load8 m s)) by apply load8_range.
    zdec; subst; try lia; f_equal; lia.
Qed.

Lemma load8_copy_down k m d s x :
  s <= d \/ d <= s - Z.of_nat k ->
  load8 (copy_down k m d s) x =
    if (d - Z.of_nat k <=? x) && (x <? d) then load8 m (s - (d - x)) else load8 m x.
Proof.
  revert m d s. induction k as [|k IH]; intros m d s H; cbn [copy_down].
  - zdec; try lia; done.
  - rewrite IH by lia. rewrite !load8_store8, (u8_small (load8 m (s - 1))) by apply load8_range.
    zdec; subst; try lia; f_equal; lia.
Qed.

(** [memmove] copies as if through a temporary buffer, overlap or not. *)
Lemma load8_memmove m dst src n x : 0 <= n ->
  load8 (memmove m dst src n) x =
    if (dst <=? x) && (x <? dst + n) then load8 m (src + (x - dst)) else load8 m x.
Proof.
  intros Hn. unfold memmove. destruct (Z.eqb_spec n 0) as [->|].
  - zdec; try lia; done.
  - destruct (Z.ltb_spec src dst); destruct (Z.ltb_spec dst (src + n)); cbn [andb];
      (rewrite load8_copy_down || rewrite load8_copy_up); try lia; zdec; try lia; f_equal; lia.
Qed.

(** The number of bytes before the first NUL among the first [k] bytes. *)
Fixpoint cut (k : nat) (t : cptr) (i : Z) : Z :=
  match k with
  | O => i
  | S k' => if t i =? 0 then i else cut k' t (i + 1)
  end.

Lemma cut_bounds k t i : i <= cut k t i <= i + Z.of_nat k.
Proof. revert i. induction k as [|k IH]; intros i; cbn [cut]; [lia|]. zcase; [lia|]. specialize (IH (i + 1)). lia. Qed.

Lemma cut_nonzero k t i j : i <= j < cut k t i -> t j <> 0.
Proof.
  revert i. induction k as [|k IH]; intros i; cbn [cut]; [lia|]. zcase; [lia|].
  intros Hj. destruct (decide (i = j)) as [<-|]; [done|]. apply (IH (i + 1)). lia.
Qed.

Lemma cut_end k t i : cut k t i < i + Z.of_nat k -> t (cut k t i) = 0.
Proof.
  revert i. induction k as [|k IH]; intros i; cbn [cut]; [lia|]. zcase; [done|].
  intros H. apply IH. lia.
Qed.

Lemma strlen_loop_some f s n r :
  strlen_loop f s n = Some r <-> r = cut f s n /\ cut f s n < n + Z.of_nat f.
Proof.
  revert n. induction f as [|f IH]; intros n; cbn [strlen_loop cut]; [split; [done|lia]|].
  zcase; [|rewrite IH; split; intros [? ?]; split; lia].
  split; [intros [= <-]; split; lia|]. by intros [-> _].
Qed.

(** [strlen] ends at the first NUL as soon as the fuel reaches it. *)
Lemma strlen_first_nul fuel s n :
  0 <= n < Z.of_nat fuel -> (forall i, 0 <= i < n -> s i <> 0) -> s n = 0 ->
  strlen fuel s = Some n.
Proof.
  intros Hn Hpre Hnul. apply strlen_loop_some.
  pose proof (cut_bounds fuel s 0) as Hb.
  assert (cut fuel s 0 = n) as ->; [|lia].
  destruct (Z.lt_trichotomy (cut fuel s 0) n) as [H|[H|H]]; [|done|].
  - exfalso. apply (Hpre (cut fuel s 0)); [lia|]. apply cut_end. lia.
  - exfalso. by apply (cut_nonzero fuel s 0 n); [lia|].
Qed.

Lemma strncmp_loop_zero k p q i :
  strncmp_loop k p q i = 0 <->
  (forall j, i <= j < i + Z.of_nat k -> (forall l, i <= l < j -> p l <> 0) -> p j = q j).
Proof.
  revert i. induction k as [|k IH]; intros i; cbn [strncmp_loop].
  - split; [intros; lia|done].
  - destruct (Z.eqb_spec (p i) 0) as [Hz|Hz]; cbn [negb andb].
    + split.
      * intros He j Hj Hall. destruct (decide (j = i)) as [->|]; [lia|].
        exfalso. apply (Hall i); [lia|done].
      * intros H. pose proof (H i ltac:(lia) ltac:(intros; lia)). lia.
    + destruct (Z.eqb_spec (p i) (q i)) as [He|He].
      * rewrite IH. split; intros H j Hj Hall.
        -- destruct (decide (j = i)) as [->|]; [done|]. apply H; [lia|].
           intros l Hl. apply Hall. lia.
        -- apply H; [lia|]. intros l Hl. destruct (decide (l = i)) as [->|]; [done|].
           apply Hall. lia.
      * split; [intros; lia|]. intros H. pose proof (H i ltac:(lia) ltac:(intros; lia)). lia.
Qed.

Lemma load8_safestrcpy_loop k m s t i x :
  load8 (safestrcpy_loop k m s t i) x =
    let e := s + cut k t i in
    if (s + i <=? x) && (x <? e) then u8 (t (x - s))
    else if (x =? e) || ((x =? e + 1) && (cut k t i <? i + Z.of_nat k)) then 0
    else load8 m x.
Proof.
  revert m i. induction k as [|k IH]; intros m i; cbn [safestrcpy_loop cut].
  - cbn zeta. rewrite load8_store8. zdec; try lia; done.
  - destruct (Z.eqb_spec (t i) 0) as [Hz|Hz]; cbn [negb]; cbn zeta.
    + rewrite !load8_store8, Hz. zdec; try lia; done.
    + rewrite IH. cbn zeta. pose proof (cut_bounds k t (i + 1)). rewrite load8_store8.
      zdec; subst; try lia; try done; by replace (s + i - s) with i by lia.
Qed.

(** ** Properties *)

(** [memmove] leaves in the destination the bytes the source held before
    the call, and changes nothing else, whatever the overlap. *)
Theorem memmove_correct m dst src n : 0 <= n ->
  (forall i, 0 <= i < n -> load8 (memmove m dst src n) (dst + i) = load8 m (src + i)) /\
  (forall x, x < dst \/ dst + n <= x -> load8 (memmove m dst src n) x = load8 m x).
Proof.
  intros Hn. split.
  - intros i Hi. rewrite load8_memmove by done. zdec; try lia. f_equal. lia.
  - intros x Hx. rewrite load8_memmove by done. zdec; lia.
Qed.

(** C40: [safestrcpy] writes the longest prefix of the source without a NUL
    that leaves room for the terminator, terminates it, and stays within the
    [n] bytes of the destination. *)
Theorem safestrcpy_terminates m s t n : 0 < n -> (forall i, 0 <= t i < 256) ->
  let k := cut (Z.to_nat (n - 1)) t 0 in
  let m' := safestrcpy m s t n in
  0 <= k < n /\ load8 m' (s + k) = 0 /\
  (forall i, 0 <= i < k -> load8 m' (s + i) = t i /\ t i <> 0) /\
  (forall x, x < s \/ s + n <= x -> load8 m' x = load8 m x).
Proof.
  intros Hn Ht k m'. pose proof (cut_bounds (Z.to_nat (n - 1)) t 0) as Hb.
  assert (forall x, load8 m' x = load8 (safestrcpy_loop (Z.to_nat (n - 1)) m s t 0) x) as E.
  { intros x. unfold m', safestrcpy. zcase; [lia|done]. }
  subst k. split; [lia|]. split; [|split].
  - rewrite E, load8_safestrcpy_loop. cbn zeta. zdec; try lia; done.
  - intros i Hi. split; [|by apply (cut_nonzero (Z.to_nat (n - 1)) t 0)].
    rewrite E, load8_safestrcpy_loop. cbn zeta.
    zdec; try lia; replace (s + i - s) with i by lia; by apply u8_small.
  - intros x Hx. rewrite E, load8_safestrcpy_loop. cbn zeta. zdec; try lia; done.
Qed.

(** [strncmp] is zero exactly when the two strings agree up to their NUL
    or up to [n] bytes. *)
Theorem strncmp_zero_iff p q n :
  strncmp p q n = 0 <->
  (forall j, 0 <= j < n -> (forall l, 0 <= l < j -> p l <> 0) -> p j = q j).
Proof.
  unfold strncmp. rewrite strncmp_loop_zero. split; intros H j Hj; apply H; lia.
Qed.

#[global] Arguments memset : simpl never.
#[global] Arguments memmove : simpl never.

(** A source that overlaps its destination by two bytes. *)
Lemma memmove_witness :
  let m := fun a => a in
  (forall i, 0 <= i < 4 -> load8 (memmove m 12 10 4) (12 + i) = load8 m (10 + i)) /\
  (forall x, x < 12 \/ 12 + 4 <= x -> load8 (memmove m 12 10 4) x = load8 m x).
Proof. intros m. apply (memmove_correct m 12 10 4). lia. Defined.

(** A name of twenty letters into an array of sixteen bytes. *)
Lemma safestrcpy_witness :
  let t := fun i => if (0 <=? i) && (i <? 20) then 97 else 0 in
  let k := cut (Z.to_nat (16 - 1)) t 0 in
  let m' := safestrcpy (fun _ => 0) 4096 t 16 in
  0 <= k < 16 /\ load8 m' (4096 + k) = 0 /\
  (forall i, 0 <= i < k -> load8 m' (4096 + i) = t i /\ t i <> 0) /\
  (forall x, x < 4096 \/ 4096 + 16 <= x -> load8 m' x = load8 (fun _ => 0) x).
Proof.
  intros t. apply (safestrcpy_terminates (fun _ => 0) 4096 t 16); [lia|].
  intros i. unfold t. destruct ((0 <=? i) && (i <? 20)); lia.
Defined.
