(* ===== verification/State.v ===== *)
(** * The kernel's state

    The structures of [proc.h], [sleeplock.h], [file.h], [buf.h], [fs.h],
    [log.c], [pipe.c], [console.c] and [uart.c], and one record [kstate] of all
    the kernel's global variables.  A pointer to an element of a table is its
    index, a pointer to a [kalloc]ed page is the page's address, and a null
    pointer is [None] or [0].  [set_f v x] is the record [x] with field [f]
    replaced. *)

From S2P Require Import Prelude Riscv Mem.

(** ** Locks and channels *)

(** The spin locks of the kernel, by the variable that holds them. *)
Inductive lockid : Type :=
| Lkmem | Lpid | Lwait | Lproc (i : nat) | Lbcache | Lbuf (i : nat) | Llog
| Litable | Linode (i : nat) | Lftable | Lpipe (a : Z) | Lcons | Luart | Lticks
| Lvdisk | Lpr.

#[export] Instance lockid_eq_dec : EqDecision lockid.
Proof. solve_decision. Defined.

(** What a process can sleep on: the addresses the code passes to [sleep]. *)
Inductive chan : Type :=
| Cnull | Cproc (i : nat) | Cbuflock (i : nat) | Cinodelock (i : nat) | Clog
| Cpiperead (a : Z) | Cpipewrite (a : Z) | Cconsr | Cuarttx | Cticks
| Cdiskfree | Cbuf (i : nat).

#[export] Instance chan_eq_dec : EqDecision chan.
Proof. solve_decision. Defined.

(** [struct sleeplock], less the spin lock inside it, which is a [lockid]. *)
Record sleeplock : Type := mk_sleeplock {
  sl_locked : bool;
  sl_pid : Z
}.

Definition set_sl_locked (v : bool) (l : sleeplock) : sleeplock :=
  {| sl_locked := v; sl_pid := sl_pid l |}.
Definition set_sl_pid (v : Z) (l : sleeplock) : sleeplock :=
  {| sl_locked := sl_locked l; sl_pid := v |}.

(** ** Processes (proc.h) *)

Inductive procstate : Type := UNUSED | USED | SLEEPING | RUNNABLE | RUNNING | ZOMBIE.

#[export] Instance procstate_eq_dec : EqDecision procstate.
Proof. solve_decision. Defined.

(** [struct context]: return address, stack pointer and [s0]..[s11]. *)
Record context : Type := mk_context {
  ctx_ra : Z;
  ctx_sp : Z;
  ctx_s : list Z
}.

Definition set_ctx_ra (v : Z) (c : context) : context :=
  {| ctx_ra := v; ctx_sp := ctx_sp c; ctx_s := ctx_s c |}.
Definition set_ctx_sp (v : Z) (c : context) : context :=
  {| ctx_ra := ctx_ra c; ctx_sp := v; ctx_s := ctx_s c |}.
Definition set_ctx_s (v : list Z) (c : context) : context :=
  {| ctx_ra := ctx_ra c; ctx_sp := ctx_sp c; ctx_s := v |}.

(** [struct proc]; its lock is [Lproc]. *)
Record proc : Type := mk_proc {
  p_state : procstate;
  p_chan : chan;
  p_killed : Z;
  p_xstate : Z;
  p_pid : Z;
  p_parent : option nat;
  p_kstack : Z;
  p_sz : Z;
  p_pagetable : Z;
  p_trapframe : Z;
  p_context : context;
  p_ofile : list (option nat);
  p_cwd : option nat;
  p_name : list Z
}.

Definition set_p_state (v : procstate) (p : proc) : proc :=
  {| p_state := v; p_chan := p_chan p; p_killed := p_killed p; p_xstate := p_xstate p; 
     p_pid := p_pid p; p_parent := p_parent p; p_kstack := p_kstack p; p_sz := p_sz p; 
     p_pagetable := p_pagetable p; p_trapframe := p_trapframe p; p_context := p_context p; 
     p_ofile := p_ofile p; p_cwd := p_cwd p; p_name := p_name p |}.
Definition set_p_chan (v : chan) (p : proc) : proc :=
  {| p_state := p_state p; p_chan := v; p_killed := p_killed p; p_xstate := p_xstate p; 
     p_pid := p_pid p; p_parent := p_parent p; p_kstack := p_kstack p; p_sz := p_sz p; 
     p_pagetable := p_pagetable p; p_trapframe := p_trapframe p; p_context := p_context p; 
     p_ofile := p_ofile p; p_cwd := p_cwd p; p_name := p_name p |}.
Definition set_p_killed (v : Z) (p : proc) : proc :=
  {| p_state := p_state p; p_chan := p_chan p; p_killed := v; p_xstate := p_xstate p; 
     p_pid := p_pid p; p_parent := p_parent p; p_kstack := p_kstack p; p_sz := p_sz p; 
     p_pagetable := p_pagetable p; p_trapframe := p_trapframe p; p_context := p_context p; 
     p_ofile := p_ofile p; p_cwd := p_cwd p; p_name := p_name p |}.
Definition set_p_xstate (v : Z) (p : proc) : proc :=
  {| p_state := p_state p; p_chan := p_chan p; p_killed := p_killed p; p_xstate := v; 
     p_pid := p_pid p; p_parent := p_parent p; p_kstack := p_kstack p; p_sz := p_sz p; 
     p_pagetable := p_pagetable p; p_trapframe := p_trapframe p; p_context := p_context p; 
     p_ofile := p_ofile p; p_cwd := p_cwd p; p_name := p_name p |}.
Definition set_p_pid (v : Z) (p : proc) : proc :=
  {| p_state := p_state p; p_chan := p_chan p; p_killed := p_killed p; p_xstate := p_xstate p; 
     p_pid := v; p_parent := p_parent p; p_kstack := p_kstack p; p_sz := p_sz p; 
     p_pagetable := p_pagetable p; p_trapframe := p_trapframe p; p_context := p_context p; 
     p_ofile := p_ofile p; p_cwd := p_cwd p; p_name := p_name p |}.
Definition set_p_parent (v : option nat) (p : proc) : proc :=
  {| p_state := p_state p; p_chan := p_chan p; p_killed := p_killed p; p_xstate := p_xstate p; 
     p_pid := p_pid p; p_parent := v; p_kstack := p_kstack p; p_sz := p_sz p; 
     p_pagetable := p_pagetable p; p_trapframe := p_trapframe p; p_context := p_context p; 
     p_ofile := p_ofile p; p_cwd := p_cwd p; p_name := p_name p |}.
Definition set_p_kstack (v : Z) (p : proc) : proc :=
  {| p_state := p_state p; p_chan := p_chan p; p_killed := p_killed p; p_xstate := p_xstate p; 
     p_pid := p_pid p; p_parent := p_parent p; p_kstack := v; p_sz := p_sz p; 
     p_pagetable := p_pagetable p; p_trapframe := p_trapframe p; p_context := p_context p; 
     p_ofile := p_ofile p; p_cwd := p_cwd p; p_name := p_name p |}.
Definition set_p_sz (v : Z) (p : proc) : proc :=
  {| p_state := p_state p; p_chan := p_chan p; p_killed := p_killed p; p_xstate := p_xstate p; 
     p_pid := p_pid p; p_parent := p_parent p; p_kstack := p_kstack p; p_sz := v; 
     p_pagetable := p_pagetable p; p_trapframe := p_trapframe p; p_context := p_context p; 
     p_ofile := p_ofile p; p_cwd := p_cwd p; p_name := p_name p |}.
Definition set_p_pagetable (v : Z) (p : proc) : proc :=
  {| p_state := p_state p; p_chan := p_chan p; p_killed := p_killed p; p_xstate := p_xstate p; 
     p_pid := p_pid p; p_parent := p_parent p; p_kstack := p_kstack p; p_sz := p_sz p; 
     p_pagetable := v; p_trapframe := p_trapframe p; p_context := p_context p; 
     p_ofile := p_ofile p; p_cwd := p_cwd p; p_name := p_name p |}.
Definition set_p_trapframe (v : Z) (p : proc) : proc :=
  {| p_state := p_state p; p_chan := p_chan p; p_killed := p_killed p; p_xstate := p_xstate p; 
     p_pid := p_pid p; p_parent := p_parent p; p_kstack := p_kstack p; p_sz := p_sz p; 
     p_pagetable := p_pagetable p; p_trapframe := v; p_context := p_context p; 
     p_ofile := p_ofile p; p_cwd := p_cwd p; p_name := p_name p |}.
Definition set_p_context (v : context) (p : proc) : proc :=
  {| p_state := p_state p; p_chan := p_chan p; p_killed := p_killed p; p_xstate := p_xstate p; 
     p_pid := p_pid p; p_parent := p_parent p; p_kstack := p_kstack p; p_sz := p_sz p; 
     p_pagetable := p_pagetable p; p_trapframe := p_trapframe p; p_context := v; 
     p_ofile := p_ofile p; p_cwd := p_cwd p; p_name := p_name p |}.
Definition set_p_ofile (v : list (option nat)) (p : proc) : proc :=
  {| p_state := p_state p; p_chan := p_chan p; p_killed := p_killed p; p_xstate := p_xstate p; 
     p_pid := p_pid p; p_parent := p_parent p; p_kstack := p_kstack p; p_sz := p_sz p; 
     p_pagetable := p_pagetable p; p_trapframe := p_trapframe p; p_context := p_context p; 
     p_ofile := v; p_cwd := p_cwd p; p_name := p_name p |}.
Definition set_p_cwd (v : option nat) (p : proc) : proc :=
  {| p_state := p_state p; p_chan := p_chan p; p_killed := p_killed p; p_xstate := p_xstate p; 
     p_pid := p_pid p; p_parent := p_parent p; p_kstack := p_kstack p; p_sz := p_sz p; 
     p_pagetable := p_pagetable p; p_trapframe := p_trapframe p; p_context := p_context p; 
     p_ofile := p_ofile p; p_cwd := v; p_name := p_name p |}.
Definition set_p_name (v : list Z) (p : proc) : proc :=
  {| p_state := p_state p; p_chan := p_chan p; p_killed := p_killed p; p_xstate := p_xstate p; 
     p_pid := p_pid p; p_parent := p_parent p; p_kstack := p_kstack p; p_sz := p_sz p; 
     p_pagetable := p_pagetable p; p_trapframe := p_trapframe p; p_context := p_context p; 
     p_ofile := p_ofile p; p_cwd := p_cwd p; p_name := v |}.

(** ** Files and inodes (file.h, fs.h) *)

Inductive ftype : Type := FD_NONE | FD_PIPE | FD_INODE | FD_DEVICE.

#[export] Instance ftype_eq_dec : EqDecision ftype.
Proof. solve_decision. Defined.

(** [struct file] *)
Record file : Type := mk_file {
  f_type : ftype;
  f_ref : Z;
  f_readable : bool;
  f_writable : bool;
  f_pipe : Z;
  f_ip : option nat;
  f_off : Z;
  f_major : Z
}.

Definition set_f_type (v : ftype) (f : file) : file :=
  {| f_type := v; f_ref := f_ref f; f_readable := f_readable f; f_writable := f_writable f; 
     f_pipe := f_pipe f; f_ip := f_ip f; f_off := f_off f; f_major := f_major f |}.
Definition set_f_ref (v : Z) (f : file) : file :=
  {| f_type := f_type f; f_ref := v; f_readable := f_readable f; f_writable := f_writable f; 
     f_pipe := f_pipe f; f_ip := f_ip f; f_off := f_off f; f_major := f_major f |}.
Definition set_f_readable (v : bool) (f : file) : file :=
  {| f_type := f_type f; f_ref := f_ref f; f_readable := v; f_writable := f_writable f; 
     f_pipe := f_pipe f; f_ip := f_ip f; f_off := f_off f; f_major := f_major f |}.
Definition set_f_writable (v : bool) (f : file) : file :=
  {| f_type := f_type f; f_ref := f_ref f; f_readable := f_readable f; f_writable := v; 
     f_pipe := f_pipe f; f_ip := f_ip f; f_off := f_off f; f_major := f_major f |}.
Definition set_f_pipe (v : Z) (f : file) : file :=
  {| f_type := f_type f; f_ref := f_ref f; f_readable := f_readable f; 
     f_writable := f_writable f; f_pipe := v; f_ip := f_ip f; f_off := f_off f; 
     f_major := f_major f |}.
Definition set_f_ip (v : option nat) (f : file) : file :=
  {| f_type := f_type f; f_ref := f_ref f; f_readable := f_readable f; 
     f_writable := f_writable f; f_pipe := f_pipe f; f_ip := v; f_off := f_off f; 
     f_major := f_major f |}.
Definition set_f_off (v : Z) (f : file) : file :=
  {| f_type := f_type f; f_ref := f_ref f; f_readable := f_readable f; 
     f_writable := f_writable f; f_pipe := f_pipe f; f_ip := f_ip f; f_off := v; 
     f_major := f_major f |}.
Definition set_f_major (v : Z) (f : file) : file :=
  {| f_type := f_type f; f_ref := f_ref f; f_readable := f_readable f; 
     f_writable := f_writable f; f_pipe := f_pipe f; f_ip := f_ip f; f_off := f_off f; 
     f_major := v |}.

(** [struct inode]: the in-memory copy of an inode. *)
Record inode : Type := mk_inode {
  i_dev : Z;
  i_inum : Z;
  i_ref : Z;
  i_lock : sleeplock;
  i_valid : bool;
  i_type : Z;
  i_major : Z;
  i_minor : Z;
  i_nlink : Z;
  i_size : Z;
  i_addrs : list Z
}.

Definition set_i_dev (v : Z) (i : inode) : inode :=
  {| i_dev := v; i_inum := i_inum i; i_ref := i_ref i; i_lock := i_lock i; 
     i_valid := i_valid i; i_type := i_type i; i_major := i_major i; i_minor := i_minor i; 
     i_nlink := i_nlink i; i_size := i_size i; i_addrs := i_addrs i |}.
Definition set_i_inum (v : Z) (i : inode) : inode :=
  {| i_dev := i_dev i; i_inum := v; i_ref := i_ref i; i_lock := i_lock i; i_valid := i_valid i; 
     i_type := i_type i; i_major := i_major i; i_minor := i_minor i; i_nlink := i_nlink i; 
     i_size := i_size i; i_addrs := i_addrs i |}.
Definition set_i_ref (v : Z) (i : inode) : inode :=
  {| i_dev := i_dev i; i_inum := i_inum i; i_ref := v; i_lock := i_lock i; 
     i_valid := i_valid i; i_type := i_type i; i_major := i_major i; i_minor := i_minor i; 
     i_nlink := i_nlink i; i_size := i_size i; i_addrs := i_addrs i |}.
Definition set_i_lock (v : sleeplock) (i : inode) : inode :=
  {| i_dev := i_dev i; i_inum := i_inum i; i_ref := i_ref i; i_lock := v; i_valid := i_valid i; 
     i_type := i_type i; i_major := i_major i; i_minor := i_minor i; i_nlink := i_nlink i; 
     i_size := i_size i; i_addrs := i_addrs i |}.
Definition set_i_valid (v : bool) (i : inode) : inode :=
  {| i_dev := i_dev i; i_inum := i_inum i; i_ref := i_ref i; i_lock := i_lock i; i_valid := v; 
     i_type := i_type i; i_major := i_major i; i_minor := i_minor i; i_nlink := i_nlink i; 
     i_size := i_size i; i_addrs := i_addrs i |}.
Definition set_i_type (v : Z) (i : inode) : inode :=
  {| i_dev := i_dev i; i_inum := i_inum i; i_ref := i_ref i; i_lock := i_lock i; 
     i_valid := i_valid i; i_type := v; i_major := i_major i; i_minor := i_minor i; 
     i_nlink := i_nlink i; i_size := i_size i; i_addrs := i_addrs i |}.
Definition set_i_major (v : Z) (i : inode) : inode :=
  {| i_dev := i_dev i; i_inum := i_inum i; i_ref := i_ref i; i_lock := i_lock i; 
     i_valid := i_valid i; i_type := i_type i; i_major := v; i_minor := i_minor i; 
     i_nlink := i_nlink i; i_size := i_size i; i_addrs := i_addrs i |}.
Definition set_i_minor (v : Z) (i : inode) : inode :=
  {| i_dev := i_dev i; i_inum := i_inum i; i_ref := i_ref i; i_lock := i_lock i; 
     i_valid := i_valid i; i_type := i_type i; i_major := i_major i; i_minor := v; 
     i_nlink := i_nlink i; i_size := i_size i; i_addrs := i_addrs i |}.
Definition set_i_nlink (v : Z) (i : inode) : inode :=
  {| i_dev := i_dev i; i_inum := i_inum i; i_ref := i_ref i; i_lock := i_lock i; 
     i_valid := i_valid i; i_type := i_type i; i_major := i_major i; i_minor := i_minor i; 
     i_nlink := v; i_size := i_size i; i_addrs := i_addrs i |}.
Definition set_i_size (v : Z) (i : inode) : inode :=
  {| i_dev := i_dev i; i_inum := i_inum i; i_ref := i_ref i; i_lock := i_lock i; 
     i_valid := i_valid i; i_type := i_type i; i_major := i_major i; i_minor := i_minor i; 
     i_nlink := i_nlink i; i_size := v; i_addrs := i_addrs i |}.
Definition set_i_addrs (v : list Z) (i : inode) : inode :=
  {| i_dev := i_dev i; i_inum := i_inum i; i_ref := i_ref i; i_lock := i_lock i; 
     i_valid := i_valid i; i_type := i_type i; i_major := i_major i; i_minor := i_minor i; 
     i_nlink := i_nlink i; i_size := i_size i; i_addrs := v |}.

(** [struct superblock] *)
Record superblock : Type := mk_superblock {
  sb_magic : Z;
  sb_size : Z;
  sb_nblocks : Z;
  sb_ninodes : Z;
  sb_nlog : Z;
  sb_logstart : Z;
  sb_inodestart : Z;
  sb_bmapstart : Z
}.

Definition set_sb_magic (v : Z) (b : superblock) : superblock :=
  {| sb_magic := v; sb_size := sb_size b; sb_nblocks := sb_nblocks b; 
     sb_ninodes := sb_ninodes b; sb_nlog := sb_nlog b; sb_logstart := sb_logstart b; 
     sb_inodestart := sb_inodestart b; sb_bmapstart := sb_bmapstart b |}.
Definition set_sb_size (v : Z) (b : superblock) : superblock :=
  {| sb_magic := sb_magic b; sb_size := v; sb_nblocks := sb_nblocks b; 
     sb_ninodes := sb_ninodes b; sb_nlog := sb_nlog b; sb_logstart := sb_logstart b; 
     sb_inodestart := sb_inodestart b; sb_bmapstart := sb_bmapstart b |}.
Definition set_sb_nblocks (v : Z) (b : superblock) : superblock :=
  {| sb_magic := sb_magic b; sb_size := sb_size b; sb_nblocks := v; sb_ninodes := sb_ninodes b; 
     sb_nlog := sb_nlog b; sb_logstart := sb_logstart b; sb_inodestart := sb_inodestart b; 
     sb_bmapstart := sb_bmapstart b |}.
Definition set_sb_ninodes (v : Z) (b : superblock) : superblock :=
  {| sb_magic := sb_magic b; sb_size := sb_size b; sb_nblocks := sb_nblocks b; sb_ninodes := v; 
     sb_nlog := sb_nlog b; sb_logstart := sb_logstart b; sb_inodestart := sb_inodestart b; 
     sb_bmapstart := sb_bmapstart b |}.
Definition set_sb_nlog (v : Z) (b : superblock) : superblock :=
  {| sb_magic := sb_magic b; sb_size := sb_size b; sb_nblocks := sb_nblocks b; 
     sb_ninodes := sb_ninodes b; sb_nlog := v; sb_logstart := sb_logstart b; 
     sb_inodestart := sb_inodestart b; sb_bmapstart := sb_bmapstart b |}.
Definition set_sb_logstart (v : Z) (b : superblock) : superblock :=
  {| sb_magic := sb_magic b; sb_size := sb_size b; sb_nblocks := sb_nblocks b; 
     sb_ninodes := sb_ninodes b; sb_nlog := sb_nlog b; sb_logstart := v; 
     sb_inodestart := sb_inodestart b; sb_bmapstart := sb_bmapstart b |}.
Definition set_sb_inodestart (v : Z) (b : superblock) : superblock :=
  {| sb_magic := sb_magic b; sb_size := sb_size b; sb_nblocks := sb_nblocks b; 
     sb_ninodes := sb_ninodes b; sb_nlog := sb_nlog b; sb_logstart := sb_logstart b; 
     sb_inodestart := v; sb_bmapstart := sb_bmapstart b |}.
Definition set_sb_bmapstart (v : Z) (b : superblock) : superblock :=
  {| sb_magic := sb_magic b; sb_size := sb_size b; sb_nblocks := sb_nblocks b; 
     sb_ninodes := sb_ninodes b; sb_nlog := sb_nlog b; sb_logstart := sb_logstart b; 
     sb_inodestart := sb_inodestart b; sb_bmapstart := v |}.

(** ** Buffers and the log (buf.h, log.c) *)

(** The contents of a disk block: byte [i] for [0 <= i < BSIZE]. *)
Definition block : Type := mem.

(** [struct buf]; [prev] and [next] are indices into the buffer array, whose last entry is the list head. *)
Record buf : Type := mk_buf {
  b_valid : bool;
  b_disk : bool;
  b_dev : Z;
  b_blockno : Z;
  b_lock : sleeplock;
  b_refcnt : Z;
  b_prev : nat;
  b_next : nat;
  b_data : block
}.

Definition set_b_valid (v : bool) (b : buf) : buf :=
  {| b_valid := v; b_disk := b_disk b; b_dev := b_dev b; b_blockno := b_blockno b; 
     b_lock := b_lock b; b_refcnt := b_refcnt b; b_prev := b_prev b; b_next := b_next b; 
     b_data := b_data b |}.
Definition set_b_disk (v : bool) (b : buf) : buf :=
  {| b_valid := b_valid b; b_disk := v; b_dev := b_dev b; b_blockno := b_blockno b; 
     b_lock := b_lock b; b_refcnt := b_refcnt b; b_prev := b_prev b; b_next := b_next b; 
     b_data := b_data b |}.
Definition set_b_dev (v : Z) (b : buf) : buf :=
  {| b_valid := b_valid b; b_disk := b_disk b; b_dev := v; b_blockno := b_blockno b; 
     b_lock := b_lock b; b_refcnt := b_refcnt b; b_prev := b_prev b; b_next := b_next b; 
     b_data := b_data b |}.
Definition set_b_blockno (v : Z) (b : buf) : buf :=
  {| b_valid := b_valid b; b_disk := b_disk b; b_dev := b_dev b; b_blockno := v; 
     b_lock := b_lock b; b_refcnt := b_refcnt b; b_prev := b_prev b; b_next := b_next b; 
     b_data := b_data b |}.
Definition set_b_lock (v : sleeplock) (b : buf) : buf :=
  {| b_valid := b_valid b; b_disk := b_disk b; b_dev := b_dev b; b_blockno := b_blockno b; 
     b_lock := v; b_refcnt := b_refcnt b; b_prev := b_prev b; b_next := b_next b; 
     b_data := b_data b |}.
Definition set_b_refcnt (v : Z) (b : buf) : buf :=
  {| b_valid := b_valid b; b_disk := b_disk b; b_dev := b_dev b; b_blockno := b_blockno b; 
     b_lock := b_lock b; b_refcnt := v; b_prev := b_prev b; b_next := b_next b; 
     b_data := b_data b |}.
Definition set_b_prev (v : nat) (b : buf) : buf :=
  {| b_valid := b_valid b; b_disk := b_disk b; b_dev := b_dev b; b_blockno := b_blockno b; 
     b_lock := b_lock b; b_refcnt := b_refcnt b; b_prev := v; b_next := b_next b; 
     b_data := b_data b |}.
Definition set_b_next (v : nat) (b : buf) : buf :=
  {| b_valid := b_valid b; b_disk := b_disk b; b_dev := b_dev b; b_blockno := b_blockno b; 
     b_lock := b_lock b; b_refcnt := b_refcnt b; b_prev := b_prev b; b_next := v; 
     b_data := b_data b |}.
Definition set_b_data (v : block) (b : buf) : buf :=
  {| b_valid := b_valid b; b_disk := b_disk b; b_dev := b_dev b; b_blockno := b_blockno b; 
     b_lock := b_lock b; b_refcnt := b_refcnt b; b_prev := b_prev b; b_next := b_next b; 
     b_data := v |}.

(** [struct logheader] *)
Record logheader : Type := mk_logheader {
  lh_n : Z;
  lh_block : list Z
}.

Definition set_lh_n (v : Z) (h : logheader) : logheader :=
  {| lh_n := v; lh_block := lh_block h |}.
Definition set_lh_block (v : list Z) (h : logheader) : logheader :=
  {| lh_n := lh_n h; lh_block := v |}.

(** [struct log]; its lock is [Llog]. *)
Record logst : Type := mk_logst {
  log_start : Z;
  log_size : Z;
  log_outstanding : Z;
  log_committing : bool;
  log_dev : Z;
  log_lh : logheader
}.

Definition set_log_start (v : Z) (l : logst) : logst :=
  {| log_start := v; log_size := log_size l; log_outstanding := log_outstanding l; 
     log_committing := log_committing l; log_dev := log_dev l; log_lh := log_lh l |}.
Definition set_log_size (v : Z) (l : logst) : logst :=
  {| log_start := log_start l; log_size := v; log_outstanding := log_outstanding l; 
     log_committing := log_committing l; log_dev := log_dev l; log_lh := log_lh l |}.
Definition set_log_outstanding (v : Z) (l : logst) : logst :=
  {| log_start := log_start l; log_size := log_size l; log_outstanding := v; 
     log_committing := log_committing l; log_dev := log_dev l; log_lh := log_lh l |}.
Definition set_log_committing (v : bool) (l : logst) : logst :=
  {| log_start := log_start l; log_size := log_size l; log_outstanding := log_outstanding l; 
     log_committing := v; log_dev := log_dev l; log_lh := log_lh l |}.
Definition set_log_dev (v : Z) (l : logst) : logst :=
  {| log_start := log_start l; log_size := log_size l; log_outstanding := log_outstanding l; 
     log_committing := log_committing l; log_dev := v; log_lh := log_lh l |}.
Definition set_log_lh (v : logheader) (l : logst) : logst :=
  {| log_start := log_start l; log_size := log_size l; log_outstanding := log_outstanding l; 
     log_committing := log_committing l; log_dev := log_dev l; log_lh := v |}.

(** ** Pipes and the console *)

(** [struct pipe]; its lock is [Lpipe]. *)
Record pipe : Type := mk_pipe {
  pi_data : list Z;
  pi_nread : Z;
  pi_nwrite : Z;
  pi_readopen : bool;
  pi_writeopen : bool
}.

Definition set_pi_data (v : list Z) (q : pipe) : pipe :=
  {| pi_data := v; pi_nread := pi_nread q; pi_nwrite := pi_nwrite q; 
     pi_readopen := pi_readopen q; pi_writeopen := pi_writeopen q |}.
Definition set_pi_nread (v : Z) (q : pipe) : pipe :=
  {| pi_data := pi_data q; pi_nread := v; pi_nwrite := pi_nwrite q; 
     pi_readopen := pi_readopen q; pi_writeopen := pi_writeopen q |}.
Definition set_pi_nwrite (v : Z) (q : pipe) : pipe :=
  {| pi_data := pi_data q; pi_nread := pi_nread q; pi_nwrite := v; 
     pi_readopen := pi_readopen q; pi_writeopen := pi_writeopen q |}.
Definition set_pi_readopen (v : bool) (q : pipe) : pipe :=
  {| pi_data := pi_data q; pi_nread := pi_nread q; pi_nwrite := pi_nwrite q; pi_readopen := v; 
     pi_writeopen := pi_writeopen q |}.
Definition set_pi_writeopen (v : bool) (q : pipe) : pipe :=
  {| pi_data := pi_data q; pi_nread := pi_nread q; pi_nwrite := pi_nwrite q; 
     pi_readopen := pi_readopen q; pi_writeopen := v |}.

(** The [cons] structure of console.c *)
Record consst : Type := mk_consst {
  c_buf : list Z;
  c_r : Z;
  c_w : Z;
  c_e : Z
}.

Definition set_c_buf (v : list Z) (c : consst) : consst :=
  {| c_buf := v; c_r := c_r c; c_w := c_w c; c_e := c_e c |}.
Definition set_c_r (v : Z) (c : consst) : consst :=
  {| c_buf := c_buf c; c_r := v; c_w := c_w c; c_e := c_e c |}.
Definition set_c_w (v : Z) (c : consst) : consst :=
  {| c_buf := c_buf c; c_r := c_r c; c_w := v; c_e := c_e c |}.
Definition set_c_e (v : Z) (c : consst) : consst :=
  {| c_buf := c_buf c; c_r := c_r c; c_w := c_w c; c_e := v |}.

(** The transmit buffer of uart.c and the two ends of the device: what it has sent, and the characters waiting in its receive register. *)
Record uartst : Type := mk_uartst {
  tx_buf : list Z;
  tx_w : Z;
  tx_r : Z;
  tx_idle : list bool;
  tx_out : list Z;
  rx_in : list Z
}.

Definition set_tx_buf (v : list Z) (u : uartst) : uartst :=
  {| tx_buf := v; tx_w := tx_w u; tx_r := tx_r u; tx_idle := tx_idle u; tx_out := tx_out u; 
     rx_in := rx_in u |}.
Definition set_tx_w (v : Z) (u : uartst) : uartst :=
  {| tx_buf := tx_buf u; tx_w := v; tx_r := tx_r u; tx_idle := tx_idle u; tx_out := tx_out u; 
     rx_in := rx_in u |}.
Definition set_tx_r (v : Z) (u : uartst) : uartst :=
  {| tx_buf := tx_buf u; tx_w := tx_w u; tx_r := v; tx_idle := tx_idle u; tx_out := tx_out u; 
     rx_in := rx_in u |}.
Definition set_tx_idle (v : list bool) (u : uartst) : uartst :=
  {| tx_buf := tx_buf u; tx_w := tx_w u; tx_r := tx_r u; tx_idle := v; tx_out := tx_out u; 
     rx_in := rx_in u |}.
Definition set_tx_out (v : list Z) (u : uartst) : uartst :=
  {| tx_buf := tx_buf u; tx_w := tx_w u; tx_r := tx_r u; tx_idle := tx_idle u; tx_out := v; 
     rx_in := rx_in u |}.
Definition set_rx_in (v : list Z) (u : uartst) : uartst :=
  {| tx_buf := tx_buf u; tx_w := tx_w u; tx_r := tx_r u; tx_idle := tx_idle u; 
     tx_out := tx_out u; rx_in := v |}.

(** ** The global variables

    [k_held] is the set of spin locks the running thread holds and [k_cur]
    the process it runs for ([mycpu()->proc]); [k_sched] names the moves the
    other threads make while this one is switched out.  [k_disk] is the disk
    and [k_wtrace] the writes it has received, the latest first: a crash can
    leave the disk as it was after any of them. *)

Record kstate : Type := mk_kstate {
  k_held : list lockid;
  k_cur : option nat;
  k_sched : list nat;
  k_mem : mem;
  k_freelist : Z;
  k_kpgtbl : Z;
  k_procs : list proc;
  k_nextpid : Z;
  k_initproc : option nat;
  k_ticks : Z;
  k_ftable : list file;
  k_itable : list inode;
  k_sb : superblock;
  k_bufs : list buf;
  k_log : logst;
  k_disk : Z -> block;
  k_wtrace : list (Z * block);
  k_pipes : gmap Z pipe;
  k_cons : consst;
  k_uart : uartst
}.

Definition set_k_held (v : list lockid) (s : kstate) : kstate :=
  {| k_held := v; k_cur := k_cur s; k_sched := k_sched s; k_mem := k_mem s; 
     k_freelist := k_freelist s; k_kpgtbl := k_kpgtbl s; k_procs := k_procs s; 
     k_nextpid := k_nextpid s; k_initproc := k_initproc s; k_ticks := k_ticks s; 
     k_ftable := k_ftable s; k_itable := k_itable s; k_sb := k_sb s; k_bufs := k_bufs s; 
     k_log := k_log s; k_disk := k_disk s; k_wtrace := k_wtrace s; k_pipes := k_pipes s; 
     k_cons := k_cons s; k_uart := k_uart s |}.
Definition set_k_cur (v : option nat) (s : kstate) : kstate :=
  {| k_held := k_held s; k_cur := v; k_sched := k_sched s; k_mem := k_mem s; 
     k_freelist := k_freelist s; k_kpgtbl := k_kpgtbl s; k_procs := k_procs s; 
     k_nextpid := k_nextpid s; k_initproc := k_initproc s; k_ticks := k_ticks s; 
     k_ftable := k_ftable s; k_itable := k_itable s; k_sb := k_sb s; k_bufs := k_bufs s; 
     k_log := k_log s; k_disk := k_disk s; k_wtrace := k_wtrace s; k_pipes := k_pipes s; 
     k_cons := k_cons s; k_uart := k_uart s |}.
Definition set_k_sched (v : list nat) (s : kstate) : kstate :=
  {| k_held := k_held s; k_cur := k_cur s; k_sched := v; k_mem := k_mem s; 
     k_freelist := k_freelist s; k_kpgtbl := k_kpgtbl s; k_procs := k_procs s; 
     k_nextpid := k_nextpid s; k_initproc := k_initproc s; k_ticks := k_ticks s; 
     k_ftable := k_ftable s; k_itable := k_itable s; k_sb := k_sb s; k_bufs := k_bufs s; 
     k_log := k_log s; k_disk := k_disk s; k_wtrace := k_wtrace s; k_pipes := k_pipes s; 
     k_cons := k_cons s; k_uart := k_uart s |}.
Definition set_k_mem (v : mem) (s : kstate) : kstate :=
  {| k_held := k_held s; k_cur := k_cur s; k_sched := k_sched s; k_mem := v; 
     k_freelist := k_freelist s; k_kpgtbl := k_kpgtbl s; k_procs := k_procs s; 
     k_nextpid := k_nextpid s; k_initproc := k_initproc s; k_ticks := k_ticks s; 
     k_ftable := k_ftable s; k_itable := k_itable s; k_sb := k_sb s; k_bufs := k_bufs s; 
     k_log := k_log s; k_disk := k_disk s; k_wtrace := k_wtrace s; k_pipes := k_pipes s; 
     k_cons := k_cons s; k_uart := k_uart s |}.
Definition set_k_freelist (v : Z) (s : kstate) : kstate :=
  {| k_held := k_held s; k_cur := k_cur s; k_sched := k_sched s; k_mem := k_mem s; 
     k_freelist := v; k_kpgtbl := k_kpgtbl s; k_procs := k_procs s; k_nextpid := k_nextpid s; 
     k_initproc := k_initproc s; k_ticks := k_ticks s; k_ftable := k_ftable s; 
     k_itable := k_itable s; k_sb := k_sb s; k_bufs := k_bufs s; k_log := k_log s; 
     k_disk := k_disk s; k_wtrace := k_wtrace s; k_pipes := k_pipes s; k_cons := k_cons s; 
     k_uart := k_uart s |}.
Definition set_k_kpgtbl (v : Z) (s : kstate) : kstate :=
  {| k_held := k_held s; k_cur := k_cur s; k_sched := k_sched s; k_mem := k_mem s; 
     k_freelist := k_freelist s; k_kpgtbl := v; k_procs := k_procs s; 
     k_nextpid := k_nextpid s; k_initproc := k_initproc s; k_ticks := k_ticks s; 
     k_ftable := k_ftable s; k_itable := k_itable s; k_sb := k_sb s; k_bufs := k_bufs s; 
     k_log := k_log s; k_disk := k_disk s; k_wtrace := k_wtrace s; k_pipes := k_pipes s; 
     k_cons := k_cons s; k_uart := k_uart s |}.
Definition set_k_procs (v : list proc) (s : kstate) : kstate :=
  {| k_held := k_held s; k_cur := k_cur s; k_sched := k_sched s; k_mem := k_mem s; 
     k_freelist := k_freelist s; k_kpgtbl := k_kpgtbl s; k_procs := v; 
     k_nextpid := k_nextpid s; k_initproc := k_initproc s; k_ticks := k_ticks s; 
     k_ftable := k_ftable s; k_itable := k_itable s; k_sb := k_sb s; k_bufs := k_bufs s; 
     k_log := k_log s; k_disk := k_disk s; k_wtrace := k_wtrace s; k_pipes := k_pipes s; 
     k_cons := k_cons s; k_uart := k_uart s |}.
Definition set_k_nextpid (v : Z) (s : kstate) : kstate :=
  {| k_held := k_held s; k_cur := k_cur s; k_sched := k_sched s; k_mem := k_mem s; 
     k_freelist := k_freelist s; k_kpgtbl := k_kpgtbl s; k_procs := k_procs s; k_nextpid := v; 
     k_initproc := k_initproc s; k_ticks := k_ticks s; k_ftable := k_ftable s; 
     k_itable := k_itable s; k_sb := k_sb s; k_bufs := k_bufs s; k_log := k_log s; 
     k_disk := k_disk s; k_wtrace := k_wtrace s; k_pipes := k_pipes s; k_cons := k_cons s; 
     k_uart := k_uart s |}.
Definition set_k_initproc (v : option nat) (s : kstate) : kstate :=
  {| k_held := k_held s; k_cur := k_cur s; k_sched := k_sched s; k_mem := k_mem s; 
     k_freelist := k_freelist s; k_kpgtbl := k_kpgtbl s; k_procs := k_procs s; 
     k_nextpid := k_nextpid s; k_initproc := v; k_ticks := k_ticks s; k_ftable := k_ftable s; 
     k_itable := k_itable s; k_sb := k_sb s; k_bufs := k_bufs s; k_log := k_log s; 
     k_disk := k_disk s; k_wtrace := k_wtrace s; k_pipes := k_pipes s; k_cons := k_cons s; 
     k_uart := k_uart s |}.
Definition set_k_ticks (v : Z) (s : kstate) : kstate :=
  {| k_held := k_held s; k_cur := k_cur s; k_sched := k_sched s; k_mem := k_mem s; 
     k_freelist := k_freelist s; k_kpgtbl := k_kpgtbl s; k_procs := k_procs s; 
     k_nextpid := k_nextpid s; k_initproc := k_initproc s; k_ticks := v; 
     k_ftable := k_ftable s; k_itable := k_itable s; k_sb := k_sb s; k_bufs := k_bufs s; 
     k_log := k_log s; k_disk := k_disk s; k_wtrace := k_wtrace s; k_pipes := k_pipes s; 
     k_cons := k_cons s; k_uart := k_uart s |}.
Definition set_k_ftable (v : list file) (s : kstate) : kstate :=
  {| k_held := k_held s; k_cur := k_cur s; k_sched := k_sched s; k_mem := k_mem s; 
     k_freelist := k_freelist s; k_kpgtbl := k_kpgtbl s; k_procs := k_procs s; 
     k_nextpid := k_nextpid s; k_initproc := k_initproc s; k_ticks := k_ticks s; 
     k_ftable := v; k_itable := k_itable s; k_sb := k_sb s; k_bufs := k_bufs s; 
     k_log := k_log s; k_disk := k_disk s; k_wtrace := k_wtrace s; k_pipes := k_pipes s; 
     k_cons := k_cons s; k_uart := k_uart s |}.
Definition set_k_itable (v : list inode) (s : kstate) : kstate :=
  {| k_held := k_held s; k_cur := k_cur s; k_sched := k_sched s; k_mem := k_mem s; 
     k_freelist := k_freelist s; k_kpgtbl := k_kpgtbl s; k_procs := k_procs s; 
     k_nextpid := k_nextpid s; k_initproc := k_initproc s; k_ticks := k_ticks s; 
     k_ftable := k_ftable s; k_itable := v; k_sb := k_sb s; k_bufs := k_bufs s; 
     k_log := k_log s; k_disk := k_disk s; k_wtrace := k_wtrace s; k_pipes := k_pipes s; 
     k_cons := k_cons s; k_uart := k_uart s |}.
Definition set_k_sb (v : superblock) (s : kstate) : kstate :=
  {| k_held := k_held s; k_cur := k_cur s; k_sched := k_sched s; k_mem := k_mem s; 
     k_freelist := k_freelist s; k_kpgtbl := k_kpgtbl s; k_procs := k_procs s; 
     k_nextpid := k_nextpid s; k_initproc := k_initproc s; k_ticks := k_ticks s; 
     k_ftable := k_ftable s; k_itable := k_itable s; k_sb := v; k_bufs := k_bufs s; 
     k_log := k_log s; k_disk := k_disk s; k_wtrace := k_wtrace s; k_pipes := k_pipes s; 
     k_cons := k_cons s; k_uart := k_uart s |}.
Definition set_k_bufs (v : list buf) (s : kstate) : kstate :=
  {| k_held := k_held s; k_cur := k_cur s; k_sched := k_sched s; k_mem := k_mem s; 
     k_freelist := k_freelist s; k_kpgtbl := k_kpgtbl s; k_procs := k_procs s; 
     k_nextpid := k_nextpid s; k_initproc := k_initproc s; k_ticks := k_ticks s; 
     k_ftable := k_ftable s; k_itable := k_itable s; k_sb := k_sb s; k_bufs := v; 
     k_log := k_log s; k_disk := k_disk s; k_wtrace := k_wtrace s; k_pipes := k_pipes s; 
     k_cons := k_cons s; k_uart := k_uart s |}.
Definition set_k_log (v : logst) (s : kstate) : kstate :=
  {| k_held := k_held s; k_cur := k_cur s; k_sched := k_sched s; k_mem := k_mem s; 
     k_freelist := k_freelist s; k_kpgtbl := k_kpgtbl s; k_procs := k_procs s; 
     k_nextpid := k_nextpid s; k_initproc := k_initproc s; k_ticks := k_ticks s; 
     k_ftable := k_ftable s; k_itable := k_itable s; k_sb := k_sb s; k_bufs := k_bufs s; 
     k_log := v; k_disk := k_disk s; k_wtrace := k_wtrace s; k_pipes := k_pipes s; 
     k_cons := k_cons s; k_uart := k_uart s |}.
Definition set_k_disk (v : Z -> block) (s : kstate) : kstate :=
  {| k_held := k_held s; k_cur := k_cur s; k_sched := k_sched s; k_mem := k_mem s; 
     k_freelist := k_freelist s; k_kpgtbl := k_kpgtbl s; k_procs := k_procs s; 
     k_nextpid := k_nextpid s; k_initproc := k_initproc s; k_ticks := k_ticks s; 
     k_ftable := k_ftable s; k_itable := k_itable s; k_sb := k_sb s; k_bufs := k_bufs s; 
     k_log := k_log s; k_disk := v; k_wtrace := k_wtrace s; k_pipes := k_pipes s; 
     k_cons := k_cons s; k_uart := k_uart s |}.
Definition set_k_wtrace (v : list (Z * block)) (s : kstate) : kstate :=
  {| k_held := k_held s; k_cur := k_cur s; k_sched := k_sched s; k_mem := k_mem s; 
     k_freelist := k_freelist s; k_kpgtbl := k_kpgtbl s; k_procs := k_procs s; 
     k_nextpid := k_nextpid s; k_initproc := k_initproc s; k_ticks := k_ticks s; 
     k_ftable := k_ftable s; k_itable := k_itable s; k_sb := k_sb s; k_bufs := k_bufs s; 
     k_log := k_log s; k_disk := k_disk s; k_wtrace := v; k_pipes := k_pipes s; 
     k_cons := k_cons s; k_uart := k_uart s |}.
Definition set_k_pipes (v : gmap Z pipe) (s : kstate) : kstate :=
  {| k_held := k_held s; k_cur := k_cur s; k_sched := k_sched s; k_mem := k_mem s; 
     k_freelist := k_freelist s; k_kpgtbl := k_kpgtbl s; k_procs := k_procs s; 
     k_nextpid := k_nextpid s; k_initproc := k_initproc s; k_ticks := k_ticks s; 
     k_ftable := k_ftable s; k_itable := k_itable s; k_sb := k_sb s; k_bufs := k_bufs s; 
     k_log := k_log s; k_disk := k_disk s; k_wtrace := k_wtrace s; k_pipes := v; 
     k_cons := k_cons s; k_uart := k_uart s |}.
Definition set_k_cons (v : consst) (s : kstate) : kstate :=
  {| k_held := k_held s; k_cur := k_cur s; k_sched := k_sched s; k_mem := k_mem s; 
     k_freelist := k_freelist s; k_kpgtbl := k_kpgtbl s; k_procs := k_procs s; 
     k_nextpid := k_nextpid s; k_initproc := k_initproc s; k_ticks := k_ticks s; 
     k_ftable := k_ftable s; k_itable := k_itable s; k_sb := k_sb s; k_bufs := k_bufs s; 
     k_log := k_log s; k_disk := k_disk s; k_wtrace := k_wtrace s; k_pipes := k_pipes s; 
     k_cons := v; k_uart := k_uart s |}.
Definition set_k_uart (v : uartst) (s : kstate) : kstate :=
  {| k_held := k_held s; k_cur := k_cur s; k_sched := k_sched s; k_mem := k_mem s; 
     k_freelist := k_freelist s; k_kpgtbl := k_kpgtbl s; k_procs := k_procs s; 
     k_nextpid := k_nextpid s; k_initproc := k_initproc s; k_ticks := k_ticks s; 
     k_ftable := k_ftable s; k_itable := k_itable s; k_sb := k_sb s; k_bufs := k_bufs s; 
     k_log := k_log s; k_disk := k_disk s; k_wtrace := k_wtrace s; k_pipes := k_pipes s; 
     k_cons := k_cons s; k_uart := v |}.

(** ** Access to the state *)

(** The moves of the other threads: [envstep e s] is the state after move [e],
    seen when the running thread is switched in again. *)
Class Env : Type := envstep : nat -> kstate -> kstate.

Definition mem_get : M kstate mem := gets k_mem.
Definition mem_mod (f : mem -> mem) : M kstate unit := modify (fun s => set_k_mem (f (k_mem s)) s).

(** A read or write through a pointer that may be null. *)
Definition nonnull (p : Z) : M kstate unit := if p =? 0 then fault "null pointer" else ret tt.

(** An element of a table; an index outside the table is a fault. *)
Definition tab_get {A} (f : kstate -> list A) (i : nat) : M kstate A := fun s =>
  match f s !! i with Some x => Ok x s | None => Fault "index out of range" end.

Definition proc_get (i : nat) : M kstate proc := tab_get k_procs i.
Definition proc_mod (i : nat) (f : proc -> proc) : M kstate unit :=
  modify (fun s => set_k_procs (alter f i (k_procs s)) s).

(** ** Locks, as the rest of the kernel sees them

    A thread that acquires a lock it already holds panics, and so does one
    that releases a lock it does not hold.  Waiting for another CPU is not
    visible here: [Spinlock.v] models the two routines on the hardware state
    and relates them to these. *)
Definition acquire (l : lockid) : M kstate unit := fun s =>
  if decide (l ∈ k_held s) then Panic "acquire" else Ok tt (set_k_held (l :: k_held s) s).

Definition release (l : lockid) : M kstate unit := fun s =>
  if decide (l ∈ k_held s)
  then Ok tt (set_k_held (filter (fun l' => l' <> l) (k_held s)) s)
  else Panic "release".

Lemma acquire_ok l s : l ∉ k_held s -> acquire l s = Ok tt (set_k_held (l :: k_held s) s).
Proof. intros H. unfold acquire. by rewrite decide_False. Qed.

Lemma filter_notin (l : lockid) (ls : list lockid) : l ∉ ls -> filter (fun l' => l' <> l) ls = ls.
Proof.
  induction ls as [|x ls IH]; intros H; [done|].
  rewrite filter_cons, decide_True by set_solver. f_equal. apply IH. set_solver.
Qed.

Lemma release_ok l s hs :
  k_held s = l :: hs -> l ∉ hs -> release l s = Ok tt (set_k_held hs s).
Proof.
  intros E H. unfold release. rewrite E, decide_True by set_solver.
  rewrite filter_cons_False by (by intros ?). by rewrite filter_notin.
Qed.

Lemma set_k_held_id s : set_k_held (k_held s) s = s.
Proof. by destruct s. Qed.

(** A critical section that leaves the lock set alone runs as its body does. *)
Lemma locked_ok {A} (l : lockid) (m : M kstate A) s a s' :
  l ∉ k_held s ->
  m (set_k_held (l :: k_held s) s) = Ok a s' -> k_held s' = l :: k_held s ->
  (acquire l ;;; let! r := m in release l ;;; ret r) s = Ok a (set_k_held (k_held s) s').
Proof.
  intros Hl Hm Hh. rewrite (bind_ok _ _ _ _ _ (acquire_ok l s Hl)).
  rewrite (bind_ok _ _ _ _ _ Hm). by rewrite (bind_ok _ _ _ _ _ (release_ok l s' _ Hh Hl)).
Qed.
