(* ===== verification/Spinlock.v ===== *)
(** * kernel/spinlock.c

    The spin locks on the hardware state: the lock words and, for each hart, its
    interrupt-enable bit and the nesting of [push_off].  [spin_acquire] and
    [spin_release] implement the lock sets of [State.v], and a step relation
    for several harts shows that a lock excludes all others. *)

From S2P Require Import Prelude Riscv Mem State.

(** [struct spinlock], less its name. *)
Record spinlock : Type := mk_spinlock { lk_locked : Z; lk_cpu : option nat }.

(** Of [struct cpu]: [noff] and [intena]; [c_sie] is the bit [SSTATUS_SIE]. *)
Record cpu : Type := mk_cpu { c_noff : Z; c_intena : bool; c_sie : bool }.

Record smp : Type := mk_smp { m_cpus : list cpu; m_locks : lockid -> spinlock }.

Definition set_lock (l : lockid) (v : spinlock) (m : smp) : smp :=
  mk_smp (m_cpus m) (fun x => if decide (x = l) then v else m_locks m x).
Definition set_cpu (i : nat) (v : cpu) (m : smp) : smp := mk_smp (<[i := v]> (m_cpus m)) (m_locks m).

Definition cpu_get (i : nat) : M smp cpu := fun m =>
  match m_cpus m !! i with Some c => Ok c m | None => Fault "no such cpu" end.
Definition cpu_put (i : nat) (c : cpu) : M smp unit := modify (set_cpu i c).
Definition lock_get (l : lockid) : M smp spinlock := gets (fun m => m_locks m l).
Definition lock_put (l : lockid) (v : spinlock) : M smp unit := modify (set_lock l v).

Definition initlock (l : lockid) : M smp unit := lock_put l (mk_spinlock 0 None).

Section hart.
(** [mycpu()] *)
Variable me : nat.

Definition push_off : M smp unit :=
  let! c := cpu_get me in
  let old := c_sie c in
  let intena := if c_noff c =? 0 then old else c_intena c in
  cpu_put me (mk_cpu (c_noff c + 1) intena false).

Definition pop_off : M smp unit :=
  let! c := cpu_get me in
  panic_if (c_sie c) "pop_off - interruptible" ;;;
  panic_if (c_noff c <? 1) "pop_off" ;;;
  let noff := c_noff c - 1 in
  cpu_put me (mk_cpu noff (c_intena c) ((noff =? 0) && c_intena c)).

Definition holds (l : spinlock) : bool := negb (lk_locked l =? 0) && bool_decide (lk_cpu l = Some me).

Definition spin_holding (l : lockid) : M smp bool := let! k := lock_get l in ret (holds k).

(** [__sync_lock_test_and_set(&lk->locked, 1)] *)
Definition test_and_set (l : lockid) : M smp Z :=
  let! k := lock_get l in
  lock_put l (mk_spinlock 1 (lk_cpu k)) ;;;
  ret (lk_locked k).

(** With no other hart to release the lock, the loop ends at once or never. *)
Definition spin_acquire (l : lockid) : M smp unit :=
  push_off ;;;
  let! h := spin_holding l in
  panic_if h "acquire" ;;;
  let! old := test_and_set l in
  if negb (old =? 0) then hang
  else
    let! k := lock_get l in
    lock_put l (mk_spinlock (lk_locked k) (Some me)).

Definition spin_release (l : lockid) : M smp unit :=
  let! h := spin_holding l in
  panic_if (negb h) "release" ;;;
  let! k := lock_get l in
  lock_put l (mk_spinlock (lk_locked k) None) ;;;
  lock_put l (mk_spinlock 0 None) ;;;
  pop_off.

(** ** push_off and pop_off nest *)

(** [n] calls of [push_off], then as many of [pop_off]. *)
Fixpoint times (n : nat) (m : M smp unit) : M smp unit :=
  match n with O => ret tt | S n' => m ;;; times n' m end.

Lemma times_snoc n (m : M smp unit) s : (m ;;; times n m) s = (times n m ;;; m) s.
Proof.
  revert s. induction n as [|n IH]; intros s; cbn [times].
  - unfold bind, ret. by destruct (m s) as [[] ?| | | |].
  - rewrite bind_assoc. unfold bind at 1 3. destruct (m s) as [[] s1| | | |]; [apply IH|done..].
Qed.

Lemma push_off_run m c :
  m_cpus m !! me = Some c ->
  push_off m = Ok tt (set_cpu me (mk_cpu (c_noff c + 1) (if c_noff c =? 0 then c_sie c else c_intena c) false) m).
Proof. intros H. unfold push_off, cpu_get, bind. rewrite H. done. Qed.

Lemma pop_off_run m c :
  m_cpus m !! me = Some c -> c_sie c = false -> 1 <= c_noff c ->
  pop_off m = Ok tt (set_cpu me (mk_cpu (c_noff c - 1) (c_intena c) ((c_noff c - 1 =? 0) && c_intena c)) m).
Proof.
  intros H Hs Hn. unfold pop_off, cpu_get, bind. rewrite H, Hs. unfold panic_if, when.
  replace (c_noff c <? 1) with false by (symmetry; apply Z.ltb_ge; lia). done.
Qed.

Lemma set_cpu_set_cpu i v w m : set_cpu i w (set_cpu i v m) = set_cpu i w m.
Proof. unfold set_cpu. cbn. by rewrite list_insert_insert_eq. Qed.

Lemma set_cpu_id i v m : m_cpus m !! i = Some v -> set_cpu i v m = m.
Proof. intros H. unfold set_cpu. rewrite list_insert_id by done. by destruct m. Qed.

Lemma set_cpu_lookup i v m : (i < length (m_cpus m))%nat -> m_cpus (set_cpu i v m) !! i = Some v.
Proof. intros H. by apply list_lookup_insert_eq. Qed.

Lemma pushes n m c :
  m_cpus m !! me = Some c -> 1 <= c_noff c ->
  times n push_off m = Ok tt (if decide (n = 0%nat) then m
    else set_cpu me (mk_cpu (c_noff c + Z.of_nat n) (c_intena c) false) m).
Proof.
  revert m c. induction n as [|n IH]; intros m c Hc Hn; [done|]. cbn [times].
  assert (me < length (m_cpus m))%nat by (by eapply lookup_lt_Some).
  rewrite (bind_ok _ _ _ _ _ (push_off_run m c Hc)).
  rewrite (IH _ _ (set_cpu_lookup _ _ _ H)) by (cbn; lia). cbn.
  replace (c_noff c =? 0) with false by (symmetry; apply Z.eqb_neq; lia).
  destruct n as [|n]; cbn; [done|]. rewrite set_cpu_set_cpu. do 3 f_equal. lia.
Qed.

Lemma pops n m c :
  m_cpus m !! me = Some c -> c_sie c = false -> Z.of_nat n < c_noff c ->
  times n pop_off m = Ok tt (set_cpu me (mk_cpu (c_noff c - Z.of_nat n) (c_intena c) false) m).
Proof.
  revert m c. induction n as [|n IH]; intros m c Hc Hs Hn.
  { cbn. unfold ret. rewrite Z.sub_0_r. destruct c as [x y z]. cbn in *. subst z. by rewrite set_cpu_id. }
  cbn [times]. assert (me < length (m_cpus m))%nat by (by eapply lookup_lt_Some).
  rewrite (bind_ok _ _ _ _ _ (pop_off_run m c Hc Hs ltac:(lia))).
  replace (c_noff c - 1 =? 0) with false by (symmetry; apply Z.eqb_neq; lia). cbn [andb].
  rewrite (IH _ _ (set_cpu_lookup _ _ _ H)) by (cbn; first [done|lia]). cbn.
  rewrite set_cpu_set_cpu. do 3 f_equal. lia.
Qed.

End hart.

(** ** The lock sets of [State.v] *)

(** The running hart holds the locks [hs]; [e] says whether its interrupts were
    on when it took the first of them. *)
Record lock_rel (me : nat) (e : bool) (m : smp) (hs : list lockid) : Prop := {
  lr_cpu : exists c, m_cpus m !! me = Some c /\ c_noff c = Z.of_nat (length hs) /\
    if decide (hs = []) then c_sie c = e else c_sie c = false /\ c_intena c = e;
  lr_held : forall l, l ∈ hs <-> holds me (m_locks m l) = true;
  lr_nodup : NoDup hs
}.

Lemma set_lock_same l v m : m_locks (set_lock l v m) l = v.
Proof. unfold set_lock. cbn. by rewrite decide_True. Qed.
Lemma set_lock_other l x v m : x <> l -> m_locks (set_lock l v m) x = m_locks m x.
Proof. unfold set_lock. cbn. intros H. by rewrite decide_False. Qed.

Lemma spin_acquire_free me e m hs l :
  lock_rel me e m hs -> l ∉ hs -> lk_locked (m_locks m l) = 0 ->
  exists m', spin_acquire me l m = Ok tt m' /\ lock_rel me e m' (l :: hs).
Proof.
  intros [(c & Hc & Hn & Hi) Hh Hnd] Hl Hfree.
  assert (me < length (m_cpus m))%nat as Hlt by (by eapply lookup_lt_Some).
  unfold spin_acquire. rewrite (bind_ok _ _ _ _ _ (push_off_run me m c Hc)).
  set (m1 := set_cpu _ _ m). unfold spin_holding, test_and_set, lock_get, lock_put. ksimp.
  assert (holds me (m_locks m1 l) = false) as -> by (cbn; unfold holds; by rewrite Hfree).
  cbn [panic_if when]. unfold panic_if, when. ksimp. cbn [m_locks m1 set_cpu]. rewrite Hfree. cbn [Z.eqb negb]. ksimp.
  eexists. split; [reflexivity|]. split.
  - eexists. split; [by apply set_cpu_lookup|]. cbn [c_noff c_sie c_intena length]. split; [lia|].
    split; [done|]. destruct (decide (hs = [])) as [->|Hne].
    + rewrite Hn. cbn. done.
    + replace (c_noff c =? 0) with false; [tauto|]. symmetry. apply Z.eqb_neq. destruct hs; [done|]. cbn in Hn. lia.
  - intros x. rewrite elem_of_cons. destruct (decide (x = l)) as [->|Hne].
    + rewrite !set_lock_same. cbn. unfold holds. cbn. rewrite bool_decide_true by done. tauto.
    + rewrite !set_lock_other by done. rewrite Hh. naive_solver.
  - by constructor.
Qed.

Lemma spin_acquire_held me e m hs l : lock_rel me e m hs -> l ∈ hs -> spin_acquire me l m = Panic "acquire".
Proof.
  intros [(c & Hc & _) Hh _] Hl. unfold spin_acquire. rewrite (bind_ok _ _ _ _ _ (push_off_run me m c Hc)).
  unfold spin_holding, lock_get. ksimp. cbn [m_locks set_cpu]. by rewrite (proj1 (Hh l) Hl).
Qed.

Lemma spin_release_held me e m hs l :
  lock_rel me e m hs -> l ∈ hs ->
  exists m', spin_release me l m = Ok tt m' /\ lock_rel me e m' (filter (fun x => x <> l) hs).
Proof.
  intros [(c & Hc & Hn & Hi) Hh Hnd] Hl.
  assert (me < length (m_cpus m))%nat as Hlt by (by eapply lookup_lt_Some).
  assert (hs <> []) as Hne by (intros ->; by apply elem_of_nil in Hl). rewrite decide_False in Hi by done.
  destruct Hi as [Hsie Hint].
  assert (hs ≡ₚ l :: filter (fun x => x <> l) hs) as Hp.
  { apply NoDup_Permutation; [done| |].
    - constructor; [|by apply NoDup_filter]. rewrite list_elem_of_filter. tauto.
    - intros x. rewrite elem_of_cons, list_elem_of_filter. destruct (decide (x = l)); naive_solver. }
  assert (length hs = S (length (filter (fun x => x <> l) hs))) as Hlen by (by rewrite Hp at 1).
  unfold spin_release, spin_holding, lock_get, lock_put. ksimp. rewrite (proj1 (Hh l) Hl). cbn [negb].
  unfold panic_if, when. ksimp. set (m1 := set_lock l _ (set_lock l _ m)).
  rewrite (pop_off_run me m1 c Hc Hsie ltac:(lia)). eexists. split; [reflexivity|]. split.
  - eexists. split; [by apply set_cpu_lookup|]. cbn [c_noff c_sie c_intena]. split; [lia|].
    destruct (decide _) as [E|E].
    + rewrite E in Hlen. replace (c_noff c - 1 =? 0) with true; [done|]. symmetry. apply Z.eqb_eq. cbn in Hlen. lia.
    + split; [|done]. replace (c_noff c - 1 =? 0) with false; [done|]. symmetry. apply Z.eqb_neq.
      destruct (filter (fun x => x <> l) hs); [done|]. cbn in Hlen. lia.
  - intros x. cbn [m_locks set_cpu]. rewrite list_elem_of_filter. destruct (decide (x = l)) as [->|Hx].
    + unfold m1. rewrite set_lock_same. unfold holds. cbn. split; [tauto|done].
    + unfold m1. rewrite !set_lock_other by done. rewrite Hh. tauto.
  - by apply NoDup_filter.
Qed.

Lemma spin_release_not_held me e m hs l : lock_rel me e m hs -> l ∉ hs -> spin_release me l m = Panic "release".
Proof.
  intros [_ Hh _] Hl. unfold spin_release, spin_holding, lock_get. ksimp.
  destruct (holds me (m_locks m l)) eqn:E; [|done]. by apply Hh in E.
Qed.

(** ** One lock, many harts

    A hart runs [acquire] and [release] of one lock over and over, and the harts
    interleave at every change of the lock's fields ([holding] reads two of
    them in one step).  [Try]: before the atomic
    swap; [Got]: the swap returned 0, [lk->cpu] is not yet set; [Crit]: between
    [acquire] and [release]; [Rel]: [release] has cleared [lk->cpu]; [Stop]: a
    call of [panic]. *)
Inductive pc : Type := Idle | Try | Got | Crit | Rel | Stop.

Record conf : Type := mk_conf { cf_lock : spinlock; cf_pc : nat -> pc }.

Definition goto (c : nat) (p : pc) (f : nat -> pc) : nat -> pc := fun x => if decide (x = c) then p else f x.

(** One access of the lock by hart [c]. *)
Inductive lstep (c : nat) : conf -> conf -> Prop :=
| l_check k f : f c = Idle -> holds c k = false -> lstep c (mk_conf k f) (mk_conf k (goto c Try f))
| l_check_panic k f : f c = Idle -> holds c k = true -> lstep c (mk_conf k f) (mk_conf k (goto c Stop f))
| l_spin k f : f c = Try -> lk_locked k <> 0 ->
    lstep c (mk_conf k f) (mk_conf (mk_spinlock 1 (lk_cpu k)) f)
| l_take k f : f c = Try -> lk_locked k = 0 ->
    lstep c (mk_conf k f) (mk_conf (mk_spinlock 1 (lk_cpu k)) (goto c Got f))
| l_own k f : f c = Got -> lstep c (mk_conf k f) (mk_conf (mk_spinlock (lk_locked k) (Some c)) (goto c Crit f))
| l_clear k f : f c = Crit -> holds c k = true ->
    lstep c (mk_conf k f) (mk_conf (mk_spinlock (lk_locked k) None) (goto c Rel f))
| l_clear_panic k f : f c = Crit -> holds c k = false -> lstep c (mk_conf k f) (mk_conf k (goto c Stop f))
| l_free k f : f c = Rel -> lstep c (mk_conf k f) (mk_conf (mk_spinlock 0 (lk_cpu k)) (goto c Idle f)).

Inductive reachable : conf -> Prop :=
| r_init : reachable (mk_conf (mk_spinlock 0 None) (fun _ => Idle))
| r_step c s t : reachable s -> lstep c s t -> reachable t.

(** The hart has taken the lock and not yet given it back. *)
Definition taken (p : pc) : bool := match p with Got | Crit | Rel => true | _ => false end.

Record lock_ok (s : conf) : Prop := {
  lo_word : lk_locked (cf_lock s) = 0 \/ lk_locked (cf_lock s) = 1;
  lo_free : lk_locked (cf_lock s) = 0 -> forall c, taken (cf_pc s c) = false;
  lo_one : forall c d, taken (cf_pc s c) = true -> taken (cf_pc s d) = true -> c = d;
  lo_cpu : forall c, lk_cpu (cf_lock s) = Some c <-> cf_pc s c = Crit;
  lo_run : forall c, cf_pc s c <> Stop
}.

Lemma goto_same c p f : goto c p f c = p.
Proof. unfold goto. by rewrite decide_True. Qed.
Lemma goto_other c d p f : d <> c -> goto c p f d = f d.
Proof. unfold goto. intros H. by rewrite decide_False. Qed.

Lemma holds_iff c k : lk_locked k = 0 \/ lk_locked k = 1 -> holds c k = true <-> lk_locked k = 1 /\ lk_cpu k = Some c.
Proof.
  intros H. unfold holds. rewrite andb_true_iff, negb_true_iff, Z.eqb_neq, bool_decide_eq_true.
  intuition lia.
Qed.

Ltac pcs c :=
  repeat match goal with
  | |- context [goto c ?p ?f c] => rewrite (goto_same c p f)
  | H : ?d <> c |- context [goto c ?p ?f ?d] => rewrite (goto_other c d p f H)
  | |- context [goto c ?p ?f ?d] => destruct (decide (d = c)) as [->|?]
  end.

Lemma others_out (f : nat -> pc) c :
  (forall c d, taken (f c) = true -> taken (f d) = true -> c = d) -> taken (f c) = true ->
  forall d, d <> c -> taken (f d) = false.
Proof. intros H Hc d Hd. destruct (taken (f d)) eqn:E; [|done]. exfalso. by apply Hd, H. Qed.

Lemma lock_ok_step c s t : lock_ok s -> lstep c s t -> lock_ok t.
Proof.
  intros [Hw Hf H1 Hc Hr] Hs.
  inversion Hs as [k f Hp Hh|k f Hp Hh|k f Hp Hl|k f Hp Hl|k f Hp|k f Hp Hh|k f Hp Hh|k f Hp]; subst; cbn in *.
  - split; cbn; try done.
    + intros E d. pcs c; [done|by apply Hf].
    + intros d e. pcs c; try done. intros. by apply H1.
    + intros d. pcs c; [|apply Hc]. split; [intros E%Hc; congruence|done].
    + intros d. pcs c; [done|apply Hr].
  - exfalso. apply (holds_iff c k Hw) in Hh as [_ Hh%Hc]. congruence.
  - replace (mk_spinlock 1 (lk_cpu k)) with k; [by split|]. destruct k. cbn in *. f_equal. lia.
  - split; cbn; try done.
    + by right.
    + intros d e. pcs c; try done; rewrite Hf by done; done.
    + intros d. pcs c; [|apply Hc]. split; [intros E%Hc; congruence|done].
    + intros d. pcs c; [done|apply Hr].
  - assert (forall d, d <> c -> taken (f d) = false) as Ho by (by apply others_out; [|rewrite Hp]).
    split; cbn; try done.
    + intros E. specialize (Hf E c). by rewrite Hp in Hf.
    + intros d e. pcs c; try done; rewrite Ho by done; done.
    + intros d. pcs c; [done|]. split; [intros [= <-]; done|]. intros E. specialize (Ho d ltac:(done)). by rewrite E in Ho.
    + intros d. pcs c; [done|apply Hr].
  - assert (forall d, d <> c -> taken (f d) = false) as Ho by (by apply others_out; [|rewrite Hp]).
    split; cbn; try done.
    + intros E. specialize (Hf E c). by rewrite Hp in Hf.
    + intros d e. pcs c; try done; rewrite Ho by done; done.
    + intros d. pcs c; [done|]. split; [done|]. intros E. specialize (Ho d ltac:(done)). by rewrite E in Ho.
    + intros d. pcs c; [done|apply Hr].
  - exfalso. destruct Hw as [Hw|Hw]; [specialize (Hf Hw c); by rewrite Hp in Hf|].
    assert (holds c k = true) as E; [|congruence]. apply holds_iff; [by right|]. split; [done|]. by apply Hc.
  - assert (forall d, d <> c -> taken (f d) = false) as Ho by (by apply others_out; [|rewrite Hp]).
    split; cbn; try done.
    + by left.
    + intros _ d. pcs c; [done|by apply Ho].
    + intros d e. pcs c; try done; rewrite Ho by done; done.
    + intros d. pcs c; [|apply Hc]. split; [intros E%Hc; congruence|done].
    + intros d. pcs c; [done|apply Hr].
Qed.

Lemma reachable_ok s : reachable s -> lock_ok s.
Proof.
  induction 1 as [|c s t _ IH Hs]; [|by eapply lock_ok_step].
  split; cbn; try done; by left.
Qed.

(** ** Properties *)

(** C7: mutual exclusion.  However the harts interleave their accesses to a spin
    lock, at most one of them is between [acquire] and [release], [holding]
    is true on that hart and on no other, and neither [acquire] nor [release]
    panics. *)
Theorem spinlock_excludes s :
  reachable s ->
  (forall c d, cf_pc s c = Crit -> cf_pc s d = Crit -> c = d) /\
  (forall c, holds c (cf_lock s) = true <-> cf_pc s c = Crit) /\
  (forall c, cf_pc s c <> Stop).
Proof.
  intros [Hw Hf H1 Hc Hr]%reachable_ok. split; [|split; [|done]].
  - intros c d Ec Ed. apply H1; [by rewrite Ec|by rewrite Ed].
  - intros c. rewrite (holds_iff c _ Hw), Hc. split; [tauto|]. intros E. split; [|done].
    destruct Hw as [Hw|Hw]; [|done]. specialize (Hf Hw c). by rewrite E in Hf.
Qed.

Definition hart0_in : conf := mk_conf (mk_spinlock 1 (Some 0%nat)) (goto 0 Crit (goto 0 Got (goto 0 Try (fun _ => Idle)))).

Lemma spinlock_witness : holds 0 (cf_lock hart0_in) = true <-> cf_pc hart0_in 0 = Crit.
Proof.
  apply (spinlock_excludes hart0_in).
  apply (r_step 0 (mk_conf (mk_spinlock 1 None) (goto 0 Got (goto 0 Try (fun _ => Idle))))).
  - apply (r_step 0 (mk_conf (mk_spinlock 0 None) (goto 0 Try (fun _ => Idle)))).
    + apply (r_step 0 (mk_conf (mk_spinlock 0 None) (fun _ => Idle))); [apply r_init|].
      apply l_check; reflexivity.
    + apply (l_take 0 (mk_spinlock 0 None)); reflexivity.
  - apply (l_own 0 (mk_spinlock 1 None)). reflexivity.
Defined.

(** [acquire] and [release] of kernel/spinlock.c implement the lock sets that
    the rest of the model is written with: they panic exactly when those do,
    and otherwise hold the same locks, count them in [noff], and keep
    interrupts off until the last one is released. *)
Theorem spin_refines_sets me e m s l :
  lock_rel me e m (k_held s) -> (lk_locked (m_locks m l) = 0 \/ holds me (m_locks m l) = true) ->
  match acquire l s with
  | Ok _ s' => exists m', spin_acquire me l m = Ok tt m' /\ lock_rel me e m' (k_held s')
  | Panic msg => spin_acquire me l m = Panic msg
  | _ => False
  end /\
  match release l s with
  | Ok _ s' => exists m', spin_release me l m = Ok tt m' /\ lock_rel me e m' (k_held s')
  | Panic msg => spin_release me l m = Panic msg
  | _ => False
  end.
Proof.
  intros Hrel Hmine. unfold acquire, release. destruct (decide (l ∈ k_held s)) as [Hin|Hin].
  - split; [by eapply spin_acquire_held|by apply spin_release_held].
  - split; [|by eapply spin_release_not_held].
    apply spin_acquire_free; [done|done|]. destruct Hmine as [|Hm]; [done|]. by apply (lr_held _ _ _ _ Hrel) in Hm.
Qed.

(** [push_off] and [pop_off] nest: after as many calls of the one as of the
    other, the hart's interrupt-enable bit is what it was, and no [pop_off]
    panics. *)
Theorem push_pop_nest me n m c :
  m_cpus m !! me = Some c -> c_noff c = 0 ->
  exists c', (times (S n) (push_off me) ;;; times (S n) (pop_off me)) m = Ok tt (set_cpu me c' m) /\
    c_noff c' = 0 /\ c_sie c' = c_sie c.
Proof.
  intros Hc Hn. assert (me < length (m_cpus m))%nat as Hlt by (by eapply lookup_lt_Some).
  cbn [times]. rewrite !bind_assoc. rewrite (bind_ok _ _ _ _ _ (push_off_run me m c Hc)). rewrite Hn. cbn [Z.eqb Z.add].
  set (c1 := mk_cpu 1 (c_sie c) false). set (m1 := set_cpu me c1 m).
  assert (m_cpus m1 !! me = Some c1) as H1 by (by apply set_cpu_lookup).
  rewrite (bind_ok _ _ _ _ _ (pushes me n m1 c1 H1 ltac:(done))).
  set (c2 := mk_cpu (1 + Z.of_nat n) (c_sie c) false).
  replace (if decide (n = 0%nat) then m1 else _) with (set_cpu me c2 m).
  2:{ destruct (decide (n = 0%nat)) as [->|]; [done|]. unfold m1. by rewrite set_cpu_set_cpu. }
  set (m2 := set_cpu me c2 m). assert (m_cpus m2 !! me = Some c2) as H2 by (by apply set_cpu_lookup).
  rewrite times_snoc. rewrite (bind_ok _ _ _ _ _ (pops me n m2 c2 H2 eq_refl ltac:(cbn; lia))).
  set (c3 := mk_cpu _ _ _). set (m3 := set_cpu me c3 m2).
  assert (m_cpus m3 !! me = Some c3) as H3 by (apply set_cpu_lookup; cbn; by rewrite length_insert).
  assert (c_noff c3 = 1) as E3 by (cbn; lia).
  rewrite (pop_off_run me m3 c3 H3 eq_refl ltac:(lia)). unfold m3, m2. rewrite !set_cpu_set_cpu.
  eexists. split; [reflexivity|]. rewrite E3. done.
Qed.

(** Two harts with interrupts on, no lock held. *)
Definition smp0 : smp := mk_smp (replicate 2 (mk_cpu 0 false true)) (fun _ => mk_spinlock 0 None).

Lemma push_pop_witness : exists c',
  (times 3 (push_off 0) ;;; times 3 (pop_off 0)) smp0 = Ok tt (set_cpu 0 c' smp0) /\ c_noff c' = 0 /\ c_sie c' = true.
Proof. apply (push_pop_nest 0 2 smp0 (mk_cpu 0 false true)); reflexivity. Defined.
