(* ===== verification/Sched.v ===== *)
(** * Switching, sleeping and waking (kernel/proc.c)

    The part of [kernel/proc.c] that the locks and the file system are built
    on: [sched], [yield], [sleep], [wakeup] and the [killed] flag.  A call of
    [swtch] gives the processor away: the next move of the other threads is
    taken from [k_sched], and the thread comes back only if that move has left
    its process runnable. *)

From S2P Require Import Prelude Riscv Mem Cstring State.

(** A pointer to a process, as a sleep channel. *)
Definition chan_of (p : option nat) : chan := match p with Some i => Cproc i | None => Cnull end.

Definition procs_idx : list nat := seq 0 (Z.to_nat NPROC).

Definition myproc : M kstate (option nat) := gets k_cur.

(** [myproc()] where the code goes on to dereference it. *)
Definition curproc : M kstate nat :=
  let! p := myproc in
  match p with Some i => ret i | None => fault "myproc is null" end.

Definition holding (l : lockid) : M kstate bool := gets (fun s => bool_decide (l ∈ k_held s)).

Section sched.
Context {EN : Env}.

(** From [swtch(&p->context, &mycpu()->context)] to its return: [scheduler]
    releases [p->lock], other threads run, and when [scheduler] finds the
    process runnable it takes [p->lock], makes it running and switches back. *)
Definition swtch (p : nat) : M kstate unit := fun s =>
  match k_sched s with
  | [] => Block s
  | e :: es =>
      let s1 := set_k_sched es (envstep e (set_k_sched es s)) in
      match k_procs s1 !! p with
      | Some pr =>
          if decide (p_state pr = RUNNABLE) then
            Ok tt (set_k_cur (Some p) (set_k_held (k_held s)
                     (set_k_procs (<[p := set_p_state RUNNING pr]> (k_procs s1)) s1)))
          else Block s1
      | None => Block s1
      end
  end.

(** [mycpu()->noff] is the number of spin locks held, and interrupts are off
    while it is not zero. *)
Definition sched : M kstate unit :=
  let! p := curproc in
  let! h := holding (Lproc p) in
  panic_if (negb h) "sched p->lock" ;;;
  let! hs := gets k_held in
  panic_if (negb (Z.of_nat (length hs) =? 1)) "sched locks" ;;;
  let! pr := proc_get p in
  panic_if (bool_decide (p_state pr = RUNNING)) "sched running" ;;;
  swtch p.

Definition yield : M kstate unit :=
  let! p := curproc in
  acquire (Lproc p) ;;;
  proc_mod p (set_p_state RUNNABLE) ;;;
  sched ;;;
  release (Lproc p).

Definition sleep (c : chan) (lk : lockid) : M kstate unit :=
  let! p := curproc in
  acquire (Lproc p) ;;;
  release lk ;;;
  proc_mod p (set_p_chan c) ;;;
  proc_mod p (set_p_state SLEEPING) ;;;
  sched ;;;
  proc_mod p (set_p_chan Cnull) ;;;
  release (Lproc p) ;;;
  acquire lk.

End sched.

(** The body of the loop of [wakeup]. *)
Definition wakeup_one (c : chan) (p : nat) : M kstate unit :=
  let! me := myproc in
  when (negb (bool_decide (Some p = me)))
    (acquire (Lproc p) ;;;
     let! pr := proc_get p in
     when (bool_decide (p_state pr = SLEEPING) && bool_decide (p_chan pr = c))
       (proc_mod p (set_p_state RUNNABLE)) ;;;
     release (Lproc p)).

Definition wakeup (c : chan) : M kstate unit := mfor procs_idx (wakeup_one c).

(** [kill]: the first process with the given pid. *)
Definition kill (pid : Z) : M kstate Z :=
  let! r := mfind procs_idx (fun p =>
    acquire (Lproc p) ;;;
    let! pr := proc_get p in
    if p_pid pr =? pid then
      proc_mod p (set_p_killed 1) ;;;
      when (bool_decide (p_state pr = SLEEPING)) (proc_mod p (set_p_state RUNNABLE)) ;;;
      release (Lproc p) ;;;
      ret (Some tt)
    else
      release (Lproc p) ;;;
      ret None) in
  match r with Some _ => ret 0 | None => ret (-1) end.

Definition setkilled (p : nat) : M kstate unit :=
  acquire (Lproc p) ;;;
  proc_mod p (set_p_killed 1) ;;;
  release (Lproc p).

Definition killed (p : nat) : M kstate Z :=
  acquire (Lproc p) ;;;
  let! pr := proc_get p in
  release (Lproc p) ;;;
  ret (p_killed pr).
