(* ===== verification/SchedSpec.v ===== *)
(** * What [wakeup], [kill] and [sleep] do to the process table *)

From S2P Require Import Prelude Riscv Mem Cstring State Sched.

(** No process lock is held. *)
Definition no_plock (hs : list lockid) : Prop := forall i, Lproc i ∉ hs.

(** ** wakeup *)

(** [wakeup(chan)] on process [i]. *)
Definition wake (me : option nat) (c : chan) (i : nat) (p : proc) : proc :=
  if bool_decide (Some i = me) then p
  else if bool_decide (p_state p = SLEEPING) && bool_decide (p_chan p = c) then set_p_state RUNNABLE p
  else p.

Lemma wakeup_one_run c s i p :
  k_procs s !! i = Some p -> no_plock (k_held s) ->
  wakeup_one c i s = Ok tt (set_k_procs (<[i := wake (k_cur s) c i p]> (k_procs s)) s).
Proof.
  intros Hp Hl. unfold wakeup_one, wake. unfold bind at 1, myproc, gets.
  destruct (bool_decide (Some i = k_cur s)); cbn [negb when].
  { unfold ret. rewrite list_insert_id by done. by destruct s. }
  unfold when. rewrite (bind_ok _ _ _ _ _ (acquire_ok _ _ (Hl i))).
  unfold bind at 1, proc_get, tab_get. cbn [k_procs set_k_held]. rewrite Hp.
  destruct (_ && _) eqn:E.
  - unfold bind, proc_mod, modify. cbn. erewrite release_ok by (cbn; first [reflexivity|apply Hl]).
    cbn. unfold set_k_held, set_k_procs. cbn. do 3 f_equal.
    rewrite list_insert_alter. apply list_alter_ext; [|done]. intros x Hx. congruence.
  - unfold bind, ret. erewrite release_ok by (cbn; first [reflexivity|apply Hl]).
    rewrite list_insert_id by done. by destruct s.
Qed.

(** The process table after [wakeup], entry by entry. *)
Definition wake_all (me : option nat) (c : chan) (ps : list proc) : list proc := imap (wake me c) ps.

Lemma wake_all_length me c ps : length (wake_all me c ps) = length ps.
Proof. apply length_imap. Qed.

Lemma wake_all_lookup me c ps i : wake_all me c ps !! i = wake me c i <$> ps !! i.
Proof. apply list_lookup_imap. Qed.

Definition wake_upto (n : nat) (me : option nat) (c : chan) (ps : list proc) : list proc :=
  imap (fun i p => if decide (i < n)%nat then wake me c i p else p) ps.

Lemma wakeup_loop c s : no_plock (k_held s) -> forall n,
  (n <= length (k_procs s))%nat ->
  mfor (seq 0 n) (wakeup_one c) s = Ok tt (set_k_procs (wake_upto n (k_cur s) c (k_procs s)) s).
Proof.
  intros Hl. induction n as [|n IH]; intros Hn.
  - cbn. unfold ret, wake_upto. replace (imap _ (k_procs s)) with (k_procs s); [by destruct s|].
    apply list_eq. intros i. rewrite list_lookup_imap. by destruct (k_procs s !! i).
  - rewrite seq_S. cbn [Nat.add].
    rewrite mfor_app, (bind_ok _ _ _ _ _ (IH ltac:(lia))). cbn [mfor].
    destruct (lookup_lt_is_Some_2 (k_procs s) n) as [p Hp]; [lia|].
    assert (wake_upto n (k_cur s) c (k_procs s) !! n = Some p) as Hp'.
    { unfold wake_upto. rewrite list_lookup_imap, Hp. cbn. by rewrite decide_False by lia. }
    rewrite (bind_ok _ _ _ _ _ (wakeup_one_run c (set_k_procs (wake_upto n (k_cur s) c (k_procs s)) s) n p Hp' Hl)). cbn. unfold ret.
    cut (forall l l', l = l' -> Ok tt (set_k_procs l s) = Ok (S := kstate) tt (set_k_procs l' s)); [|by intros ? ? ->].
    intros Hcong. apply Hcong. apply list_eq. intros j. cbn.
    destruct (decide (j = n)) as [->|Hj].
    + rewrite list_lookup_insert_eq by (unfold wake_upto; rewrite length_imap; lia).
      unfold wake_upto. rewrite list_lookup_imap, Hp. cbn. by rewrite decide_True by lia.
    + rewrite list_lookup_insert_ne by done. unfold wake_upto. rewrite !list_lookup_imap.
      destruct (k_procs s !! j); [|done]. cbn. do 2 f_equal.
      destruct (decide (j < n)%nat), (decide (j < S n)%nat); try done; lia.
Qed.

Lemma wakeup_run c s :
  no_plock (k_held s) -> length (k_procs s) = Z.to_nat NPROC ->
  wakeup c s = Ok tt (set_k_procs (wake_all (k_cur s) c (k_procs s)) s).
Proof.
  intros Hl Hn. unfold wakeup, procs_idx. rewrite <- Hn, wakeup_loop by done.
  unfold wake_all. do 2 f_equal. apply imap_ext. intros i p Hp. apply lookup_lt_Some in Hp. by rewrite decide_True.
Qed.

(** ** kill *)

(** What [kill] does to the process it finds. *)
Definition kill_proc (p : proc) : proc :=
  let p' := set_p_killed 1 p in
  if bool_decide (p_state p = SLEEPING) then set_p_state RUNNABLE p' else p'.

Definition kill_try (pid : Z) (p : nat) : M kstate (option unit) :=
  acquire (Lproc p) ;;;
  let! pr := proc_get p in
  if p_pid pr =? pid then
    proc_mod p (set_p_killed 1) ;;;
    when (bool_decide (p_state pr = SLEEPING)) (proc_mod p (set_p_state RUNNABLE)) ;;;
    release (Lproc p) ;;;
    ret (Some tt)
  else
    release (Lproc p) ;;;
    ret None.

Lemma kill_try_run pid i p s :
  k_procs s !! i = Some p -> no_plock (k_held s) ->
  kill_try pid i s =
    if p_pid p =? pid then Ok (Some tt) (set_k_procs (<[i := kill_proc p]> (k_procs s)) s) else Ok None s.
Proof.
  intros Hp Hl. unfold kill_try. rewrite (bind_ok _ _ _ _ _ (acquire_ok _ _ (Hl i))).
  unfold bind at 1, proc_get, tab_get. cbn [k_procs set_k_held]. rewrite Hp.
  destruct (p_pid p =? pid).
  - assert (i < length (k_procs s))%nat by (eapply lookup_lt_Some; eauto).
    unfold kill_proc, bind, proc_mod, modify, when. cbn.
    destruct (bool_decide _); cbn; (erewrite release_ok by (cbn; first [reflexivity|apply Hl]));
      cbn; unfold ret, set_k_held, set_k_procs; cbn; do 3 f_equal;
      rewrite ?list_alter_compose; apply list_eq; intros j; destruct (decide (j = i)) as [->|];
      rewrite ?list_lookup_alter_eq, ?list_lookup_alter_ne, ?list_lookup_insert_eq, ?list_lookup_insert_ne,
        ?Hp by done; done.
  - unfold bind. erewrite release_ok by (cbn; first [reflexivity|apply Hl]).
    by destruct s.
Qed.

Lemma kill_scan pid s : no_plock (k_held s) -> forall ps k,
  drop k (k_procs s) = ps ->
  mfind (seq k (length ps)) (kill_try pid) s =
    match list_find (fun p => p_pid p = pid) ps with
    | Some (i, p) => Ok (Some tt) (set_k_procs (<[(k + i)%nat := kill_proc p]> (k_procs s)) s)
    | None => Ok None s
    end.
Proof.
  intros Hl. induction ps as [|p ps IH]; intros k Hk; [done|]. cbn [length seq mfind list_find].
  assert (k_procs s !! k = Some p) as Hp.
  { rewrite <- (Nat.add_0_r k), <- lookup_drop, Hk. done. }
  unfold bind. rewrite (kill_try_run pid k p s Hp Hl).
  destruct (decide (p_pid p = pid)) as [E|E].
  - rewrite (proj2 (Z.eqb_eq _ _) E). cbn. by rewrite Nat.add_0_r.
  - rewrite (proj2 (Z.eqb_neq _ _) E). rewrite (IH (S k)).
    + destruct (list_find _ ps) as [[j q]|]; [|done]. cbn. by rewrite Nat.add_succ_r.
    + rewrite <- Nat.add_1_r, <- drop_drop, Hk. done.
Qed.

Lemma kill_run pid s :
  no_plock (k_held s) -> length (k_procs s) = Z.to_nat NPROC ->
  kill pid s =
    match list_find (fun p => p_pid p = pid) (k_procs s) with
    | Some (i, p) => Ok 0 (set_k_procs (<[i := kill_proc p]> (k_procs s)) s)
    | None => Ok (-1) s
    end.
Proof.
  intros Hl Hn. unfold kill. fold (kill_try pid). unfold procs_idx. rewrite <- Hn.
  unfold bind at 1. rewrite (kill_scan pid s Hl (k_procs s) 0 eq_refl).
  by destruct (list_find _ _) as [[i p]|].
Qed.
