(* ===== verification/Harts.v ===== *)
(** * The scheduler on several harts (kernel/proc.c)

    [scheduler], [sched], [yield], [sleep], [wakeup] and what [fork], [exit],
    [wait] and [kill] do to [p->state], as steps of harts that run at the same
    time.  A step is an access to shared memory: taking or releasing a lock, or
    one access to the process that a lock protects.  A condition stands for what
    a caller of [sleep] waits for, with the lock that it passes and its channel. *)

From S2P Require Import Prelude State.

(** Where the kernel thread of a process is.  The positions from [RYield] on are
    those of a thread that [swtch] has just resumed. *)
Inductive tpos : Type :=
| TOut                      (* no lock is held *)
| TCrit (c : nat)           (* with the lock of condition [c] *)
| TYield | TYielded         (* in yield: p->lock is held; the state is set *)
| TSleep1 (c : nat)         (* in sleep: p->lock and lk are held *)
| TSleep2 (c : nat)         (* lk is released *)
| TSleep3 (c : nat)         (* p->chan is set *)
| TSleep4 (c : nat)         (* p->state is set *)
| TExit | TExited           (* in exit *)
| RYield | RFork | RDead
| RSleep (c : nat)          (* in sleep, after sched *)
| RSleep2 (c : nat)         (* p->chan is cleared *)
| RSleep3 (c : nat).        (* p->lock is released *)

(** What is done to another process while its lock is held. *)
Inductive visit : Type :=
| VWake (c : nat)           (* the loop of wakeup *)
| VKill                     (* kill *)
| VAlloc                    (* allocproc, called by fork *)
| VStart                    (* the end of fork *)
| VReap.                    (* wait *)

Inductive phase : Type := Acq | Test | Rel.

(** Where a hart is: in the loop of [scheduler] at process [k], in the thread of a
    process, or in a routine that visits process [j] and returns to [r]. *)
Inductive hpos : Type :=
| HScan (k : nat)
| HTest (k : nat)
| HBack (k : nat)
| HRel (k : nat)
| HThr (i : nat) (t : tpos)
| HVisit (v : visit) (j : nat) (ph : phase) (r : hpos).

(** [p->state], [p->chan], the hart that holds [p->lock] and where [p->context]
    resumes. *)
Record pcb : Type := mk_pcb { pc_state : procstate; pc_chan : option nat; pc_lock : option nat; pc_ctx : tpos }.
Definition set_pc_state (v : procstate) (p : pcb) : pcb := mk_pcb v (pc_chan p) (pc_lock p) (pc_ctx p).
Definition set_pc_chan (v : option nat) (p : pcb) : pcb := mk_pcb (pc_state p) v (pc_lock p) (pc_ctx p).
Definition set_pc_lock (v : option nat) (p : pcb) : pcb := mk_pcb (pc_state p) (pc_chan p) v (pc_ctx p).
Definition set_pc_ctx (v : tpos) (p : pcb) : pcb := mk_pcb (pc_state p) (pc_chan p) (pc_lock p) v.

(** [c->proc], and the variable [p] of [scheduler], which [c->context] keeps. *)
Record hart : Type := mk_hart { h_pos : hpos; h_proc : option nat; h_sched : nat }.

(** A condition: the hart that holds its lock, and whether it is true. *)
Record cnd : Type := mk_cnd { cn_lock : option nat; cn_val : bool }.
Definition set_cn_lock (v : option nat) (c : cnd) : cnd := mk_cnd v (cn_val c).
Definition set_cn_val (v : bool) (c : cnd) : cnd := mk_cnd (cn_lock c) v.

(** The processes, the harts, the conditions, and the variable [np] of a [fork]
    in progress in each process. *)
Record sys : Type := mk_sys { procs : list pcb; harts : list hart; cnds : list cnd; newp : list (option nat) }.
Definition set_hart (h : nat) (x : hart) (s : sys) : sys := mk_sys (procs s) (<[h := x]> (harts s)) (cnds s) (newp s).
Definition on_pcb (i : nat) (f : pcb -> pcb) (s : sys) : sys := mk_sys (alter f i (procs s)) (harts s) (cnds s) (newp s).
Definition on_cnd (c : nat) (f : cnd -> cnd) (s : sys) : sys := mk_sys (procs s) (harts s) (alter f c (cnds s)) (newp s).
Definition set_newp (i : nat) (v : option nat) (s : sys) : sys := mk_sys (procs s) (harts s) (cnds s) (<[i := v]> (newp s)).

(** A step: the next state, waiting for a lock, or a panic. *)
Inductive res : Type := Next (s : sys) | Wait | Bad (msg : string).

(** What a thread does next where it has a choice. *)
Inductive act : Type :=
| Go | AYield | AExit | AEnter (c : nat) | ALeave | ASleep | ASignal | AClear
| AKill (j : nat) | AAlloc (j : nat) | AStart | AReap (j : nat)
| AIntr (c : nat).          (* an interrupt whose handler calls wakeup *)

Definition acquire_p (h i : nat) (s : sys) : res :=
  match procs s !! i with
  | None => Wait
  | Some p =>
      match pc_lock p with
      | None => Next (on_pcb i (set_pc_lock (Some h)) s)
      | Some h' => if decide (h' = h) then Bad "acquire" else Wait
      end
  end.

Definition release_p (h i : nat) (s : sys) : res :=
  match procs s !! i with
  | None => Wait
  | Some p => if decide (pc_lock p = Some h) then Next (on_pcb i (set_pc_lock None) s) else Bad "release"
  end.

Definition acquire_c (h c : nat) (s : sys) : res :=
  match cnds s !! c with
  | None => Wait
  | Some x =>
      match cn_lock x with
      | None => Next (on_cnd c (set_cn_lock (Some h)) s)
      | Some h' => if decide (h' = h) then Bad "acquire" else Wait
      end
  end.

Definition release_c (h c : nat) (s : sys) : res :=
  match cnds s !! c with
  | None => Wait
  | Some x => if decide (cn_lock x = Some h) then Next (on_cnd c (set_cn_lock None) s) else Bad "release"
  end.

(** [mycpu()->noff]: the locks that the hart holds. *)
Definition noff (h : nat) (s : sys) : nat :=
  (length (filter (fun p => pc_lock p = Some h) (procs s)) + length (filter (fun c => cn_lock c = Some h) (cnds s)))%nat.

Definition then_pos (h : nat) (x : hart) (pos : hpos) (r : res) : res :=
  match r with Next s => Next (set_hart h (mk_hart pos (h_proc x) (h_sched x)) s) | r => r end.
Definition goto (h : nat) (x : hart) (pos : hpos) (s : sys) : res := Next (set_hart h (mk_hart pos (h_proc x) (h_sched x)) s).

(** [sched] of process [i], which [p->context] resumes at [t], and the switch to
    the scheduler of the hart. *)
Definition sched_step (h : nat) (x : hart) (i : nat) (t : tpos) (s : sys) : res :=
  match procs s !! i with
  | None => Wait
  | Some p =>
      if negb (bool_decide (pc_lock p = Some h)) then Bad "sched p->lock"
      else if negb (noff h s =? 1)%nat then Bad "sched locks"
      else if bool_decide (pc_state p = RUNNING) then Bad "sched running"
      else Next (set_hart h (mk_hart (HBack (h_sched x)) (h_proc x) (h_sched x)) (on_pcb i (set_pc_ctx t) s))
  end.

(** The loop of [scheduler]; [swtch] to a process loads its context. *)
Definition scheduler_step (h : nat) (x : hart) (s : sys) : res :=
  match h_pos x with
  | HScan k => if decide (k < length (procs s))%nat then then_pos h x (HTest k) (acquire_p h k s) else goto h x (HScan 0) s
  | HTest k =>
      match procs s !! k with
      | None => Wait
      | Some p =>
          if decide (pc_state p = RUNNABLE)
          then Next (set_hart h (mk_hart (HThr k (pc_ctx p)) (Some k) k) (on_pcb k (set_pc_state RUNNING) s))
          else goto h x (HRel k) s
      end
  | HBack k => Next (set_hart h (mk_hart (HRel k) None (h_sched x)) s)
  | HRel k => then_pos h x (HScan (S k)) (release_p h k s)
  | _ => Wait
  end.

(** What a visit does to the process. *)
Definition visited (v : visit) (p : pcb) : pcb :=
  match v with
  | VWake c => if decide (pc_state p = SLEEPING /\ pc_chan p = Some c) then set_pc_state RUNNABLE p else p
  | VKill => if decide (pc_state p = SLEEPING) then set_pc_state RUNNABLE p else p
  | VAlloc => if decide (pc_state p = UNUSED) then set_pc_ctx RFork (set_pc_state USED p) else p
  | VStart => set_pc_state RUNNABLE p
  | VReap => if decide (pc_state p = ZOMBIE) then set_pc_chan None (set_pc_state UNUSED p) else p
  end.

(** The variable [np] of the process that forks. *)
Definition note_new (v : visit) (j : nat) (p : pcb) (x : hart) (s : sys) : sys :=
  match v, h_proc x with
  | VAlloc, Some i => if decide (pc_state p = UNUSED) then set_newp i (Some j) s else s
  | VStart, Some i => set_newp i None s
  | _, _ => s
  end.

Definition visit_step (h : nat) (x : hart) (s : sys) : res :=
  match h_pos x with
  | HVisit v j Acq r =>
      match v with
      | VWake c =>
          if decide (j < length (procs s))%nat then
            if decide (h_proc x = Some j) then goto h x (HVisit v (S j) Acq r) s
            else then_pos h x (HVisit v j Test r) (acquire_p h j s)
          else goto h x r s
      | _ => then_pos h x (HVisit v j Test r) (acquire_p h j s)
      end
  | HVisit v j Test r =>
      match procs s !! j with
      | None => Wait
      | Some p => goto h x (HVisit v j Rel r) (note_new v j p x (on_pcb j (visited v) s))
      end
  | HVisit v j Rel r =>
      then_pos h x (match v with VWake c => HVisit v (S j) Acq r | _ => r end) (release_p h j s)
  | _ => Wait
  end.

(** [np] of the thread's process. *)
Definition forking (i : nat) (s : sys) : option nat := default None (newp s !! i).

(** The kernel thread of process [i]. *)
Definition thread_step (h : nat) (x : hart) (i : nat) (t : tpos) (a : act) (s : sys) : res :=
  let pos := HThr i in
  let mine (r : res) : res := if decide (h_proc x = Some i) then r else Bad "myproc" in
  match t, a with
  | TOut, AYield => mine (then_pos h x (pos TYield) (acquire_p h i s))
  | TOut, AExit => if decide (forking i s = None) then mine (then_pos h x (pos TExit) (acquire_p h i s)) else Wait
  | TOut, AEnter c => then_pos h x (pos (TCrit c)) (acquire_c h c s)
  | TOut, AKill j => goto h x (HVisit VKill j Acq (pos TOut)) s
  | TOut, AAlloc j => if decide (forking i s = None) then goto h x (HVisit VAlloc j Acq (pos TOut)) s else Wait
  | TOut, AStart => match forking i s with Some j => goto h x (HVisit VStart j Acq (pos TOut)) s | None => Wait end
  | TOut, AReap j => goto h x (HVisit VReap j Acq (pos TOut)) s
  | TOut, AIntr c => goto h x (HVisit (VWake c) 0 Acq (pos TOut)) s
  | TCrit c, ASleep =>
      match cnds s !! c with
      | Some y => if cn_val y then Wait else mine (then_pos h x (pos (TSleep1 c)) (acquire_p h i s))
      | None => Wait
      end
  | TCrit c, ASignal => goto h x (HVisit (VWake c) 0 Acq (pos (TCrit c))) (on_cnd c (set_cn_val true) s)
  | TCrit c, AClear => goto h x (pos (TCrit c)) (on_cnd c (set_cn_val false) s)
  | TCrit c, ALeave => then_pos h x (pos TOut) (release_c h c s)
  | TYield, Go => goto h x (pos TYielded) (on_pcb i (set_pc_state RUNNABLE) s)
  | TYielded, Go => sched_step h x i RYield s
  | TSleep1 c, Go => then_pos h x (pos (TSleep2 c)) (release_c h c s)
  | TSleep2 c, Go => goto h x (pos (TSleep3 c)) (on_pcb i (set_pc_chan (Some c)) s)
  | TSleep3 c, Go => goto h x (pos (TSleep4 c)) (on_pcb i (set_pc_state SLEEPING) s)
  | TSleep4 c, Go => sched_step h x i (RSleep c) s
  | TExit, Go => goto h x (pos TExited) (on_pcb i (set_pc_state ZOMBIE) s)
  | TExited, Go => sched_step h x i RDead s
  | RYield, Go | RFork, Go => mine (then_pos h x (pos TOut) (release_p h i s))
  | RSleep c, Go => goto h x (pos (RSleep2 c)) (on_pcb i (set_pc_chan None) s)
  | RSleep2 c, Go => then_pos h x (pos (RSleep3 c)) (release_p h i s)
  | RSleep3 c, Go => then_pos h x (pos (TCrit c)) (acquire_c h c s)
  | RDead, Go => Bad "zombie exit"
  | _, _ => Wait
  end.

(** A step of hart [h]. *)
Definition hstep (h : nat) (a : act) (s : sys) : res :=
  match harts s !! h with
  | None => Wait
  | Some x =>
      match h_pos x with
      | HThr i t => thread_step h x i t a s
      | HVisit _ _ _ _ => visit_step h x s
      | HScan k => match a with AIntr c => goto h x (HVisit (VWake c) 0 Acq (HScan k)) s | _ => scheduler_step h x s end
      | _ => scheduler_step h x s
      end
  end.

(** The system after [main]: the first process is runnable, the harts are in
    [scheduler]. *)
Definition idle_pcb : pcb := mk_pcb UNUSED None None RFork.
Definition boot (np nh nc : nat) : sys :=
  mk_sys (<[0%nat := mk_pcb RUNNABLE None None RFork]> (replicate np idle_pcb)) (replicate nh (mk_hart (HScan 0) None 0)) (replicate nc (mk_cnd None false)) (replicate np None).

Inductive reach (s0 : sys) : sys -> Prop :=
| reach_start : reach s0 s0
| reach_step s s' h a : reach s0 s -> hstep h a s = Next s' -> reach s0 s'.
