(* ===== verification/HartsSpec.v ===== *)
(** * The invariant of the harts

    Which locks a hart holds at each position, and what that says about the
    process that it runs. *)

From S2P Require Import Prelude State Harts.

(** ** The shapes of a step *)

Definition at_pos (x : hart) (pos : hpos) : hart := mk_hart pos (h_proc x) (h_sched x).

(** No memory is written. *)
Inductive silent (s : sys) (x : hart) : hpos -> hpos -> Prop :=
| si_round k : silent s x (HScan k) (HScan 0)
| si_pass k p : procs s !! k = Some p -> pc_state p <> RUNNABLE -> silent s x (HTest k) (HRel k)
| si_intr k c : silent s x (HScan k) (HVisit (VWake c) 0 Acq (HScan k))
| si_visit i v j : (v = VStart -> forking i s = Some j) -> (v = VAlloc -> forking i s = None) -> silent s x (HThr i TOut) (HVisit v j Acq (HThr i TOut))
| si_self c j r : h_proc x = Some j -> silent s x (HVisit (VWake c) j Acq r) (HVisit (VWake c) (S j) Acq r)
| si_end c j r : (length (procs s) <= j)%nat -> silent s x (HVisit (VWake c) j Acq r) r.

(** The lock of process [i] is taken. *)
Inductive pacq (s : sys) (x : hart) : hpos -> nat -> hpos -> Prop :=
| pa_scan k : pacq s x (HScan k) k (HTest k)
| pa_visit v j r : (forall c, v = VWake c -> h_proc x <> Some j) -> pacq s x (HVisit v j Acq r) j (HVisit v j Test r)
| pa_yield i : pacq s x (HThr i TOut) i (HThr i TYield)
| pa_exit i : forking i s = None -> pacq s x (HThr i TOut) i (HThr i TExit)
| pa_sleep i c y : cnds s !! c = Some y -> cn_val y = false -> pacq s x (HThr i (TCrit c)) i (HThr i (TSleep1 c)).

Definition next_visit (v : visit) (j : nat) (r : hpos) : hpos := match v with VWake c => HVisit v (S j) Acq r | _ => r end.

Inductive prel : hpos -> nat -> hpos -> Prop :=
| pr_scan k : prel (HRel k) k (HScan (S k))
| pr_visit v j r : prel (HVisit v j Rel r) j (next_visit v j r)
| pr_yield i : prel (HThr i RYield) i (HThr i TOut)
| pr_fork i : prel (HThr i RFork) i (HThr i TOut)
| pr_sleep i c : prel (HThr i (RSleep2 c)) i (HThr i (RSleep3 c)).

Inductive cacq : tpos -> nat -> tpos -> Prop :=
| ca_enter c : cacq TOut c (TCrit c)
| ca_again c : cacq (RSleep3 c) c (TCrit c).
Inductive crel : tpos -> nat -> tpos -> Prop :=
| cr_leave c : crel (TCrit c) c TOut
| cr_sleep c : crel (TSleep1 c) c (TSleep2 c).

(** A thread writes to its own process. *)
Inductive pwrite : tpos -> (pcb -> pcb) -> tpos -> Prop :=
| pw_yield : pwrite TYield (set_pc_state RUNNABLE) TYielded
| pw_chan c : pwrite (TSleep2 c) (set_pc_chan (Some c)) (TSleep3 c)
| pw_sleep c : pwrite (TSleep3 c) (set_pc_state SLEEPING) (TSleep4 c)
| pw_exit : pwrite TExit (set_pc_state ZOMBIE) TExited
| pw_tidy c : pwrite (RSleep c) (set_pc_chan None) (RSleep2 c).

Inductive leaves : tpos -> tpos -> Prop :=
| lv_yield : leaves TYielded RYield
| lv_sleep c : leaves (TSleep4 c) (RSleep c)
| lv_exit : leaves TExited RDead.

Inductive change (s : sys) (h : nat) (x : hart) : sys -> Prop :=
| ch_move pos' : silent s x (h_pos x) pos' -> change s h x (set_hart h (at_pos x pos') s)
| ch_acq i p pos' : pacq s x (h_pos x) i pos' -> procs s !! i = Some p -> pc_lock p = None ->
    change s h x (set_hart h (at_pos x pos') (on_pcb i (set_pc_lock (Some h)) s))
| ch_rel i p pos' : prel (h_pos x) i pos' -> procs s !! i = Some p -> pc_lock p = Some h ->
    change s h x (set_hart h (at_pos x pos') (on_pcb i (set_pc_lock None) s))
| ch_cacq i t t' c y : cacq t c t' -> h_pos x = HThr i t -> cnds s !! c = Some y -> cn_lock y = None ->
    change s h x (set_hart h (at_pos x (HThr i t')) (on_cnd c (set_cn_lock (Some h)) s))
| ch_crel i t t' c y : crel t c t' -> h_pos x = HThr i t -> cnds s !! c = Some y -> cn_lock y = Some h ->
    change s h x (set_hart h (at_pos x (HThr i t')) (on_cnd c (set_cn_lock None) s))
| ch_write i t t' f : pwrite t f t' -> h_pos x = HThr i t -> change s h x (set_hart h (at_pos x (HThr i t')) (on_pcb i f s))
| ch_visit v j r p : h_pos x = HVisit v j Test r -> procs s !! j = Some p ->
    change s h x (set_hart h (at_pos x (HVisit v j Rel r)) (note_new v j p x (on_pcb j (visited v) s)))
| ch_signal i c : h_pos x = HThr i (TCrit c) -> change s h x (set_hart h (at_pos x (HVisit (VWake c) 0 Acq (HThr i (TCrit c)))) (on_cnd c (set_cn_val true) s))
| ch_clear i c : h_pos x = HThr i (TCrit c) -> change s h x (set_hart h (at_pos x (HThr i (TCrit c))) (on_cnd c (set_cn_val false) s))
| ch_in k p : h_pos x = HTest k -> procs s !! k = Some p -> pc_state p = RUNNABLE ->
    change s h x (set_hart h (mk_hart (HThr k (pc_ctx p)) (Some k) k) (on_pcb k (set_pc_state RUNNING) s))
| ch_out i t t' p : leaves t t' -> h_pos x = HThr i t -> procs s !! i = Some p -> pc_state p <> RUNNING ->
    change s h x (set_hart h (mk_hart (HBack (h_sched x)) (h_proc x) (h_sched x)) (on_pcb i (set_pc_ctx t') s))
| ch_back k : h_pos x = HBack k -> change s h x (set_hart h (mk_hart (HRel k) None (h_sched x)) s).

Lemma acquire_p_next h i s r x pos : then_pos h x pos (acquire_p h i s) = Next r ->
  exists p, procs s !! i = Some p /\ pc_lock p = None /\ r = set_hart h (at_pos x pos) (on_pcb i (set_pc_lock (Some h)) s).
Proof.
  unfold acquire_p. destruct (procs s !! i) as [p|] eqn:E; [|done]. destruct (pc_lock p) as [h'|] eqn:El; [destruct (decide (h' = h)); done|].
  intros [= <-]. by exists p.
Qed.
Lemma release_p_next h i s r x pos : then_pos h x pos (release_p h i s) = Next r ->
  exists p, procs s !! i = Some p /\ pc_lock p = Some h /\ r = set_hart h (at_pos x pos) (on_pcb i (set_pc_lock None) s).
Proof. unfold release_p. destruct (procs s !! i) as [p|] eqn:E; [|done]. destruct (decide (pc_lock p = Some h)); [|done]. intros [= <-]. by exists p. Qed.
Lemma acquire_c_next h c s r x pos : then_pos h x pos (acquire_c h c s) = Next r ->
  exists y, cnds s !! c = Some y /\ cn_lock y = None /\ r = set_hart h (at_pos x pos) (on_cnd c (set_cn_lock (Some h)) s).
Proof.
  unfold acquire_c. destruct (cnds s !! c) as [y|] eqn:E; [|done]. destruct (cn_lock y) as [h'|] eqn:El; [destruct (decide (h' = h)); done|].
  intros [= <-]. by exists y.
Qed.
Lemma release_c_next h c s r x pos : then_pos h x pos (release_c h c s) = Next r ->
  exists y, cnds s !! c = Some y /\ cn_lock y = Some h /\ r = set_hart h (at_pos x pos) (on_cnd c (set_cn_lock None) s).
Proof. unfold release_c. destruct (cnds s !! c) as [y|] eqn:E; [|done]. destruct (decide (cn_lock y = Some h)); [|done]. intros [= <-]. by exists y. Qed.

Lemma sched_next h x i t t' s r : leaves t t' -> h_pos x = HThr i t -> sched_step h x i t' s = Next r -> change s h x r.
Proof.
  intros Hl Hp. unfold sched_step. destruct (procs s !! i) as [p|] eqn:E; [|done]. destruct (negb _); [done|]. destruct (negb _); [done|].
  case_bool_decide; [done|]. intros [= <-]. by eapply ch_out.
Qed.

Ltac lock_next :=
  match goal with
  | H : then_pos _ _ _ (acquire_p _ _ _) = Next _ |- _ => apply acquire_p_next in H as (p & Hp & Hlk & ->); eapply ch_acq; [|exact Hp|exact Hlk]
  | H : then_pos _ _ _ (release_p _ _ _) = Next _ |- _ => apply release_p_next in H as (p & Hp & Hlk & ->); eapply ch_rel; [|exact Hp|exact Hlk]
  | H : then_pos _ _ _ (acquire_c _ _ _) = Next _ |- _ => apply acquire_c_next in H as (y & Hy & Hlk & ->); eapply ch_cacq; [|eassumption|exact Hy|exact Hlk]
  | H : then_pos _ _ _ (release_c _ _ _) = Next _ |- _ => apply release_c_next in H as (y & Hy & Hlk & ->); eapply ch_crel; [|eassumption|exact Hy|exact Hlk]
  end.

Lemma thread_shape h x i t a s s' : h_pos x = HThr i t -> thread_step h x i t a s = Next s' -> change s h x s'.
Proof.
  intros Hpos. destruct t, a; cbn [thread_step]; try discriminate; intros H; repeat case_decide; try discriminate H; try discriminate.
  all: try (lock_next; rewrite ?Hpos; by constructor).
  all: try (eapply sched_next; [|eassumption|exact H]; by constructor).
  all: try (injection H as <-; by eapply ch_write; [constructor|]).
  all: try (injection H as <-; apply ch_move; rewrite Hpos; by constructor).
  all: try (injection H as <-; by (apply ch_signal || apply ch_clear)).
  - destruct (forking i s) eqn:E; [|discriminate H]. injection H as <-. apply ch_move. rewrite Hpos. by constructor.
  - destruct (cnds s !! c) as [y|] eqn:E; [|discriminate H]. destruct (cn_val y) eqn:Ev; [discriminate H|]. lock_next. rewrite Hpos. by econstructor.
  - destruct (cnds s !! c) as [y|]; [|discriminate H]. by destruct (cn_val y).
Qed.

Lemma hstep_shape h a s s' : hstep h a s = Next s' -> exists x, harts s !! h = Some x /\ change s h x s'.
Proof.
  unfold hstep. destruct (harts s !! h) as [x|] eqn:Ex; [|done]. intros H. exists x. split; [done|]. destruct (h_pos x) as [k|k|k|k|i t|v j ph r] eqn:Hpos.
  - assert (scheduler_step h x s = Next s' -> change s h x s') as Hs.
    { unfold scheduler_step. rewrite Hpos. case_decide; intros H'; [lock_next; rewrite Hpos; constructor|]. injection H' as <-. apply ch_move. rewrite Hpos. constructor. }
    destruct a; try (by apply Hs). injection H as <-. apply ch_move. rewrite Hpos. constructor.
  - unfold scheduler_step in H. rewrite Hpos in H. destruct (procs s !! k) as [p|] eqn:Ep; [|done]. case_decide; injection H as <-; [by eapply ch_in|]. apply ch_move. rewrite Hpos. by econstructor.
  - unfold scheduler_step in H. rewrite Hpos in H. injection H as <-. by apply ch_back.
  - unfold scheduler_step in H. rewrite Hpos in H. lock_next. rewrite Hpos. constructor.
  - by eapply thread_shape.
  - unfold visit_step in H. rewrite Hpos in H. destruct ph.
    + destruct v; repeat case_decide; try (injection H as <-; apply ch_move; rewrite Hpos; constructor; done || lia); lock_next; rewrite Hpos; constructor; naive_solver.
    + destruct (procs s !! j) as [p|] eqn:Ep; [|done]. injection H as <-. by eapply ch_visit.
    + lock_next. rewrite Hpos. constructor.
Qed.

(** ** The invariant *)

(** The thread that a hart runs, the process lock and the condition lock that it
    holds, and [c->proc]. *)
Fixpoint thr (pos : hpos) : option (nat * tpos) :=
  match pos with HThr i t => Some (i, t) | HVisit _ _ _ r => thr r | _ => None end.
Definition keeps_lock (t : tpos) : bool := match t with TOut | TCrit _ | RSleep3 _ => false | _ => true end.
Definition plock (pos : hpos) : option nat :=
  match pos with
  | HScan _ => None
  | HTest k | HBack k | HRel k => Some k
  | HThr i t => if keeps_lock t then Some i else None
  | HVisit _ j Acq _ => None
  | HVisit _ j _ _ => Some j
  end.
Definition t_clock (t : tpos) : option nat := match t with TCrit c | TSleep1 c => Some c | _ => None end.
Definition clock (pos : hpos) : option nat := '(_, t) ← thr pos; t_clock t.
Definition cproc (pos : hpos) : option nat := match pos with HBack k => Some k | _ => fst <$> thr pos end.

(** Routines that visit other processes are called outside of the others. *)
Definition wf (pos : hpos) : Prop :=
  match pos with
  | HVisit v _ _ r => (exists k c, r = HScan k /\ v = VWake c) \/ (exists i, r = HThr i TOut) \/ (exists i c, r = HThr i (TCrit c) /\ v = VWake c)
  | _ => True
  end.

(** The process of a thread that runs, and one of a thread that does not. *)
Definition on_state (t : tpos) : procstate := match t with TYielded => RUNNABLE | TSleep4 _ => SLEEPING | TExited => ZOMBIE | _ => RUNNING end.
Definition on_ok (t : tpos) (p : pcb) : Prop :=
  pc_state p = on_state t /\ match t with TSleep3 c | TSleep4 c => pc_chan p = Some c | RDead => False | _ => True end.
Definition resumable (t : tpos) : Prop := match t with RYield | RFork | RSleep _ => True | _ => False end.
Definition off_ok (p : pcb) : Prop := pc_state p <> RUNNING /\ (pc_state p <> UNUSED -> pc_state p <> ZOMBIE -> resumable (pc_ctx p)).

Definition lkf (s : sys) (i : nat) : option nat := p ← procs s !! i; pc_lock p.
Definition hold (s : sys) (h : nat) : option nat := x ← harts s !! h; plock (h_pos x).
Definition clk (s : sys) (c : nat) : option nat := y ← cnds s !! c; cn_lock y.
Definition chold (s : sys) (h : nat) : option nat := x ← harts s !! h; clock (h_pos x).
Definition run (s : sys) (h : nat) : option (nat * tpos) := x ← harts s !! h; thr (h_pos x).
Definition pairing (A B : nat -> option nat) : Prop := forall i h, A i = Some h <-> B h = Some i.

Record hinv (s : sys) : Prop := {
  i_wf : forall h x, harts s !! h = Some x -> wf (h_pos x) /\ h_proc x = cproc (h_pos x) /\ forall i t, thr (h_pos x) = Some (i, t) -> h_sched x = i;
  i_lock : pairing (lkf s) (hold s);
  i_clock : pairing (clk s) (chold s);
  i_uniq : forall h h' i t t', run s h = Some (i, t) -> run s h' = Some (i, t') -> h = h';
  i_on : forall h i t p, run s h = Some (i, t) -> procs s !! i = Some p -> on_ok t p;
  i_off : forall i p, procs s !! i = Some p -> (forall h t, run s h <> Some (i, t)) -> off_ok p;
  i_new : forall i j, forking i s = Some j -> exists q, procs s !! j = Some q /\ pc_state q = USED;
  i_own : forall i i' j, forking i s = Some j -> forking i' s = Some j -> i = i';
  i_start : forall h x j ph r, harts s !! h = Some x -> h_pos x = HVisit VStart j ph r -> ph <> Rel -> exists i t, thr r = Some (i, t) /\ forking i s = Some j
}.

(** ** Updates *)

Lemma pairing_ext A B A' B' : pairing A B -> (forall i, A' i = A i) -> (forall h, B' h = B h) -> pairing A' B'.
Proof. intros H HA HB i h. by rewrite HA, HB. Qed.

Lemma pairing_add A B A' B' i h : pairing A B -> A i = None -> B h = None ->
  (forall j, A' j = if decide (j = i) then Some h else A j) -> (forall k, B' k = if decide (k = h) then Some i else B k) -> pairing A' B'.
Proof.
  intros H Ha Hb HA HB j k. rewrite HA, HB. destruct (decide (j = i)) as [->|Hj], (decide (k = h)) as [->|Hk]; [done| | |apply H].
  - split; [by intros [= ->]|]. intros E. apply H in E. by rewrite Ha in E.
  - split; [|by intros [= ->]]. intros E. apply H in E. by rewrite Hb in E.
Qed.

Lemma pairing_del A B A' B' i h : pairing A B -> A i = Some h ->
  (forall j, A' j = if decide (j = i) then None else A j) -> (forall k, B' k = if decide (k = h) then None else B k) -> pairing A' B'.
Proof.
  intros H Ha HA HB j k. rewrite HA, HB. pose proof (proj1 (H i h) Ha) as Hb. destruct (decide (j = i)) as [->|Hj], (decide (k = h)) as [->|Hk]; [done| | |apply H].
  - split; [done|]. intros E. apply H in E. congruence.
  - split; [|done]. intros E. apply H in E. congruence.
Qed.

Lemma harts_at s h x x' k : harts s !! h = Some x -> <[h := x']> (harts s) !! k = if decide (k = h) then Some x' else harts s !! k.
Proof. intros H. destruct (decide (k = h)) as [->|Hne]; [apply list_lookup_insert_eq; by eapply lookup_lt_Some|by apply list_lookup_insert_ne]. Qed.

Lemma procs_at (l : list pcb) i p f k : l !! i = Some p -> alter f i l !! k = if decide (k = i) then Some (f p) else l !! k.
Proof. intros H. destruct (decide (k = i)) as [->|Hne]; [by rewrite list_lookup_alter_eq, H|by rewrite list_lookup_alter_ne]. Qed.

Lemma cnds_at (l : list cnd) i p f k : l !! i = Some p -> alter f i l !! k = if decide (k = i) then Some (f p) else l !! k.
Proof. intros H. destruct (decide (k = i)) as [->|Hne]; [by rewrite list_lookup_alter_eq, H|by rewrite list_lookup_alter_ne]. Qed.

Section update.
  Context (s : sys) (h : nat) (x : hart).
  Hypothesis Hx : harts s !! h = Some x.
  #[local] Set Default Proof Using "Hx".

Lemma hold_at s' x' k : harts s' = <[h := x']> (harts s) -> hold s' k = if decide (k = h) then plock (h_pos x') else hold s k.
Proof. intros E. unfold hold. rewrite E, (harts_at _ _ _ _ _ Hx). by destruct (decide (k = h)). Qed.
Lemma chold_at s' x' k : harts s' = <[h := x']> (harts s) -> chold s' k = if decide (k = h) then clock (h_pos x') else chold s k.
Proof. intros E. unfold chold. rewrite E, (harts_at _ _ _ _ _ Hx). by destruct (decide (k = h)). Qed.
Lemma run_at s' x' k : harts s' = <[h := x']> (harts s) -> run s' k = if decide (k = h) then thr (h_pos x') else run s k.
Proof. intros E. unfold run. rewrite E, (harts_at _ _ _ _ _ Hx). by destruct (decide (k = h)). Qed.
Lemma hold_here : hold s h = plock (h_pos x).
Proof. unfold hold. by rewrite Hx. Qed.
Lemma chold_here : chold s h = clock (h_pos x).
Proof. unfold chold. by rewrite Hx. Qed.
Lemma run_here : run s h = thr (h_pos x).
Proof. unfold run. by rewrite Hx. Qed.

End update.

Lemma lkf_at s s' i p f j : procs s !! i = Some p -> procs s' = alter f i (procs s) -> lkf s' j = if decide (j = i) then pc_lock (f p) else lkf s j.
Proof. intros Hp E. unfold lkf. rewrite E, (procs_at _ _ _ _ _ Hp). by destruct (decide (j = i)). Qed.
Lemma clk_at s s' c y f j : cnds s !! c = Some y -> cnds s' = alter f c (cnds s) -> clk s' j = if decide (j = c) then cn_lock (f y) else clk s j.
Proof. intros Hp E. unfold clk. rewrite E, (cnds_at _ _ _ _ _ Hp). by destruct (decide (j = c)). Qed.

(** ** What a held lock says *)

Section facts.
  Context (s : sys).
  Hypothesis HI : hinv s.
  #[local] Set Default Proof Using "HI".

Lemma keeps_hold h k t : run s h = Some (k, t) -> keeps_lock t = true -> hold s h = Some k.
Proof.
  unfold run, hold. destruct (harts s !! h) as [x|] eqn:Ex; [|done]. cbn. destruct (i_wf _ HI h x Ex) as (Hwf & _ & _). intros Ht Hk. destruct (h_pos x) as [| | | |i u|v j ph r]; try done.
  - injection Ht as -> ->. cbn. by rewrite Hk.
  - destruct Hwf as [(? & ? & -> & _)|[[i ->]|(i & c & -> & _)]]; cbn in Ht; [done|injection Ht as <- <-; done..].
Qed.

Lemma hold_one h h' k : hold s h = Some k -> hold s h' = Some k -> h = h'.
Proof. intros H H'. apply (i_lock _ HI) in H, H'. congruence. Qed.

Lemma chold_one h h' c : chold s h = Some c -> chold s h' = Some c -> h = h'.
Proof. intros H H'. apply (i_clock _ HI) in H, H'. congruence. Qed.

(** The process that another hart runs is running while its lock is held here. *)
Lemma held_elsewhere h h' k t p : hold s h = Some k -> h <> h' -> run s h' = Some (k, t) -> procs s !! k = Some p -> keeps_lock t = false /\ pc_state p = RUNNING.
Proof.
  intros Hh Hne Hr Hp. assert (keeps_lock t = false) as Hk by (destruct (keeps_lock t) eqn:E; [|done]; destruct Hne; eapply hold_one; [exact Hh|by eapply keeps_hold]).
  split; [done|]. destruct (i_on _ HI _ _ _ _ Hr Hp) as [-> _]. by destruct t.
Qed.

(** A process that a hart holds and does not run is nowhere, or running. *)
Lemma held_state h k p : hold s h = Some k -> (forall t, run s h <> Some (k, t)) -> procs s !! k = Some p ->
  (off_ok p /\ (forall h' t, run s h' <> Some (k, t))) \/ (pc_state p = RUNNING /\ exists h' t, run s h' = Some (k, t)).
Proof.
  intros Hh Hno Hp. destruct (decide (Exists (fun x => (fst <$> thr (h_pos x)) = Some k) (harts s))) as [He|Hn].
  - right. apply Exists_exists in He as (x & Hin & Hf). apply list_elem_of_lookup in Hin as [h' Hx']. destruct (thr (h_pos x)) as [[k' t]|] eqn:Et; [|done]. injection Hf as ->.
    assert (run s h' = Some (k, t)) as Hr by (unfold run; by rewrite Hx'). split; [|by exists h', t]. eapply (held_elsewhere h h'); [done| |done|done]. intros ->. by eapply Hno.
  - left. assert (forall h' t, run s h' <> Some (k, t)) as Hall.
    { intros h' t Hr. unfold run in Hr. destruct (harts s !! h') as [x|] eqn:Ex; [|done]. cbn in Hr. apply Hn, Exists_exists. exists x. split; [by eapply list_elem_of_lookup_2|]. by rewrite Hr. }
    split; [|done]. by apply (i_off _ HI k).
Qed.

End facts.

(** How a step changes the lock of a process. *)
Lemma wf_return s h x v j ph r : hinv s -> harts s !! h = Some x -> h_pos x = HVisit v j ph r -> plock r = None.
Proof.
  intros HI Hx Hp. destruct (i_wf _ HI h x Hx) as (Hwf & _). rewrite Hp in Hwf. by destruct Hwf as [(? & ? & -> & _)|[[i ->]|(i & c & -> & _)]].
Qed.

Lemma note_new_procs v j p x s : procs (note_new v j p x s) = procs s.
Proof. unfold note_new. destruct v, (h_proc x); try case_decide; done. Qed.
Lemma note_new_harts v j p x s : harts (note_new v j p x s) = harts s.
Proof. unfold note_new. destruct v, (h_proc x); try case_decide; done. Qed.
Lemma note_new_cnds v j p x s : cnds (note_new v j p x s) = cnds s.
Proof. unfold note_new. destruct v, (h_proc x); try case_decide; done. Qed.

Lemma visited_lock v p : pc_lock (visited v p) = pc_lock p.
Proof. unfold visited. destruct v; try case_decide; done. Qed.
Lemma pwrite_lock t f t' p : pwrite t f t' -> pc_lock (f p) = pc_lock p.
Proof. by destruct 1. Qed.

(** A process that is picked is on no hart. *)
Lemma picked_off s h x k p : hinv s -> harts s !! h = Some x -> h_pos x = HTest k -> procs s !! k = Some p -> pc_state p = RUNNABLE ->
  resumable (pc_ctx p) /\ forall h' t, run s h' <> Some (k, t).
Proof.
  intros HI Hx Hp Hk Hs. destruct (held_state s HI h k p) as [[[_ Ho] Hn]|[H _]]; [by rewrite (hold_here _ _ _ Hx), Hp|intros t; by rewrite (run_here _ _ _ Hx), Hp|done| |congruence].
  split; [|done]. apply Ho; by rewrite Hs.
Qed.

Lemma lock_step s h x s' : hinv s -> harts s !! h = Some x -> change s h x s' -> pairing (lkf s') (hold s').
Proof.
  intros HI Hx Hc. pose proof (i_lock _ HI) as HP. pose proof (hold_here _ _ _ Hx) as Hh.
  assert (forall x', (forall i, lkf s' i = lkf s i) -> harts s' = <[h := x']> (harts s) -> plock (h_pos x') = plock (h_pos x) -> pairing (lkf s') (hold s')) as Hsame.
  { intros x' Hl He Hq. eapply pairing_ext; [exact HP|exact Hl|]. intros k. rewrite (hold_at _ _ _ Hx _ _ _ He). destruct (decide (k = h)) as [->|]; [by rewrite Hh|done]. }
  assert (forall i p f, procs s !! i = Some p -> procs s' = alter f i (procs s) -> pc_lock (f p) = pc_lock p -> forall j, lkf s' j = lkf s j) as Hkeep.
  { intros i p f Hp E Hq j. rewrite (lkf_at _ _ _ _ _ _ Hp E). destruct (decide (j = i)) as [->|]; [|done]. unfold lkf. by rewrite Hp. }
  destruct Hc as [pos' Hs|i p pos' Ha Hp Hl|i p pos' Hr Hp Hl|i t t' c y Ha Hpos Hy Hl|i t t' c y Hr Hpos Hy Hl|i t t' f Hw Hpos|v j r p Hpos Hp|i c Hpos|i c Hpos|k p Hpos Hp Hst|i t t' p Hlv Hpos Hp Hst|k Hpos].
  - eapply Hsame; [done|done|]. cbn. destruct (h_pos x) eqn:Hpos; inversion Hs; subst; cbn; try done. by eapply wf_return.
  - eapply (pairing_add _ _ _ _ i h); [exact HP| | |intros j; by rewrite (lkf_at s _ i p (set_pc_lock (Some h)) j Hp)|].
    + unfold lkf. by rewrite Hp.
    + rewrite Hh. destruct (h_pos x); by inversion Ha.
    + intros k. rewrite (hold_at _ _ _ Hx _ (at_pos x pos') k) by done. destruct (decide (k = h)); [|done]. cbn. destruct Ha; done.
  - eapply (pairing_del _ _ _ _ i h); [exact HP| |intros j; by rewrite (lkf_at s _ i p (set_pc_lock None) j Hp)|].
    + unfold lkf. by rewrite Hp.
    + intros k. rewrite (hold_at _ _ _ Hx _ (at_pos x pos') k) by done. destruct (decide (k = h)); [|done]. cbn. destruct (h_pos x) eqn:Hpos; inversion Hr; subst; try done.
      destruct v; cbn; try done; by eapply wf_return.
  - eapply Hsame; [done|done|]. rewrite Hpos. cbn. by destruct Ha.
  - eapply Hsame; [done|done|]. rewrite Hpos. cbn. by destruct Hr.
  - destruct (procs s !! i) as [p|] eqn:Hp.
    + eapply Hsame; [|done|rewrite Hpos; cbn; by destruct Hw]. eapply Hkeep; [exact Hp|done|by eapply pwrite_lock].
    + eapply Hsame; [|done|rewrite Hpos; cbn; by destruct Hw]. intros j. unfold lkf. cbn. destruct (decide (j = i)) as [->|Hne]; [by rewrite list_lookup_alter_eq, Hp|by rewrite list_lookup_alter_ne].
  - eapply Hsame; [|cbn; by rewrite note_new_harts|by rewrite Hpos]. eapply Hkeep; [exact Hp|cbn; by rewrite note_new_procs|apply visited_lock].
  - eapply Hsame; [done|done|by rewrite Hpos].
  - eapply Hsame; [done|done|by rewrite Hpos].
  - eapply Hsame; [by eapply Hkeep|done|]. rewrite Hpos. cbn. destruct (picked_off _ _ _ _ _ HI Hx Hpos Hp Hst) as [Hres _]. by destruct (pc_ctx p).
  - eapply Hsame; [by eapply Hkeep|done|]. destruct (i_wf _ HI h x Hx) as (_ & _ & Hsc). rewrite Hpos in Hsc |- *. rewrite (Hsc i t eq_refl). cbn. by destruct Hlv.
  - eapply Hsame; [done|done|by rewrite Hpos].
Qed.

Lemma clock_step s h x s' : hinv s -> harts s !! h = Some x -> change s h x s' -> pairing (clk s') (chold s').
Proof.
  intros HI Hx Hc. pose proof (i_clock _ HI) as HP. pose proof (chold_here _ _ _ Hx) as Hh.
  assert (forall x', (forall c, clk s' c = clk s c) -> harts s' = <[h := x']> (harts s) -> clock (h_pos x') = clock (h_pos x) -> pairing (clk s') (chold s')) as Hsame.
  { intros x' Hl He Hq. eapply pairing_ext; [exact HP|exact Hl|]. intros k. rewrite (chold_at _ _ _ Hx _ _ _ He). destruct (decide (k = h)) as [->|]; [by rewrite Hh|done]. }
  destruct Hc as [pos' Hs|i p pos' Ha Hp Hl|i p pos' Hr Hp Hl|i t t' c y Ha Hpos Hy Hl|i t t' c y Hr Hpos Hy Hl|i t t' f Hw Hpos|v j r p Hpos Hp|i c Hpos|i c Hpos|k p Hpos Hp Hst|i t t' p Hlv Hpos Hp Hst|k Hpos].
  - eapply Hsame; [done|done|]. cbn. by destruct Hs.
  - eapply Hsame; [done|done|]. cbn. by destruct Ha.
  - eapply Hsame; [done|done|]. cbn. destruct Hr as [|v j r| | |]; try done. by destruct v.
  - eapply (pairing_add _ _ _ _ c h); [exact HP| | |intros j; by rewrite (clk_at s _ c y (set_cn_lock (Some h)) j Hy)|].
    + unfold clk. by rewrite Hy.
    + rewrite Hh, Hpos. cbn. by destruct Ha.
    + intros k. rewrite (chold_at _ _ _ Hx _ (at_pos x (HThr i t')) k) by done. destruct (decide (k = h)); [|done]. cbn. by destruct Ha.
  - eapply (pairing_del _ _ _ _ c h); [exact HP| |intros j; by rewrite (clk_at s _ c y (set_cn_lock None) j Hy)|].
    + unfold clk. by rewrite Hy.
    + intros k. rewrite (chold_at _ _ _ Hx _ (at_pos x (HThr i t')) k) by done. destruct (decide (k = h)); [|done]. cbn. by destruct Hr.
  - eapply Hsame; [done|done|]. rewrite Hpos. cbn. by destruct Hw.
  - eapply Hsame; [intros c; unfold clk; cbn; by rewrite note_new_cnds|cbn; by rewrite note_new_harts|by rewrite Hpos].
  - eapply Hsame; [|done|by rewrite Hpos]. intros d. unfold clk. cbn. destruct (decide (d = c)) as [->|Hne]; [rewrite list_lookup_alter_eq; by destruct (cnds s !! c)|by rewrite list_lookup_alter_ne].
  - eapply Hsame; [|done|by rewrite Hpos]. intros d. unfold clk. cbn. destruct (decide (d = c)) as [->|Hne]; [rewrite list_lookup_alter_eq; by destruct (cnds s !! c)|by rewrite list_lookup_alter_ne].
  - eapply Hsame; [done|done|]. rewrite Hpos. cbn. destruct (picked_off _ _ _ _ _ HI Hx Hpos Hp Hst) as [Hres _]. by destruct (pc_ctx p).
  - eapply Hsame; [done|done|]. rewrite Hpos. cbn. by destruct Hlv.
  - eapply Hsame; [done|done|by rewrite Hpos].
Qed.

(** What a step makes of its own hart. *)
Lemma change_hart s h x s' : change s h x s' -> exists x', harts s' = <[h := x']> (harts s).
Proof. destruct 1; eexists; cbn; rewrite ?note_new_harts; done. Qed.

Definition hart_ok (x : hart) : Prop := wf (h_pos x) /\ h_proc x = cproc (h_pos x) /\ forall i t, thr (h_pos x) = Some (i, t) -> h_sched x = i.

Ltac hart_done := split; [first [done | naive_solver]|split; [first [done | naive_solver]|]]; intros ? ? E; first [done | by injection E as <- <-; eauto | by eauto].

Lemma wf_step s h x s' : hinv s -> harts s !! h = Some x -> change s h x s' -> forall k y, harts s' !! k = Some y -> hart_ok y.
Proof.
  intros HI Hx Hc. pose proof (i_wf _ HI h x Hx) as (Hwf & Hcp & Hsc).
  assert (forall x', harts s' = <[h := x']> (harts s) -> hart_ok x' -> forall k y, harts s' !! k = Some y -> hart_ok y) as Hone.
  { intros x' He Hok k y. rewrite He, (harts_at _ _ _ _ _ Hx). destruct (decide (k = h)); [by intros [= <-]|apply (i_wf _ HI)]. }
  destruct Hc as [pos' Hs|i p pos' Ha Hp Hl|i p pos' Hr Hp Hl|i t t' c y Ha Hpos Hy Hl|i t t' c y Hr Hpos Hy Hl|i t t' f Hw Hpos|v j r p Hpos Hp|i c Hpos|i c Hpos|k p Hpos Hp Hst|i t t' p Hlv Hpos Hp Hst|k Hpos];
    (refine (Hone _ _ _); [cbn; rewrite ?note_new_harts; reflexivity|]); unfold hart_ok; cbn [h_pos h_proc h_sched at_pos].
  - destruct (h_pos x) eqn:Hpos; inversion Hs; subst; cbn in *; hart_done.
  - destruct (h_pos x) eqn:Hpos; inversion Ha; subst; cbn in *; hart_done.
  - destruct (h_pos x) eqn:Hpos; inversion Hr; subst; cbn in *; try hart_done. destruct Hwf as [(? & ? & -> & ->)|[[i' ->]|(i' & c' & -> & ->)]]; cbn in *; [|destruct v; cbn|]; hart_done.
  - rewrite Hpos in *. cbn in *. hart_done.
  - rewrite Hpos in *. cbn in *. hart_done.
  - rewrite Hpos in *. cbn in *. hart_done.
  - rewrite Hpos in *. cbn in *. hart_done.
  - rewrite Hpos in *. cbn in *. hart_done.
  - rewrite Hpos in *. cbn in *. hart_done.
  - hart_done.
  - rewrite Hpos in *. cbn in *. split; [done|]. rewrite Hcp, (Hsc i t eq_refl). done.
  - hart_done.
Qed.

(** The thread of the hart after a step: the same process, or one that was on no
    hart. *)
Lemma thr_change s h x s' : hinv s -> harts s !! h = Some x -> change s h x s' -> exists x', harts s' = <[h := x']> (harts s) /\
  forall i t', thr (h_pos x') = Some (i, t') -> (exists t, thr (h_pos x) = Some (i, t)) \/ (forall h' t, run s h' <> Some (i, t)).
Proof.
  intros HI Hx Hc.
  destruct Hc as [pos' Hs|i p pos' Ha Hp Hl|i p pos' Hr Hp Hl|i t t' c y Ha Hpos Hy Hl|i t t' c y Hr Hpos Hy Hl|i t t' f Hw Hpos|v j r p Hpos Hp|i c Hpos|i c Hpos|k p Hpos Hp Hst|i t t' p Hlv Hpos Hp Hst|k Hpos];
    (eexists; split; [cbn; rewrite ?note_new_harts; reflexivity|]); cbn [h_pos at_pos]; intros i' t'' Ht.
  1: left; destruct Hs; cbn in *; eauto.
  1: left; destruct Ha; cbn in *; try (by injection Ht as <- <-; eauto); eauto.
  1: left; destruct Hr as [|v j r| | |]; cbn in *; try (by injection Ht as <- <-; eauto); [done|]; destruct v; cbn in *; eauto.
  1-6: left; rewrite Hpos; cbn in *; try (by injection Ht as <- <-; eauto); by eauto.
  - cbn in Ht. injection Ht as <- <-. right. by eapply picked_off.
  - done.
  - done.
Qed.

Lemma uniq_step s h x s' : hinv s -> harts s !! h = Some x -> change s h x s' -> forall k k' i t t', run s' k = Some (i, t) -> run s' k' = Some (i, t') -> k = k'.
Proof.
  intros HI Hx Hc k k' i t t'. destruct (thr_change _ _ _ _ HI Hx Hc) as (x' & He & Ht). rewrite !(run_at _ _ _ Hx _ _ _ He).
  assert (forall k t u, k <> h -> thr (h_pos x') = Some (i, t) -> run s k = Some (i, u) -> False) as Hno.
  { intros m u v Hm H1 H2. destruct (Ht _ _ H1) as [[w Hw]|Hn]; [|by eapply Hn]. apply Hm. eapply (i_uniq _ HI); [exact H2|]. by rewrite (run_here _ _ _ Hx). }
  destruct (decide (k = h)) as [->|Hk], (decide (k' = h)) as [->|Hk']; [done|intros H1 H2; by destruct (Hno k' t t')|intros H1 H2; by destruct (Hno k t' t)|apply (i_uniq _ HI)].
Qed.

(** ** Processes *)

(** Nothing changes the state or the channel of a process. *)
Definition same_pcbs (s s' : sys) : Prop :=
  forall i p', procs s' !! i = Some p' -> exists p, procs s !! i = Some p /\ pc_state p' = pc_state p /\ pc_chan p' = pc_chan p /\ pc_ctx p' = pc_ctx p.

Lemma same_refl s s' : procs s' = procs s -> same_pcbs s s'.
Proof. intros E i p'. rewrite E. intros H. by exists p'. Qed.

Lemma same_lock s s' i v : procs s' = alter (set_pc_lock v) i (procs s) -> same_pcbs s s'.
Proof.
  intros E j p'. rewrite E. destruct (decide (j = i)) as [->|Hne]; [|rewrite list_lookup_alter_ne by done; intros H; by exists p'].
  rewrite list_lookup_alter_eq. destruct (procs s !! i) as [p|]; [|done]. intros [= <-]. by exists p.
Qed.

(** A position from which the state of the process stays as it is. *)
Definition same_thr (pos pos' : hpos) : Prop :=
  forall i t', thr pos' = Some (i, t') -> exists t, thr pos = Some (i, t) /\ on_state t' = on_state t /\ match t' with TSleep3 _ | TSleep4 _ | RDead => t' = t | _ => True end.

Lemma on_same s h x s' x' : hinv s -> harts s !! h = Some x -> harts s' = <[h := x']> (harts s) -> same_pcbs s s' -> same_thr (h_pos x) (h_pos x') ->
  forall k i t p', run s' k = Some (i, t) -> procs s' !! i = Some p' -> on_ok t p'.
Proof.
  intros HI Hx He Hs Ht k i t p' Hr Hp'. destruct (Hs _ _ Hp') as (p & Hp & E1 & E2 & _). rewrite (run_at _ _ _ Hx _ _ _ He) in Hr. unfold on_ok. rewrite E1, E2.
  destruct (decide (k = h)) as [->|Hk]; [|exact (i_on _ HI _ _ _ _ Hr Hp)]. destruct (Ht _ _ Hr) as (t0 & Ht0 & Eo & Em).
  assert (run s h = Some (i, t0)) as Hr0 by (by rewrite (run_here _ _ _ Hx)). destruct (i_on _ HI _ _ _ _ Hr0 Hp) as [O1 O2]. split; [congruence|]. destruct t; try done; by subst t0.
Qed.

(** Another hart that runs a process which this one changes. *)
Lemma on_other s h x s' x' j q' : hinv s -> harts s !! h = Some x -> harts s' = <[h := x']> (harts s) -> (forall i, i <> j -> procs s' !! i = procs s !! i) -> procs s' !! j = Some q' ->
  (forall k t, k <> h -> run s k = Some (j, t) -> on_ok t q') -> (forall i t p', thr (h_pos x') = Some (i, t) -> procs s' !! i = Some p' -> on_ok t p') ->
  forall k i t p', run s' k = Some (i, t) -> procs s' !! i = Some p' -> on_ok t p'.
Proof.
  intros HI Hx He Hf Hj Ho Hown k i t p' Hr Hp'. rewrite (run_at _ _ _ Hx _ _ _ He) in Hr. destruct (decide (k = h)) as [->|Hk]; [by eapply Hown|].
  destruct (decide (i = j)) as [->|Hij]; [rewrite Hj in Hp'; injection Hp' as <-; by eapply Ho|]. rewrite Hf in Hp' by done. by eapply (i_on _ HI).
Qed.

Lemma alter_other (l : list pcb) f j i : i <> j -> alter f j l !! i = l !! i.
Proof. intros H. by rewrite list_lookup_alter_ne. Qed.

(** The process under a visit. *)
Lemma visit_state s h x v j ph r p : hinv s -> harts s !! h = Some x -> h_pos x = HVisit v j ph r -> ph <> Acq -> procs s !! j = Some p ->
  (v = VStart -> ph = Test -> pc_state p = USED) /\ ((off_ok p /\ (forall h' t, run s h' <> Some (j, t))) \/ pc_state p = RUNNING).
Proof.
  intros HI Hx Hpos Hph Hp. assert (hold s h = Some j) as Hh by (rewrite (hold_here _ _ _ Hx), Hpos; by destruct ph). split.
  - intros -> ->. destruct (i_start _ HI h x j Test r Hx Hpos) as (i & t & _ & Hn); [done|]. destruct (i_new _ HI _ _ Hn) as (q & Hq & Hs). congruence.
  - destruct (decide (fst <$> run s h = Some j)) as [Hr|Hr].
    + right. destruct (run s h) as [[i t]|] eqn:Er; [|done]. injection Hr as ->. destruct (i_on _ HI _ _ _ _ Er Hp) as [-> _].
      rewrite (run_here _ _ _ Hx), Hpos in Er. destruct (i_wf _ HI h x Hx) as (Hwf & _). rewrite Hpos in Hwf. by destruct Hwf as [(? & ? & -> & _)|[[i ->]|(i & c & -> & _)]]; cbn in Er; [|injection Er as <- <-..].
    + destruct (held_state s HI h j p Hh) as [?|[? _]]; [|done|by left|by right]. intros t E. rewrite E in Hr. done.
Qed.

Lemma visited_running v p : pc_state p = RUNNING -> v <> VStart -> visited v p = p.
Proof. intros H Hv. unfold visited. destruct v; try case_decide; naive_solver congruence. Qed.

Lemma on_step s h x s' : hinv s -> harts s !! h = Some x -> change s h x s' -> forall k i t p', run s' k = Some (i, t) -> procs s' !! i = Some p' -> on_ok t p'.
Proof.
  intros HI Hx Hc.
  destruct Hc as [pos' Hs|i p pos' Ha Hp Hl|i p pos' Hr Hp Hl|i t t' c y Ha Hpos Hy Hl|i t t' c y Hr Hpos Hy Hl|i t t' f Hw Hpos|v j r p Hpos Hp|i c Hpos|i c Hpos|k p Hpos Hp Hst|i t t' p Hlv Hpos Hp Hst|k Hpos].
  - eapply on_same; [done|done|reflexivity|by apply same_refl|]. intros i t' Ht. exists t'. destruct Hs; cbn in *; (split; [done|split; [done|by destruct t']]).
  - eapply on_same; [done|done|reflexivity|by eapply same_lock|]. intros k t' Ht. destruct Ha; cbn in *; try discriminate Ht; try (injection Ht as <- <-; eauto); exists t'; (split; [done|split; [done|by destruct t']]).
  - eapply on_same; [done|done|reflexivity|by eapply same_lock|]. intros k t' Ht. destruct Hr as [|v j r| | |]; cbn in *; try discriminate Ht; try (injection Ht as <- <-; eauto).
    exists t'. destruct v; cbn in Ht; (split; [done|split; [done|by destruct t']]).
  - eapply on_same; [done|done|reflexivity|by apply same_refl|]. rewrite Hpos. intros k u Ht. cbn in Ht |- *. injection Ht as <- <-. exists t. by destruct Ha.
  - eapply on_same; [done|done|reflexivity|by apply same_refl|]. rewrite Hpos. intros k u Ht. cbn in Ht |- *. injection Ht as <- <-. exists t. by destruct Hr.
  - assert (run s h = Some (i, t)) as Hri by (by rewrite (run_here _ _ _ Hx), Hpos). destruct (procs s !! i) as [p|] eqn:Hp.
    + pose proof (i_on _ HI _ _ _ _ Hri Hp) as Ho. eapply (on_other s h x _ _ i (f p)); [done|done|reflexivity|intros j Hj; by apply alter_other|cbn; by rewrite list_lookup_alter_eq, Hp| |].
      * intros k u Hk Hr. destruct Hk. by eapply (i_uniq _ HI).
      * intros j u p' Ht Hp'. cbn in Ht, Hp'. injection Ht as <- <-. rewrite list_lookup_alter_eq, Hp in Hp'. injection Hp' as <-. destruct Ho as [O1 O2]. unfold on_ok in *. destruct Hw; cbn in *; done.
    + intros k j u p' Hr Hp'. rewrite (run_at _ _ _ Hx _ (at_pos x (HThr i t')) k) in Hr by reflexivity. cbn in Hp'. assert (j <> i) as Hj by (intros ->; by rewrite list_lookup_alter_eq, Hp in Hp').
      rewrite alter_other in Hp' by done. destruct (decide (k = h)); [cbn in Hr; by injection Hr as <- <-|]. by eapply (i_on _ HI).
  - destruct (visit_state s h x v j Test r p HI Hx Hpos) as [Hstart Hs]; [done|done|]. specialize (fun E => Hstart E eq_refl).
    eapply (on_other s h x _ _ j (visited v p)); [done|done|cbn; by rewrite note_new_harts|intros i Hi; cbn; rewrite note_new_procs; by apply alter_other|cbn; rewrite note_new_procs; cbn; by rewrite list_lookup_alter_eq, Hp| |].
    + intros k t Hk Hr. destruct Hs as [[_ Hn]|Hrun]; [by destruct (Hn k t)|]. rewrite visited_running; [by eapply (i_on _ HI)|done|]. intros ->. by rewrite Hstart in Hrun.
    + intros i t p' Ht Hp'. cbn in Ht, Hp'. rewrite note_new_procs in Hp'. assert (run s h = Some (i, t)) as Hr by (by rewrite (run_here _ _ _ Hx), Hpos). cbn in Hp'. destruct (decide (i = j)) as [->|Hij].
      * rewrite list_lookup_alter_eq, Hp in Hp'. injection Hp' as <-. destruct Hs as [[_ Hn]|Hrun]; [by destruct (Hn h t)|]. rewrite visited_running; [by eapply (i_on _ HI)|done|]. intros ->. by rewrite Hstart in Hrun.
      * rewrite alter_other in Hp' by done. by eapply (i_on _ HI).
  - eapply on_same; [done|done|reflexivity|by apply same_refl|]. rewrite Hpos. intros k u Ht. exists u. cbn in *. injection Ht as <- <-. done.
  - eapply on_same; [done|done|reflexivity|by apply same_refl|]. rewrite Hpos. intros k u Ht. exists u. cbn in *. injection Ht as <- <-. done.
  - destruct (picked_off _ _ _ _ _ HI Hx Hpos Hp Hst) as [Hres Hn]. eapply (on_other s h x _ _ k (set_pc_state RUNNING p)); [done|done|reflexivity|intros j Hj; by apply alter_other|cbn; by rewrite list_lookup_alter_eq, Hp| |].
    + intros m t Hm Hr. by destruct (Hn m t).
    + intros i t p' Ht Hp'. cbn in Ht, Hp'. injection Ht as <- <-. rewrite list_lookup_alter_eq, Hp in Hp'. injection Hp' as <-. unfold on_ok. cbn. by destruct (pc_ctx p).
  - assert (run s h = Some (i, t)) as Hri by (by rewrite (run_here _ _ _ Hx), Hpos). eapply (on_other s h x _ _ i (set_pc_ctx t' p)); [done|done|reflexivity|intros j Hj; by apply alter_other|cbn; by rewrite list_lookup_alter_eq, Hp| |done].
    intros k u Hk Hr. destruct Hk. by eapply (i_uniq _ HI).
  - eapply on_same; [done|done|reflexivity|by apply same_refl|]. intros i t Ht. done.
Qed.

(** A thread that is on the hart stays there. *)
Definition stays (pos pos' : hpos) : Prop := forall i t, thr pos = Some (i, t) -> exists t', thr pos' = Some (i, t').

Lemma stays_off s h x s' x' i : harts s !! h = Some x -> harts s' = <[h := x']> (harts s) -> stays (h_pos x) (h_pos x') ->
  (forall k t, run s' k <> Some (i, t)) -> forall k t, run s k <> Some (i, t).
Proof.
  intros Hx He Hs Hoff k t Hr. specialize (Hoff k). rewrite (run_at _ _ _ Hx _ _ _ He) in Hoff. destruct (decide (k = h)) as [->|]; [|by eapply Hoff].
  rewrite (run_here _ _ _ Hx) in Hr. destruct (Hs _ _ Hr) as [t' Ht']. by eapply Hoff.
Qed.

Lemma off_same s h x s' x' : hinv s -> harts s !! h = Some x -> harts s' = <[h := x']> (harts s) -> same_pcbs s s' -> stays (h_pos x) (h_pos x') ->
  forall i p', procs s' !! i = Some p' -> (forall k t, run s' k <> Some (i, t)) -> off_ok p'.
Proof.
  intros HI Hx He Hs Hst i p' Hp' Hoff. destruct (Hs _ _ Hp') as (p & Hp & E1 & _ & E3). unfold off_ok. rewrite E1, E3. apply (i_off _ HI i p Hp). by eapply stays_off.
Qed.

Lemma visited_off v p : off_ok p -> (v = VStart -> pc_state p = USED) -> off_ok (visited v p).
Proof.
  intros [H1 H2] Hs. unfold visited, off_ok. destruct v; try case_decide; cbn; try done.
  - split; [done|]. intros _ _. apply H2; naive_solver congruence.
  - split; [done|]. intros _ _. apply H2; congruence.
  - split; [done|]. intros _ _. apply H2; rewrite Hs; done.
Qed.

Lemma off_step s h x s' : hinv s -> harts s !! h = Some x -> change s h x s' -> forall i p', procs s' !! i = Some p' -> (forall k t, run s' k <> Some (i, t)) -> off_ok p'.
Proof.
  intros HI Hx Hc.
  destruct Hc as [pos' Hs|i p pos' Ha Hp Hl|i p pos' Hr Hp Hl|i t t' c y Ha Hpos Hy Hl|i t t' c y Hr Hpos Hy Hl|i t t' f Hw Hpos|v j r p Hpos Hp|i c Hpos|i c Hpos|k p Hpos Hp Hst|i t t' p Hlv Hpos Hp Hst|k Hpos].
  - eapply off_same; [done|done|reflexivity|by apply same_refl|]. intros i t Ht. destruct Hs; cbn in *; eauto.
  - eapply off_same; [done|done|reflexivity|by eapply same_lock|]. intros k t Ht. destruct Ha; cbn in *; try (injection Ht as <- <-); eauto.
  - eapply off_same; [done|done|reflexivity|by eapply same_lock|]. intros k t Ht. destruct Hr as [|v j r| | |]; cbn in *; try (injection Ht as <- <-); eauto. destruct v; cbn; eauto.
  - eapply off_same; [done|done|reflexivity|by apply same_refl|]. rewrite Hpos. intros k u Ht. cbn in *. injection Ht as <- <-. eauto.
  - eapply off_same; [done|done|reflexivity|by apply same_refl|]. rewrite Hpos. intros k u Ht. cbn in *. injection Ht as <- <-. eauto.
  - intros j p' Hp' Hoff. assert (j <> i) as Hj by (intros ->; apply (Hoff h t'); rewrite (run_at _ _ _ Hx _ (at_pos x (HThr i t')) h) by reflexivity; by rewrite decide_True).
    cbn in Hp'. rewrite alter_other in Hp' by done. apply (i_off _ HI j p' Hp'). refine (stays_off s h x _ _ _ Hx _ _ Hoff); [reflexivity|]. rewrite Hpos. intros k u Ht. cbn in *. injection Ht as <- <-. eauto.
  - destruct (visit_state s h x v j Test r p HI Hx Hpos) as [Hstart Hs]; [done|done|]. specialize (fun E => Hstart E eq_refl). intros i p' Hp' Hoff. cbn in Hp'. rewrite note_new_procs in Hp'. cbn in Hp'.
    assert (forall k t, run s k <> Some (i, t)) as Hoff' by (refine (stays_off s h x _ _ _ Hx _ _ Hoff); [cbn; by rewrite note_new_harts|]; rewrite Hpos; intros k t Ht; cbn in *; eauto).
    destruct (decide (i = j)) as [->|Hij]; [|rewrite alter_other in Hp' by done; by apply (i_off _ HI i)]. rewrite list_lookup_alter_eq, Hp in Hp'. injection Hp' as <-. apply visited_off; [by apply (i_off _ HI j)|done].
  - eapply off_same; [done|done|reflexivity|by apply same_refl|]. rewrite Hpos. intros k u Ht. cbn in *. eauto.
  - eapply off_same; [done|done|reflexivity|by apply same_refl|]. rewrite Hpos. intros k u Ht. cbn in *. eauto.
  - intros j p' Hp' Hoff. assert (j <> k) as Hj by (intros ->; apply (Hoff h (pc_ctx p)); rewrite (run_at _ _ _ Hx _ (mk_hart (HThr k (pc_ctx p)) (Some k) k) h) by reflexivity; by rewrite decide_True).
    cbn in Hp'. rewrite alter_other in Hp' by done. apply (i_off _ HI j p' Hp'). refine (stays_off s h x _ _ _ Hx _ _ Hoff); [reflexivity|]. by rewrite Hpos.
  - assert (run s h = Some (i, t)) as Hri by (by rewrite (run_here _ _ _ Hx), Hpos). intros j p' Hp' Hoff. cbn in Hp'. destruct (decide (j = i)) as [->|Hj].
    + rewrite list_lookup_alter_eq, Hp in Hp'. injection Hp' as <-. destruct (i_on _ HI _ _ _ _ Hri Hp) as [O1 O2]. split; [done|]. cbn. intros _ Hz. destruct Hlv; cbn in *; done.
    + rewrite alter_other in Hp' by done. apply (i_off _ HI j p' Hp'). intros k u Hr. destruct (decide (k = h)) as [->|Hk]; [rewrite Hri in Hr; congruence|].
      apply (Hoff k u). rewrite (run_at _ _ _ Hx _ (mk_hart (HBack (h_sched x)) (h_proc x) (h_sched x)) k) by reflexivity. by rewrite decide_False.
  - eapply off_same; [done|done|reflexivity|by apply same_refl|]. rewrite Hpos. by intros i t Ht.
Qed.

(** ** Forks in progress *)

Lemma alter_same (l : list pcb) f i j p : l !! j = Some p -> (j = i -> pc_state (f p) = pc_state p) -> exists p', alter f i l !! j = Some p' /\ pc_state p' = pc_state p.
Proof. intros Hp Hs. destruct (decide (j = i)) as [->|Hne]; [rewrite list_lookup_alter_eq, Hp; eexists; split; [done|by apply Hs]|]. rewrite list_lookup_alter_ne by done. by exists p. Qed.

Lemma visited_used v p : pc_state p = USED -> v <> VStart -> visited v p = p.
Proof. intros H Hv. unfold visited. destruct v; try case_decide; naive_solver congruence. Qed.

#[export] Instance visit_eq_dec : EqDecision visit.
Proof. solve_decision. Defined.

(** A process in the making stays so until [fork] makes it runnable. *)
Lemma used_step s h x s' j q : hinv s -> harts s !! h = Some x -> change s h x s' -> procs s !! j = Some q -> pc_state q = USED ->
  (exists q', procs s' !! j = Some q' /\ pc_state q' = USED) \/ exists r, h_pos x = HVisit VStart j Test r.
Proof.
  intros HI Hx Hc Hq Hu. assert (forall i f, procs s' = alter f i (procs s) -> (j = i -> pc_state (f q) = pc_state q) -> exists q', procs s' !! j = Some q' /\ pc_state q' = USED) as Halt.
  { intros i f E Hf. destruct (alter_same (procs s) f i j q Hq Hf) as (q' & Hq' & Es). exists q'. rewrite E. split; [done|congruence]. }
  destruct Hc as [pos' Hs|i p pos' Ha Hp Hl|i p pos' Hr Hp Hl|i t t' c y Ha Hpos Hy Hl|i t t' c y Hr Hpos Hy Hl|i t t' f Hw Hpos|v k r p Hpos Hp|i c Hpos|i c Hpos|k p Hpos Hp Hst|i t t' p Hlv Hpos Hp Hst|k Hpos];
    try (left; by exists q); try (left; by eapply Halt).
  - left. eapply Halt; [reflexivity|]. intros ->. assert (run s h = Some (i, t)) as Hri by (by rewrite (run_here _ _ _ Hx), Hpos). destruct (i_on _ HI _ _ _ _ Hri Hq) as [O1 _]. by destruct t; rewrite Hu in O1.
  - destruct (decide (k = j)) as [->|Hne].
    + rewrite Hq in Hp. injection Hp as <-. destruct (decide (v = VStart)) as [->|Hv]; [right; by exists r|]. left. apply (Halt j (visited v)); [exact (note_new_procs v j q x _)|]. intros _. by rewrite visited_used.
    + left. apply (Halt k (visited v)); [exact (note_new_procs v k p x _)|done].
  - left. eapply Halt; [reflexivity|]. intros ->. congruence.
Qed.

Lemma forking_at i v s j : (i < length (newp s))%nat -> forking j (set_newp i v s) = if decide (j = i) then v else forking j s.
Proof. intros Hl. unfold forking. cbn. destruct (decide (j = i)) as [->|Hne]; [by rewrite list_lookup_insert_eq|by rewrite list_lookup_insert_ne]. Qed.

Lemma forking_out i v s j : (length (newp s) <= i)%nat -> forking j (set_newp i v s) = forking j s.
Proof. intros Hl. unfold forking. cbn. by rewrite list_insert_ge. Qed.

(** The new value of [np], if any. *)
Lemma forking_step s h x s' : change s h x s' ->
  (forall i, forking i s' = forking i s) \/
  (exists i j r p, h_pos x = HVisit VAlloc j Test r /\ h_proc x = Some i /\ procs s !! j = Some p /\ pc_state p = UNUSED /\ procs s' = alter (visited VAlloc) j (procs s) /\
     forall k, forking k s' = if decide (k = i) then Some j else forking k s) \/
  (exists i j r, h_pos x = HVisit VStart j Test r /\ h_proc x = Some i /\ forall k, forking k s' = if decide (k = i) then None else forking k s).
Proof.
  destruct 1 as [| | | | | |v j r p Hpos Hp| | | | |]; try (by left). unfold note_new. destruct v; try (by left); destruct (h_proc x) as [i|] eqn:Ei; try (by left).
  - case_decide as Hu; [|by left]. destruct (decide (i < length (newp s))%nat) as [Hl|Hl].
    + right. left. exists i, j, r, p. do 4 (split; [done|]). split; [done|]. intros k. by apply (forking_at i (Some j) (on_pcb j (visited VAlloc) s)).
    + left. intros k. apply (forking_out i (Some j) (on_pcb j (visited VAlloc) s)). cbn. lia.
  - destruct (decide (i < length (newp s))%nat) as [Hl|Hl].
    + right. right. exists i, j, r. do 2 (split; [done|]). intros k. by apply (forking_at i None (on_pcb j (visited VStart) s)).
    + left. intros k. apply (forking_out i None (on_pcb j (visited VStart) s)). cbn. lia.
Qed.

Lemma visit_thread s h x v j ph r i : hinv s -> harts s !! h = Some x -> h_pos x = HVisit v j ph r -> h_proc x = Some i -> exists t, thr r = Some (i, t) /\ run s h = Some (i, t).
Proof.
  intros HI Hx Hpos Hi. destruct (i_wf _ HI h x Hx) as (_ & Hc & _). rewrite Hc, Hpos in Hi. cbn in Hi. destruct (thr r) as [[i' t]|] eqn:Et; [|done]. injection Hi as ->.
  exists t. split; [done|]. by rewrite (run_here _ _ _ Hx), Hpos.
Qed.

Lemma start_new s h x j r i : hinv s -> harts s !! h = Some x -> h_pos x = HVisit VStart j Test r -> h_proc x = Some i -> forking i s = Some j.
Proof.
  intros HI Hx Hpos Hi. destruct (visit_thread _ _ _ _ _ _ _ _ HI Hx Hpos Hi) as (t & Ht & _). destruct (i_start _ HI h x j Test r Hx Hpos) as (i' & t' & Ht' & Hn); [done|]. congruence.
Qed.

Lemma new_step s h x s' : hinv s -> harts s !! h = Some x -> change s h x s' -> forall i j, forking i s' = Some j -> exists q, procs s' !! j = Some q /\ pc_state q = USED.
Proof.
  intros HI Hx Hc i j. destruct (forking_step _ _ _ _ Hc) as [Hf|[(k & m & r & p & Hpos & Hk & Hp & Hu & Es & Hf)|(k & m & r & Hpos & Hk & Hf)]]; rewrite Hf.
  - intros Hn. destruct (i_new _ HI _ _ Hn) as (q & Hq & Hs). destruct (used_step _ _ _ _ _ _ HI Hx Hc Hq Hs) as [?|[r Hpos]]; [done|].
    destruct (i_start _ HI h x j Test r Hx Hpos) as (i' & t' & Ht' & Hn'); [done|]. exfalso. rewrite (i_own _ HI i' i j Hn' Hn) in *.
    (* the step clears np of that process *)
    destruct (i_wf _ HI h x Hx) as (_ & Hcp & _). rewrite Hpos in Hcp. cbn in Hcp. rewrite Ht' in Hcp. cbn in Hcp.
    destruct Hc as [pos' Hs'|? ? pos' Ha|? ? pos' Hr|? ? ? ? ? ? Hpos'|? ? ? ? ? ? Hpos'|? ? ? ? ? Hpos'|v k r' p Hpos' Hp|? ? Hpos'|? ? Hpos'|? ? Hpos'|? ? ? ? ? Hpos'|? Hpos']; try (rewrite Hpos in Hpos'; discriminate Hpos').
    + rewrite Hpos in Hs'. inversion Hs'.
    + rewrite Hpos in Ha. inversion Ha.
    + rewrite Hpos in Hr. inversion Hr.
    + rewrite Hpos in Hpos'. injection Hpos' as <- <- <-. unfold note_new in Hf. rewrite Hcp in Hf. specialize (Hf i). rewrite Hn in Hf. unfold forking in Hf, Hn. cbn in Hf.
      destruct (decide (i < length (newp s))%nat) as [Hl|Hl]; [by rewrite list_lookup_insert_eq in Hf|]. by rewrite lookup_ge_None_2 in Hn by lia.
  - destruct (decide (i = k)) as [->|Hne].
    + intros [= <-]. rewrite Es. exists (visited VAlloc p). rewrite list_lookup_alter_eq, Hp. split; [done|]. cbn. by rewrite decide_True.
    + intros Hn. destruct (i_new _ HI _ _ Hn) as (q & Hq & Hs). destruct (used_step _ _ _ _ _ _ HI Hx Hc Hq Hs) as [?|[r' Hpos']]; [done|]. by rewrite Hpos in Hpos'.
  - destruct (decide (i = k)) as [->|Hne]; [done|]. intros Hn. destruct (i_new _ HI _ _ Hn) as (q & Hq & Hs). destruct (used_step _ _ _ _ _ _ HI Hx Hc Hq Hs) as [?|[r' Hpos']]; [done|].
    rewrite Hpos in Hpos'. injection Hpos' as -> ->. destruct Hne. apply (i_own _ HI i k j Hn). by eapply start_new.
Qed.

Lemma own_step s h x s' : hinv s -> harts s !! h = Some x -> change s h x s' -> forall i i' j, forking i s' = Some j -> forking i' s' = Some j -> i = i'.
Proof.
  intros HI Hx Hc i i' j. destruct (forking_step _ _ _ _ Hc) as [Hf|[(k & m & r & p & Hpos & Hk & Hp & Hu & Es & Hf)|(k & m & r & Hpos & Hk & Hf)]]; rewrite !Hf.
  - apply (i_own _ HI).
  - assert (forall l, forking l s = Some m -> False) as Hno by (intros l Hl; destruct (i_new _ HI _ _ Hl) as (q & Hq & Hs); congruence).
    destruct (decide (i = k)) as [->|], (decide (i' = k)) as [->|]; [done| | |apply (i_own _ HI)].
    + intros [= <-] H. by destruct (Hno i').
    + intros H [= <-]. by destruct (Hno i).
  - destruct (decide (i = k)) as [->|], (decide (i' = k)) as [->|]; try done. apply (i_own _ HI).
Qed.

Lemma start_step s h x s' : hinv s -> harts s !! h = Some x -> change s h x s' ->
  forall k y j ph r, harts s' !! k = Some y -> h_pos y = HVisit VStart j ph r -> ph <> Rel -> exists i t, thr r = Some (i, t) /\ forking i s' = Some j.
Proof.
  intros HI Hx Hc k y j ph r Hy Hpos Hph. destruct (decide (k = h)) as [->|Hk].
  - assert (forall v m r', h_pos x = HVisit v m Acq r' -> r' = HVisit VStart j ph r -> False) as Hno.
    { intros v m r' Hp ->. destruct (i_wf _ HI h x Hx) as (Hwf & _). rewrite Hp in Hwf. by destruct Hwf as [(? & ? & ? & _)|[[i ?]|(i & c & ? & _)]]. }
    destruct Hc as [pos' Hs|i p pos' Ha Hp Hl|i p pos' Hr Hp Hl|i t t' c z Ha Hpos' Hz Hl|i t t' c z Hr Hpos' Hz Hl|i t t' f Hw Hpos'|v m r' p Hpos' Hp|i c Hpos'|i c Hpos'|m p Hpos' Hp Hst|i t t' p Hlv Hpos' Hp Hst|m Hpos'];
      cbn in Hy; rewrite ?note_new_harts in Hy; cbn in Hy; rewrite (list_lookup_insert_eq (harts s)) in Hy by (by eapply lookup_lt_Some); injection Hy as <-; cbn in Hpos; try discriminate Hpos.
    + remember (h_pos x) as pos eqn:Hpx. destruct Hs as [| | |i v m H1 H2| |c m r0 Hm]; try discriminate Hpos; [|by destruct (Hno (VWake c) m r0)].
      injection Hpos as -> -> <- <-. exists i, TOut. split; [done|]. by apply H1.
    + remember (h_pos x) as pos eqn:Hpx. destruct Ha as [|v m r0 Hm| | |]; try discriminate Hpos. injection Hpos as -> -> <- ->. by eapply (i_start _ HI h x).
    + remember (h_pos x) as pos eqn:Hpx. destruct Hr as [|v m r0| | |]; try discriminate Hpos. destruct (i_wf _ HI h x Hx) as (Hwf & _). rewrite <- Hpx in Hwf.
      destruct v; cbn in *; try discriminate Hpos; subst r0; by destruct Hwf as [(? & ? & ? & _)|[[? ?]|(? & ? & ? & _)]].
    + injection Hpos as _ _ <- _. done.
  - destruct (change_hart _ _ _ _ Hc) as [x' He]. rewrite He, (harts_at _ _ _ _ _ Hx), decide_False in Hy by done. destruct (i_start _ HI k y j ph r Hy Hpos Hph) as (i & t & Ht & Hn). exists i, t. split; [done|].
    assert (run s k = Some (i, t)) as Hrk by (unfold run; rewrite Hy; cbn; by rewrite Hpos). assert (h_proc x = Some i -> forall v m ph' r', h_pos x = HVisit v m ph' r' -> False) as Hno.
    { intros Hi v m ph' r' Hpx. destruct (visit_thread _ _ _ _ _ _ _ _ HI Hx Hpx Hi) as (t' & _ & Hr'). apply Hk. by eapply (i_uniq _ HI). }
    destruct (forking_step _ _ _ _ Hc) as [Hf|[(l & m & r' & p & Hpx & Hl & _ & _ & _ & Hf)|(l & m & r' & Hpx & Hl & Hf)]]; rewrite Hf; [done| |]; (rewrite decide_False; [done|]; intros ->; by eapply Hno).
Qed.

(** ** Every step keeps the invariant *)

Lemma hinv_step s h a s' : hinv s -> hstep h a s = Next s' -> hinv s'.
Proof.
  intros HI Hs. destruct (hstep_shape _ _ _ _ Hs) as (x & Hx & Hc). split.
  - by eapply wf_step.
  - by eapply lock_step.
  - by eapply clock_step.
  - by eapply uniq_step.
  - by eapply on_step.
  - by eapply off_step.
  - by eapply new_step.
  - by eapply own_step.
  - by eapply start_step.
Qed.

Lemma boot_run np nh nc h : run (boot np nh nc) h = None /\ hold (boot np nh nc) h = None /\ chold (boot np nh nc) h = None.
Proof. unfold run, hold, chold. cbn. destruct (replicate nh _ !! h) as [x|] eqn:E; [|done]. by apply lookup_replicate in E as [-> _]. Qed.

Lemma boot_procs np nh nc i p : procs (boot np nh nc) !! i = Some p -> pc_lock p = None /\ off_ok p.
Proof.
  cbn. destruct (decide (i = 0%nat)) as [->|Hne].
  - destruct np; [done|]. cbn. intros [= <-]. by repeat split.
  - rewrite list_lookup_insert_ne by done. intros [-> _]%lookup_replicate. by repeat split.
Qed.

Lemma boot_hinv np nh nc : hinv (boot np nh nc).
Proof.
  assert (forall i, forking i (boot np nh nc) = None) as Hn by (intros i; unfold forking; cbn; destruct (replicate np None !! i) as [v|] eqn:E; [by apply lookup_replicate in E as [-> _]|done]).
  split.
  - intros h x Hx. apply lookup_replicate in Hx as [-> _]. by repeat split.
  - intros i h. rewrite (proj1 (proj2 (boot_run np nh nc h))). split; [|done]. unfold lkf. destruct (procs (boot np nh nc) !! i) as [p|] eqn:E; [|done]. cbn [mbind option_bind]. by destruct (boot_procs _ _ _ _ _ E) as [-> _].
  - intros c h. rewrite (proj2 (proj2 (boot_run np nh nc h))). split; [|done]. unfold clk. destruct (cnds (boot np nh nc) !! c) as [y|] eqn:E; [|done]. by apply lookup_replicate in E as [-> _].
  - intros h h' i t t'. by rewrite (proj1 (boot_run np nh nc h)).
  - intros h i t p. by rewrite (proj1 (boot_run np nh nc h)).
  - intros i p Hp _. by apply (boot_procs _ _ _ _ _ Hp).
  - intros i j. by rewrite Hn.
  - intros i i' j. by rewrite Hn.
  - intros h x j ph r Hx. by apply lookup_replicate in Hx as [-> _].
Qed.

Lemma reach_hinv np nh nc s : reach (boot np nh nc) s -> hinv s.
Proof. induction 1 as [|s s' h a _ IH Hs]; [apply boot_hinv|by eapply hinv_step]. Qed.
