(* ===== verification/HartsClaims.v ===== *)
(** * Scheduling is safe, and no wakeup is lost *)

From S2P Require Import Prelude State Harts HartsSpec.

(** ** No panic *)

Lemma filter_none {A} (P : A -> Prop) `{forall x, Decision (P x)} (l : list A) : (forall j y, l !! j = Some y -> ~ P y) -> filter P l = [].
Proof.
  intros Hn. induction l as [|a l IH]; [done|]. rewrite filter_cons, decide_False by (exact (Hn 0%nat a eq_refl)). apply IH. intros j y Hj. exact (Hn (S j) y Hj).
Qed.

Lemma filter_one {A} (P : A -> Prop) `{forall x, Decision (P x)} (l : list A) : forall i x, l !! i = Some x -> P x -> (forall j y, l !! j = Some y -> P y -> j = i) -> length (filter P l) = 1%nat.
Proof.
  induction l as [|a l IH]; intros i x Hi Hx Hu; [done|]. rewrite filter_cons. destruct i as [|i].
  - injection Hi as ->. rewrite decide_True by done. cbn. f_equal. rewrite filter_none; [done|]. intros j y Hj Hy. by specialize (Hu (S j) y Hj Hy).
  - rewrite decide_False by (intros Ha; by specialize (Hu 0%nat a eq_refl Ha)). apply (IH i x); [done|done|]. intros j y Hj Hy. specialize (Hu (S j) y Hj Hy). lia.
Qed.

Section safe.
  Context (s : sys) (h : nat) (x : hart).
  Hypothesis HI : hinv s.
  Hypothesis Hx : harts s !! h = Some x.
  #[local] Set Default Proof Using "HI Hx".

Lemma own_lock i : plock (h_pos x) = Some i -> exists p, procs s !! i = Some p /\ pc_lock p = Some h.
Proof.
  intros H. rewrite <- (hold_here _ _ _ Hx) in H. apply (i_lock _ HI) in H. unfold lkf in H. destruct (procs s !! i) as [p|] eqn:E; [|done]. by exists p.
Qed.

Lemma own_clock c : clock (h_pos x) = Some c -> exists y, cnds s !! c = Some y /\ cn_lock y = Some h.
Proof.
  intros H. rewrite <- (chold_here _ _ _ Hx) in H. apply (i_clock _ HI) in H. unfold clk in H. destruct (cnds s !! c) as [y|] eqn:E; [|done]. by exists y.
Qed.

Lemma acquire_p_safe i pos msg : plock (h_pos x) = None -> then_pos h x pos (acquire_p h i s) <> Bad msg.
Proof.
  intros Hn. unfold acquire_p. destruct (procs s !! i) as [p|] eqn:E; [|done]. destruct (pc_lock p) as [h'|] eqn:El; [|done]. case_decide as Eh; [|done]. subst h'.
  assert (hold s h = Some i) as Hh by (apply (i_lock _ HI); unfold lkf; by rewrite E). rewrite (hold_here _ _ _ Hx) in Hh. congruence.
Qed.

Lemma release_p_safe i pos msg : plock (h_pos x) = Some i -> then_pos h x pos (release_p h i s) <> Bad msg.
Proof. intros Hn. destruct (own_lock i Hn) as (p & Hp & Hl). unfold release_p. by rewrite Hp, decide_True. Qed.

Lemma acquire_c_safe c pos msg : clock (h_pos x) = None -> then_pos h x pos (acquire_c h c s) <> Bad msg.
Proof.
  intros Hn. unfold acquire_c. destruct (cnds s !! c) as [y|] eqn:E; [|done]. destruct (cn_lock y) as [h'|] eqn:El; [|done]. case_decide as Eh; [|done]. subst h'.
  assert (chold s h = Some c) as Hh by (apply (i_clock _ HI); unfold clk; by rewrite E). rewrite (chold_here _ _ _ Hx) in Hh. congruence.
Qed.

Lemma release_c_safe c pos msg : clock (h_pos x) = Some c -> then_pos h x pos (release_c h c s) <> Bad msg.
Proof. intros Hn. destruct (own_clock c Hn) as (p & Hp & Hl). unfold release_c. by rewrite Hp, decide_True. Qed.

(** [sched] is called with [p->lock] only. *)
Lemma noff_one i : plock (h_pos x) = Some i -> clock (h_pos x) = None -> noff h s = 1%nat.
Proof.
  intros Hl Hc. destruct (own_lock i Hl) as (p & Hp & Hlk). unfold noff. rewrite (filter_one _ _ i p Hp Hlk).
  - rewrite filter_none; [done|]. intros c y Hy E. assert (chold s h = Some c) as Hh by (apply (i_clock _ HI); unfold clk; by rewrite Hy). rewrite (chold_here _ _ _ Hx) in Hh. congruence.
  - intros j q Hq E. assert (hold s h = Some j) as Hh by (apply (i_lock _ HI); unfold lkf; by rewrite Hq). rewrite (hold_here _ _ _ Hx) in Hh. congruence.
Qed.

Lemma sched_safe i t t' msg : leaves t t' -> h_pos x = HThr i t -> sched_step h x i t' s <> Bad msg.
Proof.
  intros Hl Hpos. assert (plock (h_pos x) = Some i /\ clock (h_pos x) = None) as [Hp Hc] by (rewrite Hpos; by destruct Hl). destruct (own_lock i Hp) as (p & Hpi & Hlk).
  unfold sched_step. rewrite Hpi, (noff_one i Hp Hc), bool_decide_eq_true_2 by done. cbn [negb Nat.eqb]. rewrite bool_decide_eq_false_2; [done|].
  assert (run s h = Some (i, t)) as Hr by (by rewrite (run_here _ _ _ Hx), Hpos). destruct (i_on _ HI _ _ _ _ Hr Hpi) as [-> _]. by destruct Hl.
Qed.

End safe.

Lemma thread_safe s h x i t a msg : hinv s -> harts s !! h = Some x -> h_pos x = HThr i t -> thread_step h x i t a s <> Bad msg.
Proof.
  intros HI Hx Hpos. destruct (i_wf _ HI h x Hx) as (_ & Hc & _). rewrite Hpos in Hc. cbn in Hc.
  destruct t, a; cbn [thread_step]; try done; repeat (case_decide; try done).
  all: try (by (apply acquire_p_safe || apply release_p_safe || apply acquire_c_safe || apply release_c_safe); [..|rewrite Hpos]).
  all: try (eapply sched_safe; [done|done| |done]; constructor).
  - by destruct (forking i s).
  - destruct (cnds s !! c) as [y|]; [|done]. destruct (cn_val y); [done|]. apply acquire_p_safe; [done|done|by rewrite Hpos].
  - assert (run s h = Some (i, RDead)) as Hr by (by rewrite (run_here _ _ _ Hx), Hpos). destruct (own_lock s h x HI Hx i) as (p & Hp & _); [by rewrite Hpos|]. by destruct (i_on _ HI _ _ _ _ Hr Hp).
Qed.

Lemma hstep_safe s h a msg : hinv s -> hstep h a s <> Bad msg.
Proof.
  intros HI. unfold hstep. destruct (harts s !! h) as [x|] eqn:Hx; [|done]. destruct (h_pos x) as [k|k|k|k|i t|v j ph r] eqn:Hpos.
  - assert (scheduler_step h x s <> Bad msg) as Hs by (unfold scheduler_step; rewrite Hpos; case_decide; [|done]; apply acquire_p_safe; [done|done|by rewrite Hpos]). by destruct a.
  - unfold scheduler_step. rewrite Hpos. destruct (procs s !! k); [|done]. by case_decide.
  - unfold scheduler_step. by rewrite Hpos.
  - unfold scheduler_step. rewrite Hpos. apply release_p_safe; [done|done|by rewrite Hpos].
  - by apply thread_safe.
  - unfold visit_step. rewrite Hpos. destruct ph.
    + destruct v; repeat (case_decide; try done); apply acquire_p_safe; try done; by rewrite Hpos.
    + by destruct (procs s !! j).
    + apply release_p_safe; [done|done|by rewrite Hpos].
Qed.


(** ** No lost wakeup *)

(** Process [i] sleeps on [c], or is on its way after it has released the lock of
    the condition. *)
Definition dozing (c : nat) (t : tpos) : Prop := t = TSleep2 c \/ t = TSleep3 c \/ t = TSleep4 c.
Definition asleep (s : sys) (i c : nat) : Prop :=
  (exists p, procs s !! i = Some p /\ pc_state p = SLEEPING /\ pc_chan p = Some c) \/ exists h t, run s h = Some (i, t) /\ dozing c t.

(** A hart that signals the condition has not passed process [i] yet. *)
Definition waking (s : sys) (i c : nat) : Prop :=
  exists h x j ph r, harts s !! h = Some x /\ h_pos x = HVisit (VWake c) j ph r /\ clock r = Some c /\ ((j < i)%nat \/ j = i /\ ph <> Rel).

Record winv (s : sys) : Prop := {
  w_test : forall h i c y, run s h = Some (i, TSleep1 c) -> cnds s !! c = Some y -> cn_val y = false;
  w_wake : forall i c y, cnds s !! c = Some y -> cn_val y = true -> asleep s i c -> waking s i c
}.

Lemma dozing_keeps c t : dozing c t -> keeps_lock t = true.
Proof. by intros [->|[->| ->]]. Qed.

(** The condition changes only under its lock. *)
Lemma cond_step s h x s' c y' : change s h x s' -> cnds s' !! c = Some y' ->
  exists y, cnds s !! c = Some y /\ (cn_val y' = cn_val y \/ (exists i, h_pos x = HThr i (TCrit c) /\ (cn_val y' = false \/ h_pos x = HThr i (TCrit c) /\
    s' = set_hart h (at_pos x (HVisit (VWake c) 0 Acq (HThr i (TCrit c)))) (on_cnd c (set_cn_val true) s)))).
Proof.
  intros Hc Hy'. assert (forall d f, cnds s' = alter f d (cnds s) -> exists y, cnds s !! c = Some y /\ y' = if decide (c = d) then f y else y) as Halt.
  { intros d f E. rewrite E in Hy'. destruct (decide (c = d)) as [->|Hne]; [|rewrite list_lookup_alter_ne in Hy' by done; by exists y'].
    rewrite list_lookup_alter_eq in Hy'. destruct (cnds s !! d) as [y|]; [|done]. injection Hy' as <-. by exists y. }
  destruct Hc as [pos' Hs|i p pos' Ha Hp Hl|i p pos' Hr Hp Hl|i t t' d z Ha Hpos Hz Hl|i t t' d z Hr Hpos Hz Hl|i t t' f Hw Hpos|v j r p Hpos Hp|i d Hpos|i d Hpos|k p Hpos Hp Hst|i t t' p Hlv Hpos Hp Hst|k Hpos];
    try (exists y'; split; [exact Hy'|by left]).
  - destruct (Halt d _ eq_refl) as (y & Hy & ->). exists y. split; [done|]. left. by case_decide.
  - destruct (Halt d _ eq_refl) as (y & Hy & ->). exists y. split; [done|]. left. by case_decide.
  - cbn in Hy'. rewrite note_new_cnds in Hy'. exists y'. split; [done|by left].
  - destruct (Halt d _ eq_refl) as (y & Hy & ->). exists y. split; [done|]. case_decide as E; [subst d|by left]. right. exists i. split; [done|]. by right.
  - destruct (Halt d _ eq_refl) as (y & Hy & ->). exists y. split; [done|]. case_decide as E; [subst d|by left]. right. exists i. split; [done|]. by left.
Qed.

Lemma insert_pos s s' h x x' y' : harts s !! h = Some x -> harts s' = <[h := x']> (harts s) -> harts s' = <[h := y']> (harts s) -> h_pos x' = h_pos y'.
Proof.
  intros Hx He E. rewrite He in E. pose proof (lookup_lt_Some _ _ _ Hx) as Hl. assert (Some x' = Some y') as [= ->]; [|done]. by rewrite <- (list_lookup_insert_eq (harts s) h x' Hl), E, list_lookup_insert_eq.
Qed.

Lemma sleep1_from s h x s' i c : harts s !! h = Some x -> hinv s -> change s h x s' -> run s' h = Some (i, TSleep1 c) ->
  run s h = Some (i, TSleep1 c) \/ (cnds s' = cnds s /\ exists y, cnds s !! c = Some y /\ cn_val y = false).
Proof.
  intros Hx HI Hc Hr. rewrite (run_here _ _ _ Hx). destruct (change_hart _ _ _ _ Hc) as [x' He]. rewrite (run_at _ _ _ Hx _ _ _ He), decide_True in Hr by done.
  pose proof (fun y' => insert_pos s s' h x x' y' Hx He) as Hsame.
  destruct Hc as [pos' Hs|j p pos' Ha Hp Hl|j p pos' Hrl Hp Hl|j t t' d z Ha Hpos Hz Hl|j t t' d z Hrl Hpos Hz Hl|j t t' f Hw Hpos|v j r p Hpos Hp|j d Hpos|j d Hpos|k p Hpos Hp Hst|j t t' p Hlv Hpos Hp Hst|k Hpos];
    (rewrite (Hsame _ ltac:(cbn; rewrite ?note_new_harts; reflexivity)) in Hr); cbn [h_pos at_pos thr] in Hr.
  - left. by destruct Hs.
  - destruct Ha as [|v m r Hm| | |m d y Hy Hv]; cbn in *; try discriminate Hr; [by left|]. injection Hr as <- <-. right. split; [done|]. by exists y.
  - left. destruct Hrl as [|v m r| | |]; cbn in *; try discriminate Hr. by destruct v.
  - injection Hr as <- ->. inversion Ha.
  - injection Hr as <- ->. inversion Hrl.
  - injection Hr as <- ->. inversion Hw.
  - left. by rewrite Hpos.
  - left. by rewrite Hpos.
  - left. by rewrite Hpos.
  - injection Hr as <- E. destruct (picked_off _ _ _ _ _ HI Hx Hpos Hp Hst) as [Hres _]. by rewrite E in Hres.
  - done.
  - done.
Qed.

Lemma dozing_from s h x s' i c t : harts s !! h = Some x -> hinv s -> change s h x s' -> run s' h = Some (i, t) -> dozing c t ->
  exists t0, run s h = Some (i, t0) /\ (dozing c t0 \/ t0 = TSleep1 c).
Proof.
  intros Hx HI Hc Hr Hd. rewrite (run_here _ _ _ Hx). destruct (change_hart _ _ _ _ Hc) as [x' He]. rewrite (run_at _ _ _ Hx _ _ _ He), decide_True in Hr by done.
  pose proof (fun y' => insert_pos s s' h x x' y' Hx He) as Hsame.
  destruct Hc as [pos' Hs|j p pos' Ha Hp Hl|j p pos' Hrl Hp Hl|j u t' d z Ha Hpos Hz Hl|j u t' d z Hrl Hpos Hz Hl|j u t' f Hw Hpos|v j r p Hpos Hp|j d Hpos|j d Hpos|k p Hpos Hp Hst|j u t' p Hlv Hpos Hp Hst|k Hpos];
    (rewrite (Hsame _ ltac:(cbn; rewrite ?note_new_harts; reflexivity)) in Hr); cbn [h_pos at_pos thr] in Hr.
  - exists t. split; [by destruct Hs|by left].
  - exists t. destruct Ha as [|v m r Hm| | |m d y Hy Hv]; cbn in *; try discriminate Hr; try (injection Hr as <- <-; destruct Hd as [?|[?|?]]; discriminate). split; [done|by left].
  - exists t. destruct Hrl as [|v m r| | |]; cbn in *; try discriminate Hr; try (injection Hr as <- <-; destruct Hd as [?|[?|?]]; discriminate). split; [by destruct v|by left].
  - injection Hr as <- ->. destruct Ha; by destruct Hd as [?|[?|?]].
  - injection Hr as <- ->. destruct Hrl as [d|d]; [by destruct Hd as [?|[?|?]]|]. exists (TSleep1 d). rewrite Hpos. split; [done|]. right. destruct Hd as [[= ->]|[?|?]]; done.
  - injection Hr as <- ->. exists u. rewrite Hpos. split; [done|]. left. unfold dozing in *. destruct Hw; destruct Hd as [E|[E|E]]; try discriminate E; injection E as ->; tauto.
  - exists t. rewrite Hpos. split; [done|by left].
  - exists t. rewrite Hpos. split; [done|by left].
  - exists t. rewrite Hpos. split; [done|by left].
  - injection Hr as <- E. destruct (picked_off _ _ _ _ _ HI Hx Hpos Hp Hst) as [Hres _]. rewrite E in Hres. by destruct Hd as [->|[->| ->]].
  - done.
  - done.
Qed.

Lemma test_step s h x s' : hinv s -> winv s -> harts s !! h = Some x -> change s h x s' -> forall k i c y, run s' k = Some (i, TSleep1 c) -> cnds s' !! c = Some y -> cn_val y = false.
Proof.
  intros HI HW Hx Hc k i c y' Hr Hy'. destruct (cond_step _ _ _ _ _ _ Hc Hy') as (y & Hy & Hv).
  assert (run s k = Some (i, TSleep1 c) -> cn_val y' = false) as Hold.
  { intros Hr0. pose proof (w_test _ HW _ _ _ _ Hr0 Hy) as Hf. destruct Hv as [->|(j & Hpos & _)]; [done|]. exfalso.
    assert (chold s k = Some c) as H1 by (unfold run, chold, clock in *; destruct (harts s !! k) as [z|]; [|done]; cbn in *; by rewrite Hr0).
    assert (chold s h = Some c) as H2 by (by rewrite (chold_here _ _ _ Hx), Hpos). rewrite (chold_one s HI k h c H1 H2) in *. rewrite (run_here _ _ _ Hx), Hpos in Hr0. done. }
  destruct (decide (k = h)) as [->|Hk].
  - destruct (sleep1_from _ _ _ _ _ _ Hx HI Hc Hr) as [Hr0|[E (z & Hz & Hf)]]; [by apply Hold|]. rewrite E in Hy'. congruence.
  - apply Hold. destruct (change_hart _ _ _ _ Hc) as [x' He]. by rewrite (run_at _ _ _ Hx _ _ _ He), decide_False in Hr.
Qed.

(** A process that sleeps after a step was asleep before, or on its way. *)
Lemma sleeping_from s h x s' i p' c : harts s !! h = Some x -> hinv s -> change s h x s' -> procs s' !! i = Some p' -> pc_state p' = SLEEPING -> pc_chan p' = Some c -> asleep s i c.
Proof.
  intros Hx HI Hc Hp' Hs Hch. assert (same_pcbs s s' -> asleep s i c) as Hsame by (intros H; destruct (H _ _ Hp') as (p & Hp & E1 & E2 & _); left; exists p; split; [done|]; split; congruence).
  assert (forall j q f, procs s !! j = Some q -> procs s' = alter f j (procs s) -> (pc_state (f q) = SLEEPING -> pc_chan (f q) = Some c -> asleep s j c) -> asleep s i c) as Halt.
  { intros j q f Hq E Hf. rewrite E in Hp'. destruct (decide (i = j)) as [->|Hne]; [rewrite list_lookup_alter_eq, Hq in Hp'; injection Hp' as <-; by apply Hf|].
    rewrite list_lookup_alter_ne in Hp' by done. left. by exists p'. }
  destruct Hc as [pos' Hm|j p pos' Ha Hp Hl|j p pos' Hrl Hp Hl|j u t' d z Ha Hpos Hz Hl|j u t' d z Hrl Hpos Hz Hl|j u t' f Hw Hpos|v j r p Hpos Hp|j d Hpos|j d Hpos|k p Hpos Hp Hst|j u t' p Hlv Hpos Hp Hst|k Hpos];
    try (apply Hsame; (by apply same_refl) || (by eapply same_lock)).
  - destruct (procs s !! j) as [q|] eqn:Hq.
    + apply (Halt j q f Hq eq_refl). assert (run s h = Some (j, u)) as Hr by (by rewrite (run_here _ _ _ Hx), Hpos). destruct (i_on _ HI _ _ _ _ Hr Hq) as [O1 O2].
      destruct Hw as [|d|d| |d]; cbn in *; try congruence. intros _ Ed. right. exists h, (TSleep3 d). split; [done|]. right. left. congruence.
    + left. cbn in Hp'. assert (i <> j) as Hij by (intros ->; by rewrite list_lookup_alter_eq, Hq in Hp'). rewrite alter_other in Hp' by done. by exists p'.
  - apply (Halt j p (visited v) Hp); [exact (note_new_procs v j p x _)|]. intros E1 E2. left. exists p. split; [done|]. unfold visited in E1, E2. destruct v; try case_decide; cbn in *; done.
  - apply (Halt k p (set_pc_state RUNNING) Hp eq_refl). done.
  - apply (Halt j p (set_pc_ctx t') Hp eq_refl). intros E1 E2. left. by exists p.
Qed.

Lemma asleep_from s h x s' i c y : harts s !! h = Some x -> hinv s -> winv s -> change s h x s' -> cnds s !! c = Some y -> cn_val y = true -> asleep s' i c -> asleep s i c.
Proof.
  intros Hx HI HW Hc Hy Hv [(p' & Hp' & Hs & Hch)|(k & t & Hr & Hd)]; [by eapply sleeping_from|]. destruct (decide (k = h)) as [->|Hk].
  - destruct (dozing_from _ _ _ _ _ _ _ Hx HI Hc Hr Hd) as (t0 & Hr0 & [Hd0| ->]); [right; by exists h, t0|]. rewrite (w_test _ HW _ _ _ _ Hr0 Hy) in Hv. done.
  - destruct (change_hart _ _ _ _ Hc) as [x' He]. rewrite (run_at _ _ _ Hx _ _ _ He), decide_False in Hr by done. right. by exists k, t.
Qed.

(** The process that a signalling hart runs does not sleep. *)
Lemma signaller_awake s h x v j ph r c i t : hinv s -> harts s !! h = Some x -> h_pos x = HVisit v j ph r -> clock r = Some c -> thr r = Some (i, t) -> ~ asleep s i c.
Proof.
  intros HI Hx Hpos Hcl Ht Ha. assert (run s h = Some (i, t)) as Hr by (by rewrite (run_here _ _ _ Hx), Hpos). unfold clock in Hcl. rewrite Ht in Hcl. cbn in Hcl.
  destruct (i_wf _ HI h x Hx) as (Hwf & _). rewrite Hpos in Hwf. assert (t = TCrit c) as -> by (destruct Hwf as [(? & ? & -> & _)|[[m ->]|(m & d & -> & _)]]; cbn in Ht; [done|injection Ht as <- <-; done|injection Ht as <- <-; cbn in Hcl; congruence]).
  destruct Ha as [(p & Hp & Hs & _)|(k & u & Hk & Hd)].
  - destruct (i_on _ HI _ _ _ _ Hr Hp) as [O1 _]. cbn in O1. congruence.
  - rewrite (i_uniq _ HI _ _ _ _ _ Hk Hr) in Hk. rewrite Hr in Hk. injection Hk as <-. by destruct Hd as [?|[?|?]].
Qed.

Lemma asleep_range s i c : hinv s -> asleep s i c -> (i < length (procs s))%nat.
Proof.
  intros HI [(p & Hp & _)|(h & t & Hr & Hd)]; [by eapply lookup_lt_Some|]. pose proof (keeps_hold s HI _ _ _ Hr (dozing_keeps _ _ Hd)) as Hh. apply (i_lock _ HI) in Hh.
  unfold lkf in Hh. destruct (procs s !! i) as [p|] eqn:E; [|done]. by eapply lookup_lt_Some.
Qed.

(** A process that a wakeup has just looked at does not sleep on its channel. *)
Lemma woken s h x c j r p : hinv s -> harts s !! h = Some x -> h_pos x = HVisit (VWake c) j Test r -> clock r = Some c -> procs s !! j = Some p ->
  ~ asleep (set_hart h (at_pos x (HVisit (VWake c) j Rel r)) (note_new (VWake c) j p x (on_pcb j (visited (VWake c)) s))) j c.
Proof.
  intros HI Hx Hpos Hcl Hp [(p' & Hp' & Hs & Hch)|(k & t & Hr & Hd)].
  - cbn in Hp'. rewrite list_lookup_alter_eq, Hp in Hp'. injection Hp' as <-. unfold visited in Hs, Hch. case_decide; [done|]. tauto.
  - assert (run s k = Some (j, t)) as Hr0 by (rewrite (run_at _ _ _ Hx _ (at_pos x (HVisit (VWake c) j Rel r)) k) in Hr by reflexivity; destruct (decide (k = h)) as [->|]; [by rewrite (run_here _ _ _ Hx), Hpos|done]).
    assert (hold s h = Some j) as Hh by (by rewrite (hold_here _ _ _ Hx), Hpos). assert (k = h) as -> by exact (hold_one s HI k h j (keeps_hold s HI _ _ _ Hr0 (dozing_keeps _ _ Hd)) Hh).
    assert (thr r = Some (j, t)) as Ht by (by rewrite (run_here _ _ _ Hx), Hpos in Hr0). apply (signaller_awake _ _ _ _ _ _ _ _ _ _ HI Hx Hpos Hcl Ht). right. by exists h, t.
Qed.

Lemma wake_step s h x s' : hinv s -> winv s -> harts s !! h = Some x -> change s h x s' -> forall i c y, cnds s' !! c = Some y -> cn_val y = true -> asleep s' i c -> waking s' i c.
Proof.
  intros HI HW Hx Hc i c y' Hy' Hv' Ha'. destruct (cond_step _ _ _ _ _ _ Hc Hy') as (y & Hy & [Ev|(m & Hm & [Ev|[_ ->]])]); [|congruence|].
  2:{ exists h, (at_pos x (HVisit (VWake c) 0 Acq (HThr m (TCrit c)))), 0%nat, Acq, (HThr m (TCrit c)). cbn. rewrite (list_lookup_insert_eq (harts s)) by (by eapply lookup_lt_Some).
      do 3 (split; [done|]). destruct i; [right; done|left; lia]. }
  assert (asleep s i c) as Ha by (eapply asleep_from; [exact Hx|done|done|exact Hc|exact Hy|congruence|done]).
  destruct (w_wake _ HW i c y Hy ltac:(congruence) Ha) as (k & z & j & ph & r & Hz & Hpos & Hcl & Hj). destruct (decide (k = h)) as [->|Hk].
  2:{ destruct (change_hart _ _ _ _ Hc) as [x' He]. exists k, z, j, ph, r. by rewrite He, (harts_at _ _ _ _ _ Hx), decide_False. }
  rewrite Hx in Hz. injection Hz as <-.
  assert (forall j' ph', harts s' = <[h := at_pos x (HVisit (VWake c) j' ph' r)]> (harts s) -> (j' < i)%nat \/ j' = i /\ ph' <> Rel -> waking s' i c) as Hat.
  { intros j' ph' E Hj'. exists h, (at_pos x (HVisit (VWake c) j' ph' r)), j', ph', r. rewrite E, list_lookup_insert_eq by (by eapply lookup_lt_Some). done. }
  destruct Hc as [pos' Hm|q p pos' Ha2 Hp Hl|q p pos' Hrl Hp Hl|q u t' d z Ha2 Hpos' Hz Hl|q u t' d z Hrl Hpos' Hz Hl|q u t' f Hw Hpos'|v q r' p Hpos' Hp|q d Hpos'|q d Hpos'|q p Hpos' Hp Hst|q u t' p Hlv Hpos' Hp Hst|q Hpos'];
    try (rewrite Hpos in Hpos'; discriminate Hpos').
  - rewrite Hpos in Hm. inversion Hm as [| | | |c0 j0 r0 Hself E1 E2|c0 j0 r0 Hend E1 E2]; subst.
    + destruct (visit_thread _ _ _ _ _ _ _ _ HI Hx Hpos Hself) as (t & Ht & _). assert (j <> i) as Hne by (intros ->; by apply (signaller_awake _ _ _ _ _ _ _ _ _ _ HI Hx Hpos Hcl Ht)).
      apply (Hat (S j) Acq eq_refl). destruct (decide (S j = i)); [by right|left; lia].
    + pose proof (asleep_range _ _ _ HI Ha). lia.
  - rewrite Hpos in Ha2. inversion Ha2; subst. apply (Hat q Test eq_refl). destruct Hj as [?|[-> _]]; [by left|by right].
  - rewrite Hpos in Hrl. inversion Hrl; subst. apply (Hat (S q) Acq eq_refl). destruct Hj as [?|[_ ?]]; [|done]. destruct (decide (S q = i)); [by right|left; lia].
  - rewrite Hpos in Hpos'. injection Hpos' as <- <- -> <-. apply (Hat j Rel eq_refl). destruct Hj as [?|[-> _]]; [by left|]. by destruct (woken s h x c i r p HI Hx Hpos Hcl Hp).
Qed.

Lemma boot_winv np nh nc : winv (boot np nh nc).
Proof.
  split; [intros h i c y; by rewrite (proj1 (boot_run np nh nc h))|]. intros i c y Hy Hv. apply lookup_replicate in Hy as [-> _]. done.
Qed.

Lemma reach_winv np nh nc s : reach (boot np nh nc) s -> winv s.
Proof.
  induction 1 as [|s s' h a Hr IH Hs]; [apply boot_winv|]. pose proof (reach_hinv _ _ _ _ Hr) as HI. destruct (hstep_shape _ _ _ _ Hs) as (x & Hx & Hc). split; [by eapply test_step|by eapply wake_step].
Qed.

(** C5: no wakeup is lost.  A process that found a condition false under its lock
    and called [sleep] with the lock, and a hart that then makes the condition true
    under the lock and calls [wakeup]: as long as the condition holds, a process
    that sleeps on it, or is still on its way to sleep, is one that a [wakeup] in
    progress has yet to come to; when the lock is free again no process sleeps on
    a condition that is true. *)
Theorem no_lost_wakeup np nh nc s c y : reach (boot np nh nc) s -> cnds s !! c = Some y -> cn_val y = true ->
  (forall i, asleep s i c -> waking s i c) /\ (cn_lock y = None -> forall i p, procs s !! i = Some p -> ~ (pc_state p = SLEEPING /\ pc_chan p = Some c)).
Proof.
  intros Hr Hy Hv. pose proof (reach_hinv _ _ _ _ Hr) as HI. pose proof (reach_winv _ _ _ _ Hr) as HW. split; [intros i; by apply (w_wake _ HW i c y)|].
  intros Hl i p Hp [Hs Hch]. destruct (w_wake _ HW i c y Hy Hv) as (h & x & j & ph & r & Hx & Hpos & Hcl & _); [left; by exists p|].
  assert (chold s h = Some c) as Hh by (rewrite (chold_here _ _ _ Hx), Hpos; exact Hcl). apply (i_clock _ HI) in Hh. unfold clk in Hh. rewrite Hy in Hh. cbn in Hh. congruence.
Qed.

(** ** Instances *)

(** A run in the given order. *)
Fixpoint hrun (l : list (nat * act)) (s : sys) : option sys :=
  match l with
  | [] => Some s
  | (h, a) :: l' => match hstep h a s with Next s' => hrun l' s' | _ => None end
  end.

Lemma hrun_reach l : forall s0 s s', reach s0 s -> hrun l s = Some s' -> reach s0 s'.
Proof.
  induction l as [|[h a] l IH]; intros s0 s s' Hr H; cbn in H; [by injection H as <-|]. destruct (hstep h a s) as [s1| |] eqn:E; try discriminate H. eapply IH; [|exact H]. by eapply reach_step.
Qed.

(** Two harts and three processes: the first process forks the second, which the
    other hart takes up; the first waits for a condition; the second makes it true
    and the first runs again. *)
Definition go (h n : nat) : list (nat * act) := replicate n (h, Go).
Definition sample_run : list (nat * act) :=
  go 0 3 ++ [(0%nat, AAlloc 1)] ++ go 0 3 ++ [(0%nat, AStart)] ++ go 0 3 ++ [(0%nat, AEnter 0); (0%nat, ASleep)] ++ go 0 6 ++
  go 1 6 ++ [(1%nat, AEnter 0); (1%nat, ASignal)].


Lemma lost_wakeup_witness : exists s y, hrun sample_run (boot 3 2 1) = Some s /\ cnds s !! 0%nat = Some y /\ cn_val y = true /\ waking s 0 0.
Proof.
  destruct (hrun sample_run (boot 3 2 1)) as [s|] eqn:E; [|vm_compute in E; discriminate E]. assert (reach (boot 3 2 1) s) as Hr by (eapply hrun_reach; [constructor|exact E]).
  vm_compute in E. injection E as <-. match goal with |- exists s y, Some ?s0 = _ /\ _ => exists s0 end. eexists. split; [reflexivity|]. split; [reflexivity|]. split; [reflexivity|].
  apply (no_lost_wakeup 3 2 1 _ 0 (mk_cnd (Some 1%nat) true) Hr eq_refl eq_refl). left. eexists. split; [reflexivity|]. split; reflexivity.
Defined.
