(* ===== verification/Uart.v ===== *)
(** * kernel/uart.c and kernel/printf.c

    The UART driver and the kernel's [printf].  The device is seen through its
    line status register: [tx_idle] lists what successive reads say of the
    transmitter, [tx_out] is what has been written to the transmit register,
    [rx_in] the characters that have arrived. *)

From S2P Require Import Prelude Riscv Mem Cstring State Sched.

Definition UART_TX_BUF_SIZE : Z := 32.

Definition uart_get {A} (f : uartst -> A) : M kstate A := gets (fun s => f (k_uart s)).
Definition uart_mod (f : uartst -> uartst) : M kstate unit := modify (fun s => set_k_uart (f (k_uart s)) s).

(** [ReadReg(LSR) & LSR_TX_IDLE] *)
Definition lsr_tx_idle : M kstate bool :=
  let! l := uart_get tx_idle in
  match l with
  | [] => ret false
  | b :: l' => uart_mod (set_tx_idle l') ;;; ret b
  end.

(** [WriteReg(THR, c)] *)
Definition write_thr (c : Z) : M kstate unit := uart_mod (fun u => set_tx_out (tx_out u ++ [u8 c]) u).

Definition uartstart_body (_ : unit) : M kstate (unit + unit) :=
  let! w := uart_get tx_w in
  let! r := uart_get tx_r in
  if w =? r then ret (inr tt)
  else
    let! idle := lsr_tx_idle in
    if negb idle then ret (inr tt)
    else
      let! buf := uart_get tx_buf in
      let c := nth (Z.to_nat (r mod UART_TX_BUF_SIZE)) buf 0 in
      uart_mod (set_tx_r (u64 (r + 1))) ;;;
      wakeup Cuarttx ;;;
      write_thr c ;;;
      ret (inl tt).

(** The buffer holds at most [UART_TX_BUF_SIZE] characters, one per turn. *)
Definition uartstart : M kstate unit := mloop (S (Z.to_nat (UART_TX_BUF_SIZE + 1))) uartstart_body tt.

(** [uartputc_sync] spins until the transmitter is idle. *)
Definition uartputc_sync (c : Z) : M kstate unit :=
  let! l := uart_get tx_idle in
  mloop (S (length l)) (fun _ : unit =>
    let! idle := lsr_tx_idle in
    if idle : bool then ret (inr tt) else ret (inl tt)) tt ;;;
  write_thr c.

Section uart.
Context {EN : Env}.

Definition uartputc (c : Z) : M kstate unit :=
  acquire Luart ;;;
  let! moves := gets k_sched in
  mloop (S (length moves)) (fun _ : unit =>
    let! w := uart_get tx_w in
    let! r := uart_get tx_r in
    if w =? u64 (r + UART_TX_BUF_SIZE) then sleep Cuarttx Luart ;;; ret (inl tt)
    else ret (inr tt)) tt ;;;
  let! w := uart_get tx_w in
  uart_mod (fun u => set_tx_buf (<[Z.to_nat (w mod UART_TX_BUF_SIZE) := u8 c]> (tx_buf u)) u) ;;;
  uart_mod (set_tx_w (u64 (w + 1))) ;;;
  uartstart ;;;
  release Luart.

End uart.

(** The receive side: the next character that has arrived, or -1. *)
Definition uartgetc : M kstate Z :=
  let! l := uart_get rx_in in
  match l with
  | c :: l' => uart_mod (set_rx_in l') ;;; ret c
  | [] => ret (-1)
  end.

(** ** console.c: consputc *)

Definition BACKSPACE : Z := 0x100.

Definition consputc (c : Z) : M kstate unit :=
  if c =? BACKSPACE then uartputc_sync 8 ;;; uartputc_sync 32 ;;; uartputc_sync 8
  else uartputc_sync c.

(** ** printf.c *)

Definition s64 (x : Z) : Z := let y := u64 x in if y <? 2 ^ 63 then y else y - 2 ^ 64.

(** [digits[d]] *)
Definition digit (d : Z) : Z := if d <? 10 then 48 + d else 87 + d.

(** The [do ... while] of [printint]: digits, the lowest first. *)
Fixpoint printint_digits (fuel : nat) (x base : Z) : list Z :=
  match fuel with
  | O => []
  | S f => digit (x mod base) :: (if x / base =? 0 then [] else printint_digits f (x / base) base)
  end.

(** What ends up in [buf], in order; 64 turns are enough for 64 bits. *)
Definition printint_buf (xx base : Z) (sign : bool) : list Z :=
  let neg := sign && (xx <? 0) in
  let x := if neg then u64 (- xx) else u64 xx in
  printint_digits 64 x base ++ (if neg then [45] else []).

(** [char buf[16]]: a write past its end is a fault. *)
Definition printint (xx base : Z) (sign : bool) : M kstate unit :=
  let buf := printint_buf xx base sign in
  if 16 <? Z.of_nat (length buf) then fault "printint: buf overflow"
  else mfor (rev buf) consputc.

Definition printptr_digit (x i : Z) : Z := digit (Z.shiftr (u64 (Z.shiftl x (4 * i))) 60).

Definition printptr (x : Z) : M kstate unit :=
  consputc 48 ;;; consputc 120 ;;;
  mfor (seqZ 0 16) (fun i => consputc (printptr_digit x i)).

Definition va_num (args : list parg) : M kstate (Z * list parg) :=
  match args with Num z :: a => ret (z, a) | _ => fault "va_arg" end.
Definition va_str (args : list parg) : M kstate (option (list Z) * list parg) :=
  match args with Str s :: a => ret (s, a) | _ => fault "va_arg" end.

(** An integer conversion: the argument as an [int] or a [uint64]. *)
Definition conv_int (args : list parg) (base : Z) (sign : bool) : M kstate (list parg) :=
  let! ' (z, a) := va_num args in printint (s32 z) base sign ;;; ret a.
Definition conv_long (args : list parg) (base : Z) (sign : bool) : M kstate (list parg) :=
  let! ' (z, a) := va_num args in printint (s64 z) base sign ;;; ret a.

(** One [%] sequence, [fmt] being what follows the [%]: how many characters of
    it are used and the arguments left; [None] at the end of the format. *)
Definition printf_conv (fmt : list Z) (args : list parg) : M kstate (option (nat * list parg)) :=
  let c0 := nth 0 fmt 0 in
  let c1 := if c0 =? 0 then 0 else nth 1 fmt 0 in
  let c2 := if c1 =? 0 then 0 else nth 2 fmt 0 in
  let ok n m := (let! a := m in ret (Some (n, a))) in
  if c0 =? 100 then ok 1%nat (conv_int args 10 true)
  else if (c0 =? 108) && (c1 =? 100) then ok 2%nat (conv_long args 10 true)
  else if (c0 =? 108) && (c1 =? 108) && (c2 =? 100) then ok 3%nat (conv_long args 10 true)
  else if c0 =? 117 then ok 1%nat (conv_int args 10 false)
  else if (c0 =? 108) && (c1 =? 117) then ok 2%nat (conv_long args 10 false)
  else if (c0 =? 108) && (c1 =? 108) && (c2 =? 117) then ok 3%nat (conv_long args 10 false)
  else if c0 =? 120 then ok 1%nat (conv_int args 16 false)
  else if (c0 =? 108) && (c1 =? 120) then ok 2%nat (conv_long args 16 false)
  else if (c0 =? 108) && (c1 =? 108) && (c2 =? 120) then ok 3%nat (conv_long args 16 false)
  else if c0 =? 112 then ok 1%nat (let! ' (z, a) := va_num args in printptr (u64 z) ;;; ret a)
  else if c0 =? 115 then
    ok 1%nat (let! ' (s, a) := va_str args in mfor (default null_str s) consputc ;;; ret a)
  else if c0 =? 37 then ok 1%nat (consputc 37 ;;; ret args)
  else if c0 =? 0 then ret None
  else ok 1%nat (consputc 37 ;;; consputc c0 ;;; ret args).

Fixpoint printf_loop (fuel : nat) (fmt : list Z) (args : list parg) : M kstate unit :=
  match fuel, fmt with
  | S f, c :: fmt' =>
      if negb (c =? 37) then consputc c ;;; printf_loop f fmt' args
      else
        let! r := printf_conv fmt' args in
        match r with
        | Some (n, a) => printf_loop f (drop n fmt') a
        | None => ret tt
        end
  | _, _ => ret tt
  end.

(** [pr.locking] is set once [printfinit] has run. *)
Definition printf (fmt : list Z) (args : list parg) : M kstate unit :=
  acquire Lpr ;;;
  printf_loop (S (length fmt)) fmt args ;;;
  release Lpr.

(** [printf] of a fixed line. *)
Definition kputs (msg : string) : M kstate unit := printf (str_bytes msg ++ [10]) [].
