(* ===== verification/Bio.v ===== *)
(** * Sleep locks and the buffer cache (kernel/sleeplock.c, kernel/bio.c)

    The buffers form a doubly linked list in order of use; entry [NBUF] of
    [k_bufs] is [bcache.head].  The disk driver appears here as the transfer
    of one block between a buffer and the disk; [Virtio.v] models the driver
    itself. *)

From S2P Require Import Prelude Riscv Mem Cstring State Sched.

(** The sleep locks of the kernel: one per buffer and one per in-memory inode. *)
Inductive slref : Type := SLbuf (i : nat) | SLinode (i : nat).

Definition sl_spin (l : slref) : lockid := match l with SLbuf i => Lbuf i | SLinode i => Linode i end.
Definition sl_chan (l : slref) : chan := match l with SLbuf i => Cbuflock i | SLinode i => Cinodelock i end.

Definition buf_get (i : nat) : M kstate buf := tab_get k_bufs i.
Definition buf_mod (i : nat) (f : buf -> buf) : M kstate unit :=
  modify (fun s => set_k_bufs (alter f i (k_bufs s)) s).
Definition inode_get (i : nat) : M kstate inode := tab_get k_itable i.
Definition inode_mod (i : nat) (f : inode -> inode) : M kstate unit :=
  modify (fun s => set_k_itable (alter f i (k_itable s)) s).

Definition sl_get (l : slref) : M kstate sleeplock :=
  match l with
  | SLbuf i => let! b := buf_get i in ret (b_lock b)
  | SLinode i => let! ip := inode_get i in ret (i_lock ip)
  end.

Definition sl_put (l : slref) (v : sleeplock) : M kstate unit :=
  match l with
  | SLbuf i => buf_mod i (set_b_lock v)
  | SLinode i => inode_mod i (set_i_lock v)
  end.

Definition initsleeplock (l : slref) : M kstate unit := sl_put l (mk_sleeplock false 0).

Definition mypid : M kstate Z :=
  let! p := curproc in
  let! pr := proc_get p in
  ret (p_pid pr).

Section bio.
Context {EN : Env}.

(** Each turn of the loop that waits uses up one move of the environment. *)
Definition acquiresleep (l : slref) : M kstate unit :=
  acquire (sl_spin l) ;;;
  let! moves := gets k_sched in
  mloop (S (length moves)) (fun _ : unit =>
    let! lk := sl_get l in
    if sl_locked lk then sleep (sl_chan l) (sl_spin l) ;;; ret (inl tt)
    else ret (inr tt)) tt ;;;
  let! pid := mypid in
  sl_put l (mk_sleeplock true pid) ;;;
  release (sl_spin l).

Definition releasesleep (l : slref) : M kstate unit :=
  acquire (sl_spin l) ;;;
  sl_put l (mk_sleeplock false 0) ;;;
  wakeup (sl_chan l) ;;;
  release (sl_spin l).

Definition holdingsleep (l : slref) : M kstate bool :=
  acquire (sl_spin l) ;;;
  let! lk := sl_get l in
  let! r := (if sl_locked lk then let! pid := mypid in ret (sl_pid lk =? pid) else ret false) in
  release (sl_spin l) ;;;
  ret r.

(** ** The buffer cache *)

(** [&bcache.head] *)
Definition bhead : nat := Z.to_nat NBUF.

(** The transfer of a block, in the order the disk carries them out. *)
Definition virtio_disk_rw (b : nat) (write : bool) : M kstate unit :=
  let! bf := buf_get b in
  if write then
    modify (fun s => set_k_wtrace ((b_blockno bf, b_data bf) :: k_wtrace s)
      (set_k_disk (fun n => if n =? b_blockno bf then b_data bf else k_disk s n) s))
  else
    let! d := gets k_disk in
    buf_mod b (set_b_data (d (b_blockno bf))).

(** Put [b] right behind the head of the list. *)
Definition blink (b : nat) : M kstate unit :=
  let! hd := buf_get bhead in
  buf_mod b (set_b_next (b_next hd)) ;;;
  buf_mod b (set_b_prev bhead).

Definition blink_head (b : nat) : M kstate unit :=
  let! hd := buf_get bhead in
  buf_mod (b_next hd) (set_b_prev b) ;;;
  buf_mod bhead (set_b_next b).

Definition binit : M kstate unit :=
  buf_mod bhead (set_b_prev bhead) ;;;
  buf_mod bhead (set_b_next bhead) ;;;
  mfor (seq 0 (Z.to_nat NBUF)) (fun b =>
    blink b ;;;
    initsleeplock (SLbuf b) ;;;
    blink_head b).

(** One step of the search for a cached block, from the head on. *)
Definition bget_cached (dev blockno : Z) (b : nat) : M kstate (nat + option nat) :=
  if decide (b = bhead) then ret (inr None)
  else
    let! bf := buf_get b in
    if (b_dev bf =? dev) && (b_blockno bf =? blockno) then ret (inr (Some b))
    else ret (inl (b_next bf)).

(** One step of the search for a buffer to recycle, from the tail on. *)
Definition bget_free (b : nat) : M kstate (nat + option nat) :=
  if decide (b = bhead) then ret (inr None)
  else
    let! bf := buf_get b in
    if b_refcnt bf =? 0 then ret (inr (Some b)) else ret (inl (b_prev bf)).

Definition bget (dev blockno : Z) : M kstate nat :=
  acquire Lbcache ;;;
  let! hd := buf_get bhead in
  let! r := mloop (S (S bhead)) (bget_cached dev blockno) (b_next hd) in
  match r with
  | Some b =>
      buf_mod b (fun bf => set_b_refcnt (u32 (b_refcnt bf + 1)) bf) ;;;
      release Lbcache ;;;
      acquiresleep (SLbuf b) ;;;
      ret b
  | None =>
      let! r := mloop (S (S bhead)) bget_free (b_prev hd) in
      match r with
      | Some b =>
          buf_mod b (fun bf => set_b_refcnt 1 (set_b_valid false (set_b_blockno blockno (set_b_dev dev bf)))) ;;;
          release Lbcache ;;;
          acquiresleep (SLbuf b) ;;;
          ret b
      | None => panic "bget: no buffers"
      end
  end.

Definition bread (dev blockno : Z) : M kstate nat :=
  let! b := bget dev blockno in
  let! bf := buf_get b in
  when (negb (b_valid bf))
    (virtio_disk_rw b false ;;;
     buf_mod b (set_b_valid true)) ;;;
  ret b.

Definition bwrite (b : nat) : M kstate unit :=
  let! h := holdingsleep (SLbuf b) in
  panic_if (negb h) "bwrite" ;;;
  virtio_disk_rw b true.

Definition brelse (b : nat) : M kstate unit :=
  let! h := holdingsleep (SLbuf b) in
  panic_if (negb h) "brelse" ;;;
  releasesleep (SLbuf b) ;;;
  acquire Lbcache ;;;
  buf_mod b (fun bf => set_b_refcnt (u32 (b_refcnt bf - 1)) bf) ;;;
  let! bf := buf_get b in
  when (b_refcnt bf =? 0)
    (buf_mod (b_next bf) (set_b_prev (b_prev bf)) ;;;
     buf_mod (b_prev bf) (set_b_next (b_next bf)) ;;;
     blink b ;;;
     blink_head b) ;;;
  release Lbcache.

Definition bpin (b : nat) : M kstate unit :=
  acquire Lbcache ;;;
  buf_mod b (fun bf => set_b_refcnt (u32 (b_refcnt bf + 1)) bf) ;;;
  release Lbcache.

Definition bunpin (b : nat) : M kstate unit :=
  acquire Lbcache ;;;
  buf_mod b (fun bf => set_b_refcnt (u32 (b_refcnt bf - 1)) bf) ;;;
  release Lbcache.

(** The data of a buffer. *)
Definition bdata (b : nat) : M kstate block := let! bf := buf_get b in ret (b_data bf).
Definition bdata_mod (b : nat) (f : block -> block) : M kstate unit :=
  buf_mod b (fun bf => set_b_data (f (b_data bf)) bf).

End bio.
