(* ===== verification/BioLocks.v ===== *)
(** * Sleep locks: what the routines of kernel/sleeplock.c do when they need
    not wait *)

From S2P Require Import Prelude Riscv Mem Cstring State Sched SchedSpec Bio.

(** A thread that runs for process [me], with pid [pid], and holds none of
    the spin locks the buffer cache takes. *)
Record ready (s : kstate) (me : nat) (pid : Z) : Prop := {
  rd_cur : k_cur s = Some me;
  rd_pid : exists pr, k_procs s !! me = Some pr /\ p_pid pr = pid;
  rd_nproc : length (k_procs s) = Z.to_nat NPROC;
  rd_plock : no_plock (k_held s);
  rd_bcache : Lbcache ∉ k_held s;
  rd_buf : forall i, Lbuf i ∉ k_held s
}.

Lemma tab_get_ok {A} (f : kstate -> list A) i x s : f s !! i = Some x -> tab_get f i s = Ok x s.
Proof. unfold tab_get. by intros ->. Qed.

Lemma mypid_ok s me pr : k_cur s = Some me -> k_procs s !! me = Some pr -> mypid s = Ok (p_pid pr) s.
Proof.
  intros Hc Hp. unfold mypid, curproc, myproc, bind, gets. rewrite Hc. cbn.
  unfold proc_get. by rewrite (tab_get_ok k_procs me pr).
Qed.

Section locks.
Context {EN : Env}.

Lemma acquiresleep_free i bf s me pid :
  ready s me pid -> k_bufs s !! i = Some bf -> sl_locked (b_lock bf) = false ->
  acquiresleep (SLbuf i) s = Ok tt (set_k_bufs (alter (set_b_lock (mk_sleeplock true pid)) i (k_bufs s)) s).
Proof.
  intros [Hc (pr & Hpr & <-) _ _ _ Hb] Hi Hl. unfold acquiresleep, sl_get, sl_put. cbn [sl_spin].
  run (acquire_ok _ _ (Hb i)). set (s1 := set_k_held (Lbuf i :: k_held s) s).
  cbn [mloop]. run (tab_get_ok k_bufs i bf s1 Hi : buf_get i s1 = _). rewrite Hl. ksimp.
  run (mypid_ok s1 me pr Hc Hpr). unfold buf_mod. ksimp.
  erewrite release_ok by (cbn; first [reflexivity|apply Hb]). by destruct s.
Qed.

Lemma holdingsleep_mine i bf s me pid :
  ready s me pid -> k_bufs s !! i = Some bf -> b_lock bf = mk_sleeplock true pid ->
  holdingsleep (SLbuf i) s = Ok true s.
Proof.
  intros [Hc (pr & Hpr & <-) _ _ _ Hb] Hi Hl. unfold holdingsleep, sl_get. cbn [sl_spin].
  run (acquire_ok _ _ (Hb i)). set (s1 := set_k_held (Lbuf i :: k_held s) s).
  run (tab_get_ok k_bufs i bf s1 Hi : buf_get i s1 = _). rewrite Hl. cbn [sl_locked sl_pid].
  run (mypid_ok s1 me pr Hc Hpr). rewrite Z.eqb_refl.
  run (release_ok (Lbuf i) s1 (k_held s) eq_refl (Hb i)). by destruct s.
Qed.

Lemma releasesleep_run i s me pid :
  ready s me pid ->
  releasesleep (SLbuf i) s =
    Ok tt (set_k_procs (wake_all (Some me) (Cbuflock i) (k_procs s))
             (set_k_bufs (alter (set_b_lock (mk_sleeplock false 0)) i (k_bufs s)) s)).
Proof.
  intros [Hc _ Hn Hp _ Hb]. unfold releasesleep, sl_put, buf_mod. cbn [sl_spin sl_chan].
  run (acquire_ok _ _ (Hb i)). unfold bind. rewrite wakeup_run; cbn.
  - rewrite Hc. erewrite release_ok by (cbn; first [reflexivity|apply Hb]). by destruct s.
  - intros j [E|Hin]%elem_of_cons; [done|]. by apply (Hp j).
  - done.
Qed.

End locks.

(** ** What waking others leaves alone *)

(** Processes that slept may have become runnable; [me] is as it was. *)
Record woken (me : nat) (ps ps' : list proc) : Prop := {
  wk_me : ps' !! me = ps !! me;
  wk_len : length ps' = length ps;
  wk_proc : forall i p, ps !! i = Some p ->
    ps' !! i = Some p \/ (p_state p = SLEEPING /\ ps' !! i = Some (set_p_state RUNNABLE p))
}.

#[export] Instance woken_refl me : Reflexive (woken me).
Proof. intros ps. split; [done|done|]. intros i p H. by left. Qed.

#[export] Instance woken_trans me : Transitive (woken me).
Proof.
  intros a b c [H1 H2 H3] [H4 H5 H6]. split; [congruence|congruence|].
  intros i p Hp. destruct (H3 i p Hp) as [E|[Hs E]].
  - by apply H6.
  - destruct (H6 _ _ E) as [E'|[Hs' _]]; [by right|]. by destruct p.
Qed.

Lemma wake_all_woken me c ps : woken me ps (wake_all (Some me) c ps).
Proof.
  split; [|by rewrite wake_all_length|].
  - rewrite wake_all_lookup. destruct (ps !! me) as [p|]; [|done]. cbn. unfold wake.
    by rewrite bool_decide_true.
  - intros i p Hp. rewrite wake_all_lookup, Hp. cbn. unfold wake.
    destruct (bool_decide _); [by left|].
    destruct (bool_decide (p_state p = SLEEPING)) eqn:E; [|by left].
    destruct (bool_decide (p_chan p = c)); [|by left]. right. by apply bool_decide_eq_true in E.
Qed.

(** The state without the fields a use of the cache changes. *)
Definition core (s : kstate) : kstate :=
  set_k_wtrace [] (set_k_disk (fun _ _ => 0) (set_k_bufs [] (set_k_procs [] s))).

Record bframe (me : nat) (s s' : kstate) : Prop := {
  bf_core : core s' = core s;
  bf_woken : woken me (k_procs s) (k_procs s')
}.

#[export] Instance bframe_refl me : Reflexive (bframe me).
Proof. intros s. by split. Qed.

#[export] Instance bframe_trans me : Transitive (bframe me).
Proof. intros a b c [H1 H2] [H3 H4]. split; [congruence|by etrans]. Qed.

Lemma bframe_log me s s' : bframe me s s' -> k_log s' = k_log s.
Proof. intros [H _]. apply (f_equal k_log) in H. exact H. Qed.
Lemma bframe_held me s s' : bframe me s s' -> k_held s' = k_held s.
Proof. intros [H _]. apply (f_equal k_held) in H. exact H. Qed.
Lemma bframe_cur me s s' : bframe me s s' -> k_cur s' = k_cur s.
Proof. intros [H _]. apply (f_equal k_cur) in H. exact H. Qed.
Lemma bframe_sched me s s' : bframe me s s' -> k_sched s' = k_sched s.
Proof. intros [H _]. apply (f_equal k_sched) in H. exact H. Qed.
Lemma bframe_sb me s s' : bframe me s s' -> k_sb s' = k_sb s.
Proof. intros [H _]. apply (f_equal k_sb) in H. exact H. Qed.
Lemma bframe_itable me s s' : bframe me s s' -> k_itable s' = k_itable s.
Proof. intros [H _]. apply (f_equal k_itable) in H. exact H. Qed.
Lemma bframe_mem me s s' : bframe me s s' -> k_mem s' = k_mem s.
Proof. intros [H _]. apply (f_equal k_mem) in H. exact H. Qed.

Lemma bframe_ready me pid s s' : bframe me s s' -> ready s me pid -> ready s' me pid.
Proof.
  intros Hf [H1 H2 H3 H4 H5 H6].
  pose proof (bframe_held _ _ _ Hf) as Eh. pose proof (bframe_cur _ _ _ Hf) as Ec.
  destruct Hf as [_ [Hme Hlen _]].
  split; [by rewrite Ec|by rewrite Hme|by rewrite Hlen|by rewrite Eh..].
Qed.

#[export] Hint Resolve bframe_ready : kern.
