(* ===== verification/BioList.v ===== *)
(** * The list of buffers

    [bcache.head] and the buffers form a circular doubly linked list.  It is
    described by the sequence of its nodes from the head round to the head. *)

From S2P Require Import Prelude Riscv Mem Cstring State Sched SchedSpec Bio BioLocks.

Definition nx (bs : list buf) (i : nat) : option nat := b_next <$> bs !! i.
Definition pv (bs : list buf) (i : nat) : option nat := b_prev <$> bs !! i.

(** The links along the nodes [c]. *)
Definition dll (bs : list buf) (c : list nat) : Prop :=
  forall k x y, c !! k = Some x -> c !! S k = Some y -> nx bs x = Some y /\ pv bs y = Some x.

(** [order]: the buffers, the most recently used first. *)
Definition ring (order : list nat) : list nat := bhead :: order ++ [bhead].

Record lru (bs : list buf) (order : list nat) : Prop := {
  lru_perm : order ≡ₚ seq 0 bhead;
  lru_dll : dll bs (ring order)
}.

Lemma lru_elem bs order i : lru bs order -> i ∈ order <-> (i < bhead)%nat.
Proof. intros [Hp _]. rewrite Hp, elem_of_seq. lia. Qed.

Lemma lru_nodup bs order : lru bs order -> NoDup (bhead :: order).
Proof.
  intros [Hp _]. constructor.
  - rewrite Hp, elem_of_seq. lia.
  - rewrite Hp. apply NoDup_seq.
Qed.

Lemma lru_length bs order : lru bs order -> length order = bhead.
Proof. intros [Hp _]. by rewrite Hp, length_seq. Qed.

(** In the ring no node precedes two others, and none follows two others. *)
Lemma ring_first order i j x :
  NoDup (bhead :: order) -> (i <= length order)%nat -> (j <= length order)%nat ->
  ring order !! i = Some x -> ring order !! j = Some x -> i = j.
Proof.
  intros Hnd Hi Hj Hx Hy. unfold ring in *.
  change (bhead :: order ++ [bhead]) with ((bhead :: order) ++ [bhead]) in *.
  rewrite lookup_app_l in Hx, Hy by (cbn; lia). by eapply NoDup_lookup.
Qed.

Lemma ring_second order i j x :
  NoDup (bhead :: order) -> ring order !! S i = Some x -> ring order !! S j = Some x -> i = j.
Proof.
  intros Hnd Hx Hy. unfold ring in *. cbn in Hx, Hy.
  eapply NoDup_lookup; [|exact Hx|exact Hy].
  apply NoDup_app. apply NoDup_cons in Hnd as [Hn Hnd]. split; [done|]. split.
  - intros y Hy' ->%list_elem_of_singleton. done.
  - apply NoDup_singleton.
Qed.

Lemma dll_ext bs bs' c :
  (forall i, i ∈ c -> nx bs' i = nx bs i /\ pv bs' i = pv bs i) -> dll bs c -> dll bs' c.
Proof.
  intros He Hd k x y Hx Hy.
  destruct (He x) as [Ex _]; [by eapply list_elem_of_lookup_2|].
  destruct (He y) as [_ Ey]; [by eapply list_elem_of_lookup_2|].
  rewrite Ex, Ey. by eapply Hd.
Qed.

(** Updates of a buffer that leave its links alone. *)
Lemma lru_alter bs order f i :
  (forall b, b_next (f b) = b_next b /\ b_prev (f b) = b_prev b) -> lru bs order -> lru (alter f i bs) order.
Proof.
  intros Hf [Hp Hd]. split; [done|]. eapply dll_ext; [|done]. intros j _.
  unfold nx, pv. destruct (decide (j = i)) as [->|Hj].
  - rewrite list_lookup_alter_eq. destruct (bs !! i) as [b|]; [|done]. cbn.
    destruct (Hf b) as [-> ->]. done.
  - by rewrite list_lookup_alter_ne.
Qed.

Lemma nx_set_next v i j bs : nx (alter (set_b_next v) i bs) j = if decide (j = i) then (fun _ => v) <$> bs !! i else nx bs j.
Proof.
  unfold nx. destruct (decide (j = i)) as [->|Hj].
  - rewrite list_lookup_alter_eq. by destruct (bs !! i).
  - by rewrite list_lookup_alter_ne.
Qed.
Lemma pv_set_prev v i j bs : pv (alter (set_b_prev v) i bs) j = if decide (j = i) then (fun _ => v) <$> bs !! i else pv bs j.
Proof.
  unfold pv. destruct (decide (j = i)) as [->|Hj].
  - rewrite list_lookup_alter_eq. by destruct (bs !! i).
  - by rewrite list_lookup_alter_ne.
Qed.
Lemma nx_set_prev v i j bs : nx (alter (set_b_prev v) i bs) j = nx bs j.
Proof.
  unfold nx. destruct (decide (j = i)) as [->|Hj].
  - rewrite list_lookup_alter_eq. by destruct (bs !! i).
  - by rewrite list_lookup_alter_ne.
Qed.
Lemma pv_set_next v i j bs : pv (alter (set_b_next v) i bs) j = pv bs j.
Proof.
  unfold pv. destruct (decide (j = i)) as [->|Hj].
  - rewrite list_lookup_alter_eq. by destruct (bs !! i).
  - by rewrite list_lookup_alter_ne.
Qed.

Lemma set_const (v : nat) (o : option buf) : is_Some o -> (fun _ => v) <$> o = Some v.
Proof. by intros [? ->]. Qed.

Lemma alter_is_Some (f : buf -> buf) (i j : nat) (bs : list buf) : is_Some (alter f i bs !! j) <-> is_Some (bs !! j).
Proof. by rewrite !lookup_lt_is_Some, length_alter. Qed.

(** ** Moving a buffer to the front, as [brelse] does *)

Definition unlink (b : nat) (bf : buf) (bs : list buf) : list buf :=
  alter (set_b_next (b_next bf)) (b_prev bf) (alter (set_b_prev (b_prev bf)) (b_next bf) bs).

Definition push_front (b n : nat) (bs : list buf) : list buf :=
  alter (set_b_next b) bhead (alter (set_b_prev b) n
    (alter (set_b_prev bhead) b (alter (set_b_next n) b bs))).

Lemma lookup_delete_at {A} (l : list A) i k :
  delete i l !! k = if decide (k < i)%nat then l !! k else l !! S k.
Proof.
  destruct (decide (k < i)%nat).
  - by rewrite list_lookup_delete_lt by lia.
  - by rewrite list_lookup_delete_ge by lia.
Qed.

Lemma unlink_dll bs order j b bf :
  NoDup (bhead :: order) -> (forall i, i ∈ bhead :: order -> is_Some (bs !! i)) ->
  dll bs (ring order) -> order !! j = Some b -> bs !! b = Some bf ->
  dll (unlink b bf bs) (ring (delete j order)).
Proof.
  intros Hnd Hin Hd Hj Hb.
  assert (j < length order)%nat as Hlt by (eapply lookup_lt_Some; eauto).
  assert (ring (delete j order) = delete (S j) (ring order)) as ->.
  { unfold ring. rewrite !delete_take_drop. cbn [take drop app]. f_equal.
    by rewrite take_app_le, drop_app_le, app_assoc by lia. }
  assert (ring order !! S j = Some b) as HSj.
  { unfold ring. change ((order ++ [bhead]) !! j = Some b). by rewrite lookup_app_l by done. }
  destruct (lookup_lt_is_Some_2 (ring order) j) as [p Hp]; [unfold ring; cbn; rewrite length_app; lia|].
  destruct (lookup_lt_is_Some_2 (ring order) (S (S j))) as [n Hn];
    [unfold ring; cbn; rewrite length_app; cbn; lia|].
  destruct (Hd _ _ _ Hp HSj) as [Hnp Hpb]. destruct (Hd _ _ _ HSj Hn) as [Hnb Hpn].
  unfold nx in Hnb. unfold pv in Hpb. rewrite Hb in Hnb, Hpb. cbn in Hnb, Hpb.
  injection Hnb as Hnb. injection Hpb as Hpb.
  assert (forall i, i ∈ ring order -> is_Some (bs !! i)) as Hin'.
  { intros i Hi. apply Hin. unfold ring in Hi. rewrite elem_of_cons, elem_of_app, list_elem_of_singleton in Hi.
    rewrite elem_of_cons. tauto. }
  destruct (Hin' p) as [bp Ebp]; [by eapply list_elem_of_lookup_2|].
  destruct (Hin' n) as [bn Ebn]; [by eapply list_elem_of_lookup_2|].
  intros k x y Hx Hy. rewrite !lookup_delete_at in *. unfold unlink.
  rewrite nx_set_next, nx_set_prev, pv_set_next, pv_set_prev, Hnb, Hpb.
  assert (forall i z, ring order !! S i = Some z -> (i <= length order)%nat) as Hbd.
  { intros i z Hz%lookup_lt_Some. unfold ring in Hz. cbn in Hz. rewrite length_app in Hz. cbn in Hz. lia. }
  destruct (decide (k = j)) as [->|Hkj].
  - rewrite decide_True in Hx by lia. rewrite decide_False in Hy by lia.
    assert (x = p) as -> by congruence. assert (y = n) as -> by congruence.
    rewrite !decide_True by done. by rewrite !set_const by (rewrite ?alter_is_Some; eauto).
  - assert (exists k', k' <> j /\ k' <> S j /\ ring order !! k' = Some x /\ ring order !! S k' = Some y) as (k' & Hk' & Hk2 & Hx' & Hy').
    { destruct (decide (k < S j)%nat), (decide (S k < S j)%nat); try lia; [exists k|exists (S k)];
        (split; [lia|split; [lia|done]]). }
    rewrite !decide_False; [by eapply Hd| |].
    + intros ->. apply Hk2. by eapply ring_second.
    + intros ->. apply Hk'. eapply (ring_first order k' j); eauto.
Qed.

Lemma push_front_dll bs order b n :
  NoDup (bhead :: order) -> b ∉ bhead :: order -> (forall i, i ∈ b :: bhead :: order -> is_Some (bs !! i)) ->
  dll bs (ring order) -> nx bs bhead = Some n -> dll (push_front b n bs) (ring (b :: order)).
Proof.
  intros Hnd Hb Hin Hd Hn.
  assert (ring order !! 1%nat = Some n) as H1.
  { destruct (lookup_lt_is_Some_2 (ring order) 1) as [y Hy];
      [unfold ring; cbn; rewrite length_app; cbn; lia|].
    destruct (Hd 0%nat bhead y eq_refl Hy) as [E _]. congruence. }
  assert (b <> bhead) as Hbh by (intros ->; apply Hb; elems).
  assert (b ∉ ring order) as Hout.
  { intros H. apply Hb. revert H. unfold ring.
    rewrite !elem_of_cons, elem_of_app, list_elem_of_singleton. clear. tauto. }
  assert (n <> b) as Hnb by (intros ->; apply Hout; by eapply list_elem_of_lookup_2).
  assert (forall i z, ring order !! S i = Some z -> (i <= length order)%nat) as Hbd.
  { intros i z Hz%lookup_lt_Some. unfold ring in Hz. cbn in Hz. rewrite length_app in Hz. cbn in Hz. lia. }
  assert (is_Some (bs !! b)) as Sb by (apply Hin; elems).
  assert (is_Some (bs !! bhead)) as Sh by (apply Hin; elems).
  assert (is_Some (bs !! n)) as Sn.
  { apply Hin. apply list_elem_of_lookup_2 in H1. revert H1. unfold ring.
    rewrite !elem_of_cons, elem_of_app, list_elem_of_singleton. clear. tauto. }
  intros k x y Hx Hy. unfold push_front.
  rewrite !nx_set_next, !nx_set_prev, !nx_set_next, !pv_set_next, !pv_set_prev, !pv_set_next.
  rewrite !set_const by (rewrite ?alter_is_Some; assumption).
  destruct k as [|[|k]].
  - injection Hx as <-. injection Hy as <-. by rewrite (decide_True (P := bhead = bhead)), (decide_False (P := b = n)), (decide_True (P := b = b)) by done.
  - injection Hx as <-. assert (Some y = Some n) as [= ->] by (rewrite <- H1; symmetry; exact Hy).
    by rewrite (decide_False (P := b = bhead)), (decide_True (P := b = b)), (decide_True (P := n = n)) by done.
  - assert (ring order !! S k = Some x) as Hx' by (destruct k; exact Hx).
    assert (ring order !! S (S k) = Some y) as Hy' by (destruct k; exact Hy).
    assert (b <> x) as Hbx by (intros <-; apply Hout; by eapply list_elem_of_lookup_2).
    assert (b <> y) as Hby by (intros <-; apply Hout; by eapply list_elem_of_lookup_2).
    rewrite (decide_False (P := x = b)), (decide_False (P := y = b)) by done.
    rewrite !decide_False; [by eapply Hd| |].
    + intros ->. assert (S k = 0%nat) by (by eapply ring_second). done.
    + intros ->. assert (S k = 0%nat); [|done]. eapply (ring_first order); eauto; lia.
Qed.

Lemma lru_move bs order b bf n :
  lru bs order -> length bs = S bhead -> (b < bhead)%nat -> bs !! b = Some bf ->
  nx (unlink b bf bs) bhead = Some n -> exists order', lru (push_front b n (unlink b bf bs)) order'.
Proof.
  intros Hl Hlen Hb Hbf Hn.
  destruct (list_elem_of_lookup_1 order b) as [j Hj]; [by apply (lru_elem bs)|].
  exists (b :: delete j order).
  pose proof (lru_nodup _ _ Hl) as [Hh Hnd]%NoDup_cons.
  pose proof (delete_Permutation order j b Hj) as Hp.
  assert (NoDup (b :: delete j order)) as [Hb' Hnd']%NoDup_cons by (by rewrite <- Hp).
  assert (bhead ∉ delete j order) as Hh' by (intros H; apply Hh; rewrite Hp, elem_of_cons; by right).
  assert (forall (bs' : list buf) i, length bs' = S bhead -> i ∈ bhead :: order -> is_Some (bs' !! i)) as Hin.
  { intros bs' i E Hi. apply lookup_lt_is_Some. rewrite E. apply elem_of_cons in Hi as [->|Hi]; [lia|].
    apply (lru_elem _ _ _ Hl) in Hi. lia. }
  split.
  - rewrite <- Hp. apply Hl.
  - apply push_front_dll.
    + by constructor.
    + rewrite elem_of_cons. intros [->|?]; [lia|done].
    + intros i Hi. apply Hin; [by unfold unlink; rewrite !length_alter|].
      rewrite Hp. revert Hi. elems.
    + apply unlink_dll; [by constructor|intros i Hi; by apply Hin|apply Hl|done|done].
    + done.
Qed.

(** ** The two searches of [bget] *)

Section search.
Variables (s : kstate) (order : list nat).
Hypothesis Hlru : lru (k_bufs s) order.

Lemma ring_lookup_order k b : ring order !! S k = Some b -> b <> bhead -> order !! k = Some b.
Proof using.
  intros H Hb. change ((order ++ [bhead]) !! k = Some b) in H.
  apply lookup_app_Some in H as [H|[_ H]]; [done|].
  apply list_lookup_singleton_Some in H as [_ H]. congruence.
Qed.

Lemma ring_lookup_head k : ring order !! S k = Some bhead -> (length order <= k)%nat.
Proof using Hlru.
  intros H. change ((order ++ [bhead]) !! k = Some bhead) in H.
  apply lookup_app_Some in H as [H|[H _]]; [|done].
  apply list_elem_of_lookup_2, (lru_elem _ _ _ Hlru) in H. lia.
Qed.

Lemma bget_cached_loop dev bno : forall fuel k b,
  ring order !! S k = Some b -> (length order - k < fuel)%nat ->
  exists r, mloop fuel (bget_cached dev bno) b s = Ok r s /\
    match r with
    | Some i => exists bf, (i < bhead)%nat /\ k_bufs s !! i = Some bf /\ b_dev bf = dev /\ b_blockno bf = bno
    | None => forall j i bf, (k <= j)%nat -> order !! j = Some i -> k_bufs s !! i = Some bf ->
                ~ (b_dev bf = dev /\ b_blockno bf = bno)
    end.
Proof using Hlru.
  induction fuel as [|fuel IH]; intros k b Hb Hf; [lia|]. cbn [mloop]. unfold bget_cached at 1.
  destruct (decide (b = bhead)) as [->|Hne].
  - exists None. split; [done|]. intros j i bf Hj Hi. apply ring_lookup_head in Hb.
    apply lookup_lt_Some in Hi. lia.
  - pose proof (ring_lookup_order _ _ Hb Hne) as Ho.
    assert (b < bhead)%nat by (by eapply (lru_elem _ _ _ Hlru), list_elem_of_lookup_2).
    destruct (lookup_lt_is_Some_2 (ring order) (S (S k))) as [b' Hb'].
    { apply lookup_lt_Some in Ho. unfold ring. cbn. rewrite length_app. cbn. lia. }
    destruct (lru_dll _ _ Hlru _ _ _ Hb Hb') as [Hn _]. unfold nx in Hn.
    destruct (k_bufs s !! b) as [bf|] eqn:Ebf; [|done]. injection Hn as Hn.
    run (tab_get_ok k_bufs b bf s Ebf : buf_get b s = _).
    destruct (_ && _) eqn:E; ksimp.
    + exists (Some b). split; [done|]. zbool. eauto.
    + rewrite Hn. apply lookup_lt_Some in Ho as Hlt.
      destruct (IH (S k) b' Hb') as (r & Hr & Hp); [lia|]. exists r. split; [exact Hr|].
      destruct r as [i|]; [done|]. intros j i bf' Hj Hi Hbf'.
      destruct (decide (j = k)) as [->|Hjk]; [|apply (Hp j i); [lia|done|done]].
      assert (i = b) as -> by congruence. assert (bf' = bf) as -> by congruence.
      intros [E1 E2]. rewrite E1, E2, !Z.eqb_refl in E. done.
Qed.

Lemma bget_free_loop : forall fuel k b,
  (k <= length order)%nat -> ring order !! k = Some b -> (k < fuel)%nat ->
  exists r, mloop fuel bget_free b s = Ok r s /\
    match r with
    | Some i => exists bf, (i < bhead)%nat /\ k_bufs s !! i = Some bf /\ b_refcnt bf = 0
    | None => forall j i bf, (S j <= k)%nat -> order !! j = Some i -> k_bufs s !! i = Some bf ->
                b_refcnt bf <> 0
    end.
Proof using Hlru.
  induction fuel as [|fuel IH]; intros k b Hk Hb Hf; [lia|]. cbn [mloop]. unfold bget_free at 1.
  destruct (decide (b = bhead)) as [->|Hne].
  - exists None. split; [done|]. intros j i bf Hj Hi.
    destruct k as [|k]; [lia|]. apply ring_lookup_head in Hb. lia.
  - destruct k as [|k]; [cbn in Hb; congruence|].
    pose proof (ring_lookup_order _ _ Hb Hne) as Ho.
    assert (b < bhead)%nat by (by eapply (lru_elem _ _ _ Hlru), list_elem_of_lookup_2).
    destruct (lookup_lt_is_Some_2 (ring order) k) as [b' Hb'].
    { unfold ring. cbn. rewrite length_app. cbn. lia. }
    destruct (lru_dll _ _ Hlru _ _ _ Hb' Hb) as [_ Hn]. unfold pv in Hn.
    destruct (k_bufs s !! b) as [bf|] eqn:Ebf; [|done]. injection Hn as Hn.
    run (tab_get_ok k_bufs b bf s Ebf : buf_get b s = _).
    destruct (b_refcnt bf =? 0) eqn:E; ksimp; zbool.
    + exists (Some b). split; [done|]. eauto.
    + rewrite Hn. destruct (IH k b') as (r & Hr & Hp); [lia|done|lia|]. exists r. split; [exact Hr|].
      destruct r as [i|]; [done|]. intros j i bf' Hj Hi Hbf'.
      destruct (decide (j = k)) as [->|Hjk]; [|apply (Hp j i); [lia|done|done]].
      congruence.
Qed.

End search.
