(* ===== verification/Cache.v ===== *)
(** * The buffer cache as its clients see it

    [BlockCache] is the contract of kernel/bio.c: the blocks of a device, each
    with its current contents, the number of references to its buffer and the
    process that has it locked.  The order of use, the recycling of buffers and
    the copies on disk are behind it; kernel/log.c and kernel/fs.c are verified
    against this contract, and [BioSpec.v] shows that kernel/bio.c meets it. *)

From S2P Require Import Prelude Riscv Mem Cstring State Sched SchedSpec Bio BioLocks.

Definition upd {B} (f : Z -> B) (k : Z) (v : B) : Z -> B := fun x => if x =? k then v else f x.

Lemma upd_same {B} (f : Z -> B) k v : upd f k v k = v.
Proof. unfold upd. by rewrite Z.eqb_refl. Qed.
Lemma upd_other {B} (f : Z -> B) k v x : x <> k -> upd f k v x = f x.
Proof. unfold upd. intros H. by rewrite (proj2 (Z.eqb_neq _ _) H). Qed.

(** A block: its contents, the references to its buffer, and the pid of the
    process that holds the buffer's lock. *)
Record cell : Type := mk_cell { c_data : block; c_ref : Z; c_owner : option Z }.

Definition idle (d : block) : cell := mk_cell d 0 None.

(** There is a buffer for block [b]: it has one already, or fewer than [NBUF]
    blocks are referenced. *)
Definition room (A : Z -> cell) (b : Z) : Prop :=
  0 < c_ref (A b) \/
  exists l : list Z, (forall x, 0 < c_ref (A x) -> x ∈ l) /\ (length l < bhead)%nat.

(** A step of the cache: it goes from [A] to [A'], keeps the rest of the
    state, and the buffers of the blocks still referenced stay where they are. *)
Record cstep (crep : kstate -> (Z -> cell) -> Prop) (chold : kstate -> nat -> Z -> Prop)
    (me : nat) (s s' : kstate) (A' : Z -> cell) : Prop := {
  cs_rep : crep s' A';
  cs_frame : bframe me s s';
  cs_hold : forall j x, chold s j x -> 0 < c_ref (A' x) -> chold s' j x
}.

(** [crep s A]: the blocks of the device are as [A] says.
    [chold s i b]: buffer [i] is the buffer of block [b]. *)
Class BlockCache {EN : Env} (dev : Z) (crep : kstate -> (Z -> cell) -> Prop)
    (chold : kstate -> nat -> Z -> Prop) : Prop := {
  bc_idle s A b : crep s A -> c_ref (A b) = 0 -> A b = idle (k_disk s b);
  bc_frame s A s' : crep s A -> k_bufs s' = k_bufs s -> k_disk s' = k_disk s -> crep s' A;
  bc_hold_frame s i b s' : chold s i b -> k_bufs s' = k_bufs s -> chold s' i b;
  bc_hold_block s i b : chold s i b -> exists bf, k_bufs s !! i = Some bf /\ b_blockno bf = b;
  bc_bread s me pid A b :
    ready s me pid -> crep s A -> c_owner (A b) = None -> c_ref (A b) + 1 < 2 ^ 32 -> room A b ->
    exists i s', bread dev b s = Ok i s' /\
      cstep crep chold me s s' (upd A b (mk_cell (c_data (A b)) (c_ref (A b) + 1) (Some pid))) /\
      chold s' i b /\ k_disk s' = k_disk s /\ k_wtrace s' = k_wtrace s;
  bc_bdata s A i b : crep s A -> chold s i b -> 0 < c_ref (A b) -> bdata i s = Ok (c_data (A b)) s;
  bc_bdata_mod s me A i b f :
    crep s A -> chold s i b -> 0 < c_ref (A b) ->
    exists s', bdata_mod i f s = Ok tt s' /\
      cstep crep chold me s s' (upd A b (mk_cell (f (c_data (A b))) (c_ref (A b)) (c_owner (A b)))) /\
      k_disk s' = k_disk s /\ k_wtrace s' = k_wtrace s;
  bc_bwrite s me pid A i b :
    ready s me pid -> crep s A -> chold s i b -> 0 < c_ref (A b) -> c_owner (A b) = Some pid ->
    exists s', bwrite i s = Ok tt s' /\ cstep crep chold me s s' A /\
      k_disk s' = upd (k_disk s) b (c_data (A b)) /\
      k_wtrace s' = (b, c_data (A b)) :: k_wtrace s;
  bc_brelse s me pid A i b :
    ready s me pid -> crep s A -> chold s i b -> 0 < c_ref (A b) -> c_owner (A b) = Some pid ->
    (c_ref (A b) = 1 -> c_data (A b) = k_disk s b) ->
    exists s', brelse i s = Ok tt s' /\
      cstep crep chold me s s' (upd A b (mk_cell (c_data (A b)) (c_ref (A b) - 1) None)) /\
      k_disk s' = k_disk s /\ k_wtrace s' = k_wtrace s;
  bc_bpin s me pid A i b :
    ready s me pid -> crep s A -> chold s i b -> 0 < c_ref (A b) -> c_ref (A b) + 1 < 2 ^ 32 ->
    exists s', bpin i s = Ok tt s' /\
      cstep crep chold me s s' (upd A b (mk_cell (c_data (A b)) (c_ref (A b) + 1) (c_owner (A b)))) /\
      k_disk s' = k_disk s /\ k_wtrace s' = k_wtrace s;
  bc_bunpin s me pid A i b :
    ready s me pid -> crep s A -> chold s i b -> 1 < c_ref (A b) ->
    exists s', bunpin i s = Ok tt s' /\
      cstep crep chold me s s' (upd A b (mk_cell (c_data (A b)) (c_ref (A b) - 1) (c_owner (A b)))) /\
      k_disk s' = k_disk s /\ k_wtrace s' = k_wtrace s
}.
