(* ===== verification/BioSpec.v ===== *)
(** * kernel/bio.c implements [BlockCache] *)

From Stdlib Require Import FunctionalExtensionality.
From S2P Require Import Prelude Riscv Mem Cstring State Sched SchedSpec Bio BioLocks BioList Cache.

Definition owner_of (l : sleeplock) : option Z := if sl_locked l then Some (sl_pid l) else None.

(** Buffer [bf] is the buffer of a block whose cell is [c]. *)
Record buf_cell (d : Z -> block) (bf : buf) (c : cell) : Prop := {
  bc_ref : c_ref c = b_refcnt bf;
  bc_range : 0 <= b_refcnt bf < 2 ^ 32;
  bc_owner : c_owner c = owner_of (b_lock bf);
  bc_free : b_refcnt bf = 0 -> c_data c = d (b_blockno bf) /\ c_owner c = None /\
              (b_valid bf = true -> b_data bf = d (b_blockno bf));
  bc_used : 0 < b_refcnt bf -> b_valid bf = true /\ c_data c = b_data bf
}.

Definition is_blk (dev b : Z) (bf : buf) : Prop := b_dev bf = dev /\ b_blockno bf = b.

#[export] Instance is_blk_dec dev b bf : Decision (is_blk dev b bf).
Proof. apply and_dec; apply Z.eq_dec. Defined.

(** What the buffers [bs] hold of device [dev], over a disk [d]. *)
Record contents (dev : Z) (d : Z -> block) (bs : list buf) (A : Z -> cell) : Prop := {
  ct_uniq : forall i j bi bj b, (i < bhead)%nat -> (j < bhead)%nat -> bs !! i = Some bi -> bs !! j = Some bj ->
    is_blk dev b bi -> is_blk dev b bj -> i = j;
  ct_in : forall i bf b, (i < bhead)%nat -> bs !! i = Some bf -> is_blk dev b bf -> buf_cell d bf (A b);
  ct_out : forall b, (forall i bf, (i < bhead)%nat -> bs !! i = Some bf -> ~ is_blk dev b bf) -> A b = idle (d b);
  ct_dev : forall i bf, (i < bhead)%nat -> bs !! i = Some bf -> b_dev bf <> dev ->
    b_refcnt bf = 0 /\ sl_locked (b_lock bf) = false
}.

Record crep (dev : Z) (s : kstate) (A : Z -> cell) : Prop := {
  cr_len : length (k_bufs s) = S bhead;
  cr_lru : exists order, lru (k_bufs s) order;
  cr_ct : contents dev (k_disk s) (k_bufs s) A
}.

Definition chold (dev : Z) (s : kstate) (i : nat) (b : Z) : Prop :=
  (i < bhead)%nat /\ exists bf, k_bufs s !! i = Some bf /\ is_blk dev b bf.

(** ** Replacing a buffer *)

Lemma contents_insert dev d d' bs A i bf bf' b c' :
  contents dev d bs A -> (i < bhead)%nat -> bs !! i = Some bf -> is_blk dev b bf' ->
  (is_blk dev b bf \/
   (b_refcnt bf = 0 /\ forall j bj, (j < bhead)%nat -> bs !! j = Some bj -> ~ is_blk dev b bj)) ->
  (forall x, x <> b -> d' x = d x) -> buf_cell d' bf' c' ->
  contents dev d' (<[i := bf']> bs) (upd A b c').
Proof.
  intros [Hu Hin Hout Hdev] Hi Hbf Hb' Hold Hd Hc.
  assert (i < length bs)%nat as Hlen by (by eapply lookup_lt_Some).
  (* no other buffer has block b *)
  assert (forall j bj, (j < bhead)%nat -> j <> i -> bs !! j = Some bj -> ~ is_blk dev b bj) as Hno.
  { intros j bj Hj Hne Hbj Hblk. destruct Hold as [Hold|[_ Hold]]; [|by eapply Hold].
    apply Hne. by eapply Hu. }
  split.
  - intros k j bk bj x Hk Hj Ek Ej Bk Bj.
    destruct (decide (k = i)) as [->|Nk], (decide (j = i)) as [->|Nj]; [done| | |].
    + rewrite list_lookup_insert_eq in Ek by done. rewrite list_lookup_insert_ne in Ej by done.
      injection Ek as <-. destruct (Hno j bj); [done|done|done|].
      destruct Bk as [_ <-], Hb' as [_ <-]. done.
    + rewrite list_lookup_insert_ne in Ek by done. rewrite list_lookup_insert_eq in Ej by done.
      injection Ej as <-. destruct (Hno k bk); [done|done|done|].
      destruct Bj as [_ <-], Hb' as [_ <-]. done.
    + rewrite list_lookup_insert_ne in Ek, Ej by done. by eapply Hu.
  - intros j bj x Hj Ej Bj. destruct (decide (j = i)) as [->|Nj].
    + rewrite list_lookup_insert_eq in Ej by done. injection Ej as <-.
      assert (x = b) as -> by (destruct Bj as [_ <-], Hb' as [_ <-]; done). by rewrite upd_same.
    + rewrite list_lookup_insert_ne in Ej by done.
      assert (x <> b) as Hx by (intros ->; by eapply Hno).
      rewrite upd_other by done. pose proof (Hin _ _ _ Hj Ej Bj) as [H1 H2 H3 H4 H5].
      destruct Bj as [_ <-]. split; [done|done|done| |done]. by rewrite Hd.
  - intros x Hx. assert (x <> b) as Hxb.
    { intros ->. apply (Hx i bf'); [done|by rewrite list_lookup_insert_eq|done]. }
    rewrite upd_other, Hd by done. destruct Hold as [Hold|[Href Hold]].
    + apply Hout. intros j bj Hj Ej Bj. destruct (decide (j = i)) as [->|Nj].
      * assert (bj = bf) as -> by congruence. apply Hxb. destruct Bj as [_ <-], Hold as [_ <-]. done.
      * apply (Hx j bj); [done|by rewrite list_lookup_insert_ne|done].
    + destruct (decide (is_blk dev x bf)) as [Bx|Bx].
      * destruct (Hin _ _ _ Hi Hbf Bx) as [H1 _ _ H4 _]. destruct (H4 Href) as (E1 & E2 & _).
        destruct (A x) as [a1 a2 a3]. cbn in *. destruct Bx as [_ Bx]. unfold idle. congruence.
      * apply Hout. intros j bj Hj Ej Bj. destruct (decide (j = i)) as [->|Nj].
        { congruence. }
        apply (Hx j bj); [done|by rewrite list_lookup_insert_ne|done].
  - intros j bj Hj Ej Nd. destruct (decide (j = i)) as [->|Nj].
    + rewrite list_lookup_insert_eq in Ej by done. injection Ej as <-. by destruct Hb'.
    + rewrite list_lookup_insert_ne in Ej by done. by eapply Hdev.
Qed.

Section bio.
Context {EN : Env} (dev : Z).

(** The states of the lemmas below: one buffer replaced, some processes woken. *)
Lemma crep_buf s s' A i bf bf' b c' :
  crep dev s A -> (i < bhead)%nat -> k_bufs s !! i = Some bf -> k_bufs s' = <[i := bf']> (k_bufs s) ->
  b_next bf' = b_next bf -> b_prev bf' = b_prev bf -> is_blk dev b bf' ->
  (is_blk dev b bf \/
   (b_refcnt bf = 0 /\ forall j bj, (j < bhead)%nat -> k_bufs s !! j = Some bj -> ~ is_blk dev b bj)) ->
  (forall x, x <> b -> k_disk s' x = k_disk s x) -> buf_cell (k_disk s') bf' c' ->
  crep dev s' (upd A b c').
Proof.
  intros [Hlen [order Hl] Hct] Hi Hbf Ebs En Ep Hb Hold Hd Hc. split.
  - by rewrite Ebs, length_insert.
  - exists order. rewrite Ebs. destruct Hl as [Hp Hdll]. split; [done|].
    eapply dll_ext; [|done]. intros j _. unfold nx, pv. destruct (decide (j = i)) as [->|Hj].
    + rewrite list_lookup_insert_eq, Hbf by (by eapply lookup_lt_Some). cbn. by rewrite En, Ep.
    + by rewrite list_lookup_insert_ne.
  - rewrite Ebs. by eapply contents_insert.
Qed.

Lemma cstep_buf me s s' A i bf bf' b c' :
  crep dev s A -> (i < bhead)%nat -> k_bufs s !! i = Some bf -> k_bufs s' = <[i := bf']> (k_bufs s) ->
  b_next bf' = b_next bf -> b_prev bf' = b_prev bf -> is_blk dev b bf' ->
  (is_blk dev b bf \/
   (b_refcnt bf = 0 /\ forall j bj, (j < bhead)%nat -> k_bufs s !! j = Some bj -> ~ is_blk dev b bj)) ->
  (forall x, x <> b -> k_disk s' x = k_disk s x) -> buf_cell (k_disk s') bf' c' ->
  bframe me s s' -> cstep (crep dev) (chold dev) me s s' (upd A b c').
Proof.
  intros Hrep Hi Hbf Ebs En Ep Hb Hold Hd Hc Hf. split; [by eapply crep_buf|done|].
  intros j x [Hj (bj & Ej & Bj)] Hpos. split; [done|]. rewrite Ebs.
  destruct (decide (j = i)) as [->|Nj].
  - assert (bj = bf) as -> by congruence. exists bf'.
    split; [by rewrite list_lookup_insert_eq by (by eapply lookup_lt_Some)|].
    destruct Hold as [Hold|[Href Hnone]].
    + replace x with b; [done|]. destruct Hold as [_ <-], Bj as [_ <-]. done.
    + exfalso. rewrite upd_other in Hpos by (intros ->; by eapply Hnone).
      destruct (ct_in _ _ _ _ (cr_ct _ _ _ Hrep) _ _ _ Hi Hbf Bj) as [E _ _ _ _]. lia.
  - exists bj. by rewrite list_lookup_insert_ne.
Qed.

Lemma set_bufs_frame me s bs : bframe me s (set_k_bufs bs s).
Proof. by split. Qed.

(** When fewer than [NBUF] blocks are referenced some buffer is free. *)
Lemma free_exists s A (l : list Z) :
  crep dev s A -> (forall x, 0 < c_ref (A x) -> x ∈ l) -> (length l < bhead)%nat ->
  ~ (forall i bf, (i < bhead)%nat -> k_bufs s !! i = Some bf -> b_refcnt bf <> 0).
Proof.
  intros [Hlen _ [Hu Hin _ Hdev]] Hl Hlt Hall.
  set (blk i := match k_bufs s !! i with Some bf => b_blockno bf | None => 0 end).
  assert (forall i, (i < bhead)%nat -> exists bf, k_bufs s !! i = Some bf /\ is_blk dev (blk i) bf) as Hblk.
  { intros i Hi. destruct (lookup_lt_is_Some_2 (k_bufs s) i) as [bf Ebf]; [lia|].
    exists bf. split; [done|]. unfold blk. rewrite Ebf. split; [|done].
    destruct (decide (b_dev bf = dev)) as [|Hne]; [done|].
    destruct (Hdev _ _ Hi Ebf Hne). by destruct (Hall i bf). }
  assert (NoDup (blk <$> seq 0 bhead)) as Hnd.
  { apply NoDup_fmap_2_strong; [|apply NoDup_seq]. intros i j Hi%elem_of_seq Hj%elem_of_seq E.
    destruct (Hblk i) as (bi & Ei & Bi); [lia|]. destruct (Hblk j) as (bj & Ej & Bj); [lia|].
    eapply (Hu i j); eauto; [lia|lia|]. by rewrite E. }
  assert ((blk <$> seq 0 bhead) ⊆+ l) as Hsub.
  { apply NoDup_submseteq; [done|]. intros x (i & -> & Hi%elem_of_seq)%list_elem_of_fmap.
    apply Hl. destruct (Hblk i) as (bi & Ei & Bi); [lia|].
    assert (i < bhead)%nat as Hib by lia. destruct (Hin _ _ _ Hib Ei Bi) as [-> ? _ _ _]. specialize (Hall i bi ltac:(lia) Ei). lia. }
  apply submseteq_length in Hsub. rewrite length_fmap, length_seq in Hsub. lia.
Qed.

(** The two searches together, from a state that holds [bcache.lock]. *)
Lemma bget_search s A b :
  crep dev s A -> room A b ->
  exists hd, buf_get bhead s = Ok hd s /\
  ((exists i bf, mloop (S (S bhead)) (bget_cached dev b) (b_next hd) s = Ok (Some i) s /\
      (i < bhead)%nat /\ k_bufs s !! i = Some bf /\ is_blk dev b bf) \/
   (mloop (S (S bhead)) (bget_cached dev b) (b_next hd) s = Ok None s /\
    (forall j bj, (j < bhead)%nat -> k_bufs s !! j = Some bj -> ~ is_blk dev b bj) /\
    exists i bf, mloop (S (S bhead)) bget_free (b_prev hd) s = Ok (Some i) s /\
      (i < bhead)%nat /\ k_bufs s !! i = Some bf /\ b_refcnt bf = 0)).
Proof.
  intros Hrep Hroom. pose proof Hrep as [Hlen [order Hl] Hct].
  pose proof (lru_length _ _ Hl) as Elen.
  destruct (lookup_lt_is_Some_2 (k_bufs s) bhead) as [hd Ehd]; [lia|]. exists hd.
  split; [by apply tab_get_ok|].
  destruct (lookup_lt_is_Some_2 (ring order) 1) as [b1 H1]; [unfold ring; cbn; rewrite length_app; cbn; lia|].
  destruct (lookup_lt_is_Some_2 (ring order) (length order)) as [b2 H2];
    [unfold ring; cbn; rewrite length_app; cbn; lia|].
  assert (ring order !! S (length order) = Some bhead) as H3.
  { unfold ring. change ((order ++ [bhead]) !! length order = Some bhead).
    by rewrite lookup_app_r, Nat.sub_diag by lia. }
  destruct (lru_dll _ _ Hl 0%nat bhead b1 eq_refl H1) as [Hn _].
  destruct (lru_dll _ _ Hl _ _ _ H2 H3) as [_ Hp].
  unfold nx in Hn. unfold pv in Hp. rewrite Ehd in Hn, Hp. injection Hn as ->. injection Hp as ->.
  destruct (bget_cached_loop s order Hl dev b (S (S bhead)) 0 b1 H1) as (r & Hr & Hpost); [lia|].
  destruct r as [i|].
  { left. destruct Hpost as (bf & Hi & Hbf & E). eauto 10. }
  right. split; [done|].
  assert (forall j bj, (j < bhead)%nat -> k_bufs s !! j = Some bj -> ~ is_blk dev b bj) as Hnone.
  { intros j bj Hj Ej. apply (lru_elem _ _ j Hl), list_elem_of_lookup in Hj as [k Hk].
    by apply (Hpost k j bj ltac:(lia)). }
  split; [done|].
  destruct (bget_free_loop s order Hl (S (S bhead)) (length order) b2) as (r & Hr' & Hpost'); [done|done|lia|].
  destruct r as [i|].
  { destruct Hpost' as (bf & ? & ? & ?). eauto 10. }
  exfalso. destruct Hroom as [Hpos|(l & Hsub & Hlt)].
  - rewrite (ct_out _ _ _ _ Hct b Hnone) in Hpos. cbn in Hpos. lia.
  - apply (free_exists s A l Hrep Hsub Hlt). intros i bf Hi Hbf.
    apply (lru_elem _ _ i Hl), list_elem_of_lookup in Hi as [k Hk].
    apply (Hpost' k i bf); [apply lookup_lt_Some in Hk; lia|done|done].
Qed.

(** What [bget] leaves in buffer [i], which was [bf]. *)
Record bget_post (s : kstate) (pid : Z) (A : Z -> cell) (b : Z) (i : nat) (bf bf1 : buf) : Prop := {
  bg_i : (i < bhead)%nat;
  bg_bf : k_bufs s !! i = Some bf;
  bg_links : b_next bf1 = b_next bf /\ b_prev bf1 = b_prev bf;
  bg_blk : is_blk dev b bf1;
  bg_old : is_blk dev b bf \/
    (b_refcnt bf = 0 /\ forall j bj, (j < bhead)%nat -> k_bufs s !! j = Some bj -> ~ is_blk dev b bj);
  bg_ref : b_refcnt bf1 = c_ref (A b) + 1;
  bg_lock : b_lock bf1 = mk_sleeplock true pid;
  bg_data : if b_valid bf1 then b_data bf1 = c_data (A b) else c_data (A b) = k_disk s b
}.

(** Both ways, [bget] updates the buffer, lets go of the cache and locks it. *)
Lemma bget_take s me pid i bf f :
  ready s me pid -> k_bufs s !! i = Some bf -> sl_locked (b_lock (f bf)) = false ->
  (buf_mod i f ;;; release Lbcache ;;; acquiresleep (SLbuf i) ;;; ret i) (set_k_held (Lbcache :: k_held s) s) =
    Ok i (set_k_bufs (<[i := set_b_lock (mk_sleeplock true pid) (f bf)]> (k_bufs s)) s).
Proof.
  intros Hrd Hbf Hf. assert (i < length (k_bufs s))%nat as Hil by (by eapply lookup_lt_Some).
  set (s1 := set_k_held (Lbcache :: k_held s) s).
  unfold buf_mod. ksimp. cbn [k_bufs s1 set_k_held]. rewrite (alter_insert _ _ _ _ Hbf).
  run (release_ok Lbcache (set_k_bufs (<[i:=f bf]> (k_bufs s)) s1) _ eq_refl (rd_bcache _ _ _ Hrd)).
  assert (ready (set_k_held (k_held s) (set_k_bufs (<[i:=f bf]> (k_bufs s)) s1)) me pid) as Hrd'
    by (by destruct Hrd; split).
  run (acquiresleep_free i (f bf) _ me pid Hrd' (list_lookup_insert_eq _ i (f bf) Hil) Hf).
  unfold ret. cbn. rewrite (alter_insert _ _ _ (f bf)) by (by apply list_lookup_insert_eq).
  rewrite list_insert_insert_eq. by destruct s.
Qed.

Lemma bget_run s me pid A b :
  ready s me pid -> crep dev s A -> c_owner (A b) = None -> c_ref (A b) + 1 < 2 ^ 32 -> room A b ->
  exists i bf bf1, bget_post s pid A b i bf bf1 /\
    bget dev b s = Ok i (set_k_bufs (<[i := bf1]> (k_bufs s)) s).
Proof.
  intros Hrd Hrep Hown Hmax Hroom. pose proof Hrep as [Hlen _ [Hu Hin Hout Hdev]].
  unfold bget. run (acquire_ok _ _ (rd_bcache _ _ _ Hrd)).
  set (s1 := set_k_held (Lbcache :: k_held s) s).
  assert (crep dev s1 A) as Hrep1 by (by destruct Hrep; split).
  destruct (bget_search s1 A b Hrep1 Hroom) as (hd & Hhd & Hcase). run Hhd.
  destruct Hcase as [(i & bf & Hr & Hi & Hbf & Hblk)|(Hr & Hnone & i & bf & Hr2 & Hi & Hbf & Href)].
  - run Hr. destruct (Hin i bf b Hi Hbf Hblk) as [E1 E2 E3 E4 E5].
    assert (sl_locked (b_lock bf) = false) as Hunl.
    { rewrite E3 in Hown. unfold owner_of in Hown. by destruct (sl_locked (b_lock bf)). }
    eexists i, bf, _. split; [|by apply (bget_take s me)].
    split; [done|done|done|done|by left| |done|].
    + cbn. unfold u32. lia.
    + cbn. destruct (b_valid bf) eqn:Ev.
      * destruct (decide (b_refcnt bf = 0)) as [Z0|Z0].
        { destruct (E4 Z0) as (-> & _ & Hd). auto. }
        { symmetry. apply E5. lia. }
      * destruct (decide (b_refcnt bf = 0)) as [Z0|Z0].
        { destruct (E4 Z0) as (-> & _ & _). by destruct Hblk as [_ ->]. }
        { destruct (E5 ltac:(lia)). done. }
  - run Hr. run Hr2.
    assert (sl_locked (b_lock bf) = false) as Hunl.
    { destruct (decide (b_dev bf = dev)) as [Hd|Hd]; [|by apply (Hdev i bf)].
      destruct (Hin i bf (b_blockno bf) Hi Hbf (conj Hd eq_refl)) as [_ _ E3 E4 _].
      destruct (E4 Href) as (_ & En & _). rewrite E3 in En. unfold owner_of in En.
      by destruct (sl_locked (b_lock bf)). }
    eexists i, bf, _. split; [|by apply (bget_take s me)].
    assert (A b = idle (k_disk s b)) as EA by (by apply Hout).
    split; [done|done|done|done|by right| |done|].
    + cbn. by rewrite EA.
    + cbn. by rewrite EA.
Qed.

Lemma bread_spec s me pid A b :
  ready s me pid -> crep dev s A -> c_owner (A b) = None -> c_ref (A b) + 1 < 2 ^ 32 -> room A b ->
  exists i s', bread dev b s = Ok i s' /\
    cstep (crep dev) (chold dev) me s s' (upd A b (mk_cell (c_data (A b)) (c_ref (A b) + 1) (Some pid))) /\
    chold dev s' i b /\ k_disk s' = k_disk s /\ k_wtrace s' = k_wtrace s.
Proof.
  intros Hrd Hrep Hown Hmax Hroom.
  destruct (bget_run s me pid A b Hrd Hrep Hown Hmax Hroom)
    as (i & bf & bf1 & [Hi Hbf [En Ep] Hblk Hold Href Hlock Hdata] & Hrun).
  assert (0 <= c_ref (A b)) as Hpos.
  { destruct Hold as [Hold|[_ Hnone]].
    - destruct (ct_in _ _ _ _ (cr_ct _ _ _ Hrep) _ _ _ Hi Hbf Hold) as [-> ? _ _ _]. lia.
    - by rewrite (ct_out _ _ _ _ (cr_ct _ _ _ Hrep) b Hnone). }
  assert (i < length (k_bufs s))%nat as Hil by (by eapply lookup_lt_Some).
  pose (bf2 := if b_valid bf1 then bf1 else set_b_valid true (set_b_data (k_disk s b) bf1)).
  exists i, (set_k_bufs (<[i := bf2]> (k_bufs s)) s). split; [|split; [|split; [|done]]].
  - unfold bread. run Hrun. set (s1 := set_k_bufs (<[i:=bf1]> (k_bufs s)) s).
    run (tab_get_ok k_bufs i bf1 s1 (list_lookup_insert_eq _ i bf1 Hil) : buf_get i s1 = _).
    unfold bf2. destruct (b_valid bf1); cbn [negb when]; ksimp; [done|].
    unfold virtio_disk_rw. run (tab_get_ok k_bufs i bf1 s1 (list_lookup_insert_eq _ i bf1 Hil) : buf_get i s1 = _).
    unfold buf_mod. ksimp. destruct Hblk as [_ ->].
    assert (k_bufs s1 !! i = Some bf1) as E1 by (by apply list_lookup_insert_eq).
    cbn [k_bufs set_k_bufs]. rewrite (alter_insert _ _ _ _ E1).
    rewrite (alter_insert _ _ _ (set_b_data (k_disk s1 b) bf1)) by (apply list_lookup_insert_eq; cbn; by rewrite length_insert).
    cbn. rewrite !list_insert_insert_eq. done.
  - eapply (cstep_buf me s _ A i bf bf2); try done.
    + unfold bf2. by destruct (b_valid bf1).
    + unfold bf2. by destruct (b_valid bf1).
    + unfold bf2. by destruct (b_valid bf1).
    + unfold bf2. split; cbn [c_ref c_data c_owner]; destruct (b_valid bf1) eqn:Ev;
        cbn; rewrite ?Hlock, ?Href; try done; lia.
  - split; [done|]. exists bf2. cbn. rewrite list_lookup_insert_eq by done. split; [done|].
    unfold bf2. by destruct (b_valid bf1).
Qed.

(** A client holds a buffer: its entry and its cell. *)
Lemma hold_cell s A i b :
  crep dev s A -> chold dev s i b -> 0 < c_ref (A b) ->
  exists bf, (i < bhead)%nat /\ k_bufs s !! i = Some bf /\ is_blk dev b bf /\
    buf_cell (k_disk s) bf (A b) /\ b_valid bf = true /\ c_data (A b) = b_data bf.
Proof.
  intros Hrep [Hi (bf & Hbf & Hb)] Hpos. exists bf.
  pose proof (ct_in _ _ _ _ (cr_ct _ _ _ Hrep) _ _ _ Hi Hbf Hb) as Hc.
  pose proof Hc as [E _ _ _ Hu]. destruct Hu as [H1 H2]; [lia|]. done.
Qed.

Lemma owner_mine bf c d pid : buf_cell d bf c -> c_owner c = Some pid -> b_lock bf = mk_sleeplock true pid.
Proof.
  intros [_ _ E _ _] H. rewrite E in H. unfold owner_of in H.
  destruct (b_lock bf) as [[] p]; cbn in H; congruence.
Qed.

Lemma bdata_spec s A i b :
  crep dev s A -> chold dev s i b -> 0 < c_ref (A b) -> bdata i s = Ok (c_data (A b)) s.
Proof.
  intros Hrep Hh Hpos. destruct (hold_cell s A i b Hrep Hh Hpos) as (bf & Hi & Hbf & _ & _ & _ & ->).
  unfold bdata. by run (tab_get_ok k_bufs i bf s Hbf : buf_get i s = _).
Qed.

(** The operations that change one field of a buffer the client holds. *)
Lemma field_spec s me A i b f c' :
  crep dev s A -> chold dev s i b -> 0 < c_ref (A b) ->
  (forall bf, is_blk dev b bf -> buf_cell (k_disk s) bf (A b) ->
     b_next (f bf) = b_next bf /\ b_prev (f bf) = b_prev bf /\ is_blk dev b (f bf) /\
     buf_cell (k_disk s) (f bf) c') ->
  cstep (crep dev) (chold dev) me s (set_k_bufs (alter f i (k_bufs s)) s) (upd A b c').
Proof.
  intros Hrep Hh Hpos Hf. destruct (hold_cell s A i b Hrep Hh Hpos) as (bf & Hi & Hbf & Hb & Hc & _).
  destruct (Hf bf Hb Hc) as (En & Ep & Hb' & Hc').
  eapply (cstep_buf me s _ A i bf (f bf)); try done; [|by left].
  cbn. by apply alter_insert.
Qed.

Lemma bdata_mod_spec s me A i b f :
  crep dev s A -> chold dev s i b -> 0 < c_ref (A b) ->
  exists s', bdata_mod i f s = Ok tt s' /\
    cstep (crep dev) (chold dev) me s s' (upd A b (mk_cell (f (c_data (A b))) (c_ref (A b)) (c_owner (A b)))) /\
    k_disk s' = k_disk s /\ k_wtrace s' = k_wtrace s.
Proof.
  intros Hrep Hh Hpos. eexists. split; [reflexivity|]. split; [|done].
  apply field_spec; [done|done|done|]. intros bf Hb [E1 E2 E3 E4 E5]. split; [done|]. split; [done|].
  split; [done|]. split; cbn; [done|done|done|lia|]. intros Hr. destruct (E5 Hr) as [? ->]. done.
Qed.

Lemma refcnt_spec s me A i b g n :
  crep dev s A -> chold dev s i b -> 0 < c_ref (A b) -> 0 < n < 2 ^ 32 -> g (c_ref (A b)) = n ->
  cstep (crep dev) (chold dev) me s
    (set_k_bufs (alter (fun bf => set_b_refcnt (g (b_refcnt bf)) bf) i (k_bufs s)) s)
    (upd A b (mk_cell (c_data (A b)) n (c_owner (A b)))).
Proof.
  intros Hrep Hh Hpos Hn Hg. apply field_spec; [done|done|done|].
  intros bf Hb [E1 E2 E3 E4 E5]. split; [done|]. split; [done|]. split; [done|].
  rewrite E1 in Hg. split; cbn; rewrite ?Hg; [done|lia|done|lia|]. intros _. apply E5. lia.
Qed.

Lemma bpin_spec s me pid A i b :
  ready s me pid -> crep dev s A -> chold dev s i b -> 0 < c_ref (A b) -> c_ref (A b) + 1 < 2 ^ 32 ->
  exists s', bpin i s = Ok tt s' /\
    cstep (crep dev) (chold dev) me s s' (upd A b (mk_cell (c_data (A b)) (c_ref (A b) + 1) (c_owner (A b)))) /\
    k_disk s' = k_disk s /\ k_wtrace s' = k_wtrace s.
Proof.
  intros Hrd Hrep Hh Hpos Hmax. unfold bpin, buf_mod. run (acquire_ok _ _ (rd_bcache _ _ _ Hrd)).
  eexists. split; [by eapply release_ok, (rd_bcache _ _ _ Hrd)|].
  split; [|done]. replace (set_k_held _ _) with
    (set_k_bufs (alter (fun bf => set_b_refcnt (u32 (b_refcnt bf + 1)) bf) i (k_bufs s)) s) by (by destruct s).
  apply (refcnt_spec s me A i b (fun r => u32 (r + 1))); [done|done|done|lia|]. unfold u32. lia.
Qed.

Lemma bunpin_spec s me pid A i b :
  ready s me pid -> crep dev s A -> chold dev s i b -> 1 < c_ref (A b) ->
  exists s', bunpin i s = Ok tt s' /\
    cstep (crep dev) (chold dev) me s s' (upd A b (mk_cell (c_data (A b)) (c_ref (A b) - 1) (c_owner (A b)))) /\
    k_disk s' = k_disk s /\ k_wtrace s' = k_wtrace s.
Proof.
  intros Hrd Hrep Hh Hpos. unfold bunpin, buf_mod. run (acquire_ok _ _ (rd_bcache _ _ _ Hrd)).
  eexists. split; [by eapply release_ok, (rd_bcache _ _ _ Hrd)|].
  assert (0 < c_ref (A b)) as Hpos' by lia.
  destruct (hold_cell s A i b Hrep Hh Hpos') as (bf & _ & _ & _ & [E1 E2 _ _ _] & _).
  split; [|done]. replace (set_k_held _ _) with
    (set_k_bufs (alter (fun bf => set_b_refcnt (u32 (b_refcnt bf - 1)) bf) i (k_bufs s)) s) by (by destruct s).
  apply (refcnt_spec s me A i b (fun r => u32 (r - 1))); [done|done|done|lia|]. unfold u32. lia.
Qed.

Lemma bwrite_spec s me pid A i b :
  ready s me pid -> crep dev s A -> chold dev s i b -> 0 < c_ref (A b) -> c_owner (A b) = Some pid ->
  exists s', bwrite i s = Ok tt s' /\ cstep (crep dev) (chold dev) me s s' A /\
    k_disk s' = upd (k_disk s) b (c_data (A b)) /\ k_wtrace s' = (b, c_data (A b)) :: k_wtrace s.
Proof.
  intros Hrd Hrep Hh Hpos Hown.
  destruct (hold_cell s A i b Hrep Hh Hpos) as (bf & Hi & Hbf & Hb & Hc & Hv & Ed).
  unfold bwrite. run (holdingsleep_mine i bf s me pid Hrd Hbf (owner_mine _ _ _ _ Hc Hown)).
  cbn [negb panic_if when]. ksimp. unfold virtio_disk_rw.
  run (tab_get_ok k_bufs i bf s Hbf : buf_get i s = _). eexists. split; [reflexivity|].
  destruct Hb as [Hdev Hbno]. rewrite Hbno, Ed. split; [|done].
  assert (A = upd A b (A b)) as EA.
  { apply functional_extensionality. intros x. unfold upd. by destruct (Z.eqb_spec x b) as [->|]. }
  rewrite EA. eapply (cstep_buf me s _ A i bf bf); try done.
  - cbn. by rewrite list_insert_id.
  - by left.
  - intros x Hx. cbn. by rewrite (proj2 (Z.eqb_neq _ _) Hx).
  - destruct Hc as [E1 E2 E3 E4 E5]. split; [done|done|done|lia|done].
Qed.

(** ** brelse *)

(** A buffer without its links. *)
Definition strip (bf : buf) : buf := set_b_next 0%nat (set_b_prev 0%nat bf).

Lemma strip_alter_next v i (bs : list buf) : strip <$> alter (set_b_next v) i bs = strip <$> bs.
Proof.
  apply list_eq. intros j. rewrite !list_lookup_fmap. destruct (decide (j = i)) as [->|].
  - rewrite list_lookup_alter_eq. by destruct (bs !! i).
  - by rewrite list_lookup_alter_ne.
Qed.

Lemma strip_alter_prev v i (bs : list buf) : strip <$> alter (set_b_prev v) i bs = strip <$> bs.
Proof.
  apply list_eq. intros j. rewrite !list_lookup_fmap. destruct (decide (j = i)) as [->|].
  - rewrite list_lookup_alter_eq. by destruct (bs !! i).
  - by rewrite list_lookup_alter_ne.
Qed.

Lemma strip_lookup (bs bs' : list buf) i bf' :
  strip <$> bs' = strip <$> bs -> bs' !! i = Some bf' ->
  exists bf, bs !! i = Some bf /\ strip bf' = strip bf.
Proof.
  intros E Hi. assert ((strip <$> bs') !! i = Some (strip bf')) as H by (by rewrite list_lookup_fmap, Hi).
  rewrite E, list_lookup_fmap in H. destruct (bs !! i) as [bf|]; [|done]. exists bf. cbn in H. split; congruence.
Qed.

Lemma strip_is_blk bf bf' b : strip bf' = strip bf -> is_blk dev b bf' <-> is_blk dev b bf.
Proof. destruct bf, bf'. unfold strip, is_blk. cbn. intros [=]. by subst. Qed.

Lemma strip_cell d bf bf' c : strip bf' = strip bf -> buf_cell d bf c -> buf_cell d bf' c.
Proof. destruct bf, bf'. unfold strip. cbn. intros [=] Hc. subst. destruct Hc. by split. Qed.

Lemma contents_strip d bs bs' A :
  strip <$> bs' = strip <$> bs -> contents dev d bs A -> contents dev d bs' A.
Proof.
  intros E [Hu Hin Hout Hdev]. split.
  - intros i j bi bj b Hi Hj Ei Ej Bi Bj.
    destruct (strip_lookup _ _ _ _ E Ei) as (ci & Fi & Si). destruct (strip_lookup _ _ _ _ E Ej) as (cj & Fj & Sj).
    apply (Hu i j ci cj b); try done; by eapply strip_is_blk.
  - intros i bf b Hi Ei Bi. destruct (strip_lookup _ _ _ _ E Ei) as (ci & Fi & Si).
    eapply strip_cell; [exact Si|]. apply (Hin i); [done|done|]. by eapply strip_is_blk.
  - intros b Hb. apply Hout. intros i bf Hi Ei Bi. symmetry in E.
    destruct (strip_lookup _ _ _ _ E Ei) as (ci & Fi & Si). apply (Hb i ci); [done|done|].
    by eapply strip_is_blk.
  - intros i bf Hi Ei Nd. destruct (strip_lookup _ _ _ _ E Ei) as (ci & Fi & Si).
    destruct bf, ci. unfold strip in Si. cbn in *. injection Si as ?. subst.
    apply (Hdev i _ Hi Fi Nd).
Qed.

(** The last part of [brelse]: the buffer moves to the front of the list. *)
Definition to_front (i : nat) (bf : buf) : M kstate unit :=
  buf_mod (b_next bf) (set_b_prev (b_prev bf)) ;;;
  buf_mod (b_prev bf) (set_b_next (b_next bf)) ;;;
  blink i ;;;
  blink_head i.

Lemma to_front_spec s me A i bf :
  crep dev s A -> (i < bhead)%nat -> k_bufs s !! i = Some bf ->
  exists bs, to_front i bf s = Ok tt (set_k_bufs bs s) /\
    cstep (crep dev) (chold dev) me s (set_k_bufs bs s) A.
Proof.
  intros [Hlen [order Hl] Hct] Hi Hbf.
  set (B2 := unlink i bf (k_bufs s)). assert (length B2 = S bhead) as HB2 by (unfold B2, unlink; by rewrite !length_alter).
  destruct (lookup_lt_is_Some_2 B2 bhead) as [hd Hhd]; [lia|].
  exists (push_front i (b_next hd) B2). split.
  - unfold to_front, blink, blink_head, buf_mod. ksimp.
    set (s2 := set_k_bufs _ _). change (k_bufs s2) with B2.
    run (tab_get_ok k_bufs bhead hd s2 Hhd : buf_get bhead s2 = _).
    set (s3 := set_k_bufs _ (set_k_bufs _ s2)).
    assert (k_bufs s3 !! bhead = Some hd) as H3.
    { unfold s3. cbn. rewrite !list_lookup_alter_ne by lia. exact Hhd. }
    run (tab_get_ok k_bufs bhead hd s3 H3 : buf_get bhead s3 = _). reflexivity.
  - assert (strip <$> push_front i (b_next hd) B2 = strip <$> k_bufs s) as Es.
    { unfold push_front, B2, unlink.
      by rewrite ?strip_alter_next, ?strip_alter_prev, ?strip_alter_next, ?strip_alter_prev, ?strip_alter_next, ?strip_alter_prev. }
    split; [split|by split|].
    + cbn. unfold push_front. by rewrite !length_alter.
    + eapply lru_move; try done. unfold nx. fold B2. by rewrite Hhd.
    + by eapply contents_strip.
    + intros j x [Hj (bj & Ej & Bj)] _. split; [done|]. cbn. symmetry in Es.
      destruct (strip_lookup _ _ _ _ Es Ej) as (cj & Fj & Sj). exists cj. split; [done|]. by eapply strip_is_blk.
Qed.

Lemma crep_frame s A s' : crep dev s A -> k_bufs s' = k_bufs s -> k_disk s' = k_disk s -> crep dev s' A.
Proof. intros [H1 H2 H3] E1 E2. split; by rewrite ?E1, ?E2. Qed.

Lemma chold_frame s i b s' : chold dev s i b -> k_bufs s' = k_bufs s -> chold dev s' i b.
Proof. unfold chold. by intros H ->. Qed.

(** [brelse] up to the point where the buffer may move. *)
Lemma brelse_drop s me pid A i b bf :
  ready s me pid -> crep dev s A -> chold dev s i b -> 0 < c_ref (A b) -> c_owner (A b) = Some pid ->
  (c_ref (A b) = 1 -> c_data (A b) = k_disk s b) -> k_bufs s !! i = Some bf ->
  let bf' := set_b_refcnt (u32 (b_refcnt bf - 1)) (set_b_lock (mk_sleeplock false 0) bf) in
  cstep (crep dev) (chold dev) me s
    (set_k_bufs (<[i := bf']> (k_bufs s)) (set_k_procs (wake_all (Some me) (Cbuflock i) (k_procs s)) s))
    (upd A b (mk_cell (c_data (A b)) (c_ref (A b) - 1) None)).
Proof.
  intros Hrd Hrep Hh Hpos Hown Hclean Hbf bf'.
  destruct (hold_cell s A i b Hrep Hh Hpos) as (bf0 & Hi & Hbf0 & Hb & [E1 E2 E3 E4 E5] & Hv & Ed).
  assert (bf0 = bf) as -> by congruence.
  assert (u32 (b_refcnt bf - 1) = b_refcnt bf - 1) as Eu by (unfold u32; lia).
  eapply (cstep_buf me s _ A i bf bf'); try done.
  - by left.
  - split; cbn; rewrite ?Eu; [lia|lia|done| |].
    + intros Hz. destruct Hb as [_ Hb]. rewrite Hb, <- Ed. rewrite Hclean by lia. done.
    + intros _. done.
  - split; [done|]. cbn. apply wake_all_woken.
Qed.

Lemma brelse_spec s me pid A i b :
  ready s me pid -> crep dev s A -> chold dev s i b -> 0 < c_ref (A b) -> c_owner (A b) = Some pid ->
  (c_ref (A b) = 1 -> c_data (A b) = k_disk s b) ->
  exists s', brelse i s = Ok tt s' /\
    cstep (crep dev) (chold dev) me s s' (upd A b (mk_cell (c_data (A b)) (c_ref (A b) - 1) None)) /\
    k_disk s' = k_disk s /\ k_wtrace s' = k_wtrace s.
Proof.
  intros Hrd Hrep Hh Hpos Hown Hclean.
  destruct (hold_cell s A i b Hrep Hh Hpos) as (bf & Hi & Hbf & Hb & Hc & Hv & Ed).
  assert (i < length (k_bufs s))%nat as Hil by (by eapply lookup_lt_Some).
  pose proof (brelse_drop s me pid A i b bf Hrd Hrep Hh Hpos Hown Hclean Hbf) as Hdrop. cbv zeta in Hdrop.
  set (bf' := set_b_refcnt _ _) in *. set (A' := upd A b _) in *. set (s1 := set_k_bufs _ _) in *.
  unfold brelse. run (holdingsleep_mine i bf s me pid Hrd Hbf (owner_mine _ _ _ _ Hc Hown)).
  cbn [negb panic_if when]. ksimp. run (releasesleep_run i s me pid Hrd).
  set (s0 := set_k_procs _ _). run (acquire_ok Lbcache s0 (rd_bcache _ _ _ Hrd)).
  unfold buf_mod at 1. ksimp.
  set (s2 := set_k_bufs _ _).
  assert (s2 = set_k_held (Lbcache :: k_held s) s1) as ->.
  { unfold s2, s1, bf'. cbn. rewrite (alter_insert (set_b_lock _) _ _ _ Hbf).
    rewrite (alter_insert _ i _ (set_b_lock (mk_sleeplock false 0) bf)) by (by apply list_lookup_insert_eq).
    by rewrite list_insert_insert_eq. }
  set (s2 := set_k_held _ s1).
  assert (k_bufs s2 !! i = Some bf') as H2 by (cbn; by apply list_lookup_insert_eq).
  run (tab_get_ok k_bufs i bf' s2 H2 : buf_get i s2 = _).
  assert (crep dev s2 A') as Hrep2 by (by eapply crep_frame; [apply Hdrop| |]).
  destruct (to_front_spec s2 me A' i bf' Hrep2 Hi H2) as (bs & Hrun & Hfront).
  destruct (b_refcnt bf' =? 0); cbn [when].
  - erewrite bind_ok; [|exact Hrun].
    eexists. split; [apply (release_ok Lbcache (set_k_bufs bs s2) (k_held s) eq_refl (rd_bcache _ _ _ Hrd))|].
    split; [|done]. split.
    + eapply crep_frame; [apply Hfront|done|done].
    + split; [done|]. apply (bf_woken _ _ _ (cs_frame _ _ _ _ _ _ Hdrop)).
    + intros j x Hj Hx. eapply (chold_frame (set_k_bufs bs s2)); [|done].
      apply (cs_hold _ _ _ _ _ _ Hfront); [|done]. eapply (chold_frame s1); [|done].
      by apply (cs_hold _ _ _ _ _ _ Hdrop).
  - ksimp. eexists. split; [apply (release_ok Lbcache s2 (k_held s) eq_refl (rd_bcache _ _ _ Hrd))|].
    split; [|done]. replace (set_k_held _ s2) with s1 by (unfold s2, s1; by destruct s). done.
Qed.

#[export] Instance bio_cache : BlockCache dev (crep dev) (chold dev).
Proof.
  split.
  - intros s A b [_ _ [_ Hin Hout _]] Hz.
    destruct (list_find (is_blk dev b) (take bhead (k_bufs s))) as [[i bf]|] eqn:E.
    + apply list_find_Some in E as (Hi & Hb & _). apply lookup_take_Some in Hi as [Hi Hlt].
      destruct (Hin i bf b Hlt Hi Hb) as [E1 _ E3 E4 _]. destruct E4 as (Ed & Eo & _); [lia|].
      destruct Hb as [_ Hb]. rewrite Hb in Ed. destruct (A b). cbn in *. unfold idle. congruence.
    + apply list_find_None in E. apply Hout. intros i bf Hi Hbf Hb.
      rewrite Forall_lookup in E. apply (E i bf); [|done]. by apply lookup_take_Some.
  - apply crep_frame.
  - apply chold_frame.
  - intros s i b [_ (bf & Hbf & [_ Hb])]. by exists bf.
  - apply bread_spec.
  - apply bdata_spec.
  - apply bdata_mod_spec.
  - apply bwrite_spec.
  - apply brelse_spec.
  - apply bpin_spec.
  - apply bunpin_spec.
Qed.

End bio.

(** ** binit *)

Lemma alter_comm {A} (f g : A -> A) i j (l : list A) :
  (forall x, f (g x) = g (f x)) -> alter f i (alter g j l) = alter g j (alter f i l).
Proof.
  intros H. apply list_eq. intros k. rewrite !list_lookup_alter.
  destruct (decide (i = k)) as [->|], (decide (j = k)) as [->|]; rewrite ?list_lookup_alter; repeat case_decide;
    try done.
  destruct (l !! k); cbn; [by rewrite H|done].
Qed.

(** Buffers nobody uses. *)
Definition unused_bufs (dev : Z) (bs : list buf) : Prop :=
  Forall (fun bf => b_refcnt bf = 0 /\ sl_locked (b_lock bf) = false /\ b_dev bf <> dev) bs.

Lemma unused_alter dev f i bs :
  (forall bf, b_refcnt (f bf) = b_refcnt bf /\ (sl_locked (b_lock bf) = false -> sl_locked (b_lock (f bf)) = false) /\
     b_dev (f bf) = b_dev bf) ->
  unused_bufs dev bs -> unused_bufs dev (alter f i bs).
Proof.
  intros Hf. unfold unused_bufs. rewrite !Forall_lookup. intros H j bf Hj.
  destruct (decide (j = i)) as [->|Hne].
  - rewrite list_lookup_alter_eq in Hj. destruct (bs !! i) as [b0|] eqn:E; [|done]. injection Hj as <-.
    destruct (Hf b0) as (-> & H2 & ->). destruct (H i b0 E) as (? & ? & ?). auto.
  - rewrite list_lookup_alter_ne in Hj by done. by eapply H.
Qed.

Lemma binit_step s k :
  length (k_bufs s) = S bhead -> (k < bhead)%nat -> dll (k_bufs s) (ring (reverse (seq 0 k))) ->
  exists bs, (blink k ;;; initsleeplock (SLbuf k) ;;; blink_head k) s = Ok tt (set_k_bufs bs s) /\
    length bs = S bhead /\ dll bs (ring (reverse (seq 0 (S k)))) /\
    (forall dev, unused_bufs dev (k_bufs s) -> unused_bufs dev bs).
Proof.
  intros Hlen Hk Hd. destruct (lookup_lt_is_Some_2 (k_bufs s) bhead) as [hd Hhd]; [lia|].
  unfold blink, blink_head, initsleeplock, sl_put, buf_mod.
  run (tab_get_ok k_bufs bhead hd s Hhd : buf_get bhead s = _).
  set (s3 := set_k_bufs _ _). assert (k_bufs s3 !! bhead = Some hd) as H3.
  { unfold s3. cbn. rewrite !list_lookup_alter_ne by lia. exact Hhd. }
  run (tab_get_ok k_bufs bhead hd s3 H3 : buf_get bhead s3 = _).
  eexists. split; [reflexivity|]. cbn [s3 k_bufs set_k_bufs].
  rewrite (alter_comm (set_b_prev k) (set_b_lock _)), (alter_comm (set_b_next k) (set_b_lock _)) by done.
  fold (push_front k (b_next hd) (k_bufs s)).
  split; [unfold push_front; by rewrite !length_alter|]. split.
  - rewrite seq_S, reverse_app. cbn [Nat.add]. change (reverse [k] ++ reverse (seq 0 k)) with (k :: reverse (seq 0 k)).
    eapply (dll_ext (push_front k (b_next hd) (k_bufs s))).
    { intros j _. unfold nx, pv. destruct (decide (j = k)) as [->|].
      - rewrite list_lookup_alter_eq. by destruct (_ !! k).
      - by rewrite list_lookup_alter_ne. }
    assert (forall i, i ∈ reverse (seq 0 k) <-> (i < k)%nat) as Hin.
    { intros i. rewrite elem_of_reverse, elem_of_seq. lia. }
    apply push_front_dll; [| | |done|by unfold nx; rewrite Hhd].
    + constructor; [rewrite Hin; lia|]. rewrite reverse_Permutation. apply NoDup_seq.
    + rewrite elem_of_cons, Hin. lia.
    + intros i Hi. apply lookup_lt_is_Some. rewrite !elem_of_cons, Hin in Hi. lia.
  - intros dev Hu. unfold push_front. repeat (apply unused_alter; [done|]). done.
Qed.

Lemma binit_loop s : length (k_bufs s) = S bhead -> dll (k_bufs s) (ring []) -> forall k,
  (k <= bhead)%nat -> exists bs,
    mfor (seq 0 k) (fun b => blink b ;;; initsleeplock (SLbuf b) ;;; blink_head b) s = Ok tt (set_k_bufs bs s) /\
    length bs = S bhead /\ dll bs (ring (reverse (seq 0 k))) /\
    (forall dev, unused_bufs dev (k_bufs s) -> unused_bufs dev bs).
Proof.
  intros Hlen Hd. induction k as [|k IH]; intros Hk.
  - exists (k_bufs s). split; [by destruct s|done].
  - destruct IH as (bs & Hrun & H1 & H2 & H3); [lia|].
    destruct (binit_step (set_k_bufs bs s) k) as (bs' & Hrun' & H1' & H2' & H3'); [done|lia|done|].
    exists bs'. split; [|split; [done|split; [done|auto]]].
    rewrite seq_S, mfor_app. run Hrun. cbn [mfor Nat.add]. rewrite bind_ok with (1 := Hrun'). by destruct s.
Qed.

Lemma binit_spec dev s :
  length (k_bufs s) = S bhead -> unused_bufs dev (k_bufs s) ->
  exists bs, binit s = Ok tt (set_k_bufs bs s) /\ crep dev (set_k_bufs bs s) (fun b => idle (k_disk s b)).
Proof.
  intros Hlen Hu. unfold binit, buf_mod. ksimp. set (s1 := set_k_bufs _ _).
  assert (length (k_bufs s1) = S bhead) as Hlen1 by (cbn; by rewrite !length_alter).
  destruct (binit_loop s1 Hlen1) with (k := bhead) as (bs & Hrun & H1 & H2 & H3); [|done|].
  { destruct (lookup_lt_is_Some_2 (k_bufs s) bhead) as [hd Hhd]; [lia|].
    intros [|[|k]] x y Hx Hy; cbn in Hx, Hy; [|done|done]. injection Hx as <-. injection Hy as <-.
    unfold nx, pv. cbn. rewrite !list_lookup_alter_eq, Hhd. done. }
  exists bs. split; [exact Hrun|].
  assert (unused_bufs dev bs) as Hub.
  { apply H3. cbn. repeat (apply unused_alter; [done|]). done. }
  unfold unused_bufs in Hub. rewrite Forall_lookup in Hub.
  split; [done| |].
  - exists (reverse (seq 0 bhead)). split; [by rewrite reverse_Permutation|done].
  - split; cbn.
    + intros i j bi bj b _ _ Ei _ [Hd _]. by destruct (Hub _ _ Ei) as (_ & _ & ?).
    + intros i bf b _ Ei [Hd _]. by destruct (Hub _ _ Ei) as (_ & _ & ?).
    + done.
    + intros i bf _ Ei _. by destruct (Hub _ _ Ei) as (? & ? & _).
Qed.
