(* ===== verification/Virtio.v ===== *)
(** * kernel/virtio_disk.c and virtio.h: the driver of the disk

    The driver's structures and the two rings that it shares with the device.
    The address of a structure is a value of [vptr].  Every routine runs with
    [vdisk_lock] held, so what happens between two calls of [sleep] is one step;
    [None] is a call of [panic]. *)

From S2P Require Import Prelude Mem.

Definition NUM : Z := 8.
Definition VRING_DESC_F_NEXT : Z := 1.
Definition VRING_DESC_F_WRITE : Z := 2.
Definition VIRTIO_BLK_T_IN : Z := 0.
Definition VIRTIO_BLK_T_OUT : Z := 1.

(** [&disk.ops[i]], [b->data], [&disk.info[i].status]. *)
Inductive vptr : Type := Null | OpAt (i : Z) | DataOf (b : nat) | StatusAt (i : Z).

Record virtq_desc : Type := Desc { d_addr : vptr; d_len : Z; d_flags : Z; d_next : Z }.
Record virtio_blk_req : Type := Req { r_type : Z; r_reserved : Z; r_sector : Z }.

#[export] Instance virtq_desc_inhabited : Inhabited virtq_desc := populate (Desc Null 0 0 0).
#[export] Instance virtio_blk_req_inhabited : Inhabited virtio_blk_req := populate (Req 0 0 0).

(** [struct disk], the rings, the fields [disk] and [data] of the buffers, and the
    bytes of the medium. *)
Record disk : Type := Disk {
  desc : list virtq_desc;
  avail_idx : Z;
  avail_ring : list Z;
  used_pidx : Z;
  used_ring : list Z;
  dfree : list bool;
  used_idx : Z;
  info_b : list (option nat);
  info_status : list Z;
  ops : list virtio_blk_req;
  bdisk : nat -> Z;
  bdata : nat -> list Z;
  medium : mem
}.

Definition set_desc x d := Disk x (avail_idx d) (avail_ring d) (used_pidx d) (used_ring d) (dfree d) (used_idx d) (info_b d) (info_status d) (ops d) (bdisk d) (bdata d) (medium d).
Definition set_avail i r d := Disk (desc d) i r (used_pidx d) (used_ring d) (dfree d) (used_idx d) (info_b d) (info_status d) (ops d) (bdisk d) (bdata d) (medium d).
Definition set_used i r d := Disk (desc d) (avail_idx d) (avail_ring d) i r (dfree d) (used_idx d) (info_b d) (info_status d) (ops d) (bdisk d) (bdata d) (medium d).
Definition set_dfree x d := Disk (desc d) (avail_idx d) (avail_ring d) (used_pidx d) (used_ring d) x (used_idx d) (info_b d) (info_status d) (ops d) (bdisk d) (bdata d) (medium d).
Definition set_used_idx x d := Disk (desc d) (avail_idx d) (avail_ring d) (used_pidx d) (used_ring d) (dfree d) x (info_b d) (info_status d) (ops d) (bdisk d) (bdata d) (medium d).
Definition set_info_b x d := Disk (desc d) (avail_idx d) (avail_ring d) (used_pidx d) (used_ring d) (dfree d) (used_idx d) x (info_status d) (ops d) (bdisk d) (bdata d) (medium d).
Definition set_info_status x d := Disk (desc d) (avail_idx d) (avail_ring d) (used_pidx d) (used_ring d) (dfree d) (used_idx d) (info_b d) x (ops d) (bdisk d) (bdata d) (medium d).
Definition set_ops x d := Disk (desc d) (avail_idx d) (avail_ring d) (used_pidx d) (used_ring d) (dfree d) (used_idx d) (info_b d) (info_status d) x (bdisk d) (bdata d) (medium d).
Definition set_bdisk x d := Disk (desc d) (avail_idx d) (avail_ring d) (used_pidx d) (used_ring d) (dfree d) (used_idx d) (info_b d) (info_status d) (ops d) x (bdata d) (medium d).
Definition set_bdata x d := Disk (desc d) (avail_idx d) (avail_ring d) (used_pidx d) (used_ring d) (dfree d) (used_idx d) (info_b d) (info_status d) (ops d) (bdisk d) x (medium d).
Definition set_medium x d := Disk (desc d) (avail_idx d) (avail_ring d) (used_pidx d) (used_ring d) (dfree d) (used_idx d) (info_b d) (info_status d) (ops d) (bdisk d) (bdata d) x.

(** An element of an array, and an array with one element changed. *)
Definition at_ {A} `{!Inhabited A} (l : list A) (i : Z) : A := l !!! Z.to_nat i.
Definition put {A} (l : list A) (i : Z) (x : A) : list A := <[Z.to_nat i := x]> l.
Definition upd_b {A} (f : nat -> A) (b : nat) (x : A) : nat -> A := fun b' => if decide (b' = b) then x else f b'.

(** ** Descriptors *)

Fixpoint alloc_scan (l : list bool) (i : Z) : option Z :=
  match l with
  | [] => None
  | true :: _ => Some i
  | false :: l' => alloc_scan l' (i + 1)
  end.

Definition alloc_desc (d : disk) : disk * Z :=
  match alloc_scan (dfree d) 0 with
  | Some i => (set_dfree (put (dfree d) i false) d, i)
  | None => (d, -1)
  end.

(** The [wakeup] of [&disk.free[0]] is in the steps below. *)
Definition free_desc (i : Z) (d : disk) : option disk :=
  if NUM <=? i then None
  else if at_ (dfree d) i then None
  else Some (set_dfree (put (dfree d) i true) (set_desc (put (desc d) i (Desc Null 0 0 0)) d)).

(** A descriptor that has been freed is not freed again, so [NUM] rounds are
    enough. *)
Fixpoint free_chain (fuel : nat) (i : Z) (d : disk) : option disk :=
  match fuel with
  | O => None
  | S f =>
      let flag := d_flags (at_ (desc d) i) in
      let nxt := d_next (at_ (desc d) i) in
      d ← free_desc i d;
      if negb (Z.land flag VRING_DESC_F_NEXT =? 0) then free_chain f nxt d else Some d
  end.

(** The three indices, or whether [free_desc] was called on the way out. *)
Definition alloc3_desc (d : disk) : option (disk * (Z * Z * Z + bool)) :=
  let '(d, i0) := alloc_desc d in
  if i0 <? 0 then Some (d, inr false)
  else
    let '(d, i1) := alloc_desc d in
    if i1 <? 0 then
      d ← free_desc i0 d; Some (d, inr true)
    else
      let '(d, i2) := alloc_desc d in
      if i2 <? 0 then
        d ← free_desc i0 d; d ← free_desc i1 d; Some (d, inr true)
      else Some (d, inl (i0, i1, i2)).

(** ** A request *)

Definition BSIZE_ : Z := 1024.
Definition sector_of (blockno : Z) : Z := u32 (blockno * (BSIZE_ / 512)).

(** The three descriptors and the header. *)
Definition format (i0 i1 i2 : Z) (b : nat) (blockno : Z) (write : bool) (d : disk) : disk :=
  let d := set_ops (put (ops d) i0 (Req (if write then VIRTIO_BLK_T_OUT else VIRTIO_BLK_T_IN) 0 (sector_of blockno))) d in
  let d := set_desc (put (desc d) i0 (Desc (OpAt i0) 16 VRING_DESC_F_NEXT i1)) d in
  let d := set_desc (put (desc d) i1
             (Desc (DataOf b) BSIZE_ (Z.lor (if write then 0 else VRING_DESC_F_WRITE) VRING_DESC_F_NEXT) i2)) d in
  let d := set_info_status (put (info_status d) i0 255) d in
  set_desc (put (desc d) i2 (Desc (StatusAt i0) 1 VRING_DESC_F_WRITE 0)) d.

(** The request is made known to the device. *)
Definition offer (i0 : Z) (b : nat) (d : disk) : disk :=
  let d := set_bdisk (upd_b (bdisk d) b 1) d in
  let d := set_info_b (put (info_b d) i0 (Some b)) d in
  let d := set_avail (avail_idx d) (put (avail_ring d) (avail_idx d mod NUM) i0) d in
  set_avail (u16 (avail_idx d + 1)) (avail_ring d) d.

(** What [virtio_disk_rw] does when the device is done with the buffer. *)
Definition finish (i0 : Z) (d : disk) : option disk :=
  free_chain (S (Z.to_nat NUM)) i0 (set_info_b (put (info_b d) i0 None) d).

(** ** The interrupt *)

(** The loop runs once for every new entry of the ring; the buffers whose
    sleepers are woken. *)
Fixpoint intr_loop (n : nat) (d : disk) : option (disk * list nat) :=
  match n with
  | O => Some (d, [])
  | S n' =>
      if used_idx d =? used_pidx d then Some (d, [])
      else
        let id := at_ (used_ring d) (used_idx d mod NUM) in
        if negb (at_ (info_status d) id =? 0) then None
        else
          b ← at_ (info_b d) id;
          let d := set_bdisk (upd_b (bdisk d) b 0) d in
          let d := set_used_idx (u16 (used_idx d + 1)) d in
          '(d, bs) ← intr_loop n' d;
          Some (d, b :: bs)
  end.

Definition virtio_disk_intr (d : disk) : option (disk * list nat) :=
  intr_loop (Z.to_nat (u16 (used_pidx d - used_idx d))) d.

(** ** Setting up the device *)

Definition VIRTIO_MMIO_DRIVER_FEATURES : Z := 32.
Definition VIRTIO_MMIO_QUEUE_SEL : Z := 48.
Definition VIRTIO_MMIO_QUEUE_NUM : Z := 56.
Definition VIRTIO_MMIO_QUEUE_READY : Z := 68.
Definition VIRTIO_MMIO_STATUS : Z := 112.
Definition VIRTIO_MMIO_QUEUE_DESC_LOW : Z := 128.
Definition VIRTIO_MMIO_DRIVER_DESC_LOW : Z := 144.
Definition VIRTIO_MMIO_DEVICE_DESC_LOW : Z := 160.

(** What the driver reads from the device's registers, in the order in which it
    reads them. *)
Record probe : Type := Probe {
  p_magic : Z; p_version : Z; p_device : Z; p_vendor : Z; p_features : Z; p_status : Z; p_ready : Z; p_max : Z
}.

Definition dropped_features : list Z := [5; 7; 11; 12; 27; 29; 28].
Definition clear_bits (l : list Z) (x : Z) : Z := fold_left (fun x n => Z.land x (Z.lnot (Z.shiftl 1 n))) l x.

(** A page address is written in two halves. *)
Definition write_addr (r a : Z) : list (Z * Z) := [(r, u32 a); (r + 4, u32 (Z.shiftr a 32))].

(** The writes of registers, or the message of the panic; the three pages are
    what [kalloc] returned, 0 if it had none. *)
Definition virtio_disk_init (p : probe) (pdesc pavail pused : Z) : string + list (Z * Z) :=
  if negb (p_magic p =? 1953655158) || negb (p_version p =? 2) || negb (p_device p =? 2) || negb (p_vendor p =? 1431127377)
  then inl "could not find virtio disk"%string
  else if Z.land (p_status p) 8 =? 0 then inl "virtio disk FEATURES_OK unset"%string
  else if negb (p_ready p =? 0) then inl "virtio disk should not be ready"%string
  else if p_max p =? 0 then inl "virtio disk has no queue 0"%string
  else if p_max p <? NUM then inl "virtio disk max queue too short"%string
  else if (pdesc =? 0) || (pavail =? 0) || (pused =? 0) then inl "virtio disk kalloc"%string
  else inr (
    [(VIRTIO_MMIO_STATUS, 0); (VIRTIO_MMIO_STATUS, 1); (VIRTIO_MMIO_STATUS, 3);
     (VIRTIO_MMIO_DRIVER_FEATURES, u32 (clear_bits dropped_features (p_features p)));
     (VIRTIO_MMIO_STATUS, 11);
     (VIRTIO_MMIO_QUEUE_SEL, 0);
     (VIRTIO_MMIO_QUEUE_NUM, NUM)] ++
    write_addr VIRTIO_MMIO_QUEUE_DESC_LOW pdesc ++
    write_addr VIRTIO_MMIO_DRIVER_DESC_LOW pavail ++
    write_addr VIRTIO_MMIO_DEVICE_DESC_LOW pused ++
    [(VIRTIO_MMIO_QUEUE_READY, 1);
     (VIRTIO_MMIO_STATUS, Z.lor (p_status p) 4)]).

(** The driver's state after the set-up. *)
Definition fresh (data : nat -> list Z) (md : mem) : disk :=
  Disk (replicate (Z.to_nat NUM) (Desc Null 0 0 0)) 0 (replicate (Z.to_nat NUM) 0) 0 (replicate (Z.to_nat NUM) 0)
       (replicate (Z.to_nat NUM) true) 0 (replicate (Z.to_nat NUM) None) (replicate (Z.to_nat NUM) 0)
       (replicate (Z.to_nat NUM) (Req 0 0 0)) (fun _ => 0) data md.
