(* ===== verification/VirtioSys.v ===== *)
(** * The disk driver, the device and the processes that use them

    The processes that are in [virtio_disk_rw], the interrupt handler and the
    device, as a step relation: between two steps anything else may run.  The
    device is code that is not in the repository; what is assumed of it is that
    it fetches the requests in the order of the ring and serves each one, in any
    order, as the format of its descriptors says. *)

From S2P Require Import Prelude Mem Virtio.

(** Where a process is.  [VTry]: it needs descriptors; [VSleepFree]: it sleeps on
    [&disk.free[0]]; [VSleepBuf]: it sleeps on the buffer; [VWait]: it has been
    woken and is about to look at [b->disk]. *)
Inductive vpc : Type :=
| VIdle
| VTry (b : nat) (blockno : Z) (write : bool)
| VSleepFree (b : nat) (blockno : Z) (write : bool)
| VSleepBuf (b : nat) (i0 : Z)
| VWait (b : nat) (i0 : Z).

(** The buffer that a process transfers. *)
Definition uses (p : vpc) : option nat :=
  match p with VIdle => None | VTry b _ _ | VSleepFree b _ _ | VSleepBuf b _ | VWait b _ => Some b end.

(** The device's own state: how far it has read the ring of requests, and the
    requests that it is working on. *)
Record vconf : Type := VConf { c_disk : disk; c_seen : Z; c_taken : list Z; c_pc : nat -> vpc; c_panicked : bool }.

Definition vgoto (t : nat) (p : vpc) (f : nat -> vpc) : nat -> vpc := fun x => if decide (x = t) then p else f x.

(** [wakeup(&disk.free[0])] *)
Definition wake_free (f : nat -> vpc) : nat -> vpc :=
  fun t => match f t with VSleepFree b n w => VTry b n w | p => p end.

(** [wakeup(b)] for the buffers of a list. *)
Definition wake_bufs (bs : list nat) (f : nat -> vpc) : nat -> vpc :=
  fun t => match f t with VSleepBuf b i => if decide (b ∈ bs) then VWait b i else VSleepBuf b i | p => p end.

Definition block_bytes (l : list Z) : Prop := length l = Z.to_nat BSIZE_ /\ Forall (fun c => 0 <= c < 256) l.

(** What the format of the three descriptors from [h] on asks for. *)
Record asks (d : disk) (h : Z) (i1 i2 : Z) (b : nat) (sector : Z) (write : bool) : Prop := {
  ak_desc0 : desc d !! Z.to_nat h = Some (Desc (OpAt h) 16 VRING_DESC_F_NEXT i1);
  ak_desc1 : desc d !! Z.to_nat i1 = Some (Desc (DataOf b) BSIZE_ (Z.lor (if write then 0 else VRING_DESC_F_WRITE) VRING_DESC_F_NEXT) i2);
  ak_desc2 : desc d !! Z.to_nat i2 = Some (Desc (StatusAt h) 1 VRING_DESC_F_WRITE 0);
  ak_req : ops d !! Z.to_nat h = Some (Req (if write then VIRTIO_BLK_T_OUT else VIRTIO_BLK_T_IN) 0 sector)
}.

(** The transfer, the status byte, and the entry in the ring of the used ones. *)
Definition served (h : Z) (b : nat) (sector : Z) (write : bool) (d : disk) : disk :=
  let d := if write then set_medium (store_bytes (medium d) (512 * sector) (bdata d b)) d
           else set_bdata (upd_b (bdata d) b (load_bytes (medium d) (512 * sector) (Z.to_nat BSIZE_))) d in
  let d := set_info_status (put (info_status d) h 0) d in
  set_used (u16 (used_pidx d + 1)) (put (used_ring d) (used_pidx d mod NUM) h) d.

Section system.
(** [dev h d d']: the device works on the request at [h] and is done with it. *)
Context (dev : Z -> disk -> disk -> Prop).

Inductive vstep : vconf -> vconf -> Prop :=
(** A call, with the buffer's sleep lock held. *)
| v_call d sn tk f p t b n wr : f t = VIdle -> (forall t', uses (f t') <> Some b) -> 0 <= n < 2 ^ 31 ->
    vstep (VConf d sn tk f p) (VConf d sn tk (vgoto t (VTry b n wr) f) p)
(** The holder of a buffer that is not being transferred changes its bytes. *)
| v_store d sn tk f p b data : (forall t', uses (f t') <> Some b) -> block_bytes data ->
    vstep (VConf d sn tk f p) (VConf (set_bdata (upd_b (bdata d) b data) d) sn tk f p)
| v_alloc d sn tk f p t b n wr d' i0 i1 i2 : f t = VTry b n wr -> alloc3_desc d = Some (d', inl (i0, i1, i2)) ->
    vstep (VConf d sn tk f p) (VConf (offer i0 b (format i0 i1 i2 b n wr d')) sn tk (vgoto t (VSleepBuf b i0) f) p)
| v_alloc_fail d sn tk f p t b n wr d' woke : f t = VTry b n wr -> alloc3_desc d = Some (d', inr woke) ->
    vstep (VConf d sn tk f p) (VConf d' sn tk (vgoto t (VSleepFree b n wr) (if woke : bool then wake_free f else f)) p)
| v_alloc_panic d sn tk f p t b n wr : f t = VTry b n wr -> alloc3_desc d = None ->
    vstep (VConf d sn tk f p) (VConf d sn tk f true)
| v_again d sn tk f p t b i : f t = VWait b i -> bdisk d b = 1 ->
    vstep (VConf d sn tk f p) (VConf d sn tk (vgoto t (VSleepBuf b i) f) p)
| v_finish d sn tk f p t b i d' : f t = VWait b i -> bdisk d b <> 1 -> finish i d = Some d' ->
    vstep (VConf d sn tk f p) (VConf d' sn tk (vgoto t VIdle (wake_free f)) p)
| v_finish_panic d sn tk f p t b i : f t = VWait b i -> bdisk d b <> 1 -> finish i d = None ->
    vstep (VConf d sn tk f p) (VConf d sn tk f true)
| v_intr d sn tk f p d' bs : virtio_disk_intr d = Some (d', bs) ->
    vstep (VConf d sn tk f p) (VConf d' sn tk (wake_bufs bs f) p)
| v_intr_panic d sn tk f p : virtio_disk_intr d = None ->
    vstep (VConf d sn tk f p) (VConf d sn tk f true)
(** The device. *)
| v_fetch d sn tk f p : sn <> avail_idx d ->
    vstep (VConf d sn tk f p) (VConf d (u16 (sn + 1)) (tk ++ [at_ (avail_ring d) (sn mod NUM)]) f p)
| v_serve d sn l1 h l2 f p d' : dev h d d' ->
    vstep (VConf d sn (l1 ++ h :: l2) f p) (VConf d' sn (l1 ++ l2) f p).

(** The state after [virtio_disk_init]. *)
Inductive vreach : vconf -> Prop :=
| vr_init data md : (forall b, block_bytes (data b)) -> vreach (VConf (fresh data md) 0 [] (fun _ => VIdle) false)
| vr_step c c' : vreach c -> vstep c c' -> vreach c'.
End system.

(** ** The promise: a transfer is one step *)

Inductive apc : Type := AIdle | ACall (b : nat) (blockno : Z) (write : bool) | AReturn (b : nat).
Record aconf : Type := AConf { a_disk : Z -> list Z; a_data : nat -> list Z; a_pc : nat -> apc }.
Definition agoto (t : nat) (p : apc) (f : nat -> apc) : nat -> apc := fun x => if decide (x = t) then p else f x.
Definition auses (p : apc) : option nat := match p with AIdle => None | ACall b _ _ | AReturn b => Some b end.

Inductive astep : aconf -> aconf -> Prop :=
| a_call k dt f t b n wr : f t = AIdle -> (forall t', auses (f t') <> Some b) -> 0 <= n < 2 ^ 31 -> astep (AConf k dt f) (AConf k dt (agoto t (ACall b n wr) f))
| a_store k dt f b data : (forall t', auses (f t') <> Some b) -> block_bytes data -> astep (AConf k dt f) (AConf k (upd_b dt b data) f)
| a_write k dt f t b n : f t = ACall b n true ->
    astep (AConf k dt f) (AConf (fun n' => if n' =? n then dt b else k n') dt (agoto t (AReturn b) f))
| a_read k dt f t b n : f t = ACall b n false -> astep (AConf k dt f) (AConf k (upd_b dt b (k n)) (agoto t (AReturn b) f))
| a_return k dt f t b : f t = AReturn b -> astep (AConf k dt f) (AConf k dt (agoto t AIdle f)).

(** ** The invariant *)

(** A request: its process, its buffer, what is asked for and its descriptors. *)
Record vreq : Type := VReq { q_t : nat; q_b : nat; q_n : Z; q_wr : bool; q_h : Z; q_i1 : Z; q_i2 : Z }.
Definition chain (q : vreq) : list Z := [q_h q; q_i1 q; q_i2 q].
Definition chains (l : list vreq) : list Z := flat_map chain l.

Definition q_asks (d : disk) (q : vreq) : Prop :=
  asks d (q_h q) (q_i1 q) (q_i2 q) (q_b q) (sector_of (q_n q)) (q_wr q) /\ info_b d !! Z.to_nat (q_h q) = Some (Some (q_b q)) /\
  0 <= q_n q < 2 ^ 31.

Definition lengths (d : disk) : Prop :=
  length (desc d) = 8%nat /\ length (avail_ring d) = 8%nat /\ length (used_ring d) = 8%nat /\ length (dfree d) = 8%nat /\
  length (info_b d) = 8%nat /\ length (info_status d) = 8%nat /\ length (ops d) = 8%nat.

(** A ring from index [i] to index [j] holds [l]. *)
Definition ring_holds (r : list Z) (i j : Z) (l : list Z) : Prop :=
  0 <= i < 2 ^ 16 /\ j = u16 (i + Z.of_nat (length l)) /\
  forall k h, l !! k = Some h -> r !! Z.to_nat ((i + Z.of_nat k) mod NUM) = Some h.

(** The requests that are under way, and the processes. *)
Record vcore (d : disk) (f : nat -> vpc) (all : list vreq) : Prop := {
  vc_len : lengths d;
  vc_chains : NoDup (chains all) /\ Forall (fun i => 0 <= i < NUM) (chains all);
  vc_free : forall i, 0 <= i < NUM -> dfree d !! Z.to_nat i = Some (bool_decide (i ∉ chains all));
  vc_asks : forall q, q ∈ all -> q_asks d q;
  vc_pc : forall t b h, f t = VSleepBuf b h \/ f t = VWait b h <-> exists q, q ∈ all /\ q_t q = t /\ q_b q = b /\ q_h q = h;
  vc_once : forall t t' b, uses (f t) = Some b -> uses (f t') = Some b -> t = t';
  vc_args : forall t b n wr, f t = VTry b n wr \/ f t = VSleepFree b n wr -> 0 <= n < 2 ^ 31;
  vc_sleep : forall t b n wr, f t = VSleepFree b n wr -> all <> [];
  vc_data : forall b, block_bytes (bdata d b)
}.

(** [U]: in the ring of requests; [T]: the device works on them; [C]: in the ring
    of the used ones; [D]: the interrupt handler has seen them. *)
Record vinv (c : vconf) (U T C D : list vreq) : Prop := {
  vi_core : vcore (c_disk c) (c_pc c) (U ++ T ++ C ++ D);
  vi_avail : ring_holds (avail_ring (c_disk c)) (c_seen c) (avail_idx (c_disk c)) (map q_h U);
  vi_taken : c_taken c = map q_h T;
  vi_used : ring_holds (used_ring (c_disk c)) (used_idx (c_disk c)) (used_pidx (c_disk c)) (map q_h C);
  vi_status : forall q, q ∈ C ++ D -> info_status (c_disk c) !! Z.to_nat (q_h q) = Some 0;
  vi_busy : forall q, q ∈ U ++ T ++ C -> bdisk (c_disk c) (q_b q) = 1;
  vi_done : forall q, q ∈ D -> bdisk (c_disk c) (q_b q) = 0 /\ c_pc c (q_t q) = VWait (q_b q) (q_h q);
  vi_run : c_panicked c = false
}.

(** Block [n] of the medium. *)
Definition block_at (m : mem) (n : Z) : list Z := load_bytes m (BSIZE_ * n) (Z.to_nat BSIZE_).

(** What the promise sees of the system: a request is carried out when the device
    has served it. *)
Record vabs (c : vconf) (U T C D : list vreq) (a : aconf) : Prop := {
  va_disk : forall n, 0 <= n < 2 ^ 31 -> a_disk a n = block_at (medium (c_disk c)) n;
  va_data : forall b, a_data a b = bdata (c_disk c) b;
  va_idle : forall t, c_pc c t = VIdle -> a_pc a t = AIdle;
  va_call : forall t b n wr, c_pc c t = VTry b n wr \/ c_pc c t = VSleepFree b n wr -> a_pc a t = ACall b n wr;
  va_before : forall q, q ∈ U ++ T -> a_pc a (q_t q) = ACall (q_b q) (q_n q) (q_wr q);
  va_after : forall q, q ∈ C ++ D -> a_pc a (q_t q) = AReturn (q_b q)
}.
