(* ===== verification/VirtioSpec.v ===== *)
(** * The disk driver keeps its promise

    The invariant of the driver, the device and the processes, step by step. *)

From S2P Require Import Prelude Mem Virtio VirtioSys.

(** ** Arrays *)

Definition idx (i : Z) : Prop := 0 <= i < NUM.

Lemma put_eq {A} (l : list A) i x : idx i -> length l = 8%nat -> put l i x !! Z.to_nat i = Some x.
Proof. intros Hi Hl. apply list_lookup_insert_eq. unfold idx, NUM in Hi. lia. Qed.
Lemma put_ne {A} (l : list A) i j x : idx i -> idx j -> i <> j -> put l i x !! Z.to_nat j = l !! Z.to_nat j.
Proof. intros Hi Hj Hne. apply list_lookup_insert_ne. unfold idx in *. lia. Qed.
Lemma put_length {A} (l : list A) i x : length (put l i x) = length l.
Proof. apply length_insert. Qed.
Lemma at_some {A} `{!Inhabited A} (l : list A) i x : l !! Z.to_nat i = Some x -> at_ l i = x.
Proof. apply list_lookup_total_correct. Qed.

(** The features that the driver keeps are the device's without those it drops. *)
Lemma clear_bits_testbit l x i : 0 <= i -> Forall (fun n => 0 <= n) l -> Z.testbit (clear_bits l x) i = Z.testbit x i && bool_decide (i ∉ l).
Proof.
  intros Hi. revert x. induction l as [|n l IH]; intros x Hl; [by rewrite bool_decide_eq_true_2, andb_true_r by (by intros ?%elem_of_nil)|].
  apply Forall_cons in Hl as [Hn Hl]. unfold clear_bits. cbn [fold_left]. fold (clear_bits l (Z.land x (Z.lnot (Z.shiftl 1 n)))). rewrite IH by done.
  rewrite Z.land_spec, Z.lnot_spec, Z.shiftl_spec by done. destruct (decide (i = n)) as [->|Hne].
  - rewrite Z.sub_diag. rewrite (bool_decide_eq_false_2 (n ∉ n :: l)) by set_solver +. by rewrite !andb_false_r.
  - assert (Z.testbit 1 (i - n) = false) as ->. { destruct (Z.lt_ge_cases i n); [by apply Z.testbit_neg_r; lia|]. change 1 with (2 ^ 0). apply Z.pow2_bits_false. lia. }
    rewrite andb_true_r. f_equal. apply bool_decide_ext. set_solver +Hne.
Qed.

(** ** Descriptors *)

Lemma alloc_scan_some l k i : alloc_scan l k = Some i -> k <= i < k + Z.of_nat (length l) /\ l !! Z.to_nat (i - k) = Some true.
Proof.
  revert k. induction l as [|[|] l IH]; intros k; cbn; [done| |].
  - intros [= <-]. rewrite Z.sub_diag. split; [lia|done].
  - intros H. apply IH in H as [H1 H2]. split; [lia|]. replace (Z.to_nat (i - k)) with (S (Z.to_nat (i - (k + 1)))) by lia. done.
Qed.

Lemma alloc_desc_spec d : length (dfree d) = 8%nat ->
  (exists i, alloc_desc d = (set_dfree (put (dfree d) i false) d, i) /\ idx i /\ dfree d !! Z.to_nat i = Some true) \/ alloc_desc d = (d, -1).
Proof.
  intros Hl. unfold alloc_desc. destruct (alloc_scan (dfree d) 0) as [i|] eqn:E; [left|by right]. apply alloc_scan_some in E as [H1 H2]. exists i.
  rewrite Z.sub_0_r in H2. split; [done|]. split; [unfold idx, NUM; lia|done].
Qed.

(** Only descriptors that are free, and the marks of them, are different. *)
Definition same_used (d d' : disk) : Prop :=
  exists dl fl, d' = set_dfree fl (set_desc dl d) /\ length dl = length (desc d) /\ length fl = length (dfree d) /\
    (forall i, idx i -> dfree d !! Z.to_nat i <> Some true -> dl !! Z.to_nat i = desc d !! Z.to_nat i).

Lemma free_desc_spec i d : idx i -> length (dfree d) = 8%nat -> dfree d !! Z.to_nat i = Some false ->
  free_desc i d = Some (set_dfree (put (dfree d) i true) (set_desc (put (desc d) i (Desc Null 0 0 0)) d)).
Proof. intros Hi Hl H. unfold free_desc. rewrite (at_some _ _ _ H). unfold idx in Hi. destruct (Z.leb_spec NUM i); [lia|done]. Qed.

(** A descriptor taken and given back. *)
Lemma same_used_step d d' i : same_used d d' -> idx i -> length (dfree d) = 8%nat -> dfree d !! Z.to_nat i = Some true ->
  same_used d (set_dfree (put (dfree d') i true) (set_desc (put (desc d') i (Desc Null 0 0 0)) d')).
Proof.
  intros (dl & fl & -> & H1 & H2 & H3) Hi Hl Hf. exists (put dl i (Desc Null 0 0 0)), (put fl i true). split; [done|]. rewrite !put_length. split; [done|]. split; [done|].
  intros j Hj Hjf. rewrite put_ne; [by apply H3|done|done|]. intros ->. done.
Qed.

Lemma same_used_free d l : length l = length (dfree d) -> same_used d (set_dfree l d).
Proof. intros H. exists (desc d), l. by destruct d. Qed.

(** The marks after some puts. *)
Ltac marks := cbn [dfree set_dfree set_desc]; repeat match goal with
  | |- put _ ?i _ !! Z.to_nat ?j = _ => destruct (decide (i = j)) as [->|]; [rewrite put_eq by (done || (rewrite ?put_length; done))|rewrite put_ne by done]
  end; try congruence.

Lemma alloc3_spec d : length (dfree d) = 8%nat -> length (desc d) = 8%nat ->
  (exists i0 i1 i2, alloc3_desc d = Some (set_dfree (put (put (put (dfree d) i0 false) i1 false) i2 false) d, inl (i0, i1, i2)) /\
     NoDup [i0; i1; i2] /\ Forall (fun i => idx i /\ dfree d !! Z.to_nat i = Some true) [i0; i1; i2]) \/
  (exists d' w, alloc3_desc d = Some (d', inr w) /\ same_used d d' /\ (forall i, idx i -> dfree d' !! Z.to_nat i = dfree d !! Z.to_nat i)).
Proof.
  intros Hl Hd. unfold alloc3_desc. destruct (alloc_desc_spec d Hl) as [(i0 & -> & H0 & F0)| ->].
  2: { right. exists d, false. split; [done|]. split; [|done]. exists (desc d), (dfree d). by destruct d. }
  destruct (Z.ltb_spec i0 0) as [?|_]; [unfold idx in H0; lia|]. set (d1 := set_dfree (put (dfree d) i0 false) d).
  assert (length (dfree d1) = 8%nat) as Hl1 by (cbn; by rewrite put_length).
  assert (dfree d1 !! Z.to_nat i0 = Some false) as F0' by (by apply put_eq).
  assert (same_used d d1) as Hs1 by (apply same_used_free; by rewrite put_length).
  destruct (alloc_desc_spec d1 Hl1) as [(i1 & -> & H1 & F1)| ->].
  2: { right. change (-1 <? 0) with true. rewrite (free_desc_spec i0 d1) by done. cbn [mbind option_bind]. eexists _, _. split; [reflexivity|].
       split; [by apply same_used_step|]. intros i Hi. unfold d1. marks. }
  destruct (Z.ltb_spec i1 0) as [?|_]; [unfold idx in H1; lia|]. assert (i0 <> i1) as N01 by (intros ->; congruence).
  assert (dfree d !! Z.to_nat i1 = Some true) as F1' by (rewrite <- F1; unfold d1; cbn; rewrite put_ne by done; done).
  set (d2 := set_dfree (put (dfree d1) i1 false) d1). assert (length (dfree d2) = 8%nat) as Hl2 by (cbn; by rewrite !put_length).
  assert (same_used d d2) as Hs2 by (apply (same_used_free d); cbn; by rewrite !put_length).
  destruct (alloc_desc_spec d2 Hl2) as [(i2 & -> & H2 & F2)| ->].
  2: { right. change (-1 <? 0) with true. rewrite (free_desc_spec i0 d2) by (try done; unfold d2; cbn; rewrite put_ne by done; done). cbn [mbind option_bind].
       rewrite free_desc_spec by (try done; unfold d2; cbn; rewrite ?put_length; try done; rewrite put_ne by done; apply put_eq; done).
       cbn [mbind option_bind]. eexists _, _. split; [reflexivity|]. split; [apply same_used_step; [by apply same_used_step|done..]|]. intros i Hi. unfold d2, d1. marks. }
  left. destruct (Z.ltb_spec i2 0) as [?|_]; [unfold idx in H2; lia|]. exists i0, i1, i2. split; [done|].
  assert (i2 <> i1) as N12 by (intros ->; revert F2; unfold d2; cbn; rewrite put_eq by done; done).
  assert (i2 <> i0) as N02 by (intros ->; revert F2; unfold d2; cbn; rewrite put_ne by done; intros F; discriminate (eq_trans (eq_sym F0') F)).
  split; [repeat constructor; set_solver|]. do 2 (constructor; [done|]). constructor; [|constructor]. split; [done|]. revert F2. unfold d2, d1. cbn. by rewrite !put_ne by done.
Qed.

(** ** The requests under way *)

Lemma chains_app l l' : chains (l ++ l') = chains l ++ chains l'.
Proof. apply flat_map_app. Qed.

Lemma chains_perm l l' : l ≡ₚ l' -> chains l ≡ₚ chains l'.
Proof. intros H. apply (Permutation_flat_map chain H). Qed.

Lemma chains_in q l i : q ∈ l -> i ∈ chain q -> i ∈ chains l.
Proof. intros Hq Hi. apply list_elem_of_split in Hq as (l1 & l2 & ->). rewrite chains_app. cbn. set_solver. Qed.

Lemma chains_three q l : q ∈ l -> q_h q ∈ chains l /\ q_i1 q ∈ chains l /\ q_i2 q ∈ chains l.
Proof. intros Hq. repeat split; (eapply chains_in; [exact Hq|unfold chain; set_solver +]). Qed.

Lemma core_perm d f l l' : l ≡ₚ l' -> vcore d f l -> vcore d f l'.
Proof.
  intros Hp [H1 [H2 H2'] H3 H4 H5 H6 H7 H8 H9]. pose proof (chains_perm _ _ Hp) as Hc. split; try done.
  - by rewrite <- Hc.
  - intros i Hi. rewrite H3 by done. f_equal. apply bool_decide_ext. by rewrite Hc.
  - intros q Hq. apply H4. by rewrite Hp.
  - intros t b h. rewrite H5. by setoid_rewrite Hp.
  - intros t b n wr Ht ->. apply (H8 t b n wr Ht). by apply Permutation_nil_r.
Qed.

(** The processes have moved, none into or out of the wait for a transfer. *)
Lemma core_pc d f f' l : vcore d f l -> (forall t b h, f' t = VSleepBuf b h \/ f' t = VWait b h <-> f t = VSleepBuf b h \/ f t = VWait b h) ->
  (forall t t' b, uses (f' t) = Some b -> uses (f' t') = Some b -> t = t') -> (forall t b n wr, f' t = VTry b n wr \/ f' t = VSleepFree b n wr -> 0 <= n < 2 ^ 31) ->
  (forall t b n wr, f' t = VSleepFree b n wr -> l <> []) -> vcore d f' l.
Proof. intros [H1 H2 H3 H4 H5 H6 H7 H8 H9] E1 E2 E3 E4. split; try done. intros t b h. by rewrite E1. Qed.

(** The structures have changed, none that a request uses. *)
Lemma core_disk d d' f l : vcore d f l -> lengths d' -> (forall i, idx i -> dfree d' !! Z.to_nat i = dfree d !! Z.to_nat i) ->
  (forall i, i ∈ chains l -> desc d' !! Z.to_nat i = desc d !! Z.to_nat i /\ ops d' !! Z.to_nat i = ops d !! Z.to_nat i /\ info_b d' !! Z.to_nat i = info_b d !! Z.to_nat i) ->
  (forall b, block_bytes (bdata d' b)) -> vcore d' f l.
Proof.
  intros [H1 H2 H3 H4 H5 H6 H7 H8 H9] L1 L2 L3 L4. split; try done.
  - intros i Hi. by rewrite L2, H3.
  - intros q Hq. destruct (H4 q Hq) as ([A0 A1 A2 A3] & Hi & Hn).
    destruct (chains_three q l Hq) as (C0 & C1 & C2). destruct (L3 _ C0) as (E1 & E2 & E3). destruct (L3 _ C1) as (E4 & _). destruct (L3 _ C2) as (E5 & _). split; [split; congruence|]. split; [congruence|done].
Qed.

(** There are never more than two requests under way. *)
Lemma core_two d f l : vcore d f l -> (length l <= 2)%nat.
Proof.
  intros [_ [Hnd Hin] _ _ _ _ _ _ _]. assert (length (chains l) <= 8)%nat as H.
  { etransitivity; [apply (NoDup_incl_length (l' := map Z.of_nat (seq 0 8)) (proj1 (NoDup_ListNoDup _) Hnd))|by rewrite length_map, length_seq].
    intros i Hi. apply list_elem_of_In in Hi. rewrite Forall_forall in Hin. specialize (Hin i Hi). apply in_map_iff. exists (Z.to_nat i). unfold NUM in Hin.
    split; [lia|]. apply in_seq. lia. }
  assert (length (chains l) = 3 * length l)%nat as E by (clear; induction l as [|q l IH]; [done|]; cbn [chains flat_map chain app length] in *; unfold chains in IH; lia). lia.
Qed.

Lemma vgoto_eq t p f : vgoto t p f t = p.
Proof. unfold vgoto. by rewrite decide_True. Qed.
Lemma vgoto_ne t p f x : x <> t -> vgoto t p f x = f x.
Proof. intros H. unfold vgoto. by rewrite decide_False. Qed.

(** A process of the wait belongs to its request. *)
Lemma core_pc_of d f l q : vcore d f l -> q ∈ l -> f (q_t q) = VSleepBuf (q_b q) (q_h q) \/ f (q_t q) = VWait (q_b q) (q_h q).
Proof. intros H Hq. apply (vc_pc _ _ _ H). by exists q. Qed.

Lemma core_uses d f l q : vcore d f l -> q ∈ l -> uses (f (q_t q)) = Some (q_b q).
Proof. intros H Hq. by destruct (core_pc_of _ _ _ _ H Hq) as [-> | ->]. Qed.

(** Two requests that are not the same have other buffers and other chains. *)
Lemma core_other d f l q q' : vcore d f l -> q ∈ l -> q' ∈ l -> q_b q = q_b q' -> q_h q = q_h q' /\ q_t q = q_t q'.
Proof.
  intros H Hq Hq' E. pose proof (core_uses _ _ _ _ H Hq) as U1. pose proof (core_uses _ _ _ _ H Hq') as U2. rewrite E in U1.
  pose proof (vc_once _ _ _ H _ _ _ U1 U2) as Et. split; [|done]. destruct (core_pc_of _ _ _ _ H Hq) as [E1|E1], (core_pc_of _ _ _ _ H Hq') as [E2|E2]; rewrite Et in E1; congruence.
Qed.

Section add.
Context (d : disk) (f : nat -> vpc) (l : list vreq) (t b : nat) (n : Z) (wr : bool) (i0 i1 i2 : Z).
Hypothesis Hc : vcore d f l.
Hypothesis Ht : f t = VTry b n wr.
Hypothesis Hnd : NoDup [i0; i1; i2].
Hypothesis Hfr : Forall (fun i => idx i /\ dfree d !! Z.to_nat i = Some true) [i0; i1; i2].

#[local] Set Default Proof Using "All".

Definition added : disk := offer i0 b (format i0 i1 i2 b n wr (set_dfree (put (put (put (dfree d) i0 false) i1 false) i2 false) d)).
Definition new_req : vreq := VReq t b n wr i0 i1 i2.

Lemma add_idx : (idx i0 /\ idx i1 /\ idx i2) /\ (i0 <> i1 /\ i0 <> i2 /\ i1 <> i2).
Proof.
  rewrite !Forall_cons in Hfr. destruct Hfr as ((? & _) & (? & _) & (? & _) & _). split; [done|].
  apply NoDup_cons in Hnd as [D1 D2]. apply NoDup_cons in D2 as [D2 _]. set_solver +D1 D2.
Qed.

Lemma add_fresh i : i ∈ [i0; i1; i2] -> i ∉ chains l.
Proof.
  intros Hi. rewrite Forall_forall in Hfr. destruct (Hfr i Hi) as [H1 H2]. rewrite (vc_free _ _ _ Hc) in H2 by done. injection H2 as H2. by apply bool_decide_eq_true in H2.
Qed.

Lemma add_other i : i ∈ chains l -> i <> i0 /\ i <> i1 /\ i <> i2.
Proof. intros Hi. repeat split; intros ->; (eapply add_fresh; [|exact Hi]); set_solver +. Qed.

Lemma chains_idx i : i ∈ chains l -> idx i.
Proof. intros Hi. destruct (vc_chains _ _ _ Hc) as [_ H]. rewrite Forall_forall in H. by apply H. Qed.

Lemma added_lengths : lengths added.
Proof. destruct (vc_len _ _ _ Hc) as (? & ? & ? & ? & ? & ? & ?). unfold lengths, added. cbn. by rewrite !put_length. Qed.

Lemma added_asks : q_asks added new_req.
Proof.
  destruct (vc_len _ _ _ Hc) as (? & ? & ? & ? & ? & ? & ?). destruct add_idx as ((I0 & I1 & I2) & N01 & N02 & N12).
  split; [|split; [|eapply (vc_args _ _ _ Hc); by left]]; [split|]; cbn.
  - rewrite (put_ne _ i2 i0), (put_ne _ i1 i0) by done. by apply put_eq.
  - rewrite (put_ne _ i2 i1) by done. apply put_eq; [done|by rewrite put_length].
  - apply put_eq; [done|by rewrite !put_length].
  - by apply put_eq.
  - by apply put_eq.
Qed.

Lemma added_keeps i : i ∈ chains l -> desc added !! Z.to_nat i = desc d !! Z.to_nat i /\ ops added !! Z.to_nat i = ops d !! Z.to_nat i /\
  info_b added !! Z.to_nat i = info_b d !! Z.to_nat i /\ info_status added !! Z.to_nat i = info_status d !! Z.to_nat i.
Proof.
  intros Hi. destruct (add_other i Hi) as (? & ? & ?). pose proof (chains_idx i Hi). destruct add_idx as ((I0 & I1 & I2) & _). cbn. by rewrite !put_ne.
Qed.

Lemma added_free i : idx i -> dfree added !! Z.to_nat i = Some (bool_decide (i ∉ chains (new_req :: l))).
Proof.
  intros Hi. destruct (vc_len _ _ _ Hc) as (_ & _ & _ & Hl & _). destruct add_idx as ((I0 & I1 & I2) & N01 & N02 & N12). cbn.
  destruct (decide (i ∈ [i0; i1; i2])) as [Hin|Hout].
  - rewrite bool_decide_eq_false_2 by set_solver +Hin. rewrite !elem_of_cons, elem_of_nil in Hin.
    destruct Hin as [->|[->|[->|[]]]]; [rewrite (put_ne _ i2), (put_ne _ i1) by done|rewrite (put_ne _ i2) by done|]; by apply put_eq; rewrite ?put_length.
  - rewrite !put_ne by (try done; set_solver +Hout). rewrite (vc_free _ _ _ Hc) by done. f_equal. apply bool_decide_ext. set_solver +Hout.
Qed.

Lemma core_add : vcore added (vgoto t (VSleepBuf b i0) f) (new_req :: l).
Proof.
  pose proof Hc as [H1 [H2 H2'] H3 H4 H5 H6 H7 H8 H9]. destruct add_idx as ((I0 & I1 & I2) & N01 & N02 & N12).
  assert (forall x, uses (vgoto t (VSleepBuf b i0) f x) = uses (f x)) as Hu.
  { intros x. destruct (decide (x = t)) as [->|]; [by rewrite vgoto_eq, Ht|by rewrite vgoto_ne]. }
  split.
  - exact added_lengths.
  - cbn. split; [|by repeat (constructor; [done|])]. apply (NoDup_app [i0; i1; i2]). split; [done|]. split; [|done]. intros i Hi. by apply add_fresh.
  - exact added_free.
  - intros q [->|Hq]%elem_of_cons; [exact added_asks|]. destruct (H4 q Hq) as ([A0 A1 A2 A3] & Hi & Hn). destruct (chains_three q l Hq) as (C0 & C1 & C2).
    destruct (added_keeps _ C0) as (E1 & E2 & E3 & _). destruct (added_keeps _ C1) as (E4 & _). destruct (added_keeps _ C2) as (E5 & _). split; [split; congruence|].
    split; [congruence|done].
  - intros x b' h. destruct (decide (x = t)) as [->|Hx].
    + rewrite vgoto_eq. split.
      * intros [E|E]; [|done]. injection E as <- <-. exists new_req. split; [left|done].
      * intros (q & [->|Hq]%elem_of_cons & Eq & <- & <-); [by left|]. pose proof (core_uses _ _ _ _ Hc Hq) as Hq'. destruct (core_pc_of _ _ _ _ Hc Hq); congruence.
    + rewrite vgoto_ne, H5 by done. split; [intros (q & Hq & ?); exists q; split; [by right|done]|]. intros (q & [->|Hq]%elem_of_cons & Eq & ?); [by destruct Hx|]. by exists q.
  - intros x x' b'. rewrite !Hu. apply H6.
  - intros x b' n' wr'. destruct (decide (x = t)) as [->|]; [rewrite vgoto_eq; by intros [?|?]|rewrite vgoto_ne by done; apply H7].
  - done.
  - exact H9.
Qed.
End add.

Lemma wake_free_uses f x : uses (wake_free f x) = uses (f x).
Proof. unfold wake_free. by destruct (f x). Qed.
Lemma wake_free_wait f x b h : wake_free f x = VSleepBuf b h \/ wake_free f x = VWait b h <-> f x = VSleepBuf b h \/ f x = VWait b h.
Proof. unfold wake_free. split; intros [?|?]; destruct (f x); simplify_eq; auto. Qed.
Lemma wake_free_awake f x b n wr : wake_free f x <> VSleepFree b n wr.
Proof. unfold wake_free. by destruct (f x). Qed.
Lemma wake_free_try f x b n wr : wake_free f x = VTry b n wr -> f x = VTry b n wr \/ f x = VSleepFree b n wr.
Proof. unfold wake_free. destruct (f x); intros; simplify_eq; auto. Qed.

Section remove.
Context (d : disk) (f : nat -> vpc) (l : list vreq) (q : vreq).
Hypothesis Hc : vcore d f (q :: l).

#[local] Set Default Proof Using "All".

Definition nodesc : virtq_desc := Desc Null 0 0 0.
Definition removed : disk :=
  let h := q_h q in let i1 := q_i1 q in let i2 := q_i2 q in
  set_dfree (put (put (put (dfree d) h true) i1 true) i2 true)
    (set_desc (put (put (put (desc d) h nodesc) i1 nodesc) i2 nodesc) (set_info_b (put (info_b d) h None) d)).

Lemma rem_idx : (idx (q_h q) /\ idx (q_i1 q) /\ idx (q_i2 q)) /\ (q_h q <> q_i1 q /\ q_h q <> q_i2 q /\ q_i1 q <> q_i2 q) /\
  (forall i, i ∈ chains l -> idx i /\ i <> q_h q /\ i <> q_i1 q /\ i <> q_i2 q).
Proof.
  destruct (vc_chains _ _ _ Hc) as [Hnd Hin]. change (chains (q :: l)) with ([q_h q; q_i1 q; q_i2 q] ++ chains l) in *. apply Forall_app in Hin as [Hin Hl].
  apply NoDup_app in Hnd as (Hnd & Hdj & _). rewrite !Forall_cons in Hin. destruct Hin as (? & ? & ? & _). split; [done|]. split.
  - apply NoDup_cons in Hnd as [D1 D2]. apply NoDup_cons in D2 as [D2 _]. set_solver +D1 D2.
  - intros i Hi. rewrite Forall_forall in Hl. split; [by apply Hl|]. repeat split; intros ->; (eapply Hdj; [|exact Hi]); set_solver +.
Qed.

Lemma rem_busy i : i ∈ chain q -> dfree d !! Z.to_nat i = Some false.
Proof.
  intros Hi. assert (i ∈ chains (q :: l)) as Hi' by (cbn; set_solver +Hi). rewrite (vc_free _ _ _ Hc).
  - by rewrite bool_decide_eq_false_2 by (intros H; by apply H).
  - destruct rem_idx as ((? & ? & ?) & _). unfold chain in Hi. rewrite !elem_of_cons, elem_of_nil in Hi. by destruct Hi as [->|[->|[->|[]]]].
Qed.

Lemma finish_removed : finish (q_h q) d = Some removed.
Proof.
  destruct (vc_len _ _ _ Hc) as (Ld & _ & _ & Lf & _). destruct rem_idx as ((I0 & I1 & I2) & (N01 & N02 & N12) & _).
  destruct (vc_asks _ _ _ Hc q ltac:(left)) as ([A0 A1 A2 _] & _).
  unfold finish. change (S (Z.to_nat NUM)) with 9%nat. cbn [free_chain]. change (desc (set_info_b ?x d)) with (desc d). rewrite (at_some _ _ _ A0). cbn [d_flags d_next].
  rewrite free_desc_spec by (try done; apply rem_busy; unfold chain; set_solver +). cbn [mbind option_bind]. change (negb (Z.land VRING_DESC_F_NEXT VRING_DESC_F_NEXT =? 0)) with true. cbv iota.
  cbn [desc dfree set_dfree set_desc set_info_b]. erewrite (at_some _ (q_i1 q)) by (rewrite put_ne by done; exact A1). cbn [d_flags d_next].
  rewrite free_desc_spec by (cbn [dfree set_dfree set_desc set_info_b]; rewrite ?put_length, ?put_ne by done; try done; apply rem_busy; unfold chain; set_solver +).
  cbn [mbind option_bind]. replace (negb (Z.land (Z.lor (if q_wr q then 0 else VRING_DESC_F_WRITE) VRING_DESC_F_NEXT) VRING_DESC_F_NEXT =? 0)) with true by (by destruct (q_wr q)).
  cbv iota. cbn [desc dfree set_dfree set_desc set_info_b]. erewrite (at_some _ (q_i2 q)) by (rewrite !put_ne by done; exact A2). cbn [d_flags d_next].
  rewrite free_desc_spec by (cbn [dfree set_dfree set_desc set_info_b]; rewrite ?put_length, ?put_ne by done; try done; apply rem_busy; unfold chain; set_solver +).
  done.
Qed.

Lemma core_remove : f (q_t q) = VWait (q_b q) (q_h q) -> vcore removed (vgoto (q_t q) VIdle (wake_free f)) l.
Proof.
  intros Hw. pose proof Hc as [H1 [H2 H2'] H3 H4 H5 H6 H7 H8 H9]. destruct rem_idx as ((I0 & I1 & I2) & (N01 & N02 & N12) & Hoth).
  assert (forall q', q' ∈ l -> q_t q' <> q_t q) as Ht.
  { intros q' Hq' E. destruct (core_pc_of _ _ _ q' Hc ltac:(by right)) as [E'|E']; rewrite E, Hw in E'; [done|]. injection E' as _ Eh.
    destruct (chains_three q' l Hq') as (C0 & _). destruct (Hoth _ C0) as (_ & ? & _). congruence. }
  change (chains (q :: l)) with ([q_h q; q_i1 q; q_i2 q] ++ chains l) in H2, H2'. split.
  - destruct H1 as (? & ? & ? & ? & ? & ? & ?). unfold lengths, removed. cbn. by rewrite !put_length.
  - apply NoDup_app in H2 as (_ & _ & ?). by apply Forall_app in H2' as [_ ?].
  - intros i Hi. destruct H1 as (_ & _ & _ & Hl & _). cbn. destruct (decide (i ∈ chain q)) as [Hin|Hout].
    + assert (i ∉ chains l) as Hni by (intros Hil; destruct (Hoth _ Hil) as (_ & ? & ? & ?); unfold chain in Hin; set_solver). rewrite bool_decide_eq_true_2 by done.
      unfold chain in Hin. rewrite !elem_of_cons, elem_of_nil in Hin.
      destruct Hin as [->|[->|[->|[]]]]; [rewrite (put_ne _ (q_i2 q)), (put_ne _ (q_i1 q)) by done|rewrite (put_ne _ (q_i2 q)) by done|]; by apply put_eq; rewrite ?put_length.
    + unfold chain in Hout. rewrite !put_ne by (try done; set_solver +Hout). rewrite H3 by done. f_equal. apply bool_decide_ext. cbn. set_solver +Hout.
  - intros q' Hq'. destruct (H4 q' ltac:(by right)) as ([A0 A1 A2 A3] & Hi & Hn). destruct (chains_three q' l Hq') as (C0 & C1 & C2).
    destruct (Hoth _ C0) as (? & ? & ? & ?), (Hoth _ C1) as (? & ? & ? & ?), (Hoth _ C2) as (? & ? & ? & ?). split; [split|split]; cbn; rewrite ?put_ne by done; try done.
  - intros x b h. destruct (decide (x = q_t q)) as [->|Hx].
    + rewrite vgoto_eq. split; [by intros [?|?]|]. intros (q' & Hq' & E & _). by destruct (Ht q' Hq').
    + rewrite vgoto_ne, wake_free_wait, H5 by done. split.
      * intros (q' & [->|Hq']%elem_of_cons & E & ?); [by destruct Hx|by exists q'].
      * intros (q' & Hq' & ?). exists q'. split; [by right|done].
  - intros x x' b. destruct (decide (x = q_t q)) as [->|]; [by rewrite vgoto_eq|]. destruct (decide (x' = q_t q)) as [->|]; [by rewrite vgoto_eq|].
    rewrite !vgoto_ne, !wake_free_uses by done. apply H6.
  - intros x b n wr. destruct (decide (x = q_t q)) as [->|]; [rewrite vgoto_eq; by intros [?|?]|]. rewrite vgoto_ne by done. intros [E|E]; [|by apply wake_free_awake in E].
    apply wake_free_try in E. by eapply H7.
  - intros x b n wr. destruct (decide (x = q_t q)) as [->|]; [by rewrite vgoto_eq|]. rewrite vgoto_ne by done. intros E. by apply wake_free_awake in E.
  - exact H9.
Qed.
End remove.

(** ** The rings *)

Lemma ring_push r i j l h : ring_holds r i j l -> (length l < 8)%nat -> length r = 8%nat -> ring_holds (put r (j mod NUM) h) i (u16 (j + 1)) (l ++ [h]).
Proof.
  intros (Hi & -> & Hl) Hlen Hr. split; [done|]. split; [rewrite length_app; cbn; unfold u16; lia|]. intros k x Hk. apply lookup_app_Some in Hk as [Hk|[Hge Hk]].
  - pose proof (lookup_lt_Some _ _ _ Hk). rewrite put_ne; [by apply Hl|..]; unfold idx, NUM, u16 in *; lia.
  - apply list_lookup_singleton_Some in Hk as [Hz ->]. replace (u16 (i + Z.of_nat (length l)) mod NUM) with ((i + Z.of_nat k) mod NUM) by (unfold u16, NUM; lia).
    apply put_eq; [unfold idx, NUM; lia|done].
Qed.

Lemma ring_pop r i j h l : ring_holds r i j (h :: l) -> (length l < 8)%nat -> ring_holds r (u16 (i + 1)) j l /\ at_ r (i mod NUM) = h /\ i <> j.
Proof.
  intros (Hi & -> & Hl) Hlen. split; [|split].
  - split; [unfold u16; lia|]. split; [cbn [length]; unfold u16; lia|]. intros k x Hk. rewrite <- (Hl (S k) x Hk).
    assert ((u16 (i + 1) + Z.of_nat k) mod NUM = (i + Z.of_nat (S k)) mod NUM) as -> by (unfold u16, NUM; lia). done.
  - apply at_some. rewrite <- (Hl 0%nat h eq_refl). by rewrite Z.add_0_r.
  - cbn [length]. unfold u16. lia.
Qed.

Lemma ring_nil r i j : ring_holds r i j [] -> i = j.
Proof. intros (Hi & -> & _). cbn [length]. unfold u16. lia. Qed.

(** The interrupt handler goes through the whole ring. *)
Lemma intr_loop_ok C : forall d, (length C <= 8)%nat -> ring_holds (used_ring d) (used_idx d) (used_pidx d) (map q_h C) ->
  (forall q, q ∈ C -> info_status d !! Z.to_nat (q_h q) = Some 0 /\ info_b d !! Z.to_nat (q_h q) = Some (Some (q_b q))) ->
  exists g, intr_loop (length C) d = Some (set_used_idx (used_pidx d) (set_bdisk g d), map q_b C) /\
    forall b, g b = if decide (b ∈ map q_b C) then 0 else bdisk d b.
Proof.
  induction C as [|q C IH]; intros d Hlen Hr Hq.
  - exists (bdisk d). split; [|done]. cbn [length map intr_loop]. rewrite <- (ring_nil _ _ _ Hr). by destruct d.
  - cbn [length] in Hlen. cbn [map] in Hr. destruct (ring_pop _ _ _ _ _ Hr ltac:(rewrite length_map; lia)) as (Hr' & Eat & Hne). cbn [length intr_loop].
    destruct (Z.eqb_spec (used_idx d) (used_pidx d)) as [?|_]; [done|]. rewrite Eat. destruct (Hq q ltac:(left)) as [Es Eb]. rewrite (at_some _ _ _ Es). cbn [negb Z.eqb].
    rewrite (at_some _ _ _ Eb). cbn [mbind option_bind]. set (d1 := set_used_idx _ _).
    destruct (IH d1 ltac:(lia) Hr') as (g & Eg & Hg); [intros q' Hq'; apply (Hq q'); by right|]. rewrite Eg. exists g. split; [done|].
    intros b. rewrite Hg. cbn [map d1 bdisk set_used_idx set_bdisk]. unfold upd_b.
    destruct (decide (b ∈ map q_b C)) as [H1|H1], (decide (b ∈ q_b q :: map q_b C)) as [H2|H2], (decide (b = q_b q)) as [H3|H3]; try done; set_solver.
Qed.

Lemma virtio_disk_intr_ok C d : (length C <= 8)%nat -> ring_holds (used_ring d) (used_idx d) (used_pidx d) (map q_h C) ->
  (forall q, q ∈ C -> info_status d !! Z.to_nat (q_h q) = Some 0 /\ info_b d !! Z.to_nat (q_h q) = Some (Some (q_b q))) ->
  exists g, virtio_disk_intr d = Some (set_used_idx (used_pidx d) (set_bdisk g d), map q_b C) /\
    forall b, g b = if decide (b ∈ map q_b C) then 0 else bdisk d b.
Proof.
  intros Hlen Hr Hq. unfold virtio_disk_intr. replace (Z.to_nat (u16 (used_pidx d - used_idx d))) with (length C); [by apply intr_loop_ok|].
  destruct Hr as (Hi & -> & _). rewrite length_map. unfold u16. lia.
Qed.
