(* ===== verification/VirtioClaims.v ===== *)
(** * The disk driver refines a disk on which a transfer is one step

    The simulation, step by step; that the driver never panics; and that a
    request never gets stuck. *)

From S2P Require Import Prelude Mem Virtio VirtioSys VirtioSpec.

(** ** Blocks of the medium *)

Lemma sector_of_block n : 0 <= n < 2 ^ 31 -> 512 * sector_of n = BSIZE_ * n.
Proof. intros H. unfold sector_of, BSIZE_, u32. change (1024 / 512) with 2. lia. Qed.

Lemma block_at_bytes m n : block_bytes (block_at m n).
Proof.
  split; [apply load_bytes_length|]. apply Forall_forall. intros c Hc. unfold block_at, load_bytes in Hc. apply list_elem_of_fmap in Hc as (i & -> & _). apply load8_range.
Qed.

Lemma block_at_store m n l n' : block_bytes l -> block_at (store_bytes m (BSIZE_ * n) l) n' = if n' =? n then l else block_at m n'.
Proof.
  intros [Hlen Hl]. unfold block_at. destruct (Z.eqb_spec n' n) as [->|Hne].
  - rewrite <- Hlen. by apply load_store_bytes.
  - apply load_bytes_ext. intros i Hi. rewrite load8_store_bytes, Hlen. unfold BSIZE_ in *. zdec; try lia; done.
Qed.

(** ** Requests that are not the same *)

Lemma heads_nodup d f l : vcore d f l -> NoDup (map q_h l).
Proof.
  intros H. destruct (vc_chains _ _ _ H) as [Hnd _]. clear H. induction l as [|q l IH]; [constructor|]. change (chains (q :: l)) with ([q_h q; q_i1 q; q_i2 q] ++ chains l) in Hnd.
  apply NoDup_app in Hnd as (_ & Hdj & Hnd). cbn [map]. constructor; [|by apply IH]. intros Hin. apply list_elem_of_fmap in Hin as (q' & E & Hq').
  apply (Hdj (q_h q)); [set_solver +|]. rewrite E. by apply chains_three.
Qed.

Lemma heads_apart d f l l' q q' : vcore d f (l ++ l') -> q ∈ l -> q' ∈ l' -> q_h q <> q_h q' /\ q_b q <> q_b q'.
Proof.
  intros Hc Hq Hq'. assert (q_h q <> q_h q') as Hh.
  { pose proof (heads_nodup _ _ _ Hc) as Hnd. rewrite map_app in Hnd. apply NoDup_app in Hnd as (_ & Hdj & _). intros E. apply (Hdj (q_h q)).
    - apply list_elem_of_fmap. by exists q.
    - rewrite E. apply list_elem_of_fmap. by exists q'. }
  split; [done|]. intros E. apply Hh. apply (core_other _ _ _ q q' Hc); [set_solver +Hq|set_solver +Hq'|done].
Qed.

(** ** The simulation *)

Definition sim (c : vconf) (a : aconf) : Prop := exists U T C D, vinv c U T C D /\ vabs c U T C D a.
Definition matched (c' : vconf) (a : aconf) : Prop := exists a', (a' = a \/ astep a a') /\ sim c' a'.

(** The steps that the requests under way still need. *)
Definition left_over (U T C D : list vreq) : nat := 4 * length U + 3 * length T + 2 * length C + length D.

(** The same, with less than [k] left over. *)
Definition nearer (k : nat) (c' : vconf) (a : aconf) : Prop :=
  exists a' U T C D, (a' = a \/ astep a a') /\ vinv c' U T C D /\ vabs c' U T C D a' /\ (left_over U T C D < k)%nat.

Lemma nearer_matched k c' a : nearer k c' a -> matched c' a.
Proof. intros (a' & U & T & C & D & Hs & Hi & Ha & _). exists a'. split; [done|]. by exists U, T, C, D. Qed.

(** Both sides see the same buffers in use. *)
Lemma abs_uses c U T C D a t : vinv c U T C D -> vabs c U T C D a -> auses (a_pc a t) = uses (c_pc c t).
Proof.
  intros Hi Ha. pose proof (vi_core _ _ _ _ _ Hi) as Hc. assert (forall b h, c_pc c t = VSleepBuf b h \/ c_pc c t = VWait b h -> auses (a_pc a t) = Some b) as Hw.
  { intros b h Hw. apply (vc_pc _ _ _ Hc) in Hw as (q & Hq & <- & <- & _). rewrite app_assoc in Hq. apply elem_of_app in Hq as [Hq|Hq].
    - by rewrite (va_before _ _ _ _ _ _ Ha q Hq).
    - by rewrite (va_after _ _ _ _ _ _ Ha q Hq). }
  destruct (c_pc c t) as [|b n wr|b n wr|b h|b h] eqn:E.
  - by rewrite (va_idle _ _ _ _ _ _ Ha t E).
  - by rewrite (va_call _ _ _ _ _ _ Ha t b n wr) by auto.
  - by rewrite (va_call _ _ _ _ _ _ Ha t b n wr) by auto.
  - apply (Hw b h). auto.
  - apply (Hw b h). auto.
Qed.

Lemma agoto_eq t p f : agoto t p f t = p.
Proof. unfold agoto. by rewrite decide_True. Qed.
Lemma agoto_ne t p f x : x <> t -> agoto t p f x = f x.
Proof. intros H. unfold agoto. by rewrite decide_False. Qed.

(** What serving a request changes. *)
Lemma served_fields h b sec wr d : let d' := served h b sec wr d in
  desc d' = desc d /\ ops d' = ops d /\ info_b d' = info_b d /\ dfree d' = dfree d /\ avail_ring d' = avail_ring d /\ avail_idx d' = avail_idx d /\
  bdisk d' = bdisk d /\ used_idx d' = used_idx d /\ used_pidx d' = u16 (used_pidx d + 1) /\ used_ring d' = put (used_ring d) (used_pidx d mod NUM) h /\
  info_status d' = put (info_status d) h 0 /\
  bdata d' = (if wr then bdata d else upd_b (bdata d) b (load_bytes (medium d) (512 * sec) (Z.to_nat BSIZE_))) /\
  medium d' = (if wr then store_bytes (medium d) (512 * sec) (bdata d b) else medium d).
Proof. unfold served. by destruct wr. Qed.

(** The promise's step for a request. *)
Definition carried_out (q : vreq) (a : aconf) : aconf :=
  if q_wr q then AConf (fun n' => if n' =? q_n q then a_data a (q_b q) else a_disk a n') (a_data a) (agoto (q_t q) (AReturn (q_b q)) (a_pc a))
  else AConf (a_disk a) (upd_b (a_data a) (q_b q) (a_disk a (q_n q))) (agoto (q_t q) (AReturn (q_b q)) (a_pc a)).

Lemma carried_out_pc q a : a_pc (carried_out q a) = agoto (q_t q) (AReturn (q_b q)) (a_pc a).
Proof. unfold carried_out. by destruct (q_wr q). Qed.

Lemma carried_out_step q a : a_pc a (q_t q) = ACall (q_b q) (q_n q) (q_wr q) -> astep a (carried_out q a).
Proof. intros E. destruct a as [k dt g]. unfold carried_out. cbn in *. destruct (q_wr q); [by apply a_write|by apply a_read]. Qed.

Lemma carried_out_disk q a d n : 0 <= q_n q < 2 ^ 31 -> 0 <= n < 2 ^ 31 -> (forall b, block_bytes (bdata d b)) ->
  (forall n, 0 <= n < 2 ^ 31 -> a_disk a n = block_at (medium d) n) -> (forall b, a_data a b = bdata d b) ->
  a_disk (carried_out q a) n = block_at (medium (served (q_h q) (q_b q) (sector_of (q_n q)) (q_wr q) d)) n.
Proof.
  intros Hq Hn Hb Hk Hd. destruct (served_fields (q_h q) (q_b q) (sector_of (q_n q)) (q_wr q) d) as (_ & _ & _ & _ & _ & _ & _ & _ & _ & _ & _ & _ & ->).
  unfold carried_out. destruct (q_wr q); [|by apply Hk]. cbn [a_disk]. rewrite sector_of_block, block_at_store by done. case_match; [apply Hd|by apply Hk].
Qed.

Lemma carried_out_data q a d b : 0 <= q_n q < 2 ^ 31 -> (forall n, 0 <= n < 2 ^ 31 -> a_disk a n = block_at (medium d) n) -> (forall b, a_data a b = bdata d b) ->
  a_data (carried_out q a) b = bdata (served (q_h q) (q_b q) (sector_of (q_n q)) (q_wr q) d) b.
Proof.
  intros Hq Hk Hd. destruct (served_fields (q_h q) (q_b q) (sector_of (q_n q)) (q_wr q) d) as (_ & _ & _ & _ & _ & _ & _ & _ & _ & _ & _ & -> & _).
  unfold carried_out. destruct (q_wr q); [apply Hd|]. cbn [a_data]. unfold upd_b. case_decide; [|apply Hd]. rewrite sector_of_block by done. by apply Hk.
Qed.

Section steps.
Context (d : disk) (sn : Z) (tk : list Z) (f : nat -> vpc) (p : bool) (U T C D : list vreq) (a : aconf).
Hypothesis Hi : vinv (VConf d sn tk f p) U T C D.
Hypothesis Ha : vabs (VConf d sn tk f p) U T C D a.

#[local] Set Default Proof Using "All".

Lemma step_core : vcore d f (U ++ T ++ C ++ D).
Proof. apply Hi. Qed.

(** A process that is not in the wait has no request. *)
Lemma no_req t q : q ∈ U ++ T ++ C ++ D -> (forall b h, f t <> VSleepBuf b h /\ f t <> VWait b h) -> q_t q <> t.
Proof. intros Hq Hn E. destruct (core_pc_of _ _ _ q step_core Hq) as [H|H]; rewrite E in H; by destruct (Hn (q_b q) (q_h q)). Qed.

Lemma sim_call t b n wr : f t = VIdle -> (forall t', uses (f t') <> Some b) -> 0 <= n < 2 ^ 31 -> matched (VConf d sn tk (vgoto t (VTry b n wr) f) p) a.
Proof.
  intros Ht Hb Hn. pose proof step_core as Hc. pose proof Hi as [_ I2 I3 I4 I5 I6 I7 I8]. pose proof Ha as [A1 A2 A3 A4 A5 A6]. cbn [c_disk c_pc c_seen c_taken c_panicked] in *.
  assert (forall q, q ∈ U ++ T ++ C ++ D -> q_t q <> t) as Hq by (intros q Hq; apply no_req; [done|]; by rewrite Ht).
  exists (AConf (a_disk a) (a_data a) (agoto t (ACall b n wr) (a_pc a))). split.
  { right. destruct a as [k dt g]. apply a_call; [by apply A3| |done]. intros t'. rewrite (abs_uses _ _ _ _ _ _ t' Hi Ha). apply Hb. }
  exists U, T, C, D. split; split; cbn [c_disk c_pc c_seen c_taken c_panicked a_disk a_data a_pc]; try done.
  - apply (core_pc d f); [done|..].
    + intros x b' h. destruct (decide (x = t)) as [->|]; [rewrite vgoto_eq, Ht; split; by intros [?|?]|by rewrite vgoto_ne].
    + intros x x' b'. destruct (decide (x = t)) as [->|], (decide (x' = t)) as [->|]; rewrite ?vgoto_eq, ?vgoto_ne by done; try done.
      * intros [= <-] H. by apply Hb in H.
      * intros H [= <-]. by apply Hb in H.
      * apply (vc_once _ _ _ Hc).
    + intros x b' n' wr'. destruct (decide (x = t)) as [->|]; [rewrite vgoto_eq; intros [E|E]; simplify_eq; done|rewrite vgoto_ne by done; apply (vc_args _ _ _ Hc)].
    + intros x b' n' wr'. destruct (decide (x = t)) as [->|]; [by rewrite vgoto_eq|rewrite vgoto_ne by done; apply (vc_sleep _ _ _ Hc)].
  - intros q HqD. destruct (I7 q HqD) as [E1 E2]. split; [done|]. rewrite vgoto_ne; [done|]. apply Hq. set_solver +HqD.
  - intros x. destruct (decide (x = t)) as [->|]; [by rewrite vgoto_eq|]. rewrite vgoto_ne, agoto_ne by done. apply A3.
  - intros x b' n' wr'. destruct (decide (x = t)) as [->|]; [rewrite vgoto_eq, agoto_eq; intros [E|E]; by simplify_eq|]. rewrite vgoto_ne, agoto_ne by done. apply A4.
  - intros q HqU. rewrite agoto_ne; [by apply A5|]. apply Hq. set_solver +HqU.
  - intros q HqC. rewrite agoto_ne; [by apply A6|]. apply Hq. set_solver +HqC.
Qed.
Ltac shown := cbn [c_disk c_pc c_seen c_taken c_panicked a_disk a_data a_pc] in *.

Lemma sim_store b data : (forall t', uses (f t') <> Some b) -> block_bytes data -> matched (VConf (set_bdata (upd_b (bdata d) b data) d) sn tk f p) a.
Proof.
  intros Hb Hdata. pose proof step_core as Hc. pose proof Hi as [_ I2 I3 I4 I5 I6 I7 I8]. pose proof Ha as [A1 A2 A3 A4 A5 A6]. shown.
  exists (AConf (a_disk a) (upd_b (a_data a) b data) (a_pc a)). split.
  { right. destruct a as [k dt g]. apply a_store; [|done]. intros t'. rewrite (abs_uses _ _ _ _ _ _ t' Hi Ha). apply Hb. }
  exists U, T, C, D. split; split; shown; try done.
  - apply (core_disk d); try done; [apply (vc_len _ _ _ Hc)|]. intros b'. cbn. unfold upd_b. case_decide; [done|apply (vc_data _ _ _ Hc)].
  - intros b'. cbn. unfold upd_b. case_decide; [done|apply A2].
Qed.

Lemma sim_alloc t b n wr i0 i1 i2 : f t = VTry b n wr -> NoDup [i0; i1; i2] -> Forall (fun i => idx i /\ dfree d !! Z.to_nat i = Some true) [i0; i1; i2] ->
  matched (VConf (added d b n wr i0 i1 i2) sn tk (vgoto t (VSleepBuf b i0) f) p) a.
Proof.
  intros Ht Hnd Hfr. pose proof step_core as Hc. pose proof Hi as [_ I2 I3 I4 I5 I6 I7 I8]. pose proof Ha as [A1 A2 A3 A4 A5 A6]. shown.
  assert (forall q, q ∈ U ++ T ++ C ++ D -> q_t q <> t) as Hq by (intros q Hq; apply no_req; [done|]; by rewrite Ht).
  pose proof (core_add d f _ t b n wr i0 i1 i2 Hc Ht Hnd Hfr) as Hcore. set (q0 := new_req t b n wr i0 i1 i2) in *.
  assert (length U < 8)%nat as HU by (pose proof (core_two _ _ _ Hc) as H2; rewrite length_app in H2; lia).
  exists a. split; [by left|]. exists (U ++ [q0]), T, C, D. split; split; shown; try done.
  - eapply core_perm; [|exact Hcore]. rewrite <- app_assoc. apply Permutation_middle.
  - rewrite map_app. apply (ring_push _ _ _ _ i0 I2); [by rewrite length_map|]. by destruct (vc_len _ _ _ Hc) as (_ & ? & _).
  - intros q HqC. destruct (chains_three q (U ++ T ++ C ++ D)) as (C0 & _); [set_solver +HqC|].
    destruct (added_keeps d f _ t b n wr i0 i1 i2 Hc Ht Hnd Hfr _ C0) as (_ & _ & _ & ->). by apply I5.
  - intros q HqU. cbn. unfold upd_b. case_decide as E; [done|]. apply I6. set_solver +HqU E.
  - intros q HqD. destruct (I7 q HqD) as [E1 E2]. assert (q_t q <> t) as Hqt by (apply Hq; set_solver +HqD). split; [|by rewrite vgoto_ne].
    cbn. unfold upd_b. case_decide as E; [|done]. destruct Hqt. apply (vc_once _ _ _ Hc _ _ b); [by rewrite E2, <- E|by rewrite Ht].
  - intros x. destruct (decide (x = t)) as [->|]; [by rewrite vgoto_eq|]. rewrite vgoto_ne by done. apply A3.
  - intros x b' n' wr'. destruct (decide (x = t)) as [->|]; [rewrite vgoto_eq; by intros [?|?]|]. rewrite vgoto_ne by done. apply A4.
  - intros q HqU. assert (q = q0 \/ q ∈ U ++ T) as [->|H] by set_solver +HqU; [|by apply A5]. cbn. apply A4. by left.
Qed.

Lemma sim_alloc_fail t b n wr d' (w : bool) : f t = VTry b n wr -> same_used d d' -> (forall i, idx i -> dfree d' !! Z.to_nat i = dfree d !! Z.to_nat i) ->
  U ++ T ++ C ++ D <> [] -> matched (VConf d' sn tk (vgoto t (VSleepFree b n wr) (if w then wake_free f else f)) p) a.
Proof.
  intros Ht (dl & fl & -> & Hdl & Hfl & Hsame) Hfree Hne. pose proof step_core as Hc. pose proof Hi as [_ I2 I3 I4 I5 I6 I7 I8]. pose proof Ha as [A1 A2 A3 A4 A5 A6]. shown.
  assert (forall q, q ∈ U ++ T ++ C ++ D -> q_t q <> t) as Hq by (intros q Hq; apply no_req; [done|]; by rewrite Ht).
  set (g := if w then wake_free f else f). assert (forall x, uses (g x) = uses (f x)) as Gu by (intros x; unfold g; destruct w; [apply wake_free_uses|done]).
  assert (forall x b h, g x = VSleepBuf b h \/ g x = VWait b h <-> f x = VSleepBuf b h \/ f x = VWait b h) as Gw by (intros x b' h; unfold g; destruct w; [apply wake_free_wait|done]).
  assert (forall x b n wr, g x = VTry b n wr \/ g x = VSleepFree b n wr -> f x = VTry b n wr \/ f x = VSleepFree b n wr) as Gt.
  { intros x b' n' wr'. unfold g. destruct w; [|done]. intros [E|E]; [by apply wake_free_try|by apply wake_free_awake in E]. }
  exists a. split; [by left|]. exists U, T, C, D. split; split; shown; try done.
  - apply (core_pc _ f).
    + apply (core_disk d); try done.
      * destruct (vc_len _ _ _ Hc) as (? & ? & ? & ? & ? & ? & ?). unfold lengths. cbn. by rewrite Hdl, Hfl.
      * intros i Hin. split; [|done]. cbn. destruct (vc_chains _ _ _ Hc) as [_ Hf]. rewrite Forall_forall in Hf. apply Hsame; [by apply Hf|].
        rewrite (vc_free _ _ _ Hc) by (by apply Hf). rewrite bool_decide_eq_false_2 by (intros H; by apply H). done.
      * apply (vc_data _ _ _ Hc).
    + intros x b' h. destruct (decide (x = t)) as [->|]; [rewrite vgoto_eq, Ht; split; by intros [?|?]|by rewrite vgoto_ne].
    + intros x x' b'. destruct (decide (x = t)) as [->|], (decide (x' = t)) as [->|]; rewrite ?vgoto_eq, ?vgoto_ne, ?Gu by done; try done.
      * intros E1 E2. apply (vc_once _ _ _ Hc _ _ b'); [by rewrite Ht|done].
      * intros E1 E2. apply (vc_once _ _ _ Hc _ _ b'); [done|by rewrite Ht].
      * apply (vc_once _ _ _ Hc).
    + intros x b' n' wr'. destruct (decide (x = t)) as [->|]; [rewrite vgoto_eq; intros [E|E]; simplify_eq; eapply (vc_args _ _ _ Hc); by left|].
      rewrite vgoto_ne by done. intros E. eapply (vc_args _ _ _ Hc). by apply Gt.
    + intros x b' n' wr' _. exact Hne.
  - intros q HqD. destruct (I7 q HqD) as [E1 E2]. split; [done|]. rewrite vgoto_ne by (apply Hq; set_solver +HqD). unfold g, wake_free. destruct w; by rewrite ?E2.
  - intros x. destruct (decide (x = t)) as [->|]; [by rewrite vgoto_eq|]. rewrite vgoto_ne by done. intros E. apply A3. unfold g, wake_free in E. destruct w; by destruct (f x).
  - intros x b' n' wr'. destruct (decide (x = t)) as [->|]; [rewrite vgoto_eq; intros [E|E]; simplify_eq; apply A4; by left|]. rewrite vgoto_ne by done. intros E. by apply A4, Gt.
Qed.

Lemma sim_again t b h : f t = VWait b h -> bdisk d b = 1 -> matched (VConf d sn tk (vgoto t (VSleepBuf b h) f) p) a.
Proof.
  intros Ht Hb. pose proof step_core as Hc. pose proof Hi as [_ I2 I3 I4 I5 I6 I7 I8]. pose proof Ha as [A1 A2 A3 A4 A5 A6]. shown.
  assert (forall x, uses (vgoto t (VSleepBuf b h) f x) = uses (f x)) as Hu.
  { intros x. destruct (decide (x = t)) as [->|]; [by rewrite vgoto_eq, Ht|by rewrite vgoto_ne]. }
  exists a. split; [by left|]. exists U, T, C, D. split; split; shown; try done.
  - apply (core_pc d f); [done|..].
    + intros x b' h'. destruct (decide (x = t)) as [->|]; [rewrite vgoto_eq, Ht; split; intros [E|E]; simplify_eq; auto|by rewrite vgoto_ne].
    + intros x x' b'. rewrite !Hu. apply (vc_once _ _ _ Hc).
    + intros x b' n' wr'. destruct (decide (x = t)) as [->|]; [rewrite vgoto_eq; by intros [?|?]|rewrite vgoto_ne by done; apply (vc_args _ _ _ Hc)].
    + intros x b' n' wr'. destruct (decide (x = t)) as [->|]; [by rewrite vgoto_eq|rewrite vgoto_ne by done; apply (vc_sleep _ _ _ Hc)].
  - intros q HqD. destruct (I7 q HqD) as [E1 E2]. split; [done|]. rewrite vgoto_ne; [done|]. intros E. rewrite E, Ht in E2. injection E2 as Eb _. rewrite <- Eb in E1. lia.
  - intros x. destruct (decide (x = t)) as [->|]; [by rewrite vgoto_eq|]. rewrite vgoto_ne by done. apply A3.
  - intros x b' n' wr'. destruct (decide (x = t)) as [->|]; [rewrite vgoto_eq; by intros [?|?]|]. rewrite vgoto_ne by done. apply A4.
Qed.
(** The request of a process that sees its transfer done. *)
Lemma done_req t b h : f t = VWait b h -> bdisk d b <> 1 -> exists q D1 D2, D = D1 ++ q :: D2 /\ q_t q = t /\ q_b q = b /\ q_h q = h.
Proof.
  intros Ht Hb. destruct (proj1 (vc_pc _ _ _ step_core t b h) (or_intror Ht)) as (q & Hq & E1 & E2 & E3).
  assert (q ∈ U ++ T ++ C \/ q ∈ D) as [H|H] by set_solver +Hq.
  - apply (vi_busy _ _ _ _ _ Hi) in H. cbn in H. by rewrite E2 in H.
  - apply list_elem_of_split in H as (D1 & D2 & ->). by exists q, D1, D2.
Qed.

Lemma sim_finish t b h : f t = VWait b h -> bdisk d b <> 1 -> exists d', finish h d = Some d' /\
  nearer (left_over U T C D) (VConf d' sn tk (vgoto t VIdle (wake_free f)) p) a.
Proof.
  intros Ht Hb. destruct (done_req t b h Ht Hb) as (q & D1 & D2 & ED & Et & Eb & Eh). pose proof step_core as Hc.
  pose proof Hi as [_ I2 I3 I4 I5 I6 I7 I8]. pose proof Ha as [A1 A2 A3 A4 A5 A6]. shown.
  assert (vcore d f (q :: U ++ T ++ C ++ D1 ++ D2)) as Hc'.
  { eapply core_perm; [|exact Hc]. rewrite ED. symmetry. rewrite !app_assoc. apply Permutation_middle. }
  assert (forall q', q' ∈ U ++ T ++ C ++ D1 ++ D2 -> q_t q' <> t) as Hq.
  { intros q' Hq' E. destruct (heads_apart d f [q] _ q q' Hc' ltac:(set_solver +) Hq') as [_ Hne]. apply Hne.
    pose proof (core_uses _ _ _ q' Hc' ltac:(by right)) as Hu. rewrite E, Ht in Hu. injection Hu as <-. done. }
  rewrite <- Eh. exists (removed d q). split; [by eapply finish_removed|].
  exists (AConf (a_disk a) (a_data a) (agoto t AIdle (a_pc a))), U, T, C, (D1 ++ D2). split.
  { right. destruct a as [k dt g]. apply (a_return k dt g t b). rewrite <- Et, <- Eb. apply A6. rewrite ED. set_solver +. }
  rewrite <- Et. split; [|split; [|rewrite ED; unfold left_over; rewrite !length_app; cbn; lia]]; split; shown; try done.
  - apply core_remove; [done|]. by rewrite Et, Eb, Eh.
  - intros q' Hq'. apply I5. rewrite ED. set_solver +Hq'.
  - intros q' Hq'. destruct (I7 q') as [E1 E2]; [rewrite ED; set_solver +Hq'|]. split; [done|]. rewrite vgoto_ne by (rewrite Et; apply Hq; set_solver +Hq').
    unfold wake_free. by rewrite E2.
  - intros x. destruct (decide (x = q_t q)) as [->|]; [by rewrite agoto_eq|]. rewrite vgoto_ne, agoto_ne by done. intros E. apply A3. unfold wake_free in E. by destruct (f x).
  - intros x b' n' wr'. destruct (decide (x = q_t q)) as [->|]; [rewrite vgoto_eq; by intros [?|?]|]. rewrite vgoto_ne, agoto_ne by done.
    intros [E|E]; [by apply A4, wake_free_try|by apply wake_free_awake in E].
  - intros q' Hq'. rewrite agoto_ne; [by apply A5|]. rewrite Et. apply Hq. set_solver +Hq'.
  - intros q' Hq'. rewrite agoto_ne; [apply A6; rewrite ED; set_solver +Hq'|]. rewrite Et. apply Hq. set_solver +Hq'.
Qed.

Lemma sim_intr : exists d' bs, virtio_disk_intr d = Some (d', bs) /\ matched (VConf d' sn tk (wake_bufs bs f) p) a /\
  (C <> [] -> nearer (left_over U T C D) (VConf d' sn tk (wake_bufs bs f) p) a).
Proof.
  pose proof step_core as Hc. pose proof Hi as [_ I2 I3 I4 I5 I6 I7 I8]. pose proof Ha as [A1 A2 A3 A4 A5 A6]. shown.
  assert (length C <= 8)%nat as HC by (pose proof (core_two _ _ _ Hc) as H2; rewrite !length_app in H2; lia).
  destruct (virtio_disk_intr_ok C d HC I4) as (g & Eg & Hg).
  { intros q Hq. split; [apply I5; set_solver +Hq|]. destruct (vc_asks _ _ _ Hc q) as (_ & ? & _); [set_solver +Hq|done]. }
  eexists _, _. split; [exact Eg|].
  assert (forall x, uses (wake_bufs (map q_b C) f x) = uses (f x)) as Hu by (intros x; unfold wake_bufs; destruct (f x); try done; by case_decide).
  assert (forall x b n wr, wake_bufs (map q_b C) f x = VTry b n wr \/ wake_bufs (map q_b C) f x = VSleepFree b n wr -> f x = VTry b n wr \/ f x = VSleepFree b n wr) as Hw.
  { intros x b n wr. unfold wake_bufs. destruct (f x); try done; case_decide; by intros [?|?]. }
  enough (vinv (VConf (set_used_idx (used_pidx d) (set_bdisk g d)) sn tk (wake_bufs (map q_b C) f) p) U T [] (C ++ D) /\
    vabs (VConf (set_used_idx (used_pidx d) (set_bdisk g d)) sn tk (wake_bufs (map q_b C) f) p) U T [] (C ++ D) a) as [Hi' Ha'].
  { split; [exists a; split; [by left|]; by exists U, T, [], (C ++ D)|]. intros Hne. exists a, U, T, [], (C ++ D). split; [by left|]. split; [done|]. split; [done|].
    unfold left_over. rewrite length_app. destruct C; [done|cbn; lia]. }
  split; split; shown; try done.
  - apply (core_pc _ f).
    + apply (core_disk d); try done; [apply (vc_len _ _ _ Hc)|apply (vc_data _ _ _ Hc)].
    + intros x b h. unfold wake_bufs. destruct (f x); try done. case_decide; [|done]. split; intros [E|E]; simplify_eq; auto.
    + intros x x' b. rewrite !Hu. apply (vc_once _ _ _ Hc).
    + intros x b n wr E. eapply (vc_args _ _ _ Hc). by apply Hw.
    + intros x b n wr E. apply (vc_sleep _ _ _ Hc x b n wr). destruct (Hw x b n wr (or_intror E)) as [E'|E']; [|done]. unfold wake_bufs in E. by rewrite E' in E.
  - destruct I4 as (_ & E & _). cbn [used_ring used_idx used_pidx set_used_idx set_bdisk map]. rewrite E. split; [unfold u16; lia|].
    split; [|by intros [|k] h]. cbn [length]. unfold u16. lia.
  - intros q Hq. cbn. rewrite Hg, decide_False; [apply I6; set_solver +Hq|]. intros Hin. apply list_elem_of_fmap in Hin as (q' & E & Hq'). rewrite app_nil_r in Hq.
    destruct (heads_apart d f (U ++ T) (C ++ D) q q') as [_ Hne]; [by rewrite <- app_assoc|done|set_solver +Hq'|done].
  - intros q Hq. cbn. rewrite Hg. unfold wake_bufs. apply elem_of_app in Hq as [HqC|HqD].
    + assert (q_b q ∈ map q_b C) as Hin by (apply list_elem_of_fmap; by exists q). rewrite decide_True by done. split; [done|].
      destruct (core_pc_of _ _ _ q Hc) as [-> | ->]; [set_solver +HqC|by rewrite decide_True|done].
    + destruct (I7 q HqD) as [E1 ->]. split; [by case_decide|done].
  - intros x E. apply A3. unfold wake_bufs in E. destruct (f x); try done. by case_decide.
  - intros x b n wr E. by apply A4, Hw.
Qed.

Lemma sim_fetch : sn <> avail_idx d -> nearer (left_over U T C D) (VConf d (u16 (sn + 1)) (tk ++ [at_ (avail_ring d) (sn mod NUM)]) f p) a.
Proof.
  intros Hne. pose proof step_core as Hc. pose proof Hi as [_ I2 I3 I4 I5 I6 I7 I8]. pose proof Ha as [A1 A2 A3 A4 A5 A6]. shown.
  destruct U as [|q U']; [by apply ring_nil in I2|]. cbn [map] in I2.
  assert (length (map q_h U') < 8)%nat as HU by (pose proof (core_two _ _ _ Hc) as H2; cbn in H2; rewrite length_map, length_app in *; lia).
  destruct (ring_pop _ _ _ _ _ I2 HU) as (Hr & Eh & _). exists a, U', (T ++ [q]), C, D. split; [by left|].
  split; [|split; [|unfold left_over; rewrite length_app; cbn; lia]]; split; shown; try done.
  - eapply core_perm; [|exact Hc]. rewrite <- !app_assoc. cbn [app]. rewrite app_assoc. etransitivity; [|rewrite app_assoc; apply Permutation_middle]. by rewrite <- app_assoc.
  - by rewrite Eh, I3, map_app.
  - intros q' Hq'. apply I6. set_solver +Hq'.
  - intros q' Hq'. apply A5. set_solver +Hq'.
Qed.

(** The request [q] is one that the device works on. *)
Section serve.
Context (q : vreq) (T1 T2 : list vreq) (ET : T = T1 ++ q :: T2).

Definition after : disk := served (q_h q) (q_b q) (sector_of (q_n q)) (q_wr q) d.

Lemma serve_in : q ∈ U ++ T ++ C ++ D.
Proof. rewrite ET. set_solver +. Qed.

Lemma serve_split : vcore d f ([q] ++ U ++ (T1 ++ T2) ++ C ++ D).
Proof.
  eapply core_perm; [|exact step_core]. rewrite ET. symmetry. rewrite <- !app_assoc. cbn [app]. rewrite !(app_assoc U). apply Permutation_middle.
Qed.

Lemma serve_other q' : q' ∈ U ++ (T1 ++ T2) ++ C ++ D -> q_h q <> q_h q' /\ q_b q <> q_b q' /\ q_t q' <> q_t q.
Proof.
  intros Hq'. destruct (heads_apart _ _ _ _ q q' serve_split ltac:(set_solver +) Hq') as [Hh Hb]. split; [done|]. split; [done|]. intros E. apply Hb.
  pose proof (core_uses _ _ _ q step_core serve_in) as H1. pose proof (core_uses _ _ _ q' serve_split ltac:(set_solver +Hq')) as H2. rewrite E in H2. congruence.
Qed.

Lemma serve_core : vcore after f (U ++ (T1 ++ T2) ++ (C ++ [q]) ++ D).
Proof.
  pose proof step_core as Hc. destruct (served_fields (q_h q) (q_b q) (sector_of (q_n q)) (q_wr q) d) as (F1 & F2 & F3 & F4 & F5 & F6 & F7 & F8 & F9 & F10 & F11 & F12 & _).
  fold after in *. eapply core_perm; [|apply (core_disk d); [exact serve_split|..]].
  - rewrite <- !app_assoc. cbn [app]. rewrite !app_assoc. apply Permutation_middle.
  - destruct (vc_len _ _ _ Hc) as (? & ? & ? & ? & ? & ? & ?). unfold lengths. rewrite F1, F2, F3, F4, F5, F10, F11, !put_length. done.
  - intros i _. by rewrite F4.
  - intros i _. by rewrite F1, F2, F3.
  - intros b. rewrite F12. destruct (q_wr q); [apply (vc_data _ _ _ Hc)|]. unfold upd_b. case_decide; [|apply (vc_data _ _ _ Hc)].
    destruct (vc_asks _ _ _ Hc q serve_in) as (_ & _ & Hn). rewrite sector_of_block by done. apply block_at_bytes.
Qed.

Lemma serve_inv : vinv (VConf after sn (map q_h T1 ++ map q_h T2) f p) U (T1 ++ T2) (C ++ [q]) D.
Proof.
  pose proof step_core as Hc. pose proof Hi as [_ I2 I3 I4 I5 I6 I7 I8]. shown. pose proof (core_two _ _ _ serve_split) as Htwo. rewrite !length_app in Htwo.
  destruct (vc_len _ _ _ Hc) as (_ & _ & Ln & _ & _ & Ls & _).
  destruct (served_fields (q_h q) (q_b q) (sector_of (q_n q)) (q_wr q) d) as (F1 & F2 & F3 & F4 & F5 & F6 & F7 & F8 & F9 & F10 & F11 & _). fold after in *.
  assert (forall i, i ∈ chains (U ++ T ++ C ++ D) -> idx i) as Hidx by (intros i; destruct (vc_chains _ _ _ Hc) as [_ HF]; rewrite Forall_forall in HF; apply HF).
  pose proof (Hidx _ (proj1 (chains_three q _ serve_in))) as Hqi. split; shown; try done.
  - exact serve_core.
  - by rewrite F5, F6.
  - by rewrite map_app.
  - rewrite F8, F9, F10, map_app. apply ring_push; [done|rewrite length_map; lia|done].
  - intros q' Hq'. rewrite F11. assert (q' = q \/ q' ∈ C ++ D) as [->|H] by set_solver +Hq'; [by apply put_eq|]. assert (q' ∈ U ++ T ++ C ++ D) as Hin by set_solver +H.
    destruct (serve_other q') as (Hne & _); [set_solver +H|]. rewrite put_ne; [by apply I5|done|by apply Hidx, chains_three|done].
  - intros q' Hq'. rewrite F7. apply I6. rewrite ET. set_solver +Hq'.
  - intros q' Hq'. rewrite F7. by apply I7.
Qed.

Lemma serve_abs : vabs (VConf after sn (map q_h T1 ++ map q_h T2) f p) U (T1 ++ T2) (C ++ [q]) D (carried_out q a).
Proof.
  pose proof step_core as Hc. pose proof Ha as [A1 A2 A3 A4 A5 A6]. destruct (vc_asks _ _ _ Hc q serve_in) as (_ & _ & Hn). pose proof (vc_data _ _ _ Hc) as Hdata.
  shown. assert (forall q', q' ∈ U ++ (T1 ++ T2) ++ C ++ D -> q_t q' <> q_t q) as Hoth by (intros q' Hq'; by apply serve_other).
  assert (forall x, (forall b h, f x <> VSleepBuf b h /\ f x <> VWait b h) -> x <> q_t q) as Hx by (intros x Hx E; symmetry in E; revert E; apply no_req; [exact serve_in|done]).
  split; shown; rewrite ?carried_out_pc.
  - intros n Hn'. by apply carried_out_disk.
  - intros b. by apply carried_out_data.
  - intros x E. rewrite agoto_ne; [by apply A3|]. apply Hx. by rewrite E.
  - intros x b n wr E. rewrite agoto_ne; [by apply A4|]. apply Hx. by destruct E as [-> | ->].
  - intros q' Hq'. rewrite agoto_ne; [apply A5; rewrite ET; set_solver +Hq'|]. apply Hoth. set_solver +Hq'.
  - intros q' Hq'. assert (q' = q \/ q' ∈ C ++ D) as [->|H] by set_solver +Hq'; [apply agoto_eq|]. rewrite agoto_ne; [by apply A6|]. apply Hoth. set_solver +H.
Qed.
End serve.

Lemma sim_serve l1 h l2 d' : tk = l1 ++ h :: l2 -> (forall i1 i2 b s wr, asks d h i1 i2 b s wr -> d' = served h b s wr d) ->
  nearer (left_over U T C D) (VConf d' sn (l1 ++ l2) f p) a.
Proof.
  intros Etk Hdev. pose proof (vi_taken _ _ _ _ _ Hi) as I3. cbn [c_taken] in I3. rewrite Etk in I3. symmetry in I3. apply fmap_app_inv in I3 as (T1 & T2' & E1 & E2 & ET).
  symmetry in E2. apply fmap_cons_inv in E2 as (q & T2 & Eh & E2 & ET'). subst T2' l1 l2 h. destruct (vc_asks _ _ _ step_core q (serve_in q T1 T2 ET)) as (Hasks & _ & _).
  rewrite (Hdev _ _ _ _ _ Hasks). exists (carried_out q a), U, (T1 ++ T2), (C ++ [q]), D. split; [|split; [by apply serve_inv|split; [by apply serve_abs|]]].
  - right. apply carried_out_step. apply (va_before _ _ _ _ _ _ Ha). rewrite ET. set_solver +.
  - rewrite ET. unfold left_over. rewrite !length_app. cbn. lia.
Qed.
End steps.

(** With no request under way there are descriptors enough. *)
Lemma alloc3_all_free d f : vcore d f [] -> exists d' i, alloc3_desc d = Some (d', inl i).
Proof.
  intros Hc. assert (dfree d = replicate 8 true) as E.
  { destruct (vc_len _ _ _ Hc) as (_ & _ & _ & Hl & _). apply list_eq. intros i. destruct (Nat.lt_ge_cases i 8) as [Hi|Hi].
    - rewrite <- (Nat2Z.id i), (vc_free _ _ _ Hc), Nat2Z.id by (unfold NUM; lia). rewrite lookup_replicate_2 by done. by rewrite bool_decide_eq_true_2 by (cbn; by intros ?%elem_of_nil).
    - rewrite !lookup_ge_None_2; [done|by rewrite length_replicate|lia]. }
  destruct d as [x1 x2 x3 x4 x5 fr x7 x8 x9 x10 x11 x12 x13]. cbn in E. subst fr. eexists _, _. reflexivity.
Qed.

Lemma sim_fresh data md : (forall b, block_bytes (data b)) -> sim (VConf (fresh data md) 0 [] (fun _ => VIdle) false) (AConf (block_at md) data (fun _ => AIdle)).
Proof.
  intros Hd. exists [], [], [], []. split; split; cbn [c_disk c_pc c_seen c_taken c_panicked a_disk a_data a_pc app]; try done; try (by intros q ?%elem_of_nil).
  - split; try done; try (by intros q ?%elem_of_nil).
    + by split; constructor.
    + intros i Hi. cbn. rewrite bool_decide_eq_true_2 by (by intros ?%elem_of_nil). unfold NUM in Hi. apply (lookup_replicate_2 8). lia.
    + intros t b h. split; [by intros [?|?]|]. by intros (q & ?%elem_of_nil & _).
    + intros t b n wr. by intros [?|?].
  - intros t b n wr. by intros [?|?].
Qed.

(** ** The system with a device that serves its requests *)

Section device.
Context (dev : Z -> disk -> disk -> Prop).
Hypothesis dev_serves : forall h d d' i1 i2 b s wr, dev h d d' -> asks d h i1 i2 b s wr -> d' = served h b s wr d.

#[local] Set Default Proof Using "dev_serves".

Lemma sim_step c a c' : sim c a -> vstep dev c c' -> matched c' a.
Proof.
  intros (U & T & C & D & Hi & Ha) Hs. destruct Hs as
    [d sn tk f p t b n wr Ht Hb Hn|d sn tk f p b data Hb Hdata|d sn tk f p t b n wr d' i0 i1 i2 Ht Hal|d sn tk f p t b n wr d' w Ht Hal|d sn tk f p t b n wr Ht Hal
    |d sn tk f p t b i Ht Hb|d sn tk f p t b i d' Ht Hb Hfin|d sn tk f p t b i Ht Hb Hfin|d sn tk f p d' bs Hin|d sn tk f p Hin|d sn tk f p Hne|d sn l1 h l2 f p d' Hdev].
  all: pose proof (vi_core _ _ _ _ _ Hi) as Hc; cbn [c_disk c_pc] in Hc; destruct (vc_len _ _ _ Hc) as (Ld & _ & _ & Lf & _).
  - by eapply sim_call.
  - by eapply sim_store.
  - destruct (alloc3_spec d Lf Ld) as [(j0 & j1 & j2 & E & Hnd & Hfr)|(d2 & w & E & _)]; rewrite E in Hal; [|done]. injection Hal as <- <- <- <-. by eapply sim_alloc.
  - destruct (alloc3_spec d Lf Ld) as [(j0 & j1 & j2 & E & _)|(d2 & w2 & E & Hsame & Hfree)]; rewrite E in Hal; [done|]. injection Hal as <- <-. eapply sim_alloc_fail; try done.
    intros Enil. rewrite Enil in Hc. destruct (alloc3_all_free _ _ Hc) as (d3 & i & E3). congruence.
  - destruct (alloc3_spec d Lf Ld) as [(j0 & j1 & j2 & E & _)|(d2 & w2 & E & _)]; by rewrite E in Hal.
  - by eapply sim_again.
  - destruct (sim_finish _ _ _ _ _ _ _ _ _ _ Hi Ha t b i Ht Hb) as (d2 & E & Hm). rewrite E in Hfin. injection Hfin as <-. by eapply nearer_matched.
  - destruct (sim_finish _ _ _ _ _ _ _ _ _ _ Hi Ha t b i Ht Hb) as (d2 & E & _). by rewrite E in Hfin.
  - destruct (sim_intr _ _ _ _ _ _ _ _ _ _ Hi Ha) as (d2 & bs2 & E & Hm & _). rewrite E in Hin. by injection Hin as <- <-.
  - destruct (sim_intr _ _ _ _ _ _ _ _ _ _ Hi Ha) as (d2 & bs2 & E & _). by rewrite E in Hin.
  - eapply nearer_matched. by eapply sim_fetch.
  - eapply nearer_matched. eapply sim_serve; [exact Hi|exact Ha|done|]. intros i1 i2 b s wr Hasks. by eapply dev_serves.
Qed.

Lemma sim_reach c : vreach dev c -> exists a, sim c a.
Proof.
  induction 1 as [data md Hd|c c' _ [a Ha] Hs]; [eexists; by apply sim_fresh|]. destruct (sim_step _ _ _ Ha Hs) as (a' & _ & Ha'). by exists a'.
Qed.

(** What is left of a call when the requests under way have been served. *)
Definition target (p : vpc) : vpc := match p with VIdle | VSleepBuf _ _ | VWait _ _ => VIdle | VTry b n wr | VSleepFree b n wr => VTry b n wr end.

Hypothesis dev_works : forall h d i1 i2 b s wr, asks d h i1 i2 b s wr -> exists d', dev h d d'.

#[local] Set Default Proof Using "dev_serves dev_works".

(** One more step of a request, if there is one. *)
Lemma one_step c U T C D a : vinv c U T C D -> vabs c U T C D a -> (0 < left_over U T C D)%nat ->
  exists c', vstep dev c c' /\ nearer (left_over U T C D) c' a /\ forall x, target (c_pc c' x) = target (c_pc c x).
Proof.
  intros Hi Ha Hk. destruct c as [d sn tk f p]. pose proof (vi_core _ _ _ _ _ Hi) as Hc. cbn [c_disk c_pc] in Hc. destruct U as [|q U]; [destruct T as [|q T]; [destruct C as [|q C]; [destruct D as [|q D]|]|]|].
  - cbn in Hk. lia.
  - destruct (vi_done _ _ _ _ _ Hi q ltac:(left)) as [Eb Et]. cbn in Eb, Et.
    destruct (sim_finish _ _ _ _ _ _ _ _ _ _ Hi Ha _ _ _ Et ltac:(lia)) as (d' & Ef & Hm). eexists. split; [by eapply v_finish; [exact Et|lia|]|]. split; [exact Hm|].
    intros x. cbn [c_pc]. destruct (decide (x = q_t q)) as [->|]; [by rewrite vgoto_eq, Et|]. rewrite vgoto_ne by done. unfold wake_free. by destruct (f x).
  - destruct (sim_intr _ _ _ _ _ _ _ _ _ _ Hi Ha) as (d' & bs & E & _ & Hm). eexists. split; [by apply v_intr|]. split; [by apply Hm|]. intros x. cbn [c_pc]. unfold wake_bufs.
    destruct (f x); try done. by case_decide.
  - pose proof (vi_taken _ _ _ _ _ Hi) as Et. cbn in Et. destruct (vc_asks _ _ _ Hc q ltac:(set_solver +)) as (Hasks & _). destruct (dev_works _ _ _ _ _ _ _ Hasks) as (d' & Hdev).
    exists (VConf d' sn (map q_h T) f p). split; [rewrite Et; by apply (v_serve _ d sn [] (q_h q))|]. split; [|done].
    apply (sim_serve _ _ _ _ _ _ _ _ _ _ Hi Ha [] (q_h q) (map q_h T) d' Et). intros i1 i2 b s wr H. by eapply dev_serves.
  - pose proof (vi_avail _ _ _ _ _ Hi) as Hr. cbn in Hr. destruct (ring_pop _ _ _ _ _ Hr) as (_ & _ & Hne).
    { pose proof (core_two _ _ _ Hc) as H2. cbn in H2. rewrite length_map, length_app in *. lia. }
    eexists. split; [by apply v_fetch|]. split; [by apply sim_fetch|done].
Qed.

(** The requests under way can all be finished. *)
Lemma drain k : forall c U T C D a, vinv c U T C D -> vabs c U T C D a -> (left_over U T C D <= k)%nat ->
  exists c' a', rtc (vstep dev) c c' /\ vinv c' [] [] [] [] /\ vabs c' [] [] [] [] a' /\ forall x, c_pc c' x = target (c_pc c x).
Proof.
  induction k as [|k IH]; intros c U T C D a Hi Ha Hk.
  - unfold left_over in Hk. destruct U, T, C, D; cbn in Hk; try lia. exists c, a. split; [done|]. split; [done|]. split; [done|]. intros x.
    pose proof (vi_core _ _ _ _ _ Hi) as Hc. destruct (c_pc c x) as [|b n wr|b n wr|b h|b h] eqn:E; try done.
    + by destruct (vc_sleep _ _ _ Hc x b n wr E).
    + destruct (proj1 (vc_pc _ _ _ Hc x b h) (or_introl E)) as (q & ?%elem_of_nil & _). done.
    + destruct (proj1 (vc_pc _ _ _ Hc x b h) (or_intror E)) as (q & ?%elem_of_nil & _). done.
  - destruct (decide (left_over U T C D = 0%nat)) as [E0|E0]; [by eapply (IH c U T C D a Hi Ha); lia|].
    destruct (one_step c U T C D a Hi Ha ltac:(lia)) as (c1 & Hs & (a1 & U1 & T1 & C1 & D1 & _ & Hi1 & Ha1 & Hlt) & Htg).
    destruct (IH c1 U1 T1 C1 D1 a1 Hi1 Ha1 ltac:(lia)) as (c' & a' & Hr & Hi' & Ha' & Hpc). exists c', a'. split; [by eapply rtc_l|]. split; [done|]. split; [done|].
    intros x. by rewrite Hpc, Htg.
Qed.
End device.

(** ** The claims *)



(** C24: No transfer gets stuck: whatever calls, interrupts and completions have
    come before, and however many processes wait for descriptors, the system can
    go on to a state in which process [t] is out of [virtio_disk_rw].  In
    particular no wakeup is lost.  The device is one that can serve every request
    that is well formed. *)
Theorem virtio_finishes (dev : Z -> disk -> disk -> Prop) (c : vconf) (t : nat) :
  (forall h d d' i1 i2 b s wr, dev h d d' -> asks d h i1 i2 b s wr -> d' = served h b s wr d) ->
  (forall h d i1 i2 b s wr, asks d h i1 i2 b s wr -> exists d', dev h d d') -> vreach dev c ->
  exists c', rtc (vstep dev) c c' /\ c_pc c' t = VIdle.
Proof.
  intros Hdev Hw Hr. destruct (sim_reach dev Hdev c Hr) as (a & U & T & C & D & Hi & Ha).
  destruct (drain dev Hdev Hw _ c U T C D a Hi Ha (Nat.le_refl _)) as (c1 & a1 & Hs1 & Hi1 & Ha1 & Hpc1). destruct (target (c_pc c t)) as [|b n wr|b n wr|b h|b h] eqn:Et.
  2: { destruct c1 as [d sn tk f p]. pose proof (vi_core _ _ _ _ _ Hi1) as Hc. cbn in Hc. destruct (alloc3_all_free _ _ Hc) as (d' & [[i0 i1] i2] & Eal).
       specialize (Hpc1 t). cbn [c_pc] in Hpc1. rewrite Et in Hpc1. pose proof (v_alloc dev d sn tk f p t b n wr d' i0 i1 i2 Hpc1 Eal) as Hst.
       destruct (sim_step dev Hdev _ a1 _ ltac:(by exists [], [], [], []) Hst) as (a2 & _ & U2 & T2 & C2 & D2 & Hi2 & Ha2).
       destruct (drain dev Hdev Hw _ _ U2 T2 C2 D2 a2 Hi2 Ha2 (Nat.le_refl _)) as (c3 & a3 & Hs3 & _ & _ & Hpc3). exists c3.
       split; [etransitivity; [exact Hs1|]; eapply rtc_l; [exact Hst|exact Hs3]|]. rewrite Hpc3. cbn [c_pc]. by rewrite vgoto_eq. }
  all: exists c1; split; [done|]; rewrite Hpc1, Et; try done; by destruct (c_pc c t).
Qed.

(** *** The claims at work *)

(** A device that does what the descriptors say. *)
Definition obliging (h : Z) (d d' : disk) : Prop := exists i1 i2 b s wr, asks d h i1 i2 b s wr /\ d' = served h b s wr d.

Lemma obliging_serves h d d' i1 i2 b s wr : obliging h d d' -> asks d h i1 i2 b s wr -> d' = served h b s wr d.
Proof.
  intros (j1 & j2 & b' & s' & wr' & [B0 B1 _ B3] & ->) [A0 A1 _ A3]. rewrite A0 in B0. injection B0 as <-. rewrite A1 in B1. injection B1 as <- _ _. rewrite A3 in B3.
  injection B3 as Ew <-. destruct wr, wr'; try done.
Qed.

Lemma obliging_works h d i1 i2 b s wr : asks d h i1 i2 b s wr -> exists d', obliging h d d'.
Proof. intros H. eexists. by exists i1, i2, b, s, wr. Qed.

Definition blank (_ : nat) : list Z := replicate (Z.to_nat BSIZE_) 0.
Lemma blank_bytes b : block_bytes (blank b).
Proof. split; [apply length_replicate|]. apply Forall_forall. intros c Hc. apply elem_of_replicate in Hc as [-> _]. lia. Qed.

Definition at_start : vconf := VConf (fresh blank (fun _ => 0)) 0 [] (fun _ => VIdle) false.
Definition one_call : vconf := VConf (fresh blank (fun _ => 0)) 0 [] (vgoto 0 (VTry 3 7 true) (fun _ => VIdle)) false.

Lemma one_call_reached : vreach obliging one_call.
Proof. eapply vr_step; [apply (vr_init obliging blank (fun _ => 0)); exact blank_bytes|]. apply v_call; [done|done|lia]. Qed.



Lemma virtio_finishes_witness : exists c', rtc (vstep obliging) one_call c' /\ c_pc c' 0%nat = VIdle.
Proof. apply (virtio_finishes obliging one_call 0%nat obliging_serves obliging_works one_call_reached). Defined.
