(* ===== verification/Session.v ===== *)
(** * Using the buffer cache

    Rules for running code over a [BlockCache], for the clients in kernel/log.c
    and kernel/fs.c.  Between operations the cache holds the blocks of the open
    transaction, each referenced once by its pin, and nothing else is referenced;
    the state of the file system is then the disk and the pinned blocks. *)

From Stdlib Require Import FunctionalExtensionality.
From S2P Require Import Prelude Riscv Mem Cstring State Sched SchedSpec Bio BioLocks Cache.

(** Blocks pinned with their new contents, over a disk. *)
Definition pins : Type := Z -> option block.

Definition cells (d : Z -> block) (P : pins) : Z -> cell := fun b =>
  match P b with Some x => mk_cell x 1 None | None => idle (d b) end.

Definition no_pins : pins := fun _ => None.

(** At most [n] blocks are pinned. *)
Definition pinned_below (P : pins) (n : nat) : Prop :=
  exists l : list Z, (forall x, is_Some (P x) -> x ∈ l) /\ (length l < n)%nat.

Lemma cells_room d P b : pinned_below P bhead -> room (cells d P) b.
Proof.
  intros (l & Hl & Hlt). right. exists l. split; [|done]. intros x. unfold cells.
  destruct (P x) eqn:E; cbn; [|lia]. intros _. apply Hl. by rewrite E.
Qed.

Lemma upd_room A b c x : room A x -> (0 < c_ref c -> 0 < c_ref (A b)) -> x <> b -> room (upd A b c) x.
Proof.
  intros [H|(l & Hl & Hlt)] Hc Hx.
  - left. by rewrite upd_other.
  - right. exists l. split; [|done]. intros y Hy. apply Hl. destruct (Z.eqb_spec y b) as [->|Hne].
    + rewrite upd_same in Hy. auto.
    + by rewrite upd_other in Hy.
Qed.

Ltac cellsimp :=
  repeat first [rewrite upd_same | rewrite upd_other by first [assumption | congruence | lia]];
  cbn [c_data c_ref c_owner idle].

(** ** Running code over the cache

    [sess s0 d w A H s]: since [s0], only the cache has changed; the disk is [d],
    its writes are [w], the blocks are as [A] says, and the thread has the
    buffers [H], pairs of an index and a block. *)

Section session.
Context {EN : Env} {dev : Z} {crep : kstate -> (Z -> cell) -> Prop} {chold : kstate -> nat -> Z -> Prop}.
Context {BC : BlockCache dev crep chold}.
Variables (me : nat) (pid : Z).

Record sess (s0 : kstate) (d : Z -> block) (w : list (Z * block)) (A : Z -> cell) (H : list (nat * Z))
    (s : kstate) : Prop := {
  ss_ready : ready s me pid;
  ss_rep : crep s A;
  ss_frame : bframe me s0 s;
  ss_disk : k_disk s = d;
  ss_trace : k_wtrace s = w;
  ss_hold : forall i b, (i, b) ∈ H -> chold s i b /\ 0 < c_ref (A b)
}.

Lemma sess_step s0 d w A H s s' d' w' A' H' :
  sess s0 d w A H s -> cstep crep chold me s s' A' -> k_disk s' = d' -> k_wtrace s' = w' ->
  (forall i b, (i, b) ∈ H' -> (chold s' i b \/ (i, b) ∈ H) /\ 0 < c_ref (A' b)) ->
  sess s0 d' w' A' H' s'.
Proof.
  intros [H1 H2 H3 H4 H5 H6] [C F K] Hd Hw Hh. split; [by eapply bframe_ready|done|by etrans|done|done|].
  intros i b Hi. destruct (Hh i b Hi) as [[|Hin] Hr]; [done|]. split; [|done]. apply K; [|done]. by apply H6.
Qed.

Lemma sess_bread {R} s0 d w A H s b (k : nat -> M kstate R) Q :
  sess s0 d w A H s -> c_owner (A b) = None -> 0 <= c_ref (A b) < 2 ^ 32 - 1 -> room A b ->
  (forall i s', sess s0 d w (upd A b (mk_cell (c_data (A b)) (c_ref (A b) + 1) (Some pid))) ((i, b) :: H) s' ->
     wp (k i) Q s') ->
  wp (bind (bread dev b) k) Q s.
Proof using BC.
  intros Hs Hown Href Hroom Hk.
  destruct (bc_bread s me pid A b (ss_ready _ _ _ _ _ _ Hs) (ss_rep _ _ _ _ _ _ Hs)) as (i & s1 & R1 & C1 & Hi & D1 & W1);
    [done|lia|done|].
  apply wp_bind. eapply wp_ok; [exact R1|]. apply Hk. eapply sess_step; [exact Hs|exact C1| | |].
  - rewrite D1. apply Hs.
  - rewrite W1. apply Hs.
  - intros j x [E|Hin]%elem_of_cons.
    + injection E as -> ->. rewrite upd_same. split; [by left|]. cbn. lia.
    + split; [by right|]. destruct (ss_hold _ _ _ _ _ _ Hs j x Hin) as [_ Hp]. unfold upd.
      destruct (x =? b); cbn; lia.
Qed.

Lemma sess_bdata {R} s0 d w A H s i b (k : block -> M kstate R) Q :
  sess s0 d w A H s -> (i, b) ∈ H -> wp (k (c_data (A b))) Q s -> wp (bind (bdata i) k) Q s.
Proof using BC.
  intros Hs Hin Hk. destruct (ss_hold _ _ _ _ _ _ Hs i b Hin) as [Hh Hr]. apply wp_bind.
  eapply wp_ok; [apply (bc_bdata s A i b); [apply Hs|done|done]|done].
Qed.

(** The blocks the thread holds stay referenced. *)
Lemma sess_keep s0 d w A H s b c i x :
  sess s0 d w A H s -> 0 < c_ref c -> (i, x) ∈ H -> 0 < c_ref (upd A b c x).
Proof.
  intros Hs Hc Hin. destruct (ss_hold _ _ _ _ _ _ Hs i x Hin) as [_ Hp]. unfold upd. by destruct (x =? b).
Qed.

Lemma sess_bdata_mod {R} s0 d w A H s i b f (k : unit -> M kstate R) Q :
  sess s0 d w A H s -> (i, b) ∈ H ->
  (forall s', sess s0 d w (upd A b (mk_cell (f (c_data (A b))) (c_ref (A b)) (c_owner (A b)))) H s' ->
     wp (k tt) Q s') ->
  wp (bind (bdata_mod i f) k) Q s.
Proof using BC.
  intros Hs Hin Hk. destruct (ss_hold _ _ _ _ _ _ Hs i b Hin) as [Hh Hr].
  destruct (bc_bdata_mod s me A i b f (ss_rep _ _ _ _ _ _ Hs) Hh Hr) as (s1 & R1 & C1 & D1 & W1).
  apply wp_bind. eapply wp_ok; [exact R1|]. apply Hk. eapply sess_step; [exact Hs|exact C1| | |].
  - rewrite D1. apply Hs.
  - rewrite W1. apply Hs.
  - intros j x Hj. split; [by right|]. by eapply sess_keep.
Qed.

Lemma sess_bwrite {R} s0 d w A H s i b (k : unit -> M kstate R) Q :
  sess s0 d w A H s -> (i, b) ∈ H -> c_owner (A b) = Some pid ->
  (forall s', sess s0 (upd d b (c_data (A b))) ((b, c_data (A b)) :: w) A H s' -> wp (k tt) Q s') ->
  wp (bind (bwrite i) k) Q s.
Proof using BC.
  intros Hs Hin Hown Hk. destruct (ss_hold _ _ _ _ _ _ Hs i b Hin) as [Hh Hr].
  destruct (bc_bwrite s me pid A i b (ss_ready _ _ _ _ _ _ Hs) (ss_rep _ _ _ _ _ _ Hs) Hh Hr Hown)
    as (s1 & R1 & C1 & D1 & W1).
  apply wp_bind. eapply wp_ok; [exact R1|]. apply Hk. eapply sess_step; [exact Hs|exact C1| | |].
  - rewrite D1. f_equal. apply Hs.
  - rewrite W1. f_equal. apply Hs.
  - intros j x Hj. split; [by right|]. by apply (ss_hold _ _ _ _ _ _ Hs j x Hj).
Qed.

(** A release drops the buffer from [H]; a block left unreferenced is clean. *)
Lemma sess_brelse {R} s0 d w A H s i b H' (k : unit -> M kstate R) Q :
  sess s0 d w A H s -> (i, b) ∈ H -> c_owner (A b) = Some pid -> (c_ref (A b) = 1 -> c_data (A b) = d b) ->
  (forall j x, (j, x) ∈ H' -> (j, x) ∈ H /\ x <> b) ->
  (forall s', sess s0 d w (upd A b (mk_cell (c_data (A b)) (c_ref (A b) - 1) None)) H' s' -> wp (k tt) Q s') ->
  wp (bind (brelse i) k) Q s.
Proof using BC.
  intros Hs Hin Hown Hcl HH Hk. destruct (ss_hold _ _ _ _ _ _ Hs i b Hin) as [Hh Hr].
  destruct (bc_brelse s me pid A i b (ss_ready _ _ _ _ _ _ Hs) (ss_rep _ _ _ _ _ _ Hs) Hh Hr Hown)
    as (s1 & R1 & C1 & D1 & W1).
  { intros E. rewrite (ss_disk _ _ _ _ _ _ Hs). auto. }
  apply wp_bind. eapply wp_ok; [exact R1|]. apply Hk. eapply sess_step; [exact Hs|exact C1| | |].
  - rewrite D1. apply Hs.
  - rewrite W1. apply Hs.
  - intros j x Hj. destruct (HH j x Hj) as [Hj' Hne]. split; [by right|].
    rewrite upd_other by done. by apply (ss_hold _ _ _ _ _ _ Hs j x Hj').
Qed.

Lemma sess_bunpin {R} s0 d w A H s i b (k : unit -> M kstate R) Q :
  sess s0 d w A H s -> (i, b) ∈ H -> 1 < c_ref (A b) ->
  (forall s', sess s0 d w (upd A b (mk_cell (c_data (A b)) (c_ref (A b) - 1) (c_owner (A b)))) H s' ->
     wp (k tt) Q s') ->
  wp (bind (bunpin i) k) Q s.
Proof using BC.
  intros Hs Hin Hr Hk. destruct (ss_hold _ _ _ _ _ _ Hs i b Hin) as [Hh _].
  destruct (bc_bunpin s me pid A i b (ss_ready _ _ _ _ _ _ Hs) (ss_rep _ _ _ _ _ _ Hs) Hh Hr)
    as (s1 & R1 & C1 & D1 & W1).
  apply wp_bind. eapply wp_ok; [exact R1|]. apply Hk. eapply sess_step; [exact Hs|exact C1| | |].
  - rewrite D1. apply Hs.
  - rewrite W1. apply Hs.
  - intros j x Hj. split; [by right|]. eapply sess_keep; [exact Hs|cbn; lia|exact Hj].
Qed.

Lemma sess_bpin {R} s0 d w A H s i b (k : unit -> M kstate R) Q :
  sess s0 d w A H s -> (i, b) ∈ H -> c_ref (A b) + 1 < 2 ^ 32 ->
  (forall s', sess s0 d w (upd A b (mk_cell (c_data (A b)) (c_ref (A b) + 1) (c_owner (A b)))) H s' ->
     wp (k tt) Q s') ->
  wp (bind (bpin i) k) Q s.
Proof using BC.
  intros Hs Hin Hr Hk. destruct (ss_hold _ _ _ _ _ _ Hs i b Hin) as [Hh Hp].
  destruct (bc_bpin s me pid A i b (ss_ready _ _ _ _ _ _ Hs) (ss_rep _ _ _ _ _ _ Hs) Hh Hp Hr)
    as (s1 & R1 & C1 & D1 & W1).
  apply wp_bind. eapply wp_ok; [exact R1|]. apply Hk. eapply sess_step; [exact Hs|exact C1| | |].
  - rewrite D1. apply Hs.
  - rewrite W1. apply Hs.
  - intros j x Hj. split; [by right|]. eapply sess_keep; [exact Hs|cbn; lia|exact Hj].
Qed.

Lemma sess_ext s0 d w A A' H s : sess s0 d w A H s -> (forall b, A' b = A b) -> sess s0 d w A' H s.
Proof. intros Hs He. replace A' with A; [done|]. apply functional_extensionality. intros b. by rewrite He. Qed.

End session.
