(* ===== verification/Log.v ===== *)
(** * kernel/log.c: the write-ahead log

    A commit writes the modified blocks to the log, then the header, whose
    write is the commit point, then the blocks to their home locations, then
    a header that empties the log. *)

From S2P Require Import Prelude Riscv Mem Cstring State Sched Bio.

Definition log_get {A} (f : logst -> A) : M kstate A := gets (fun s => f (k_log s)).
Definition log_mod (f : logst -> logst) : M kstate unit := modify (fun s => set_k_log (f (k_log s)) s).

Definition lh_n_of (l : logst) : Z := lh_n (log_lh l).
Definition set_lh_n_of (v : Z) (l : logst) : logst := set_log_lh (set_lh_n v (log_lh l)) l.

(** [log.lh.block[i]], which must be inside the array. *)
Definition lh_block_get (i : Z) : M kstate Z :=
  let! bs := log_get (fun l => lh_block (log_lh l)) in
  if (0 <=? i) && (i <? LOGSIZE) then ret (nth (Z.to_nat i) bs 0) else fault "log.lh.block index".

Definition lh_block_put (i v : Z) : M kstate unit :=
  if (0 <=? i) && (i <? LOGSIZE) then
    log_mod (fun l => set_log_lh (set_lh_block (<[Z.to_nat i := v]> (lh_block (log_lh l))) (log_lh l)) l)
  else fault "log.lh.block index".

(** [struct logheader] in a block: [n] at 0, [block[i]] at [4 + 4 * i]. *)
Definition hd_n (d : block) : Z := s32 (load32 d 0).
Definition hd_block (d : block) (i : Z) : Z := s32 (load32 d (4 + 4 * i)).

Section log.
Context {EN : Env}.

Definition install_trans_body (recovering : bool) (tail : Z) : M kstate unit :=
  let! dev := log_get log_dev in
  let! start := log_get log_start in
  let! lbuf := bread (u32 dev) (u32 (start + tail + 1)) in
  let! bno := lh_block_get tail in
  let! dbuf := bread (u32 dev) (u32 bno) in
  let! d := bdata lbuf in
  bdata_mod dbuf (fun _ => d) ;;;
  bwrite dbuf ;;;
  when (negb recovering) (bunpin dbuf) ;;;
  brelse lbuf ;;;
  brelse dbuf.

Definition install_trans (recovering : bool) : M kstate unit :=
  let! n := log_get lh_n_of in
  mfor (seqZ 0 n) (install_trans_body recovering).

Definition read_head : M kstate unit :=
  let! dev := log_get log_dev in
  let! start := log_get log_start in
  let! b := bread (u32 dev) (u32 start) in
  let! d := bdata b in
  log_mod (set_lh_n_of (hd_n d)) ;;;
  mfor (seqZ 0 (hd_n d)) (fun i => lh_block_put i (hd_block d i)) ;;;
  brelse b.

Definition write_head : M kstate unit :=
  let! dev := log_get log_dev in
  let! start := log_get log_start in
  let! b := bread (u32 dev) (u32 start) in
  let! n := log_get lh_n_of in
  bdata_mod b (fun d => store32 d 0 (u32 n)) ;;;
  mfor (seqZ 0 n) (fun i =>
    let! v := lh_block_get i in
    bdata_mod b (fun d => store32 d (4 + 4 * i) (u32 v))) ;;;
  bwrite b ;;;
  brelse b.

Definition recover_from_log : M kstate unit :=
  read_head ;;;
  install_trans true ;;;
  log_mod (set_lh_n_of 0) ;;;
  write_head.

(** [sizeof(struct logheader)] is [4 + 4 * LOGSIZE]. *)
Definition initlog (dev : Z) (sb : superblock) : M kstate unit :=
  panic_if (1024 <=? 4 + 4 * LOGSIZE) "initlog: too big logheader" ;;;
  log_mod (set_log_start (s32 (sb_logstart sb))) ;;;
  log_mod (set_log_size (s32 (sb_nlog sb))) ;;;
  log_mod (set_log_dev dev) ;;;
  recover_from_log.

Definition begin_op_body (_ : unit) : M kstate (unit + unit) :=
  let! committing := log_get log_committing in
  let! n := log_get lh_n_of in
  let! outstanding := log_get log_outstanding in
  if committing : bool then sleep Clog Llog ;;; ret (inl tt)
  else if LOGSIZE <? n + (outstanding + 1) * MAXOPBLOCKS then sleep Clog Llog ;;; ret (inl tt)
  else
    log_mod (set_log_outstanding (outstanding + 1)) ;;;
    release Llog ;;;
    ret (inr tt).

Definition begin_op : M kstate unit :=
  acquire Llog ;;;
  let! moves := gets k_sched in
  mloop (S (length moves)) begin_op_body tt.

Definition write_log_body (tail : Z) : M kstate unit :=
  let! dev := log_get log_dev in
  let! start := log_get log_start in
  let! to := bread (u32 dev) (u32 (start + tail + 1)) in
  let! bno := lh_block_get tail in
  let! from := bread (u32 dev) (u32 bno) in
  let! d := bdata from in
  bdata_mod to (fun _ => d) ;;;
  bwrite to ;;;
  brelse from ;;;
  brelse to.

Definition write_log : M kstate unit :=
  let! n := log_get lh_n_of in
  mfor (seqZ 0 n) write_log_body.

Definition commit : M kstate unit :=
  let! n := log_get lh_n_of in
  when (0 <? n)
    (write_log ;;;
     write_head ;;;
     install_trans false ;;;
     log_mod (set_lh_n_of 0) ;;;
     write_head).

Definition end_op : M kstate unit :=
  acquire Llog ;;;
  log_mod (fun l => set_log_outstanding (log_outstanding l - 1) l) ;;;
  let! committing := log_get log_committing in
  panic_if committing "log.committing" ;;;
  let! outstanding := log_get log_outstanding in
  let do_commit := outstanding =? 0 in
  (if do_commit then log_mod (set_log_committing true) else wakeup Clog) ;;;
  release Llog ;;;
  when do_commit
    (commit ;;;
     acquire Llog ;;;
     log_mod (set_log_committing false) ;;;
     wakeup Clog ;;;
     release Llog).

(** The search of [log_write]: the first [i < n] that already names the block,
    [n] if there is none. *)
Fixpoint log_slot (bs : list Z) (n : nat) (blockno : Z) : nat :=
  match n, bs with
  | S n', b :: bs' => if u32 b =? blockno then 0%nat else S (log_slot bs' n' blockno)
  | _, _ => 0%nat
  end.

Definition log_write (b : nat) : M kstate unit :=
  acquire Llog ;;;
  let! n := log_get lh_n_of in
  let! size := log_get log_size in
  panic_if ((LOGSIZE <=? n) || (size - 1 <=? n)) "too big a transaction" ;;;
  let! outstanding := log_get log_outstanding in
  panic_if (outstanding <? 1) "log_write outside of trans" ;;;
  let! bf := buf_get b in
  let! bs := log_get (fun l => lh_block (log_lh l)) in
  let i := Z.of_nat (log_slot bs (Z.to_nat n) (b_blockno bf)) in
  lh_block_put i (s32 (b_blockno bf)) ;;;
  when (i =? n)
    (bpin b ;;;
     log_mod (set_lh_n_of (n + 1))) ;;;
  release Llog.

End log.
