(* ===== verification/LogSpec.v ===== *)
(** * The steps of a commit and of recovery (kernel/log.c) *)

From Stdlib Require Import FunctionalExtensionality.
From S2P Require Import Prelude Riscv Mem Cstring State Sched SchedSpec Bio BioLocks Cache Session Log.

(** The log of device [dev] starts at block [start]; its header names the
    blocks [bs]. *)
Record log_at (dev : Z) (l : logst) (start : Z) (bs : list Z) : Prop := {
  la_dev : log_dev l = dev;
  la_start : log_start l = start;
  la_n : lh_n_of l = Z.of_nat (length bs);
  la_len : length (lh_block (log_lh l)) = Z.to_nat LOGSIZE;
  la_bs : forall i b, bs !! i = Some b -> lh_block (log_lh l) !! i = Some b;
  la_max : (length bs <= Z.to_nat LOGSIZE)%nat;
  la_home : Forall (fun b => 0 <= b < 2 ^ 31) bs;
  la_range : 0 <= dev < 2 ^ 31 /\ 0 <= start < 2 ^ 31 - 64
}.

(** Where entry [i] of the log lives. *)
Definition slot (start : Z) (i : nat) : Z := start + Z.of_nat i + 1.

(** ** Sequences of writes *)

(** The disk after the writes [ws], the first one first. *)
Definition apply_writes (d : Z -> block) (ws : list (Z * block)) : Z -> block :=
  foldl (fun d p => upd d p.1 p.2) d ws.

Lemma apply_writes_app d ws ws' : apply_writes d (ws ++ ws') = apply_writes (apply_writes d ws) ws'.
Proof. apply foldl_app. Qed.

Lemma apply_writes_agree d d' ws b : d b = d' b -> apply_writes d ws b = apply_writes d' ws b.
Proof.
  revert d d'. induction ws as [|[a x] ws IH]; intros d d' E; [done|].
  apply (IH (upd d a x) (upd d' a x)). unfold upd. by destruct (b =? a).
Qed.

Lemma apply_writes_hit d d' ws b : b ∈ ws.*1 -> apply_writes d ws b = apply_writes d' ws b.
Proof.
  revert d d'. induction ws as [|[a x] ws IH]; intros d d' Hb; [by apply elem_of_nil in Hb|].
  change (apply_writes (upd d a x) ws b = apply_writes (upd d' a x) ws b).
  destruct (decide (b ∈ ws.*1)) as [H|H]; [by apply IH|]. apply apply_writes_agree.
  cbn in Hb. apply elem_of_cons in Hb as [->|Hb]; [|done]. by rewrite !upd_same.
Qed.

Lemma apply_writes_out d ws b : b ∉ ws.*1 -> apply_writes d ws b = d b.
Proof.
  revert d. induction ws as [|[a x] ws IH]; intros d Hb; [done|].
  change (apply_writes (upd d a x) ws b = d b). rewrite IH.
  - apply upd_other. intros ->. apply Hb. cbn. elems.
  - intros H. apply Hb. cbn. by apply elem_of_cons; right.
Qed.

Lemma apply_writes_in d ws b x : NoDup ws.*1 -> (b, x) ∈ ws -> apply_writes d ws b = x.
Proof.
  revert d. induction ws as [|[a y] ws IH]; intros d Hnd Hin; [by apply elem_of_nil in Hin|].
  apply NoDup_cons in Hnd as [Hn Hnd]. cbn in Hn. apply elem_of_cons in Hin as [[= -> ->]|Hin].
  - change (apply_writes (upd d a y) ws a = y). rewrite apply_writes_out by done. apply upd_same.
  - by apply (IH (upd d a y)).
Qed.

(** The writes of [write_log] and of [install_trans]. *)
Definition log_writes (start : Z) (xs : list block) : list (Z * block) := imap (fun i x => (slot start i, x)) xs.
Definition home_writes (d : Z -> block) (start : Z) (bs : list Z) : list (Z * block) :=
  imap (fun i b => (b, d (slot start i))) bs.

Definition unpins (P : pins) (bs : list Z) : pins := fun b => if decide (b ∈ bs) then None else P b.

(** The home blocks [bs] lie outside the log. *)
Definition off_log (start : Z) (bs : list Z) : Prop :=
  forall b i, b ∈ bs -> (i < Z.to_nat LOGSIZE)%nat -> b <> slot start i.

Lemma home_writes_fst d start bs : (home_writes d start bs).*1 = bs.
Proof.
  apply list_eq. intros i. rewrite list_lookup_fmap. unfold home_writes. rewrite list_lookup_imap.
  by destruct (bs !! i).
Qed.

Lemma log_writes_fst start xs i b : (log_writes start xs).*1 !! i = Some b -> b = slot start i /\ (i < length xs)%nat.
Proof.
  rewrite list_lookup_fmap. unfold log_writes. rewrite list_lookup_imap.
  destruct (xs !! i) eqn:E; [|done]. cbn. intros [= <-]. split; [done|]. by eapply lookup_lt_Some.
Qed.

Section log.
Context {EN : Env} {dev : Z} {crep : kstate -> (Z -> cell) -> Prop} {chold : kstate -> nat -> Z -> Prop}.
Context {BC : BlockCache dev crep chold}.
Variables (me : nat) (pid : Z).

#[local] Abbreviation sess := (sess (crep := crep) (chold := chold) me pid).

Ltac cells_tac := cellsimp; first [done | lia | congruence].

Lemma wp_log_get {A R} s0 d w C H s (f : logst -> A) (k : A -> M kstate R) Q :
  sess s0 d w C H s -> wp (k (f (k_log s0))) Q s -> wp (bind (log_get f) k) Q s.
Proof. intros Hs. by rewrite <- (bframe_log _ _ _ (ss_frame _ _ _ _ _ _ _ _ Hs)). Qed.

Lemma wp_lh_block_get {R} s0 d w C H s start bs i b (k : Z -> M kstate R) Q :
  sess s0 d w C H s -> log_at dev (k_log s0) start bs -> bs !! i = Some b ->
  wp (k b) Q s -> wp (bind (lh_block_get (Z.of_nat i)) k) Q s.
Proof.
  intros Hs [_ _ _ _ Hbs Hmax _ _] Hb Hk. unfold lh_block_get. rewrite bind_assoc.
  eapply wp_log_get; [exact Hs|]. assert (i < Z.to_nat LOGSIZE)%nat by (apply lookup_lt_Some in Hb; lia).
  replace ((0 <=? Z.of_nat i) && (Z.of_nat i <? LOGSIZE)) with true by (symmetry; zdec; try done; lia).
  apply wp_bind, wp_ret. rewrite Nat2Z.id. by rewrite (nth_lookup_Some _ _ _ b) by (by apply Hbs).
Qed.

Lemma slot_u32 l start bs i :
  log_at dev l start bs -> (i < Z.to_nat LOGSIZE)%nat -> u32 (start + Z.of_nat i + 1) = slot start i.
Proof. intros [] Hi. unfold u32, slot. unfold LOGSIZE, MAXOPBLOCKS in *. lia. Qed.

Lemma home_u32 l start bs i b : log_at dev l start bs -> bs !! i = Some b -> u32 b = b.
Proof. intros [] Hb. rewrite Forall_lookup in la_home0. specialize (la_home0 i b Hb). unfold u32. lia. Qed.

Lemma dev_u32 l start bs : log_at dev l start bs -> u32 (log_dev l) = dev.
Proof. intros []. unfold u32. lia. Qed.

(** The body of [write_log] copies a pinned block to its slot of the log. *)
Lemma write_log_body_spec s0 d w P s start bs i b x :
  sess s0 d w (cells d P) [] s -> log_at dev (k_log s0) start bs -> bs !! i = Some b ->
  P b = Some x -> P (slot start i) = None -> pinned_below P bhead ->
  let to := slot start i in
  wp (write_log_body (Z.of_nat i))
     (fun _ s' => sess s0 (upd d to x) ((to, x) :: w) (cells (upd d to x) P) [] s') s.
Proof using BC.
  intros Hs Hla Hbs Hb Hto Hpin to. assert (b <> to) as Hne by (unfold to; congruence).
  assert (cells d P b = mk_cell x 1 None) as Ab by (unfold cells; by rewrite Hb).
  assert (cells d P to = idle (d to)) as Ato by (unfold cells, to; by rewrite Hto).
  assert (i < Z.to_nat LOGSIZE)%nat as Hi by (apply lookup_lt_Some in Hbs; pose proof (la_max _ _ _ _ Hla); lia).
  unfold write_log_body. do 2 (eapply wp_log_get; [exact Hs|]).
  rewrite (la_start _ _ _ _ Hla), (slot_u32 _ _ _ _ Hla Hi), (dev_u32 _ _ _ Hla). fold to.
  eapply sess_bread; [exact Hs|by rewrite Ato|rewrite Ato; cells_tac|by apply cells_room|].
  rewrite Ato. cbn [c_data c_ref c_owner idle]. clear s Hs. intros k s Hs.
  eapply wp_lh_block_get; [exact Hs|exact Hla|exact Hbs|]. rewrite (home_u32 _ _ _ _ _ Hla Hbs).
  eapply sess_bread; [exact Hs|cellsimp; by rewrite Ab|cellsimp; rewrite Ab; cells_tac|left; cellsimp; rewrite Ab; cells_tac|].
  cellsimp. rewrite Ab. cbn [c_data c_ref c_owner]. clear s Hs. intros j s Hs.
  eapply sess_bdata; [exact Hs|elems|]. cellsimp.
  eapply (sess_bdata_mod _ _ _ _ _ _ _ _ k to); [exact Hs|elems|]. cellsimp. clear s Hs. intros s Hs.
  eapply (sess_bwrite _ _ _ _ _ _ _ _ k to); [exact Hs|elems|cells_tac|]. cellsimp. clear s Hs. intros s Hs.
  eapply (sess_brelse _ _ _ _ _ _ _ _ j b [(k, to)]); [exact Hs|elems|cells_tac|cells_tac| |].
  { intros n y [= -> ->]%list_elem_of_singleton. split; [elems|done]. }
  cellsimp. clear s Hs. intros s Hs. rewrite <- (bind_ret_r (brelse k)).
  eapply (sess_brelse _ _ _ _ _ _ _ _ k to []); [exact Hs|elems|cells_tac|cells_tac| |].
  { intros n y []%elem_of_nil. }
  cellsimp. clear s Hs. intros s Hs. apply wp_ret. eapply sess_ext; [exact Hs|].
  intros y. unfold cells, upd. destruct (Z.eqb_spec y to) as [->|]; [unfold to; by rewrite Hto|].
  destruct (Z.eqb_spec y b) as [->|]; [by rewrite Hb|done].
Qed.

(** The body of [install_trans] copies slot [i] of the log to its home. *)
Definition unpin (P : pins) (b : Z) : pins := upd P b None.

(** The end of the body: both buffers are released, the home block clean. *)
Lemma install_release s0 d w A P s k j to b :
  sess s0 d w A [(j, b); (k, to)] s -> b <> to -> P to = None ->
  A b = mk_cell (d b) 1 (Some pid) -> A to = mk_cell (d to) 1 (Some pid) ->
  (forall y, y <> b -> y <> to -> A y = cells d P y) ->
  wp (brelse k ;;; brelse j) (fun _ s' => sess s0 d w (cells d (unpin P b)) [] s') s.
Proof using BC.
  intros Hs Hne Hto Ab Ato Hy.
  eapply (sess_brelse _ _ _ _ _ _ _ _ k to [(j, b)]); [exact Hs|elems|by rewrite Ato|by rewrite Ato| |].
  { intros n y [= -> ->]%list_elem_of_singleton. split; [elems|done]. }
  rewrite Ato. cbn [c_data c_ref c_owner]. clear s Hs. intros s Hs. rewrite <- (bind_ret_r (brelse j)).
  eapply (sess_brelse _ _ _ _ _ _ _ _ j b []); [exact Hs|elems|cellsimp; by rewrite Ab|cellsimp; by rewrite Ab| |].
  { intros n y []%elem_of_nil. }
  cellsimp. rewrite Ab. clear s Hs. intros s Hs. apply wp_ret. eapply sess_ext; [exact Hs|].
  intros y. unfold cells, unpin, upd. destruct (Z.eqb_spec y b) as [->|Hyb]; [done|].
  destruct (Z.eqb_spec y to) as [->|Hyt]; [by rewrite Hto|]. rewrite Hy by done. done.
Qed.

Lemma install_body_spec s0 d w P s start bs i b (rcv : bool) :
  sess s0 d w (cells d P) [] s -> log_at dev (k_log s0) start bs -> bs !! i = Some b ->
  b <> slot start i -> P (slot start i) = None -> pinned_below P bhead ->
  (if rcv then P = no_pins else is_Some (P b)) ->
  let x := d (slot start i) in
  wp (install_trans_body rcv (Z.of_nat i))
     (fun _ s' => sess s0 (upd d b x) ((b, x) :: w) (cells (upd d b x) (unpin P b)) [] s') s.
Proof using BC.
  intros Hs Hla Hbs Hne Hto Hpin Hrcv x. set (to := slot start i) in *.
  assert (cells d P to = idle (d to)) as Ato by (unfold cells; by rewrite Hto).
  assert (exists y, cells d P b = mk_cell y (if rcv then 0 else 1) None) as [y Ab].
  { unfold cells. destruct rcv; [rewrite Hrcv; by eexists|]. destruct Hrcv as [y ->]. by eexists. }
  assert (i < Z.to_nat LOGSIZE)%nat as Hi by (apply lookup_lt_Some in Hbs; pose proof (la_max _ _ _ _ Hla); lia).
  unfold install_trans_body. do 2 (eapply wp_log_get; [exact Hs|]).
  rewrite (la_start _ _ _ _ Hla), (slot_u32 _ _ _ _ Hla Hi), (dev_u32 _ _ _ Hla). fold to.
  eapply sess_bread; [exact Hs|by rewrite Ato|rewrite Ato; cells_tac|by apply cells_room|].
  rewrite Ato. cbn [c_data c_ref c_owner idle]. clear s Hs. intros k s Hs.
  eapply wp_lh_block_get; [exact Hs|exact Hla|exact Hbs|]. rewrite (home_u32 _ _ _ _ _ Hla Hbs).
  eapply sess_bread; [exact Hs|cellsimp; by rewrite Ab|cellsimp; rewrite Ab; destruct rcv; cells_tac| |].
  { destruct rcv; [right|left; cellsimp; rewrite Ab; cells_tac]. exists [to]. split; [|by apply Nat.ltb_lt].
    intros z. unfold upd. destruct (Z.eqb_spec z to) as [->|]; [elems|]. unfold cells. rewrite Hrcv. cbn. lia. }
  cellsimp. rewrite Ab. cbn [c_data c_ref c_owner]. clear s Hs. intros j s Hs.
  eapply (sess_bdata _ _ _ _ _ _ _ _ k to); [exact Hs|elems|]. cellsimp.
  eapply (sess_bdata_mod _ _ _ _ _ _ _ _ j b); [exact Hs|elems|]. cellsimp. clear s Hs. intros s Hs.
  eapply (sess_bwrite _ _ _ _ _ _ _ _ j b); [exact Hs|elems|cells_tac|]. cellsimp. clear s Hs. intros s Hs.
  assert (forall z, z <> b -> z <> to -> cells d P z = cells (upd d b x) P z) as Hz.
  { intros z Hz _. unfold cells. by rewrite upd_other. }
  destruct rcv; cbn [negb when].
  - eapply install_release; [exact Hs|done|done|cells_tac|cells_tac|].
    intros z Hzb Hzt. cellsimp. by apply Hz.
  - eapply (sess_bunpin _ _ _ _ _ _ _ _ j b); [exact Hs|elems|cells_tac|]. cellsimp. clear s Hs. intros s Hs.
    eapply install_release; [exact Hs|done|done|cells_tac|cells_tac|].
    intros z Hzb Hzt. cellsimp. by apply Hz.
Qed.

(** ** The loops *)

Lemma write_log_spec s0 d w P s start bs xs :
  sess s0 d w (cells d P) [] s -> log_at dev (k_log s0) start bs ->
  Forall2 (fun b x => P b = Some x) bs xs -> (forall i, (i < length bs)%nat -> P (slot start i) = None) ->
  pinned_below P bhead ->
  let ws := log_writes start xs in
  wp write_log (fun _ s' => sess s0 (apply_writes d ws) (reverse ws ++ w) (cells (apply_writes d ws) P) [] s') s.
Proof using BC.
  intros Hs Hla Hbx Hslot Hpin ws. unfold write_log. eapply wp_log_get; [exact Hs|].
  rewrite (la_n _ _ _ _ Hla). pose proof (Forall2_length _ _ _ Hbx) as Hlen.
  assert (length ws = length bs) as Hlw by (unfold ws, log_writes; by rewrite length_imap).
  pose (I := fun i s' => sess s0 (apply_writes d (take i ws)) (reverse (take i ws) ++ w)
                           (cells (apply_writes d (take i ws)) P) [] s').
  eapply wp_mono; [apply (wp_mfor_seqZ I); [exact Hs|]|].
  - clear s Hs. intros i s Hi Hs. unfold I in *.
    destruct (lookup_lt_is_Some_2 bs i Hi) as [b Hb].
    destruct (Forall2_lookup_l _ _ _ _ _ Hbx Hb) as (x & Hx & HP).
    assert (ws !! i = Some (slot start i, x)) as Hw by (unfold ws, log_writes; by rewrite list_lookup_imap, Hx).
    rewrite (take_S_r _ _ _ Hw), apply_writes_app, reverse_snoc.
    by eapply write_log_body_spec; [exact Hs|..]; auto.
  - unfold I. intros u s' H. by rewrite <- Hlw, firstn_all in H.
Qed.

Lemma unpins_take P bs i b :
  bs !! i = Some b -> unpin (unpins P (take i bs)) b = unpins P (take (S i) bs).
Proof.
  intros Hb. apply functional_extensionality. intros y. rewrite (take_S_r _ _ _ Hb).
  unfold unpin, unpins, upd. destruct (Z.eqb_spec y b) as [->|Hne].
  - by rewrite decide_True by elems.
  - destruct (decide (y ∈ take i bs)) as [H|H].
    + rewrite decide_True; [done|]. apply elem_of_app. by left.
    + rewrite decide_False; [done|]. rewrite elem_of_app, list_elem_of_singleton. tauto.
Qed.

Lemma unpins_below P bs n : pinned_below P n -> pinned_below (unpins P bs) n.
Proof.
  intros (l & Hl & Hlt). exists l. split; [|done]. intros x. unfold unpins.
  destruct (decide (x ∈ bs)); [by intros [? ?]|]. apply Hl.
Qed.

Lemma install_trans_spec s0 d w P s start bs (rcv : bool) :
  sess s0 d w (cells d P) [] s -> log_at dev (k_log s0) start bs -> off_log start bs ->
  (forall i, (i < length bs)%nat -> P (slot start i) = None) -> pinned_below P bhead ->
  (if rcv then P = no_pins else NoDup bs /\ forall b, b ∈ bs -> is_Some (P b)) ->
  let ws := home_writes d start bs in
  wp (install_trans rcv)
    (fun _ s' => sess s0 (apply_writes d ws) (reverse ws ++ w) (cells (apply_writes d ws) (unpins P bs)) [] s') s.
Proof using BC.
  intros Hs Hla Hoff Hslot Hpin Hrcv ws. unfold install_trans. eapply wp_log_get; [exact Hs|].
  rewrite (la_n _ _ _ _ Hla).
  assert (length ws = length bs) as Hlw by (unfold ws, home_writes; by rewrite length_imap).
  pose (I := fun i s' => sess s0 (apply_writes d (take i ws)) (reverse (take i ws) ++ w)
                           (cells (apply_writes d (take i ws)) (unpins P (take i bs))) [] s').
  eapply wp_mono; [apply (wp_mfor_seqZ I); [exact Hs|]|].
  - clear s Hs. intros i s Hi Hs. unfold I in *.
    destruct (lookup_lt_is_Some_2 bs i Hi) as [b Hb].
    assert (ws !! i = Some (b, d (slot start i))) as Hw by (unfold ws, home_writes; by rewrite list_lookup_imap, Hb).
    assert (i < Z.to_nat LOGSIZE)%nat as Hi' by (pose proof (la_max _ _ _ _ Hla); lia).
    assert (apply_writes d (take i ws) (slot start i) = d (slot start i)) as Hsl.
    { apply apply_writes_out. rewrite fmap_take. unfold ws. rewrite home_writes_fst. intros Hin.
      apply (Hoff (slot start i) i); [|done|done]. by eapply elem_of_take in Hin as (? & Hin%list_elem_of_lookup_2 & _). }
    rewrite (take_S_r _ _ _ Hw), apply_writes_app, reverse_snoc, <- (unpins_take P bs i b Hb), <- Hsl.
    eapply install_body_spec; [exact Hs|exact Hla|exact Hb| | | |].
    + apply Hoff; [by eapply list_elem_of_lookup_2|done].
    + unfold unpins. destruct (decide _); [done|]. by apply Hslot.
    + by apply unpins_below.
    + destruct rcv.
      * rewrite Hrcv. apply functional_extensionality. intros y. unfold unpins. by destruct (decide _).
      * destruct Hrcv as [Hnd Hp]. unfold unpins. rewrite decide_False; [apply Hp; by eapply list_elem_of_lookup_2|].
        intros (j & Hj & Hlt)%elem_of_take. assert (j = i) by (by eapply NoDup_lookup). lia.
  - unfold I. intros u s' H. by rewrite <- Hlw, firstn_all, Hlw, firstn_all in H.
Qed.

(** ** The header *)

(** The header block [write_head] writes over [d]. *)
Fixpoint put_blocks (d : block) (i : Z) (bs : list Z) : block :=
  match bs with [] => d | b :: bs' => put_blocks (store32 d (4 + 4 * i) (u32 b)) (i + 1) bs' end.

Definition put_head (d : block) (bs : list Z) : block :=
  put_blocks (store32 d 0 (u32 (Z.of_nat (length bs)))) 0 bs.

Lemma put_blocks_snoc d i bs b :
  put_blocks d i (bs ++ [b]) = store32 (put_blocks d i bs) (4 + 4 * (i + Z.of_nat (length bs))) (u32 b).
Proof.
  revert d i. induction bs as [|a bs IH]; intros d i; cbn [put_blocks app length].
  - by rewrite Z.add_0_r.
  - rewrite IH. do 2 f_equal. lia.
Qed.

Lemma write_head_spec s0 d w P s start bs :
  sess s0 d w (cells d P) [] s -> log_at dev (k_log s0) start bs -> P start = None -> pinned_below P bhead ->
  let x := put_head (d start) bs in
  wp write_head (fun _ s' => sess s0 (upd d start x) ((start, x) :: w) (cells (upd d start x) P) [] s') s.
Proof using BC.
  intros Hs Hla Hst Hpin x. unfold write_head. do 2 (eapply wp_log_get; [exact Hs|]).
  assert (cells d P start = idle (d start)) as Ast by (unfold cells; by rewrite Hst).
  assert (u32 start = start) as Eu by (pose proof (la_range _ _ _ _ Hla); unfold u32; lia).
  rewrite (la_start _ _ _ _ Hla), Eu, (dev_u32 _ _ _ Hla).
  eapply sess_bread; [exact Hs|by rewrite Ast|rewrite Ast; cells_tac|by apply cells_room|].
  rewrite Ast. cbn [c_data c_ref c_owner idle]. clear s Hs. intros k s Hs.
  eapply wp_log_get; [exact Hs|]. rewrite (la_n _ _ _ _ Hla).
  eapply sess_bdata_mod; [exact Hs|elems|]. cellsimp. clear s Hs. intros s Hs.
  set (d1 := store32 (d start) 0 (u32 (Z.of_nat (length bs)))) in Hs.
  pose (I := fun (i : nat) s' => sess s0 d w (upd (cells d P) start
                (mk_cell (put_blocks d1 0 (take i bs)) 1 (Some pid))) [(k, start)] s').
  apply wp_bind. eapply wp_mono; [apply (wp_mfor_seqZ I)|].
  - unfold I. eapply sess_ext; [exact Hs|]. intros y. unfold upd. by destruct (y =? start).
  - clear s Hs. intros i s Hi Hs. unfold I in *. destruct (lookup_lt_is_Some_2 bs i Hi) as [b Hb].
    eapply wp_lh_block_get; [exact Hs|exact Hla|exact Hb|]. rewrite <- (bind_ret_r (bdata_mod _ _)).
    eapply sess_bdata_mod; [exact Hs|elems|]. cellsimp. clear s Hs. intros s Hs. apply wp_ret.
    rewrite (take_S_r _ _ _ Hb), put_blocks_snoc, length_take_le by lia.
    eapply sess_ext; [exact Hs|]. intros y. unfold upd. by destruct (y =? start).
  - clear s Hs. unfold I. intros u s Hs. rewrite firstn_all in Hs.
    change (put_blocks d1 0 bs) with x in Hs.
    eapply sess_bwrite; [exact Hs|elems|cells_tac|]. cellsimp. clear s Hs. intros s Hs.
    rewrite <- (bind_ret_r (brelse k)).
    eapply (sess_brelse _ _ _ _ _ _ _ _ k start []); [exact Hs|elems|cells_tac|cells_tac| |].
    { intros n y []%elem_of_nil. }
    cellsimp. clear s Hs. intros s Hs. apply wp_ret. eapply sess_ext; [exact Hs|].
    intros y. unfold cells, upd. destruct (Z.eqb_spec y start) as [->|]; [by rewrite Hst|done].
Qed.

(** Block [x] is a header that names [bs]. *)
Definition head_is (x : block) (bs : list Z) : Prop :=
  hd_n x = Z.of_nat (length bs) /\ forall i b, bs !! i = Some b -> hd_block x (Z.of_nat i) = b.

Lemma put_blocks_below d i bs a :
  a + 4 <= 4 + 4 * i -> load32 (put_blocks d i bs) a = load32 d a.
Proof.
  revert d i. induction bs as [|b bs IH]; intros d i Ha; cbn [put_blocks]; [done|].
  rewrite IH by lia. apply (loadn_storen_out 4 4). lia.
Qed.

Lemma put_blocks_at d i bs j b :
  bs !! j = Some b -> load32 (put_blocks d i bs) (4 + 4 * (i + Z.of_nat j)) = u32 b.
Proof.
  revert d i j. induction bs as [|a bs IH]; intros d i j Hj; [done|]. cbn [put_blocks].
  destruct j as [|j]; cbn in Hj.
  - injection Hj as ->. rewrite Z.add_0_r, put_blocks_below by lia.
    unfold load32, store32. rewrite loadn_storen_same. unfold u32. change (256 ^ Z.of_nat 4) with (2 ^ 32). lia.
  - rewrite <- (IH (store32 d (4 + 4 * i) (u32 a)) (i + 1) j Hj). f_equal. lia.
Qed.

Lemma s32_u32 x : s32 (u32 x) = s32 x.
Proof. unfold s32, u32. by rewrite Z.mod_mod. Qed.

Lemma put_head_is d bs :
  (length bs <= Z.to_nat LOGSIZE)%nat -> Forall (fun b => 0 <= b < 2 ^ 31) bs -> head_is (put_head d bs) bs.
Proof.
  intros Hlen Hbs. unfold put_head. split.
  - unfold hd_n. rewrite put_blocks_below by lia.
    unfold load32, store32. rewrite loadn_storen_same. change (256 ^ Z.of_nat 4) with (2 ^ 32).
    fold (u32 (u32 (Z.of_nat (length bs)))). rewrite !s32_u32. apply s32_id.
    unfold LOGSIZE, MAXOPBLOCKS in Hlen. lia.
  - intros i b Hb. unfold hd_block. rewrite <- (Z.add_0_l (Z.of_nat i)), (put_blocks_at _ _ _ _ b Hb), s32_u32.
    apply s32_id. rewrite Forall_lookup in Hbs. specialize (Hbs i b Hb). lia.
Qed.

(** ** Changes to the log's own variables *)

Lemma sess_log_mod {R} s0 d w A H s f (k : unit -> M kstate R) Q :
  sess s0 d w A H s ->
  (forall s', sess (set_k_log (f (k_log s0)) s0) d w A H s' -> wp (k tt) Q s') ->
  wp (bind (log_mod f) k) Q s.
Proof using BC.
  intros Hs Hk. apply wp_bind. eapply wp_ok; [reflexivity|]. apply Hk.
  pose proof (bframe_log _ _ _ (ss_frame _ _ _ _ _ _ _ _ Hs)) as El.
  destruct Hs as [H1 H2 [H3 H3'] H4 H5 H6]. split; cbn.
  - by destruct H1; split.
  - by eapply (bc_frame s).
  - split; [|done]. rewrite El.
    change (core (set_k_log (f (k_log s0)) s)) with (set_k_log (f (k_log s0)) (core s)). by rewrite H3.
  - done.
  - done.
  - intros i b Hi. destruct (H6 i b Hi). split; [|done]. by eapply bc_hold_frame.
Qed.

Lemma log_at_clear l start bs : log_at dev l start bs -> log_at dev (set_lh_n_of 0 l) start [].
Proof. intros []. split; try done. cbn. lia. Qed.

(** ** commit *)

(** The writes of a commit, in order: the log, the header, the home blocks,
    the empty header. *)
Definition commit_writes (d : Z -> block) (start : Z) (bs : list Z) (xs : list block) : list (Z * block) :=
  let h := put_head (d start) bs in
  log_writes start xs ++ [(start, h)] ++ zip bs xs ++ [(start, put_head h [])].

(** What a commit needs: the blocks [bs] of the transaction are pinned with
    contents [xs], and neither they nor any other pinned block is in the log. *)
Record committable (P : pins) (start : Z) (bs : list Z) (xs : list block) : Prop := {
  cm_pins : Forall2 (fun b x => P b = Some x) bs xs;
  cm_nodup : NoDup bs;
  cm_off : off_log start bs;
  cm_start : P start = None;
  cm_slots : forall i, (i < Z.to_nat LOGSIZE)%nat -> P (slot start i) = None;
  cm_room : pinned_below P bhead
}.

Lemma log_writes_start d start xs : apply_writes d (log_writes start xs) start = d start.
Proof.
  apply apply_writes_out. intros (i & Hi)%list_elem_of_lookup. apply log_writes_fst in Hi as [Hi _].
  unfold slot in Hi. lia.
Qed.

Lemma log_writes_slot d start xs i x : xs !! i = Some x -> apply_writes d (log_writes start xs) (slot start i) = x.
Proof.
  intros Hx. apply apply_writes_in.
  - apply NoDup_alt. intros j k b Hj Hk. apply log_writes_fst in Hj as [-> _], Hk as [Hk _].
    unfold slot in Hk. lia.
  - apply list_elem_of_lookup. exists i. unfold log_writes. by rewrite list_lookup_imap, Hx.
Qed.

Lemma home_writes_logged d start bs xs h :
  length bs = length xs ->
  home_writes (upd (apply_writes d (log_writes start xs)) start h) start bs = zip bs xs.
Proof.
  intros Hlen. apply list_eq. intros i. unfold home_writes. rewrite list_lookup_imap, lookup_zip_with.
  destruct (bs !! i) as [b|] eqn:Eb; [|done]. apply lookup_lt_Some in Eb.
  destruct (lookup_lt_is_Some_2 xs i) as [x Ex]; [lia|]. rewrite Ex. cbn.
  rewrite upd_other by (unfold slot; lia). by rewrite (log_writes_slot d start xs i x Ex).
Qed.

Lemma commit_spec s0 d w P s start bs xs :
  sess s0 d w (cells d P) [] s -> log_at dev (k_log s0) start bs -> committable P start bs xs -> bs <> [] ->
  let ws := commit_writes d start bs xs in
  wp commit (fun _ s' => sess (set_k_log (set_lh_n_of 0 (k_log s0)) s0) (apply_writes d ws) (reverse ws ++ w)
                           (cells (apply_writes d ws) (unpins P bs)) [] s') s.
Proof using BC.
  intros Hs Hla [Hp Hnd Hoff Hst Hsl Hroom] Hne ws. unfold commit. eapply wp_log_get; [exact Hs|].
  pose proof (Forall2_length _ _ _ Hp) as Hlen. pose proof (la_max _ _ _ _ Hla) as Hmax.
  rewrite (la_n _ _ _ _ Hla). replace (0 <? Z.of_nat (length bs)) with true by (destruct bs; [done|]; symmetry; apply Z.ltb_lt; cbn; lia).
  cbn [when]. apply wp_bind. eapply wp_mono; [eapply write_log_spec; [exact Hs|exact Hla|exact Hp| |done]|].
  { intros i Hi. apply Hsl. lia. }
  clear s Hs. intros u s Hs. apply wp_bind.
  eapply wp_mono; [eapply write_head_spec; [exact Hs|exact Hla|done|done]|]. rewrite log_writes_start.
  set (h := put_head (d start) bs). clear s Hs. intros u' s Hs. apply wp_bind.
  eapply wp_mono; [eapply (install_trans_spec _ _ _ _ _ start bs false); [exact Hs|exact Hla|done| |done|]|].
  { intros i Hi. apply Hsl. lia. }
  { split; [done|]. intros b (i & Hi)%list_elem_of_lookup. destruct (Forall2_lookup_l _ _ _ _ _ Hp Hi) as (x & _ & ->). done. }
  clear s Hs. intros u'' s Hs. cbv beta in Hs. rewrite (home_writes_logged d start bs xs h Hlen) in Hs.
  eapply sess_log_mod; [exact Hs|]. clear s Hs. intros s Hs.
  eapply wp_mono; [eapply write_head_spec; [exact Hs|by eapply log_at_clear| |]|].
  { unfold unpins. by destruct (decide _). }
  { by apply unpins_below. }
  assert (start ∉ bs) as Hsb.
  { intros (i & Hi)%list_elem_of_lookup. destruct (Forall2_lookup_l _ _ _ _ _ Hp Hi) as (x & _ & E). congruence. }
  rewrite apply_writes_out by (rewrite fst_zip by lia; done). rewrite upd_same. clear s Hs. intros u3 s Hs. cbv beta in Hs.
  unfold ws, commit_writes. fold h. rewrite !apply_writes_app, !reverse_app. cbn. cbn in Hs.
  by rewrite <- !app_assoc.
Qed.

(** ** Recovery *)

(** The log's fixed variables, whatever its header says. *)
Record log_set (l : logst) (start : Z) : Prop := {
  lg_dev : log_dev l = dev;
  lg_start : log_start l = start;
  lg_len : length (lh_block (log_lh l)) = Z.to_nat LOGSIZE;
  lg_range : 0 <= dev < 2 ^ 31 /\ 0 <= start < 2 ^ 31 - 64
}.

(** The first [i] entries of the header have been read. *)
Record head_read (l : logst) (start : Z) (bs : list Z) (i : nat) : Prop := {
  hr_set : log_set l start;
  hr_n : lh_n_of l = Z.of_nat (length bs);
  hr_bs : forall j b, (j < i)%nat -> bs !! j = Some b -> lh_block (log_lh l) !! j = Some b
}.

Lemma head_read_step l start bs i b :
  head_read l start bs i -> bs !! i = Some b -> (length bs <= Z.to_nat LOGSIZE)%nat ->
  head_read (set_log_lh (set_lh_block (<[i := b]> (lh_block (log_lh l))) (log_lh l)) l) start bs (S i).
Proof.
  intros [[H1 H2 H3 H4] H5 H6] Hb Hmax. assert (i < length bs)%nat as Hi by (by eapply lookup_lt_Some).
  split; [split; try done|done|].
  - cbn. by rewrite length_insert.
  - cbn. intros j c Hj Hc. destruct (decide (j = i)) as [->|Hne].
    + rewrite list_lookup_insert_eq by lia. congruence.
    + rewrite list_lookup_insert_ne by done. apply H6; [lia|done].
Qed.

Lemma read_head_spec s0 d w s start bs :
  sess s0 d w (cells d no_pins) [] s -> log_set (k_log s0) start -> head_is (d start) bs ->
  (length bs <= Z.to_nat LOGSIZE)%nat ->
  wp read_head (fun _ s' => exists l, head_read l start bs (length bs) /\
                  sess (set_k_log l s0) d w (cells d no_pins) [] s') s.
Proof using BC.
  intros Hs Hlg [Hn Hhb] Hmax. unfold read_head. do 2 (eapply wp_log_get; [exact Hs|]).
  assert (u32 start = start) as Eu by (pose proof (lg_range _ _ Hlg); unfold u32; lia).
  assert (u32 (log_dev (k_log s0)) = dev) as Ed by (rewrite (lg_dev _ _ Hlg); pose proof (lg_range _ _ Hlg); unfold u32; lia).
  rewrite (lg_start _ _ Hlg), Eu, Ed.
  eapply sess_bread; [exact Hs|done|done|apply cells_room; exists []; split; [by intros x [? ?]|by apply Nat.ltb_lt]|].
  cbn [c_data c_ref c_owner cells no_pins idle]. clear s Hs. intros k s Hs.
  eapply sess_bdata; [exact Hs|elems|]. cellsimp. rewrite Hn. eapply sess_log_mod; [exact Hs|].
  clear s Hs. intros s Hs. apply wp_bind.
  pose (I := fun (i : nat) s' => exists l, head_read l start bs i /\
                sess (set_k_log l s0) d w (upd (cells d no_pins) start (mk_cell (d start) 1 (Some pid))) [(k, start)] s').
  eapply wp_mono; [apply (wp_mfor_seqZ I)|].
  - exists (set_lh_n_of (Z.of_nat (length bs)) (k_log s0)). split; [|exact Hs].
    destruct Hlg. split; [by split|done|lia].
  - clear s Hs. intros i s Hi (l & Hl & Hs). destruct (lookup_lt_is_Some_2 bs i Hi) as [b Hb].
    unfold lh_block_put.
    replace ((0 <=? Z.of_nat i) && (Z.of_nat i <? LOGSIZE)) with true by (symmetry; zdec; try done; lia).
    rewrite <- (bind_ret_r (log_mod _)). eapply sess_log_mod; [exact Hs|]. clear s Hs. intros s Hs. apply wp_ret.
    eexists. split; [|exact Hs]. cbn. rewrite Nat2Z.id, (Hhb i b Hb). by apply head_read_step.
  - clear s Hs. intros u s (l & Hl & Hs). rewrite <- (bind_ret_r (brelse k)).
    eapply (sess_brelse _ _ _ _ _ _ _ _ k start []); [exact Hs|elems|cells_tac|cells_tac| |].
    { intros n y []%elem_of_nil. }
    cellsimp. clear s Hs. intros s Hs. apply wp_ret. exists l. split; [done|]. eapply sess_ext; [exact Hs|].
    intros y. unfold cells, upd. cbn. by destruct (Z.eqb_spec y start) as [->|].
Qed.

(** The disk after recovery from a disk [d] whose header names [bs]. *)
Definition recover_writes (d : Z -> block) (start : Z) (bs : list Z) : list (Z * block) :=
  home_writes d start bs ++ [(start, put_head (d start) [])].

Lemma recover_spec s0 d w s start bs :
  sess s0 d w (cells d no_pins) [] s -> log_set (k_log s0) start -> head_is (d start) bs ->
  (length bs <= Z.to_nat LOGSIZE)%nat -> Forall (fun b => 0 <= b < 2 ^ 31) bs -> off_log start bs -> start ∉ bs ->
  let ws := recover_writes d start bs in
  wp recover_from_log (fun _ s' => exists l, log_at dev l start [] /\
    sess (set_k_log l s0) (apply_writes d ws) (reverse ws ++ w) (cells (apply_writes d ws) no_pins) [] s') s.
Proof using BC.
  intros Hs Hlg Hhd Hmax Hbs Hoff Hst ws. unfold recover_from_log. apply wp_bind.
  eapply wp_mono; [by eapply read_head_spec|]. clear s Hs. intros u s (l & [[H1 H2 H3 H4] H5 H6] & Hs). apply wp_bind.
  assert (log_at dev (k_log (set_k_log l s0)) start bs) as Hla.
  { split; try done. cbn. intros i b Hb. apply H6; [by eapply lookup_lt_Some|done]. }
  assert (pinned_below no_pins bhead) as Hpb by (exists []; split; [by intros x [? ?]|by apply Nat.ltb_lt]).
  eapply wp_mono; [eapply (install_trans_spec _ _ _ _ _ start bs true); [exact Hs|exact Hla|done|done|done|done]|].
  clear s Hs. intros u' s Hs. eapply sess_log_mod; [exact Hs|]. clear s Hs. intros s Hs.
  assert (unpins no_pins bs = no_pins) as Eu by (apply functional_extensionality; intros y; unfold unpins; by destruct (decide _)).
  rewrite Eu in Hs.
  eapply wp_mono; [eapply write_head_spec; [exact Hs|by eapply log_at_clear|done|done]|].
  rewrite apply_writes_out by (by rewrite home_writes_fst). clear s Hs. intros u2 s Hs.
  exists (set_lh_n_of 0 l). split; [by apply (log_at_clear _ _ _ Hla)|].
  unfold ws, recover_writes. rewrite apply_writes_app, reverse_app. exact Hs.
Qed.

(** ** log_write *)

Lemma sess_set_log s0 d w A H s s' l :
  sess s0 d w A H s -> s' = set_k_log l s -> sess (set_k_log l s0) d w A H s'.
Proof using BC.
  intros Hs ->. pose proof (sess_log_mod s0 d w A H s (fun _ => l) ret (fun _ s' => sess (set_k_log l s0) d w A H s') Hs) as Hwp.
  apply Hwp. intros s' Hs'. exact Hs'.
Qed.

(** The transaction after block [b] is added to it. *)
Definition absorb (bs : list Z) (b : Z) : list Z := if decide (b ∈ bs) then bs else bs ++ [b].

Lemma log_slot_spec (l bs : list Z) b :
  (length bs <= length l)%nat -> (forall i x, bs !! i = Some x -> l !! i = Some x) ->
  Forall (fun x => 0 <= x < 2 ^ 31) bs ->
  let i := log_slot l (length bs) b in
  (b ∈ bs /\ bs !! i = Some b) \/ (b ∉ bs /\ i = length bs).
Proof.
  revert l. induction bs as [|x bs IH]; intros l Hlen Hl Hr; cbn [length].
  { right. split; [by intros H%elem_of_nil|]. by destruct l. }
  destruct l as [|y l]; [cbn in Hlen; lia|]. assert (y = x) as -> by (specialize (Hl 0%nat x eq_refl); cbn in Hl; congruence).
  apply Forall_cons in Hr as [Hx Hr]. cbn [log_slot]. replace (u32 x) with x by (unfold u32; lia).
  destruct (Z.eqb_spec x b) as [->|Hne].
  - left. split; [elems|done].
  - destruct (IH l) as [[Hin Hi]|[Hin Hi]]; [cbn in Hlen; lia| |done| |].
    + intros i z Hz. by apply (Hl (S i) z).
    + left. split; [by apply elem_of_cons; right|done].
    + right. split; [|by rewrite Hi]. rewrite elem_of_cons. intros [->|?]; done.
Qed.

(** The log's header with block [b] added. *)
Lemma log_at_absorb l start bs b :
  log_at dev l start bs -> 0 <= b < 2 ^ 31 -> (length bs < Z.to_nat LOGSIZE)%nat ->
  let i := log_slot (lh_block (log_lh l)) (length bs) b in
  let l1 := set_log_lh (set_lh_block (<[i := b]> (lh_block (log_lh l))) (log_lh l)) l in
  log_at dev (if decide (i = length bs) then set_lh_n_of (Z.of_nat (length bs) + 1) l1 else l1) start (absorb bs b).
Proof.
  intros [H1 H2 H3 H4 H5 H6 H7 H8] Hb Hlt i l1.
  destruct (log_slot_spec (lh_block (log_lh l)) bs b) as [[Hin Hi]|[Hin Hi]]; [lia|done|done| |]; fold i in Hi.
  - rewrite decide_False by (apply lookup_lt_Some in Hi; lia). unfold absorb. rewrite decide_True by done.
    unfold l1. rewrite list_insert_id by (by apply H5). by split.
  - rewrite decide_True by done. unfold absorb. rewrite decide_False by done. unfold l1. rewrite Hi.
    split; try done; cbn.
    + rewrite length_app. cbn. lia.
    + by rewrite length_insert.
    + intros j c [Hj|[Hle Hj]]%lookup_app_Some.
      * rewrite list_lookup_insert_ne by (apply lookup_lt_Some in Hj; lia). by apply H5.
      * apply list_lookup_singleton_Some in Hj as [Hz <-]. assert (j = length bs) as -> by lia.
        apply list_lookup_insert_eq. lia.
    + rewrite length_app. cbn. lia.
    + apply Forall_app. by split; [|apply Forall_singleton].
Qed.

(** The variables of the log that [log_write] leaves alone. *)
Definition log_fixed (l l' : logst) : Prop :=
  log_size l' = log_size l /\ log_outstanding l' = log_outstanding l /\ log_committing l' = log_committing l.

Lemma log_write_spec s0 d w A H s start bs i b :
  sess s0 d w A H s -> log_at dev (k_log s0) start bs -> (i, b) ∈ H -> 0 <= b < 2 ^ 31 ->
  Llog ∉ k_held s0 -> (length bs < Z.to_nat LOGSIZE)%nat -> Z.of_nat (length bs) < log_size (k_log s0) - 1 ->
  1 <= log_outstanding (k_log s0) -> c_ref (A b) + 1 < 2 ^ 32 ->
  wp (log_write i) (fun _ s' => exists l, log_at dev l start (absorb bs b) /\ log_fixed (k_log s0) l /\
    sess (set_k_log l s0) d w
      (if decide (b ∈ bs) then A else upd A b (mk_cell (c_data (A b)) (c_ref (A b) + 1) (c_owner (A b)))) H s') s.
Proof using BC.
  intros Hs Hla Hin Hb Hll Hlt Hsz Hout Hmax.
  pose proof (ss_frame _ _ _ _ _ _ _ _ Hs) as Hf. rewrite <- (bframe_log _ _ _ Hf) in Hla, Hsz, Hout.
  rewrite <- (bframe_held _ _ _ Hf) in Hll.
  destruct (ss_hold _ _ _ _ _ _ _ _ Hs i b Hin) as [Hh Hr]. destruct (bc_hold_block s i b Hh) as (bf & Hbf & Ebf).
  pose proof (log_at_absorb (k_log s) start bs b Hla Hb Hlt) as Hla'.
  pose proof (log_slot_spec (lh_block (log_lh (k_log s))) bs b) as Hslot.
  set (j := log_slot (lh_block (log_lh (k_log s))) (length bs) b) in *. cbv zeta in Hla', Hslot.
  assert ((b ∈ bs /\ (j < length bs)%nat) \/ (b ∉ bs /\ j = length bs)) as Hj.
  { destruct Hslot as [[? Hj]|?]; [rewrite (la_len _ _ _ _ Hla); lia|apply Hla|apply Hla| |by right].
    left. split; [done|]. by eapply lookup_lt_Some. }
  clear Hslot. unfold log_write, log_get, wp. run (acquire_ok Llog s Hll). set (s1 := set_k_held _ s).
  change (k_log s1) with (k_log s). rewrite (la_n _ _ _ _ Hla).
  replace ((LOGSIZE <=? Z.of_nat (length bs)) || (log_size (k_log s) - 1 <=? Z.of_nat (length bs))) with false
    by (symmetry; (zdec; try done); lia).
  ksimp. change (k_log s1) with (k_log s).
  replace (log_outstanding (k_log s) <? 1) with false by (symmetry; apply Z.ltb_ge; lia).
  ksimp. run (tab_get_ok k_bufs i bf s1 Hbf : buf_get i s1 = _).
  change (k_log s1) with (k_log s). rewrite Ebf, Nat2Z.id. fold j. unfold lh_block_put.
  replace ((0 <=? Z.of_nat j) && (Z.of_nat j <? LOGSIZE)) with true by (symmetry; zdec; try done; lia).
  unfold log_mod at 1. ksimp. rewrite Nat2Z.id, s32_id by lia. change (k_log s1) with (k_log s).
  set (l1 := set_log_lh _ (k_log s)) in *. set (s2 := set_k_log l1 s1).
  destruct Hj as [[Hbin Hj]|[Hbin Hj]].
  - rewrite decide_False in Hla' by lia. rewrite (proj2 (Z.eqb_neq (Z.of_nat j) (Z.of_nat (length bs)))) by lia.
    cbn [when]. ksimp. rewrite (release_ok Llog s2 (k_held s) eq_refl Hll).
    exists l1. split; [exact Hla'|]. split; [by rewrite <- (bframe_log _ _ _ Hf)|]. rewrite decide_True by done. eapply sess_set_log; [exact Hs|by destruct s].
  - rewrite decide_True in Hla' by done. rewrite (proj2 (Z.eqb_eq (Z.of_nat j) (Z.of_nat (length bs)))) by lia. cbn [when].
    assert (ready s2 me pid) as Hrd2.
    { destruct (ss_ready _ _ _ _ _ _ _ _ Hs) as [R1 R2 R3 R4 R5 R6]. split; try done; cbn.
      - intros k [E|?]%elem_of_cons; [done|]. by apply (R4 k).
      - intros [E|?]%elem_of_cons; [done|]. by apply R5.
      - intros k [E|?]%elem_of_cons; [done|]. by apply (R6 k). }
    assert (crep s2 A) as Hrep2 by (by eapply (bc_frame s); [apply Hs| |]).
    assert (chold s2 i b) as Hh2 by (by eapply bc_hold_frame).
    destruct (bc_bpin s2 me pid A i b Hrd2 Hrep2 Hh2 Hr Hmax) as (s3 & Hpin & [C3 F3 K3] & D3 & W3).
    run Hpin. unfold log_mod. ksimp. rewrite (bframe_log _ _ _ F3). change (k_log s2) with l1.
    set (l2 := set_lh_n_of _ l1) in *.
    rewrite (release_ok Llog (set_k_log l2 s3) (k_held s)); [|by apply (bframe_held _ _ _ F3)|done].
    exists l2. split; [exact Hla'|]. split; [by rewrite <- (bframe_log _ _ _ Hf)|]. rewrite decide_False by done.
    destruct Hs as [S1 S2 [S3 S3'] S4 S5 S6]. destruct F3 as [F3 F3'].
    split.
    + eapply (bframe_ready me pid (set_k_log l2 s)); [|by destruct S1; split].
      split; [|exact F3'].
      change (core (set_k_held (k_held s) (set_k_log l2 s3))) with (set_k_held (k_held s) (set_k_log l2 (core s3))).
      rewrite F3. by destruct s.
    + by eapply (bc_frame s3).
    + split; [|by etrans].
      change (core (set_k_held (k_held s) (set_k_log l2 s3))) with (set_k_held (k_held s) (set_k_log l2 (core s3))).
      rewrite F3. change (core (set_k_log l2 s0)) with (set_k_log l2 (core s0)). rewrite <- S3. by destruct s.
    + rewrite <- S4. exact D3.
    + rewrite <- S5. exact W3.
    + intros k y Hk. destruct (S6 k y Hk) as [G1 G2].
      assert (0 < c_ref (upd A b (mk_cell (c_data (A b)) (c_ref (A b) + 1) (c_owner (A b))) y)) as Hpos.
      { unfold upd. destruct (y =? b); cbn; lia. }
      split; [|exact Hpos]. eapply (bc_hold_frame s3); [|done]. apply K3; [|exact Hpos]. by eapply bc_hold_frame.
Qed.

End log.
