(* ===== verification/Txn.v ===== *)
(** * Inside a transaction

    Rules for the code of kernel/fs.c between [begin_op] and [end_op].  The
    blocks of the transaction are pinned with their new contents and listed in
    the log's header; besides, the thread has a stack of buffers locked, the one
    it locked last on top.  [view] is the file system's state as the code sees
    it: the pinned contents over those of the disk. *)

From Stdlib Require Import FunctionalExtensionality.
From S2P Require Import Prelude Riscv Mem Cstring State Sched SchedSpec Bio BioLocks Cache Session Log LogSpec.

Definition view (d : Z -> block) (P : pins) (b : Z) : block := default (d b) (P b).

(** A locked buffer: its index, its block and its contents. *)
Definition lbuf : Type := nat * Z * block.
Definition lb_blocks (L : list lbuf) : list Z := map (fun t => t.1.2) L.

Lemma lb_blocks_length (L : list lbuf) : length (lb_blocks L) = length L.
Proof. apply length_map. Qed.

(** One turn of a loop. *)
Lemma wp_mloop {S T R} n (body : T -> M S (T + R)) t Q s :
  wp (body t) (fun r s' => match r with inl t' => wp (mloop n body t') Q s' | inr r => Q r s' end) s ->
  wp (mloop (Datatypes.S n) body t) Q s.
Proof. intros H. cbn [mloop]. apply wp_bind. eapply wp_mono; [exact H|]. intros [t'|r] s' H'; [done|]. by apply wp_ret. Qed.

Section txn.
Context {EN : Env} {dev : Z} {crep : kstate -> (Z -> cell) -> Prop} {chold : kstate -> nat -> Z -> Prop}.
Context {BC : BlockCache dev crep chold}.
Variables (me : nat) (pid : Z).

Local Abbreviation sess := (sess (crep := crep) (chold := chold) me pid).

Fixpoint over (d : Z -> block) (P : pins) (L : list lbuf) : Z -> cell :=
  match L with
  | [] => cells d P
  | (_, b, x) :: L' => upd (over d P L') b (mk_cell x (c_ref (over d P L' b) + 1) (Some pid))
  end.

(** [size] is the number of blocks of the log; [bs] the blocks in its header. *)
Record txn (start size : Z) (s0 : kstate) (d : Z -> block) (w : list (Z * block)) (P : pins) (bs : list Z)
    (L : list lbuf) (s : kstate) : Prop := {
  t_sess : exists l, sess (set_k_log l s0) d w (over d P L) (map fst L) s /\ log_at dev l start bs /\
    log_size l = size /\ 1 <= log_outstanding l;
  t_pins : forall b, is_Some (P b) <-> b ∈ bs;
  t_nodup : NoDup (lb_blocks L);
  t_lock : Llog ∉ k_held s0
}.

Lemma over_out d P L b : b ∉ lb_blocks L -> over d P L b = cells d P b.
Proof.
  induction L as [|[[i x] v] L IH]; intros H; [done|]. cbn in H. apply not_elem_of_cons in H as [H1 H2].
  cbn. rewrite upd_other by done. by apply IH.
Qed.

Lemma over_head d P L i b x : b ∉ lb_blocks L ->
  over d P ((i, b, x) :: L) b = mk_cell x (match P b with Some _ => 2 | None => 1 end) (Some pid).
Proof. intros H. cbn. rewrite upd_same, over_out by done. unfold cells. by destruct (P b). Qed.

Lemma over_ref_le d P L b : NoDup (lb_blocks L) -> 0 <= c_ref (over d P L b) <= 2.
Proof.
  intros Hn. induction L as [|[[i x] v] L IH]; cbn.
  - unfold cells. destruct (P b); cbn; lia.
  - cbn in Hn. apply NoDup_cons in Hn as [Hx Hn]. unfold upd. destruct (Z.eqb_spec b x) as [->|]; [|by apply IH].
    rewrite over_out by done. unfold cells. destruct (P x); cbn; lia.
Qed.

(** Changing the pin of one block. *)
Lemma over_upd d P L b x y : y <> b \/ y ∈ lb_blocks L -> NoDup (lb_blocks L) -> b ∉ lb_blocks L ->
  over d (upd P b x) L y = over d P L y.
Proof.
  intros Hy Hn Hb. induction L as [|[[i z] v] L IH]; cbn.
  - destruct Hy as [Hy|Hy%elem_of_nil]; [|done]. unfold cells. by rewrite upd_other.
  - cbn in Hn, Hb, Hy. apply NoDup_cons in Hn as [Hz Hn]. apply not_elem_of_cons in Hb as [Hb1 Hb2].
    destruct (decide (y = z)) as [->|Hne].
    + rewrite !upd_same, !over_out by done. unfold cells. by rewrite upd_other by congruence.
    + rewrite !(upd_other _ z) by done. apply IH; [|done|done]. destruct Hy as [?|[?|?]%elem_of_cons]; [by left|done|by right].
Qed.

Lemma over_room d P L bs b :
  (forall x, is_Some (P x) <-> x ∈ bs) -> (length bs + length L < bhead)%nat -> room (over d P L) b.
Proof.
  intros HP Hl. right. exists (bs ++ lb_blocks L). split; [|rewrite length_app, lb_blocks_length; lia].
  intros x Hx. apply elem_of_app. destruct (decide (x ∈ lb_blocks L)); [by right|]. left. apply HP.
  rewrite over_out in Hx by done. unfold cells in Hx. destruct (P x); [done|]. cbn in Hx. lia.
Qed.

Section rules.
Variables (start size : Z) (s0 : kstate) (d : Z -> block) (w : list (Z * block)).
Local Abbreviation txn := (txn start size s0 d w).

Lemma txn_bread {R} P bs L s b (k : nat -> M kstate R) Q :
  txn P bs L s -> b ∉ lb_blocks L -> (length bs + length L < bhead)%nat ->
  (forall i s', txn P bs ((i, b, view d P b) :: L) s' -> wp (k i) Q s') ->
  wp (bind (bread dev b) k) Q s.
Proof using BC.
  intros [(l & Hs & Hl & Hz & Ho) HP Hn Hk] Hb Hroom Hnext.
  eapply sess_bread; [exact Hs| | |by eapply over_room|].
  - rewrite over_out by done. unfold cells. by destruct (P b).
  - pose proof (over_ref_le d P L b Hn). lia.
  - intros i s' Hs'. apply Hnext. split; try done; [|by constructor].
    exists l. split; [|done]. cbn. rewrite over_out in Hs' |- * by done.
    assert (c_data (cells d P b) = view d P b) as <- by (unfold cells, view; by destruct (P b)). exact Hs'.
Qed.

Lemma txn_bdata {R} P bs L s i b x (k : block -> M kstate R) Q :
  txn P bs ((i, b, x) :: L) s -> wp (k x) Q s -> wp (bind (bdata i) k) Q s.
Proof using BC.
  intros [(l & Hs & _) _ _ _] Hk. eapply (sess_bdata me pid _ _ _ _ _ _ i b); [exact Hs|cbn; elems|].
  cbn. by rewrite upd_same.
Qed.

Lemma txn_bdata_mod {R} P bs L s i b x f (k : unit -> M kstate R) Q :
  txn P bs ((i, b, x) :: L) s -> (forall s', txn P bs ((i, b, f x) :: L) s' -> wp (k tt) Q s') ->
  wp (bind (bdata_mod i f) k) Q s.
Proof using BC.
  intros [(l & Hs & Hl & Hz & Ho) HP Hn Hk] Hnext.
  eapply (sess_bdata_mod me pid _ _ _ _ _ _ i b); [exact Hs|cbn; elems|]. intros s' Hs'. apply Hnext. split; try done.
  exists l. split; [|done]. eapply sess_ext; [exact Hs'|]. intros y. cbn. rewrite upd_same. cbn. unfold upd. by destruct (y =? b).
Qed.

Lemma txn_log_write {R} P bs L s i b x (k : unit -> M kstate R) Q :
  txn P bs ((i, b, x) :: L) s -> 0 <= b < 2 ^ 31 -> (length bs < Z.to_nat LOGSIZE)%nat -> Z.of_nat (length bs) < size - 1 ->
  (forall s', txn (upd P b (Some x)) (absorb bs b) ((i, b, x) :: L) s' -> wp (k tt) Q s') ->
  wp (bind (log_write i) k) Q s.
Proof using BC.
  intros [(l & Hs & Hl & Hz & Ho) HP Hn Hk] Hb Hlt Hsz Hnext. pose proof Hn as [Hb' Hn']%NoDup_cons. cbn in Hb'.
  apply wp_bind. eapply wp_mono; [eapply (log_write_spec me pid _ _ _ _ _ _ start bs i b); [exact Hs|done|cbn; elems|..]|].
  - done.
  - done.
  - done.
  - cbn. lia.
  - done.
  - pose proof (over_ref_le d P ((i, b, x) :: L) b Hn). lia.
  - intros u s' (l' & Hl' & (E1 & E2 & _) & Hs'). destruct u. apply Hnext. split; try done.
    + exists l'. split; [|cbn in E1, E2; split; [done|split; lia]]. eapply sess_ext; [exact Hs'|]. intros y. cbn [over].
      pose proof (over_head d P L i b x Hb') as Eh. cbn [over] in Eh.
      destruct (Z.eqb_spec y b) as [->|Hne].
      * rewrite upd_same. rewrite over_out by done. unfold cells at 1. rewrite upd_same. cbn.
        destruct (decide (b ∈ bs)) as [Hin|Hin].
        -- rewrite Eh. apply HP in Hin as [v ->]. done.
        -- rewrite !upd_same, over_out by done. unfold cells. destruct (P b) eqn:E; [|done].
           exfalso. apply Hin, HP. by rewrite E.
      * rewrite upd_other by done. rewrite over_upd by (first [by left|done]).
        destruct (decide (b ∈ bs)); rewrite ?upd_other by done; done.
    + intros y. unfold absorb, upd. destruct (Z.eqb_spec y b) as [->|Hne].
      * split; [intros _|by eexists]. destruct (decide (b ∈ bs)); [done|]. apply elem_of_app. right. by apply list_elem_of_singleton.
      * rewrite HP. destruct (decide (b ∈ bs)); [done|]. rewrite elem_of_app, list_elem_of_singleton. tauto.
Qed.

(** What a release makes of the pins: a logged block keeps its last contents. *)
Definition settle (P : pins) (b : Z) (x : block) : pins := match P b with Some _ => upd P b (Some x) | None => P end.

Lemma txn_brelse {R} P bs L s i b x (k : unit -> M kstate R) Q :
  txn P bs ((i, b, x) :: L) s -> (P b = None -> x = d b) ->
  (forall s', txn (settle P b x) bs L s' -> wp (k tt) Q s') ->
  wp (bind (brelse i) k) Q s.
Proof using BC.
  intros [(l & Hs & Hl & Hz & Ho) HP Hn Hk] Hcl Hnext. pose proof Hn as [Hb' Hn']%NoDup_cons. cbn in Hb'.
  pose proof (over_head d P L i b x Hb') as Eh.
  eapply (sess_brelse me pid _ _ _ _ _ _ i b (map fst L)); [exact Hs|cbn; elems|by rewrite Eh| | |].
  - rewrite Eh. cbn. destruct (P b); [lia|]. intros _. by apply Hcl.
  - intros j y Hj. split; [cbn; apply elem_of_cons; by right|]. intros ->. apply Hb'. unfold lb_blocks.
    apply list_elem_of_fmap_1 in Hj as ([[j' y'] v] & [= -> ->] & Hj). apply list_elem_of_fmap. by exists (j', y', v).
  - intros s' Hs'. apply Hnext. split; try done.
    + exists l. split; [|done]. eapply sess_ext; [exact Hs'|]. intros y. rewrite Eh. cbn [c_data c_ref].
      destruct (Z.eqb_spec y b) as [->|Hne].
      * rewrite upd_same, over_out by done. unfold cells, settle. destruct (P b) eqn:E.
        -- by rewrite upd_same.
        -- rewrite E. unfold idle. by rewrite Hcl.
      * rewrite upd_other by done. cbn. rewrite upd_other by done. unfold settle. destruct (P b); [|done].
        apply over_upd; [by left|done|done].
    + intros y. rewrite <- HP. unfold settle. destruct (P b) eqn:E; [|done]. unfold upd.
      destruct (Z.eqb_spec y b) as [->|]; [|done]. rewrite E. split; by eexists.
Qed.

(** A buffer that was only read. *)
Lemma txn_brelse_clean {R} P bs L s i b (k : unit -> M kstate R) Q :
  txn P bs ((i, b, view d P b) :: L) s -> (forall s', txn P bs L s' -> wp (k tt) Q s') ->
  wp (bind (brelse i) k) Q s.
Proof using BC.
  intros Ht Hk. eapply txn_brelse; [exact Ht|unfold view; by intros ->|].
  replace (settle P b (view d P b)) with P; [exact Hk|]. unfold settle, view.
  destruct (P b) eqn:E; [|done]. apply functional_extensionality. intros y. unfold upd. by destruct (Z.eqb_spec y b) as [->|].
Qed.

(** A buffer released right after it was logged. *)
Lemma txn_brelse_logged {R} P bs L s i b x (k : unit -> M kstate R) Q :
  txn (upd P b (Some x)) bs ((i, b, x) :: L) s -> (forall s', txn (upd P b (Some x)) bs L s' -> wp (k tt) Q s') ->
  wp (bind (brelse i) k) Q s.
Proof using BC.
  intros Ht Hk. eapply txn_brelse; [exact Ht|by rewrite upd_same|].
  replace (settle (upd P b (Some x)) b x) with (upd P b (Some x)); [exact Hk|]. unfold settle. rewrite upd_same.
  apply functional_extensionality. intros y. unfold upd. by destruct (y =? b).
Qed.

(** ** The rest of the state *)

Lemma txn_core P bs L s : txn P bs L s -> exists l, core s = set_k_log l (core s0).
Proof. intros [(l & Hs & _) _ _ _]. exists l. by rewrite (bf_core _ _ _ (ss_frame _ _ _ _ _ _ _ _ Hs)). Qed.

Lemma txn_itable P bs L s : txn P bs L s -> k_itable s = k_itable s0.
Proof. intros (l & H)%txn_core. by apply (f_equal k_itable) in H. Qed.
Lemma txn_sb P bs L s : txn P bs L s -> k_sb s = k_sb s0.
Proof. intros (l & H)%txn_core. by apply (f_equal k_sb) in H. Qed.
Lemma txn_held P bs L s : txn P bs L s -> k_held s = k_held s0.
Proof. intros (l & H)%txn_core. by apply (f_equal k_held) in H. Qed.
Lemma txn_cur P bs L s : txn P bs L s -> k_cur s = Some me.
Proof. intros [(l & Hs & _) _ _ _]. apply (ss_ready _ _ _ _ _ _ _ _ Hs). Qed.

Lemma txn_get_sb {R} P bs L s (k : superblock -> M kstate R) Q :
  txn P bs L s -> wp (k (k_sb s0)) Q s -> wp (bind (gets k_sb) k) Q s.
Proof. intros Ht Hk. unfold wp. rewrite bind_gets, (txn_sb _ _ _ _ Ht). exact Hk. Qed.

Lemma txn_curproc {R} P bs L s (k : nat -> M kstate R) Q :
  txn P bs L s -> wp (k me) Q s -> wp (bind curproc k) Q s.
Proof.
  intros Ht Hk. unfold wp, curproc, myproc. rewrite bind_assoc, bind_gets, (txn_cur _ _ _ _ Ht), bind_ret. exact Hk.
Qed.

Lemma txn_inode_get {R} P bs L s i ip (k : inode -> M kstate R) Q :
  txn P bs L s -> k_itable s0 !! i = Some ip -> wp (k ip) Q s -> wp (bind (inode_get i) k) Q s.
Proof.
  intros Ht Hi Hk. unfold wp. rewrite (bind_ok _ _ s ip s); [exact Hk|].
  unfold inode_get. apply tab_get_ok. by rewrite (txn_itable _ _ _ _ Ht).
Qed.

End rules.
(** A change of the inode table. *)
Lemma txn_set_itable start size s0 d w P bs L s t :
  txn start size s0 d w P bs L s -> txn start size (set_k_itable t s0) d w P bs L (set_k_itable t s).
Proof using BC.
  intros [(l & [H1 H2 [H3 H3'] H4 H5 H6] & Hl) HP Hn Hk]. split; try done. exists l. split; [|done]. split.
  - by destruct H1; split.
  - by eapply (bc_frame s).
  - split; [|done]. change (core (set_k_itable t s)) with (set_k_itable t (core s)). by rewrite H3.
  - done.
  - done.
  - intros j b Hj. destruct (H6 j b Hj). split; [|done]. by eapply bc_hold_frame.
Qed.

Lemma txn_inode_mod {R} start size s0 d w P bs L s i f (k : unit -> M kstate R) Q :
  txn start size s0 d w P bs L s ->
  (forall s', txn start size (set_k_itable (alter f i (k_itable s0)) s0) d w P bs L s' -> wp (k tt) Q s') ->
  wp (bind (inode_mod i f) k) Q s.
Proof using BC.
  intros Ht Hk. unfold wp, inode_mod. rewrite bind_modify, (txn_itable _ _ _ _ _ _ _ _ _ Ht). by apply Hk, txn_set_itable.
Qed.

End txn.
