(* ===== verification/LogCrash.v ===== *)
(** * Crashes during a commit and during recovery

    The disk keeps the writes of a commit in order, so a crash leaves a prefix
    of them.  These are the facts about prefixes; [LogClaims.v] states them of
    the code. *)

From Stdlib Require Import FunctionalExtensionality.
From S2P Require Import Prelude Riscv Mem Cstring State Sched SchedSpec Bio BioLocks Cache Session Log LogSpec.

(** Block [b] is not part of the log. *)
Definition home (start b : Z) : Prop := b <> start /\ forall i, (i < Z.to_nat LOGSIZE)%nat -> b <> slot start i.

(** The disk with the transaction installed. *)
Definition installed (d : Z -> block) (bs : list Z) (xs : list block) : Z -> block := apply_writes d (zip bs xs).

Lemma zip_fst_take {B} (bs : list Z) (xs : list B) i : length bs = length xs -> (take i (zip bs xs)).*1 = take i bs.
Proof. intros H. by rewrite fmap_take, fst_zip by lia. Qed.

(** What a prefix [w1] of a list split in two looks like. *)
Lemma prefix_cases {A} (w1 w2 l1 l2 : list A) :
  w1 ++ w2 = l1 ++ l2 ->
  (exists k, w1 = take k l1) \/ (exists m, w1 = l1 ++ m /\ m ++ w2 = l2).
Proof.
  intros H. apply app_eq_inv in H as [(k & E1 & E2)|(k & E1 & E2)].
  - right. by exists k.
  - left. exists (length w1). by rewrite E1, take_app_length.
Qed.

Section crash.
Variables (d : Z -> block) (start : Z) (bs : list Z) (xs : list block).
Hypothesis Hlen : length bs = length xs.
Hypothesis Hmax : (length bs <= Z.to_nat LOGSIZE)%nat.
Hypothesis Hrange : Forall (fun b => 0 <= b < 2 ^ 31) bs.
Hypothesis Hnodup : NoDup bs.
Hypothesis Hoff : forall b, b ∈ bs -> home start b.
Hypothesis Hempty : head_is (d start) [].

Let h := put_head (d start) bs.

Lemma log_writes_home e k b : home start b -> apply_writes e (take k (log_writes start xs)) b = e b.
Proof using Hlen Hmax.
  intros [_ Hb]. apply apply_writes_out. rewrite fmap_take. intros (i & Hi & _)%elem_of_take.
  apply log_writes_fst in Hi as [-> Hi]. apply (Hb i); [lia|done].
Qed.

Lemma zip_not_home e k b : ~ home start b -> apply_writes e (take k (zip bs xs)) b = e b.
Proof using Hlen Hoff.
  intros Hb. apply apply_writes_out. rewrite zip_fst_take by done. intros (i & Hi & _)%elem_of_take.
  apply Hb, Hoff. by eapply list_elem_of_lookup_2.
Qed.

Lemma slot_not_home i : (i < Z.to_nat LOGSIZE)%nat -> ~ home start (slot start i).
Proof using. intros Hi [_ H]. by apply (H i Hi). Qed.

(** Installing again what is already partly installed. *)
Lemma reinstall e k b : apply_writes (apply_writes e (take k (zip bs xs))) (zip bs xs) b = installed e bs xs b.
Proof using Hlen Hmax Hnodup.
  unfold installed. destruct (decide (b ∈ bs)) as [Hb|Hb].
  - apply list_elem_of_lookup in Hb as [i Hi]. apply lookup_lt_Some in Hi as Hlt.
    destruct (lookup_lt_is_Some_2 xs i) as [x Hx]; [lia|].
    assert ((b, x) ∈ zip bs xs) as Hin.
    { apply list_elem_of_lookup. exists i. by rewrite lookup_zip_with, Hi, Hx. }
    by rewrite !(apply_writes_in _ (zip bs xs) b x) by (rewrite ?fst_zip by lia; done).
  - rewrite !apply_writes_out; [done|by rewrite fst_zip by lia| |by rewrite fst_zip by lia].
    rewrite zip_fst_take by done. intros (i & Hi & _)%elem_of_take. apply Hb. by eapply list_elem_of_lookup_2.
Qed.

(** The disk once the header is written. *)
Let logged := upd (apply_writes d (log_writes start xs)) start h.

Lemma logged_home b : home start b -> logged b = d b.
Proof using Hlen Hmax.
  intros Hb. unfold logged. rewrite upd_other by apply Hb.
  rewrite <- (firstn_all (log_writes start xs)). by apply log_writes_home.
Qed.

Lemma commit_done b :
  home start b -> apply_writes d (commit_writes d start bs xs) b = installed d bs xs b.
Proof using Hlen Hmax.
  intros Hb. unfold commit_writes. rewrite !apply_writes_app. cbn. rewrite upd_other by apply Hb.
  apply apply_writes_agree. by apply logged_home.
Qed.

Lemma zip_prefix k :
  let e := apply_writes logged (take k (zip bs xs)) in
  head_is (e start) bs /\ home_writes e start bs = zip bs xs /\
  exists k, forall b, home start b -> e b = apply_writes d (take k (zip bs xs)) b.
Proof using All.
  intros e. split; [|split].
  - unfold e. rewrite zip_not_home by (intros [? _]; done). unfold logged. rewrite upd_same. by apply put_head_is.
  - rewrite <- (home_writes_logged d start bs xs h Hlen). fold logged.
    unfold home_writes. apply imap_ext. intros i b Hi. f_equal. apply zip_not_home, slot_not_home.
    apply lookup_lt_Some in Hi. lia.
  - exists k. intros b Hb. apply apply_writes_agree. by apply logged_home.
Qed.

(** The disk a crash leaves behind, and what its header says: nothing yet, the
    whole transaction, or nothing any more. *)
Lemma commit_prefix w1 w2 :
  commit_writes d start bs xs = w1 ++ w2 ->
  let e := apply_writes d w1 in
  (head_is (e start) [] /\ forall b, home start b -> e b = d b) \/
  (head_is (e start) bs /\ home_writes e start bs = zip bs xs /\
     exists k, forall b, home start b -> e b = apply_writes d (take k (zip bs xs)) b) \/
  (head_is (e start) [] /\ forall b, home start b -> e b = installed d bs xs b).
Proof using All.
  intros Hw e. unfold commit_writes in Hw. symmetry in Hw.
  assert (start ∉ bs) as Hsb by (intros H; by apply (Hoff _ H)).
  destruct (prefix_cases _ _ _ _ Hw) as [[k ->]|(m & -> & Hm)].
  { left. split; [|intros b Hb; by apply log_writes_home].
    unfold e. rewrite apply_writes_out; [done|]. rewrite fmap_take. intros (i & Hi & _)%elem_of_take.
    apply log_writes_fst in Hi as [Hi _]. unfold slot in Hi. lia. }
  destruct (prefix_cases m w2 [(start, h)] _ Hm) as [[k ->]|(m' & -> & Hm')].
  { destruct k as [|k].
    - left. unfold e. cbn [take]. rewrite app_nil_r. split; [by rewrite log_writes_start|].
      intros b Hb. rewrite <- (firstn_all (log_writes start xs)). by apply log_writes_home.
    - right; left. unfold e. rewrite take_ge by (cbn; lia). rewrite apply_writes_app. cbn. fold logged.
      split; [unfold logged; rewrite upd_same; by apply put_head_is|].
      split; [by apply home_writes_logged|]. exists 0%nat. intros b Hb. by apply logged_home. }
  destruct (prefix_cases m' w2 (zip bs xs) _ Hm') as [[k ->]|(m'' & -> & Hm'')].
  { right; left. unfold e. rewrite !apply_writes_app. by apply zip_prefix. }
  destruct m'' as [|p m''].
  { right; left. unfold e. rewrite app_nil_r, !apply_writes_app.
    pose proof (zip_prefix (length (zip bs xs))) as H. cbv zeta in H. by rewrite firstn_all in H. }
  cbn in Hm''. injection Hm'' as -> Hm''. apply app_eq_nil in Hm'' as [-> _].
  right; right. unfold e. rewrite !apply_writes_app. cbn. fold logged.
  split; [rewrite upd_same; apply (put_head_is (put_head (d start) bs) []); [cbn; lia|constructor]|].
  intros b Hb. rewrite upd_other by apply Hb. unfold installed. apply apply_writes_agree. by apply logged_home.
Qed.
End crash.
