(* ===== verification/Kalloc.v ===== *)
(** * kernel/kalloc.c: the physical page allocator

    The free list is threaded through the free pages themselves: the first
    word of a free page is the address of the next one, [0] at the end. *)

From S2P Require Import Prelude Riscv Mem Cstring State.

(** Addresses the linker fixes ([kernel.ld]): the end of the kernel's text
    and of its image, the page that holds [trampoline.S], and the routines
    whose address the kernel stores. *)
Class KernelImage : Type := {
  etext : Z;
  kend : Z;
  trampoline : Z;
  sym_forkret : Z;
  sym_usertrap : Z;
  sym_uservec : Z;
  sym_userret : Z;
  sym_kernelvec : Z;
  etext_aligned : etext mod 4096 = 0;
  etext_range : KERNBASE < etext <= kend;
  kend_range : kend < PHYSTOP;
  trampoline_aligned : trampoline mod 4096 = 0;
  trampoline_range : KERNBASE <= trampoline < etext
}.

Section kalloc.
Context {KI : KernelImage}.

Definition kfree (pa : Z) : M kstate unit :=
  panic_if (negb (pa mod PGSIZE =? 0) || (pa <? kend) || (PHYSTOP <=? pa)) "kfree" ;;;
  mem_mod (fun m => memset m pa 1 PGSIZE) ;;;
  acquire Lkmem ;;;
  let! fl := gets k_freelist in
  mem_mod (fun m => store64 m pa fl) ;;;
  modify (set_k_freelist pa) ;;;
  release Lkmem.

Definition kalloc : M kstate Z :=
  acquire Lkmem ;;;
  let! r := gets k_freelist in
  let! m := mem_get in
  when (negb (r =? 0)) (modify (set_k_freelist (load64 m r))) ;;;
  release Lkmem ;;;
  when (negb (r =? 0)) (mem_mod (fun m => memset m r 5 PGSIZE)) ;;;
  ret r.

(** [for(; p + PGSIZE <= pa_end; p += PGSIZE) kfree(p);] *)
Definition freerange (pa_start pa_end : Z) : M kstate unit :=
  mloop (Z.to_nat (pa_end / PGSIZE + 1))
    (fun p => if p + PGSIZE <=? pa_end
              then kfree p ;;; ret (inl (p + PGSIZE))
              else ret (inr tt))
    (PGROUNDUP pa_start).

Definition kinit : M kstate unit := freerange kend PHYSTOP.

(** ** The free list *)

(** The pages the allocator manages. *)
Definition ram_page (p : Z) : Prop := p mod 4096 = 0 /\ kend <= p < PHYSTOP.

Fixpoint freelist_rep (m : mem) (head : Z) (l : list Z) : Prop :=
  match l with
  | [] => head = 0
  | p :: l' => head = p /\ freelist_rep m (load64 m p) l'
  end.

(** [kmem_inv s l]: the free list of [s] is [l], pages of RAM, each once. *)
Record kmem_inv (s : kstate) (l : list Z) : Prop := {
  kmem_rep : freelist_rep (k_mem s) (k_freelist s) l;
  kmem_pages : Forall ram_page l;
  kmem_nodup : NoDup l
}.

Lemma ram_page_bounds p : ram_page p -> 0 < p /\ p + 4096 <= 2 ^ 56.
Proof. intros [H1 [H2 H3]]. pose proof etext_range. klia. Qed.

Lemma ram_page_page_addr p : ram_page p -> page_addr p.
Proof. intros H. pose proof (ram_page_bounds p H). split; [apply H|lia]. Qed.

Lemma ram_page_disjoint p q : ram_page p -> ram_page q -> p <> q -> p + 4096 <= q \/ q + 4096 <= p.
Proof. intros [Hp _] [Hq _] Hne. lia. Qed.

Lemma freelist_rep_ext m m' h l :
  (forall p, p ∈ l -> load64 m' p = load64 m p) -> freelist_rep m h l -> freelist_rep m' h l.
Proof.
  revert h. induction l as [|p l IH]; intros h He; cbn [freelist_rep]; [done|].
  intros [-> Hr]. split; [done|]. rewrite He by set_solver. apply IH; [set_solver|done].
Qed.

(** The list is read off the state: it has one free list. *)
Lemma freelist_rep_inj m h l l' :
  Forall ram_page l -> Forall ram_page l' ->
  freelist_rep m h l -> freelist_rep m h l' -> l = l'.
Proof.
  revert h l'. induction l as [|p l IH]; intros h [|p' l'] Hl Hl'; cbn [freelist_rep].
  - done.
  - intros -> [E _]. inversion Hl' as [|? ? Hp]. apply ram_page_bounds in Hp. lia.
  - intros [-> _] E. inversion Hl as [|? ? Hp]. apply ram_page_bounds in Hp. lia.
  - intros [-> H] [-> H']. f_equal. apply Forall_cons in Hl as [_ Hl], Hl' as [_ Hl'].
    by apply (IH _ l' Hl Hl' H H').
Qed.

(** A write that stays clear of the free pages keeps the free list. *)
Lemma kmem_inv_mem s l m' :
  (forall p x, p ∈ l -> p <= x < p + 4096 -> load8 m' x = load8 (k_mem s) x) ->
  kmem_inv s l -> kmem_inv (set_k_mem m' s) l.
Proof.
  intros He [Hr Hp Hn]. split; [|done|done]. cbn.
  eapply freelist_rep_ext; [|exact Hr]. intros p Hin.
  apply loadn_ext. intros x Hx. apply (He p); [done|lia].
Qed.

(** ** kalloc *)

Lemma kalloc_nil s : Lkmem ∉ k_held s -> kmem_inv s [] -> kalloc s = Ok 0 s.
Proof.
  intros Hl [Hr _ _]. cbn in Hr. unfold kalloc.
  rewrite (bind_ok _ _ _ _ _ (acquire_ok _ _ Hl)). unfold bind, gets, mem_get. cbn.
  rewrite Hr. cbn. unfold when. cbn.
  erewrite release_ok by (cbn; done). cbn. by destruct s.
Qed.

Lemma kalloc_cons s p l :
  Lkmem ∉ k_held s -> kmem_inv s (p :: l) ->
  kalloc s = Ok p (set_k_mem (memset (k_mem s) p 5 PGSIZE)
                     (set_k_freelist (load64 (k_mem s) p) s)).
Proof.
  intros Hl [Hr Hp Hn]. cbn in Hr. destruct Hr as [Hr _].
  apply Forall_cons in Hp as [Hp _]. pose proof (ram_page_bounds p Hp).
  unfold kalloc. rewrite (bind_ok _ _ _ _ _ (acquire_ok _ _ Hl)).
  unfold bind, gets, mem_get, when. cbn. rewrite Hr. destruct (Z.eqb_spec p 0); [lia|]. cbn.
  erewrite release_ok by (cbn; done). cbn. done.
Qed.

(** The page [kalloc] hands out leaves the free list. *)
Lemma kalloc_inv s p l :
  kmem_inv s (p :: l) ->
  kmem_inv (set_k_mem (memset (k_mem s) p 5 PGSIZE)
              (set_k_freelist (load64 (k_mem s) p) s)) l.
Proof.
  intros [Hr Hp Hn]. destruct Hr as [_ Hr]. apply Forall_cons in Hp as [Hp Hps].
  apply NoDup_cons in Hn as [Hnot Hn].
  apply (kmem_inv_mem (set_k_freelist (load64 (k_mem s) p) s)); [|done].
  intros q x Hq Hx. rewrite load8_memset.
  rewrite Forall_forall in Hps.
  assert (p + 4096 <= q \/ q + 4096 <= p).
  { apply ram_page_disjoint; [done|by apply Hps|by intros ->]. }
  unfold PGSIZE. zdec; [lia|done|done|done].
Qed.

(** ** kfree *)

Lemma kfree_run s p :
  Lkmem ∉ k_held s -> ram_page p ->
  kfree p s = Ok tt (set_k_freelist p
    (set_k_mem (store64 (memset (k_mem s) p 1 PGSIZE) p (k_freelist s)) s)).
Proof.
  intros Hl [Hm Hb]. unfold kfree.
  replace (negb (p mod PGSIZE =? 0) || (p <? kend) || (PHYSTOP <=? p)) with false
    by (unfold PGSIZE; zdec; try done; lia).
  rewrite (bind_ok _ _ _ _ _ (eq_refl : panic_if false "kfree" s = Ok tt s)).
  unfold bind at 1, mem_mod, modify.
  rewrite (bind_ok _ _ _ _ _ (acquire_ok Lkmem (set_k_mem (memset (k_mem s) p 1 PGSIZE) s) Hl)).
  unfold bind, gets. cbn.
  erewrite release_ok by (cbn; done). cbn. done.
Qed.

Lemma kfree_inv s p l :
  kmem_inv s l -> ram_page p -> p ∉ l ->
  kmem_inv (set_k_freelist p
    (set_k_mem (store64 (memset (k_mem s) p 1 PGSIZE) p (k_freelist s)) s)) (p :: l).
Proof.
  intros [Hr Hp Hn] Hpage Hnot. split; [|by constructor|by constructor]. cbn. split; [done|].
  rewrite load64_store64_same.
  - eapply freelist_rep_ext; [|exact Hr]. intros q Hq. rewrite Forall_forall in Hp.
    assert (p + 4096 <= q \/ q + 4096 <= p).
    { apply ram_page_disjoint; [done|by apply Hp|by intros ->]. }
    rewrite load64_store64_out by lia. apply load64_memset_out. unfold PGSIZE. lia.
  - destruct l as [|q l']; cbn in Hr.
    + by rewrite Hr.
    + destruct Hr as [-> _]. apply Forall_cons in Hp as [Hq _].
      apply ram_page_bounds in Hq. lia.
Qed.

Lemma kfree_panics s p :
  ~ (p mod 4096 = 0 /\ kend <= p < PHYSTOP) -> kfree p s = Panic "kfree".
Proof.
  intros H. unfold kfree. apply bind_panic.
  replace (negb (p mod PGSIZE =? 0) || (p <? kend) || (PHYSTOP <=? p)) with true; [done|].
  unfold PGSIZE. zdec; try done. lia.
Qed.

(** ** kinit *)

Lemma freerange_loop pa_end : pa_end <= PHYSTOP -> forall fuel p l s,
  Lkmem ∉ k_held s -> kmem_inv s l -> p mod 4096 = 0 -> kend <= p ->
  (forall q, q ∈ l -> q < p) -> (0 < fuel)%nat -> pa_end < p + Z.of_nat fuel * 4096 ->
  exists s' l',
    mloop fuel (fun p => if p + PGSIZE <=? pa_end
                         then kfree p ;;; ret (inl (p + PGSIZE)) else ret (inr tt)) p s = Ok tt s' /\
    kmem_inv s' l' /\ k_held s' = k_held s /\
    (forall q, q ∈ l' <-> q ∈ l \/ (q mod 4096 = 0 /\ p <= q /\ q + 4096 <= pa_end)).
Proof.
  intros Hend. unfold PGSIZE.
  induction fuel as [|fuel IH]; intros p l s Hl Hinv Hm Hk Hlt Hpos Hfuel; cbn [mloop].
  - lia.
  - destruct (Z.leb_spec (p + 4096) pa_end) as [Hle|Hgt].
    + assert (ram_page p) as Hp by (split; lia).
      rewrite bind_assoc, (bind_ok _ _ _ _ _ (kfree_run s p Hl Hp)).
      unfold bind at 1, ret at 1.
      assert (p ∉ l) as Hnot by (intros Hin; specialize (Hlt _ Hin); lia).
      destruct (IH (p + 4096) (p :: l) (set_k_freelist p (set_k_mem (store64
        (memset (k_mem s) p 1 PGSIZE) p (k_freelist s)) s))) as (s' & l' & Hrun & Hinv' & Hheld & Hin).
      * by cbn.
      * by apply kfree_inv.
      * lia.
      * lia.
      * intros q [->|Hq]%elem_of_cons; [lia|]. specialize (Hlt _ Hq). lia.
      * lia.
      * lia.
      * exists s', l'. split; [exact Hrun|]. split; [done|]. split; [by rewrite Hheld|].
        intros q. rewrite Hin, elem_of_cons.
        split; [intros [[->|?]|?]; [right; lia|by left|right; lia]|].
        intros [?|?]; [by left; right|]. destruct (decide (q = p)); [by left; left|right; lia].
    + exists s, l. split; [done|]. split; [done|]. split; [done|]. intros q.
      split; [by left|]. intros [?|?]; [done|lia].
Qed.

(** The allocator as a set of free pages: what its clients rely on. *)
Definition free_pages (s : kstate) (F : gset Z) : Prop :=
  exists l, kmem_inv s l /\ F = list_to_set l.

(** ** Properties *)

(** [kinit] terminates without a panic and, from an empty allocator, puts
    every page of RAM between the end of the kernel and [PHYSTOP] on the free
    list, exactly once, and nothing else. *)
Theorem kinit_frees_all s :
  Lkmem ∉ k_held s -> k_freelist s = 0 ->
  exists s' l, kinit s = Ok tt s' /\ kmem_inv s' l /\ k_held s' = k_held s /\
               forall p, p ∈ l <-> ram_page p.
Proof.
  intros Hl Hfl. pose proof etext_range. pose proof kend_range.
  assert (PGROUNDUP kend = (kend + 4095) / 4096 * 4096) as E by (apply PGROUNDUP_eq; klia).
  unfold kinit, freerange.
  remember (Z.to_nat (PHYSTOP / PGSIZE + 1)) as fuel eqn:Ef.
  assert (Z.of_nat fuel * 4096 = PHYSTOP + 4096) as Hf by (rewrite Ef; klia). clear Ef.
  assert (kmem_inv s []) as Hinv0 by (split; [done|constructor|constructor]).
  destruct (freerange_loop PHYSTOP ltac:(lia) fuel (PGROUNDUP kend) [] s)
    as (s' & l' & Hrun & Hinv & Hheld & Hin); [done|done|rewrite E; klia|rewrite E; klia|set_solver|klia|rewrite E; klia|].
  exists s', l'. split; [exact Hrun|]. split; [done|]. split; [done|].
  intros p. rewrite Hin, E, elem_of_nil. unfold ram_page.
  split; [intros [[]|?]; klia|intros ?; right; klia].
Qed.

(** [kalloc] implements an allocator of a set of pages: with no page free
    it returns 0 and changes nothing; otherwise it returns a free page filled
    with 5s, takes it off the free list, and changes no byte outside it. *)
Theorem kalloc_refines_set s F :
  Lkmem ∉ k_held s -> free_pages s F ->
  (F = ∅ /\ kalloc s = Ok 0 s) \/
  (exists p s', kalloc s = Ok p s' /\ p ∈ F /\ free_pages s' (F ∖ {[p]}) /\
     ram_page p /\ k_held s' = k_held s /\ k_procs s' = k_procs s /\
     (forall x, p <= x < p + 4096 -> load8 (k_mem s') x = 5) /\
     (forall x, x < p \/ p + 4096 <= x -> load8 (k_mem s') x = load8 (k_mem s) x)).
Proof.
  intros Hl (l & Hinv & ->). destruct l as [|p l]; [left|right].
  - split; [done|]. by apply kalloc_nil.
  - eexists p, _. split; [by eapply kalloc_cons|].
    pose proof (kmem_pages _ _ Hinv) as [Hp _]%Forall_cons.
    pose proof (kmem_nodup _ _ Hinv) as [Hn _]%NoDup_cons.
    split; [set_solver|]. split; [|split; [done|]].
    + exists l. split; [by apply kalloc_inv|]. set_solver.
    + split; [done|]. split; [done|]. cbn.
      split; intros x Hx; rewrite load8_memset; unfold PGSIZE; zdec; try lia; done.
Qed.

(** [kfree] of a page of RAM that is not already free makes it free, fills
    it with 1s past the link word, and touches no other byte. *)
Theorem kfree_refines_set s F p :
  Lkmem ∉ k_held s -> free_pages s F -> ram_page p -> p ∉ F ->
  exists s', kfree p s = Ok tt s' /\ free_pages s' ({[p]} ∪ F) /\ k_held s' = k_held s /\
     (forall x, p + 8 <= x < p + 4096 -> load8 (k_mem s') x = 1) /\
     (forall x, x < p \/ p + 4096 <= x -> load8 (k_mem s') x = load8 (k_mem s) x).
Proof.
  intros Hl (l & Hinv & ->) Hp Hn. eexists. split; [by apply kfree_run|].
  split; [|split; [done|]].
  - exists (p :: l). split; [|done]. apply kfree_inv; set_solver.
  - cbn. split; intros x Hx; rewrite load8_store64_out, load8_memset by lia;
      unfold PGSIZE; zdec; try lia; done.
Qed.

(** [kfree] panics on any address that is not a page of allocatable RAM. *)
Theorem kfree_rejects s p : ~ ram_page p -> kfree p s = Panic "kfree".
Proof. apply kfree_panics. Qed.

End kalloc.
