(* ===== verification/PageTable.v ===== *)
(** * Sv39 page tables in memory

    The three-level tree that [walk] of [kernel/vm.c] follows, as a structure
    of physical memory: which pages make it up, which leaf entry an address
    leads to, and how the tree reacts to a write.  This is the theory the
    proofs about [kernel/vm.c] rest on; the routines are in [Vm.v]. *)

From S2P Require Import Prelude Riscv Mem State Kalloc.

(** The address of entry [i] of the table page [root]. *)
Definition pte_slot (root i : Z) : Z := root + 8 * i.

(** The address of the leaf entry for [va], below a table of level [lv]. *)
Fixpoint pt_walk (m : mem) (lv : nat) (root va : Z) : option Z :=
  match lv with
  | O => Some (pte_slot root (PX 0 va))
  | S lv' =>
      let e := load64 m (pte_slot root (PX (Z.of_nat lv) va)) in
      if has e PTE_V then pt_walk m lv' (PTE2PA e) va else None
  end.

(** The pages below entry [i] of a table, given those below a lower table. *)
Definition pt_child (pages : Z -> list Z) (m : mem) (root i : Z) : list Z :=
  let e := load64 m (pte_slot root i) in
  if has e PTE_V then pages (PTE2PA e) else [].

Definition indices : list Z := seqZ 0 512.

(** All table pages of the tree of level [lv] at [root]. *)
Fixpoint pt_pages (m : mem) (lv : nat) (root : Z) : list Z :=
  match lv with
  | O => [root]
  | S lv' => root :: flat_map (pt_child (pt_pages m lv') m root) indices
  end.

(** The leaf entry of [va], [0] where the tree has none: the address space
    the tree describes. *)
Definition pte_at (m : mem) (lv : nat) (root va : Z) : Z :=
  match pt_walk m lv root va with Some a => load64 m a | None => 0 end.

(** Valid entries above the leaves grant no access: that is how [freewalk] and
    the hardware tell a lower table from a mapped page. *)
Definition PTE_RWX : Z := Z.lor PTE_R (Z.lor PTE_W PTE_X).

Fixpoint pt_interior (m : mem) (lv : nat) (root : Z) : Prop :=
  match lv with
  | O => True
  | S lv' => forall i, 0 <= i < 512 ->
      has (load64 m (pte_slot root i)) PTE_V = true ->
      Z.land (load64 m (pte_slot root i)) PTE_RWX = 0 /\
      pt_interior m lv' (PTE2PA (load64 m (pte_slot root i)))
  end.

Section tree.
Context {KI : KernelImage}.

(** A tree is well formed when its pages are pages of RAM, each used once, and
    its interior entries are not leaves. *)
Record tree_ok (m : mem) (lv : nat) (root : Z) : Prop := {
  tree_nodup : NoDup (pt_pages m lv root);
  tree_ram : Forall ram_page (pt_pages m lv root);
  tree_int : pt_interior m lv root
}.

(** [m] and [m'] agree on the page [p]. *)
Definition page_eq (m m' : mem) (p : Z) : Prop :=
  forall x, p <= x < p + 4096 -> load8 m' x = load8 m x.

(** ** Lists *)

Lemma flat_map_split {A B} (f : A -> list B) (L : list A) x :
  x ∈ L -> NoDup L -> exists L1 L2, L = L1 ++ [x] ++ L2 /\ (x ∉ L1) /\ (x ∉ L2).
Proof.
  intros (L1 & L2 & ->)%list_elem_of_split Hn. exists L1, L2. split; [done|].
  apply NoDup_app in Hn as (_ & H1 & H2). apply NoDup_cons in H2 as [H2 _].
  split; [|done]. intros Hx. apply (H1 x Hx). set_solver.
Qed.

Lemma flat_map_ext_in {A B} (f g : A -> list B) (L : list A) :
  (forall x, x ∈ L -> f x = g x) -> flat_map f L = flat_map g L.
Proof.
  induction L as [|x L IH]; intros H; [done|]. cbn. f_equal; [apply H|apply IH]; set_solver.
Qed.

(** Replacing one segment of a [flat_map] by a longer one. *)
Lemma flat_map_update {A B} (f f' : A -> list B) (L : list A) x new :
  x ∈ L -> NoDup L -> (forall y, y ∈ L -> y <> x -> f' y = f y) ->
  f' x ≡ₚ new ++ f x -> flat_map f' L ≡ₚ new ++ flat_map f L.
Proof.
  intros Hx Hn He Hp. destruct (flat_map_split f L x Hx Hn) as (L1 & L2 & -> & H1 & H2).
  rewrite !flat_map_app. cbn. rewrite Hp.
  rewrite (flat_map_ext_in f' f L1), (flat_map_ext_in f' f L2).
  - by rewrite !(assoc_L (++)), (Permutation_app_comm (flat_map f L1) new).
  - intros y Hy. apply He; [set_solver|by intros ->].
  - intros y Hy. apply He; [set_solver|by intros ->].
Qed.

Lemma elem_of_flat_map {A B} (f : A -> list B) (L : list A) y :
  y ∈ flat_map f L <-> exists x, x ∈ L /\ y ∈ f x.
Proof.
  rewrite list_elem_of_In, in_flat_map. split; intros (x & ? & ?); exists x;
    by rewrite ?list_elem_of_In in *.
Qed.

(** Segments of a duplicate-free [flat_map] are duplicate-free and disjoint. *)
Lemma flat_map_nodup_in {A B} (f : A -> list B) (L : list A) x :
  NoDup (flat_map f L) -> x ∈ L -> NoDup (f x).
Proof.
  intros Hn (L1 & L2 & ->)%list_elem_of_split. rewrite flat_map_app in Hn. cbn in Hn.
  apply NoDup_app in Hn as (_ & _ & Hn). by apply NoDup_app in Hn as (Hn & _).
Qed.

Lemma flat_map_nodup_disj {A B} (f : A -> list B) (L : list A) x y z :
  NoDup (flat_map f L) -> x ∈ L -> y ∈ L -> x <> y -> z ∈ f x -> z ∉ f y.
Proof.
  intros Hn Hx Hy Hne. revert Hn Hx Hy. induction L as [|w L IH]; [set_solver|].
  cbn. intros (H1 & H2 & H3)%NoDup_app Hx Hy Hzx Hzy.
  assert (forall u, u ∈ L -> z ∈ f u -> z ∈ flat_map f L) as Hin.
  { intros u Hu Hz. apply elem_of_flat_map. eauto. }
  apply elem_of_cons in Hx as [->|Hx]; apply elem_of_cons in Hy as [->|Hy]; [done| | |].
  - by apply (H2 z Hzx), (Hin y).
  - by apply (H2 z Hzy), (Hin x).
  - by apply IH.
Qed.

Lemma indices_nodup : NoDup indices.
Proof. apply NoDup_seqZ. Qed.

Lemma elem_of_indices i : i ∈ indices <-> 0 <= i < 512.
Proof. unfold indices. rewrite elem_of_seqZ. lia. Qed.

#[global] Opaque indices.

Lemma PX_indices lv va : PX (Z.of_nat lv) va ∈ indices.
Proof. apply elem_of_indices, PX_range. lia. Qed.

(** ** Slots *)

Lemma pte_slot_range root i : 0 <= i < 512 -> root <= pte_slot root i /\ pte_slot root i + 8 <= root + 4096.
Proof. unfold pte_slot. lia. Qed.

Lemma pte_slot_page_eq m m' root i :
  page_eq m m' root -> 0 <= i < 512 -> load64 m' (pte_slot root i) = load64 m (pte_slot root i).
Proof.
  intros He Hi. apply loadn_ext. intros x Hx. apply He.
  pose proof (pte_slot_range root i Hi). lia.
Qed.

Lemma pt_pages_root m lv root : root ∈ pt_pages m lv root.
Proof. destruct lv; apply elem_of_cons; by left. Qed.

Lemma pt_pages_child m lv root i p :
  0 <= i < 512 -> has (load64 m (pte_slot root i)) PTE_V = true ->
  p ∈ pt_pages m lv (PTE2PA (load64 m (pte_slot root i))) -> p ∈ pt_pages m (S lv) root.
Proof.
  intros Hi Hv Hp. cbn [pt_pages]. apply elem_of_cons. right.
  apply elem_of_flat_map. exists i. rewrite elem_of_indices. split; [done|].
  unfold pt_child. by rewrite Hv.
Qed.

(** Subtrees of a well-formed tree are well formed and avoid the root. *)
Lemma tree_ok_child m lv root i :
  tree_ok m (S lv) root -> 0 <= i < 512 -> has (load64 m (pte_slot root i)) PTE_V = true ->
  tree_ok m lv (PTE2PA (load64 m (pte_slot root i))) /\
  root ∉ pt_pages m lv (PTE2PA (load64 m (pte_slot root i))).
Proof.
  intros [Hn Hr Hint] Hi Hv. pose proof Hn as Hn'. cbn [pt_pages] in Hn'.
  apply NoDup_cons in Hn' as [Hroot Hn']. split; [split|].
  - apply (flat_map_nodup_in _ _ i) in Hn'; [|by apply elem_of_indices].
    unfold pt_child in Hn'. by rewrite Hv in Hn'.
  - rewrite Forall_forall in *. intros p Hp. apply Hr. by apply (pt_pages_child m lv root i).
  - by apply (Hint i Hi Hv).
  - intros Hin. apply Hroot, elem_of_flat_map. exists i. rewrite elem_of_indices.
    split; [done|]. unfold pt_child. by rewrite Hv.
Qed.

Lemma tree_siblings m lv root i j p :
  tree_ok m (S lv) root -> 0 <= i < 512 -> 0 <= j < 512 -> i <> j ->
  p ∈ pt_child (pt_pages m lv) m root i -> p ∉ pt_child (pt_pages m lv) m root j.
Proof.
  intros [Hn _ _] Hi Hj Hne. cbn [pt_pages] in Hn. apply NoDup_cons in Hn as [_ Hn].
  intros Hp. apply (flat_map_nodup_disj _ indices i j p); rewrite ?elem_of_indices; done.
Qed.

(** ** Frame *)

(** Memory that agrees on the tree's pages holds the same tree. *)
Lemma pt_frame m m' lv root :
  Forall (page_eq m m') (pt_pages m lv root) ->
  pt_pages m' lv root = pt_pages m lv root /\
  (forall va, pt_walk m' lv root va = pt_walk m lv root va) /\
  (forall va, pte_at m' lv root va = pte_at m lv root va).
Proof.
  intros H.
  assert (pt_pages m' lv root = pt_pages m lv root /\
          forall va, pt_walk m' lv root va = pt_walk m lv root va /\
                     pte_at m' lv root va = pte_at m lv root va) as [H1 H2];
    [|split; [done|]; split; intros va; apply H2].
  revert root H. induction lv as [|lv IH]; intros root H.
  - split; [done|]. intros va. split; [done|]. unfold pte_at. cbn.
    apply pte_slot_page_eq; [|by apply PX_range].
    cbn in H. by apply Forall_cons in H as [H _].
  - assert (page_eq m m' root) as Hroot.
    { rewrite Forall_forall in H. apply H, pt_pages_root. }
    assert (forall i, 0 <= i < 512 -> has (load64 m (pte_slot root i)) PTE_V = true ->
              Forall (page_eq m m') (pt_pages m lv (PTE2PA (load64 m (pte_slot root i))))) as Hc.
    { intros i Hi Hv. rewrite Forall_forall in *. intros p Hp. apply H.
      by apply (pt_pages_child m lv root i). }
    split.
    + cbn [pt_pages]. f_equal. apply flat_map_ext_in. intros i Hi%elem_of_indices.
      unfold pt_child. rewrite (pte_slot_page_eq m m') by done. zcase; [|done].
      by apply IH, Hc.
    + intros va. pose proof (PX_range (Z.of_nat (S lv)) va ltac:(lia)) as Hi.
      unfold pte_at. cbn [pt_walk]. rewrite (pte_slot_page_eq m m') by done.
      zcase; [|done]. apply IH. by apply Hc.
Qed.

Lemma pt_interior_frame m m' lv root :
  Forall (page_eq m m') (pt_pages m lv root) -> pt_interior m lv root -> pt_interior m' lv root.
Proof.
  revert root. induction lv as [|lv IH]; intros root H Hint; [done|].
  assert (page_eq m m' root) as Hroot.
  { rewrite Forall_forall in H. apply H, pt_pages_root. }
  intros i Hi. rewrite (pte_slot_page_eq m m') by done. intros Hv.
  destruct (Hint i Hi Hv) as [Hx Hc]. split; [done|]. apply IH; [|done].
  rewrite Forall_forall in *. intros p Hp. apply H. by apply (pt_pages_child m lv root i).
Qed.

Lemma tree_ok_frame m m' lv root :
  Forall (page_eq m m') (pt_pages m lv root) -> tree_ok m lv root -> tree_ok m' lv root.
Proof.
  intros He [Hn Hr Hint]. destruct (pt_frame m m' lv root He) as [E _].
  split; [by rewrite E|by rewrite E|by eapply pt_interior_frame].
Qed.

(** A word store outside a page leaves the page alone. *)
Lemma page_eq_store64 m p q a v :
  ram_page p -> ram_page q -> p <> q -> q <= a -> a + 8 <= q + 4096 ->
  page_eq m (store64 m a v) p.
Proof.
  intros Hp Hq Hne H1 H2 x Hx. apply load8_store64_out.
  pose proof (ram_page_disjoint p q Hp Hq Hne). lia.
Qed.

(** ** The leaf entry of an address *)

(** The leaf slot lies in one of the tree's pages. *)
Lemma pt_walk_slot m lv root va a :
  pt_walk m lv root va = Some a ->
  exists p, p ∈ pt_pages m lv root /\ a = pte_slot p (PX 0 va).
Proof.
  revert root. induction lv as [|lv IH]; intros root; cbn [pt_walk].
  - intros [= <-]. exists root. split; [set_solver|done].
  - zcase; [|done]. intros (p & Hp & ->)%IH. exists p. split; [|done].
    eapply pt_pages_child; [|done|exact Hp]. apply PX_range. lia.
Qed.

(** Two pages of RAM that share a slot are the same page. *)
Lemma pte_slot_inj p q i j :
  ram_page p -> ram_page q -> 0 <= i < 512 -> 0 <= j < 512 ->
  pte_slot p i = pte_slot q j -> p = q /\ i = j.
Proof. unfold pte_slot. intros [Hp _] [Hq _]. lia. Qed.

(** Addresses with the same leaf slot have the same indices. *)
Lemma pt_walk_inj m lv root va va' a :
  tree_ok m lv root -> pt_walk m lv root va = Some a -> pt_walk m lv root va' = Some a ->
  forall k, (k <= lv)%nat -> PX (Z.of_nat k) va = PX (Z.of_nat k) va'.
Proof.
  revert root. induction lv as [|lv IH]; intros root Hok.
  - cbn. intros [= <-] [= E] k Hk. unfold pte_slot in E. replace k with 0%nat by lia.
    change (Z.of_nat 0) with 0. lia.
  - pose proof (PX_range (Z.of_nat (S lv)) va ltac:(lia)) as Hi.
    pose proof (PX_range (Z.of_nat (S lv)) va' ltac:(lia)) as Hj.
    remember (PX (Z.of_nat (S lv)) va) as i eqn:Ei. remember (PX (Z.of_nat (S lv)) va') as j eqn:Ej.
    cbn [pt_walk]. rewrite <- Ei, <- Ej.
    destruct (has (load64 m (pte_slot root i)) PTE_V) eqn:Hv; [|done].
    destruct (has (load64 m (pte_slot root j)) PTE_V) eqn:Hv'; [|done].
    intros Hw Hw'. destruct (decide (i = j)) as [<-|Hne].
    + intros k Hk. destruct (decide (k = S lv)) as [->|]; [congruence|].
      destruct (tree_ok_child m lv root i Hok Hi Hv) as [Hc _].
      by apply (IH _ Hc Hw Hw'); lia.
    + exfalso. apply pt_walk_slot in Hw as (p & Hp & Ea), Hw' as (q & Hq & Ea').
      assert (ram_page p /\ ram_page q) as [Rp Rq].
      { pose proof (tree_ram _ _ _ Hok) as Hr. rewrite Forall_forall in Hr.
        split; apply Hr; [by apply (pt_pages_child m lv root i)|by apply (pt_pages_child m lv root j)]. }
      rewrite Ea in Ea'.
      apply pte_slot_inj in Ea' as [<- _]; [|done|done|apply PX_range; lia..].
      apply (tree_siblings m lv root i j p Hok Hi Hj Hne); unfold pt_child;
        [by rewrite Hv|by rewrite Hv'].
Qed.

(** ** Writing a leaf entry *)

Lemma pt_leaf_store m lv root va a v :
  tree_ok m lv root -> pt_walk m lv root va = Some a ->
  pt_pages (store64 m a v) lv root = pt_pages m lv root /\
  (forall va', pt_walk (store64 m a v) lv root va' = pt_walk m lv root va') /\
  pt_interior (store64 m a v) lv root.
Proof.
  revert root. induction lv as [|lv IH]; intros root Hok; [done|].
  pose proof (PX_range (Z.of_nat (S lv)) va ltac:(lia)) as Hi.
  remember (PX (Z.of_nat (S lv)) va) as i eqn:Ei. cbn [pt_walk]. rewrite <- Ei.
  destruct (has (load64 m (pte_slot root i)) PTE_V) eqn:Hv; [|done]. intros Hw.
  destruct (tree_ok_child m lv root i Hok Hi Hv) as [Hc Hroot].
  destruct (IH _ Hc Hw) as (Ep & Ew & Ei').
  pose proof (tree_ram _ _ _ Hok) as Hram. rewrite Forall_forall in Hram.
  destruct (pt_walk_slot _ _ _ _ _ Hw) as (p & Hp & Ea).
  assert (ram_page p) as Rp by (apply Hram; by apply (pt_pages_child m lv root i)).
  assert (forall q, q ∈ pt_pages m (S lv) root -> q <> p -> page_eq m (store64 m a v) q) as Hpe.
  { intros q Hq Hne. pose proof (pte_slot_range p (PX 0 va) ltac:(apply PX_range; lia)).
    apply (page_eq_store64 m q p); [by apply Hram|done|done|lia|lia]. }
  assert (forall j, 0 <= j < 512 ->
    load64 (store64 m a v) (pte_slot root j) = load64 m (pte_slot root j)) as Hslot.
  { intros j Hj. apply pte_slot_page_eq; [|done]. apply Hpe; [apply pt_pages_root|].
    by intros ->. }
  assert (forall j, 0 <= j < 512 -> j <> i -> has (load64 m (pte_slot root j)) PTE_V = true ->
    Forall (page_eq m (store64 m a v)) (pt_pages m lv (PTE2PA (load64 m (pte_slot root j))))) as Hsib.
  { intros j Hj Hne Hvj. rewrite Forall_forall. intros q Hq. apply Hpe.
    - by apply (pt_pages_child m lv root j).
    - intros ->. apply (tree_siblings m lv root i j p Hok Hi Hj); [done|..];
        unfold pt_child; [by rewrite Hv|by rewrite Hvj]. }
  split; [|split].
  - cbn [pt_pages]. f_equal. apply flat_map_ext_in. intros j Hj%elem_of_indices.
    unfold pt_child. rewrite Hslot by done. destruct (has (load64 m (pte_slot root j)) PTE_V) eqn:Hvj; [|done].
    destruct (decide (j = i)) as [->|Hne]; [exact Ep|]. by apply pt_frame, Hsib.
  - intros va'. pose proof (PX_range (Z.of_nat (S lv)) va' ltac:(lia)) as Hj.
    cbn [pt_walk]. rewrite Hslot by done. destruct (has (load64 m (pte_slot root (PX (Z.of_nat (S lv)) va'))) PTE_V) eqn:Hvj; [|done].
    destruct (decide (PX (Z.of_nat (S lv)) va' = i)) as [->|Hne]; [apply Ew|].
    by apply pt_frame, Hsib.
  - intros j Hj. rewrite Hslot by done. intros Hvj. destruct (tree_int _ _ _ Hok j Hj Hvj) as [Hx Hcj].
    split; [done|]. destruct (decide (j = i)) as [->|Hne]; [done|].
    apply (pt_interior_frame m); [by apply Hsib|done].
Qed.

(** A leaf store changes one page of the address space. *)
Lemma pte_at_leaf_store m root va a v va' :
  tree_ok m 2 root -> pt_walk m 2 root va = Some a ->
  0 <= va < 2 ^ 39 -> 0 <= va' < 2 ^ 39 -> 0 <= v < 2 ^ 64 ->
  pte_at (store64 m a v) 2 root va' =
    if va' / 4096 =? va / 4096 then v else pte_at m 2 root va'.
Proof.
  intros Hok Hw Hva Hva' Hv. destruct (pt_leaf_store m 2 root va a v Hok Hw) as (_ & Ew & _).
  unfold pte_at. rewrite Ew. destruct (Z.eqb_spec (va' / 4096) (va / 4096)) as [E|E].
  - assert (pt_walk m 2 root va' = Some a) as ->; [|by apply load64_store64_same].
    rewrite <- Hw. cbn [pt_walk]. by rewrite !(PX_page _ va' va) by lia.
  - destruct (pt_walk m 2 root va') as [a'|] eqn:Hw'; [|done].
    assert (a <> a') as Hne.
    { intros <-. apply E. pose proof (pt_walk_inj m 2 root va' va a Hok Hw' Hw) as Hk.
      apply PX_inj; [done|done|apply (Hk 2%nat); lia|apply (Hk 1%nat); lia|apply (Hk 0%nat); lia]. }
    assert (forall w b, pt_walk m 2 root w = Some b -> b mod 8 = 0) as Hal.
    { intros w b (p & Hp & ->)%pt_walk_slot. pose proof (tree_ram _ _ _ Hok) as Hr.
      rewrite Forall_forall in Hr. destruct (Hr p Hp) as [Hm _]. unfold pte_slot. lia. }
    apply Hal in Hw, Hw'. rewrite load64_store64_aligned by done. zcase; [congruence|done].
Qed.

Lemma tree_ok_leaf_store m root va a v :
  tree_ok m 2 root -> pt_walk m 2 root va = Some a -> tree_ok (store64 m a v) 2 root.
Proof.
  intros Hok Hw. destruct (pt_leaf_store m 2 root va a v Hok Hw) as (E & _ & Hint).
  destruct Hok. split; [by rewrite E..|done].
Qed.

(** ** Adding a table *)

(** A page of zeroes is an empty table at every level. *)
Lemma pt_pages_zero m lv p :
  (forall i, 0 <= i < 512 -> load64 m (pte_slot p i) = 0) -> pt_pages m lv p = [p].
Proof.
  intros H. destruct lv as [|lv]; [done|]. cbn [pt_pages]. f_equal.
  assert (forall L, (forall i, i ∈ L -> 0 <= i < 512) ->
            flat_map (pt_child (pt_pages m lv) m p) L = []) as Hnil.
  { induction L as [|i L IH]; intros HL; [done|]. cbn.
    unfold pt_child at 1. rewrite H by (apply HL; set_solver). cbn. apply IH. set_solver. }
  apply Hnil. intros i. by rewrite elem_of_indices.
Qed.

Lemma pte_at_zero m lv p va :
  (forall i, 0 <= i < 512 -> load64 m (pte_slot p i) = 0) -> pte_at m lv p va = 0.
Proof.
  intros H. unfold pte_at. destruct lv as [|lv]; cbn [pt_walk].
  - apply H, PX_range. lia.
  - rewrite H by (apply PX_range; lia). done.
Qed.

Lemma pt_interior_zero m lv p :
  (forall i, 0 <= i < 512 -> load64 m (pte_slot p i) = 0) -> pt_interior m lv p.
Proof. intros H. destruct lv as [|lv]; [done|]. intros i Hi. by rewrite H. Qed.

Lemma link_rwx p : page_addr p -> Z.land (Z.lor (PA2PTE p) PTE_V) PTE_RWX = 0.
Proof.
  intros Hp. assert (PTE_FLAGS (Z.lor (PA2PTE p) PTE_V) = PTE_V) as E by (by apply PTE_FLAGS_lor).
  unfold PTE_FLAGS in E. change PTE_RWX with (Z.land 0x3FF PTE_RWX).
  rewrite Z.land_assoc, E. done.
Qed.

(** Pointing an invalid entry of the root at a fresh zeroed page adds that
    page to the tree and leaves the address space as it was. *)
Lemma pt_extend m m' lv root i p :
  tree_ok m (S lv) root -> 0 <= i < 512 ->
  has (load64 m (pte_slot root i)) PTE_V = false ->
  ram_page p -> p ∉ pt_pages m (S lv) root ->
  (forall q, q ∈ pt_pages m (S lv) root -> q <> root -> page_eq m m' q) ->
  (forall j, 0 <= j < 512 -> load64 m' (pte_slot root j) =
     if j =? i then Z.lor (PA2PTE p) PTE_V else load64 m (pte_slot root j)) ->
  (forall j, 0 <= j < 512 -> load64 m' (pte_slot p j) = 0) ->
  tree_ok m' (S lv) root /\ pt_pages m' (S lv) root ≡ₚ p :: pt_pages m (S lv) root /\
  forall va, pte_at m' (S lv) root va = pte_at m (S lv) root va.
Proof.
  intros Hok Hi Hinv Rp Hfresh Hpe Hslot Hzero.
  pose proof (ram_page_page_addr p Rp) as Pp.
  assert (PTE2PA (Z.lor (PA2PTE p) PTE_V) = p) as Epa by (by apply PTE2PA_lor).
  assert (has (Z.lor (PA2PTE p) PTE_V) PTE_V = true) as Ev by (by rewrite has_flag_lor).
  assert (forall j, 0 <= j < 512 -> j <> i -> has (load64 m (pte_slot root j)) PTE_V = true ->
    Forall (page_eq m m') (pt_pages m lv (PTE2PA (load64 m (pte_slot root j))))) as Hsib.
  { intros j Hj Hne Hvj. rewrite Forall_forall. intros q Hq. apply Hpe.
    - by apply (pt_pages_child m lv root j).
    - intros ->. by destruct (tree_ok_child m lv root j Hok Hj Hvj) as [_ []]. }
  assert (pt_pages m' (S lv) root ≡ₚ p :: pt_pages m (S lv) root) as Hperm.
  { cbn [pt_pages]. rewrite (Permutation_swap root p). constructor.
    apply (flat_map_update (pt_child (pt_pages m lv) m root) _ indices i [p]);
      [by apply elem_of_indices|apply indices_nodup| |].
    - intros j Hj%elem_of_indices Hne. unfold pt_child. rewrite Hslot by done.
      destruct (Z.eqb_spec j i); [done|]. destruct (has (load64 m (pte_slot root j)) PTE_V) eqn:Hvj; [|done].
      by apply pt_frame, Hsib.
    - unfold pt_child. rewrite Hslot, Z.eqb_refl, Ev, Epa, Hinv by done.
      by rewrite pt_pages_zero. }
  split; [|split; [done|]].
  - destruct Hok as [Hn Hr Hint]. split; [rewrite Hperm; by constructor..|].
    intros j Hj. rewrite Hslot by done. destruct (Z.eqb_spec j i) as [->|Hne].
    + intros _. split; [by apply link_rwx|]. rewrite Epa. by apply pt_interior_zero.
    + intros Hvj. destruct (Hint j Hj Hvj) as [Hx Hc]. split; [done|].
      apply (pt_interior_frame m); [by apply Hsib|done].
  - intros va. pose proof (PX_range (Z.of_nat (S lv)) va ltac:(lia)) as Hj.
    unfold pte_at. cbn [pt_walk]. rewrite Hslot by done.
    destruct (Z.eqb_spec (PX (Z.of_nat (S lv)) va) i) as [->|Hne].
    + rewrite Ev, Epa, Hinv. by apply (pte_at_zero m' lv p va).
    + destruct (has (load64 m (pte_slot root (PX (Z.of_nat (S lv)) va))) PTE_V) eqn:Hvj; [|done]. by apply (pt_frame m m'), Hsib.
Qed.

(** [m'] is [m] outside the pages [ps]. *)
Definition frame_out (ps : list Z) (m m' : mem) : Prop :=
  forall x, (forall p, p ∈ ps -> x < p \/ p + 4096 <= x) -> load8 m' x = load8 m x.

Lemma frame_out_refl ps m : frame_out ps m m.
Proof. done. Qed.

Lemma frame_out_trans ps m1 m2 m3 :
  frame_out ps m1 m2 -> frame_out ps m2 m3 -> frame_out ps m1 m3.
Proof. intros H1 H2 x Hx. by rewrite H2, H1. Qed.

Lemma frame_out_mono ps qs m m' :
  (forall p, p ∈ ps -> p ∈ qs) -> frame_out ps m m' -> frame_out qs m m'.
Proof. intros Hs H x Hx. apply H. intros p Hp. by apply Hx, Hs. Qed.

Lemma frame_out_page ps m m' q :
  Forall ram_page ps -> ram_page q -> q ∉ ps -> frame_out ps m m' -> page_eq m m' q.
Proof.
  intros Hr Rq Hq H x Hx. apply H. intros p Hp. rewrite Forall_forall in Hr.
  pose proof (ram_page_disjoint p q (Hr p Hp) Rq ltac:(by intros ->)). lia.
Qed.

(** Growing a subtree grows the tree by the same pages. *)
Lemma pt_child_update m m' lv root i new :
  let c := PTE2PA (load64 m (pte_slot root i)) in
  tree_ok m (S lv) root -> 0 <= i < 512 -> has (load64 m (pte_slot root i)) PTE_V = true ->
  tree_ok m' lv c -> pt_pages m' lv c ≡ₚ new ++ pt_pages m lv c ->
  (forall va, pte_at m' lv c va = pte_at m lv c va) ->
  frame_out (new ++ pt_pages m lv c) m m' ->
  NoDup (new ++ pt_pages m (S lv) root) -> Forall ram_page new ->
  tree_ok m' (S lv) root /\ pt_pages m' (S lv) root ≡ₚ new ++ pt_pages m (S lv) root /\
  (forall va, pte_at m' (S lv) root va = pte_at m (S lv) root va) /\
  (forall va, PX (Z.of_nat (S lv)) va = i -> pt_walk m' (S lv) root va = pt_walk m' lv c va).
Proof.
  intros c Hok Hi Hv Hokc Hperm Hat Hfr Hnd Hrn.
  destruct (tree_ok_child m lv root i Hok Hi Hv) as [Hc Hroot]. fold c in Hc, Hroot.
  pose proof (tree_ram _ _ _ Hok) as Hram.
  assert (Forall ram_page (new ++ pt_pages m lv c)) as Hrc.
  { apply Forall_app. split; [done|apply Hc]. }
  assert (forall q, q ∈ pt_pages m (S lv) root -> q ∉ pt_pages m lv c -> page_eq m m' q) as Hpe.
  { intros q Hq Hn. apply (frame_out_page (new ++ pt_pages m lv c)); [done| |  |done].
    - rewrite Forall_forall in Hram. by apply Hram.
    - apply NoDup_app in Hnd as (_ & Hnd & _). intros [Hq'|Hq']%elem_of_app; [|done].
      by apply (Hnd q). }
  assert (forall j, 0 <= j < 512 -> load64 m' (pte_slot root j) = load64 m (pte_slot root j)) as Hslot.
  { intros j Hj. apply pte_slot_page_eq; [|done]. apply Hpe; [apply pt_pages_root|done]. }
  assert (forall j, 0 <= j < 512 -> j <> i -> has (load64 m (pte_slot root j)) PTE_V = true ->
    Forall (page_eq m m') (pt_pages m lv (PTE2PA (load64 m (pte_slot root j))))) as Hsib.
  { intros j Hj Hne Hvj. rewrite Forall_forall. intros q Hq. apply Hpe.
    - by apply (pt_pages_child m lv root j).
    - intros Hqc. apply (tree_siblings m lv root i j q Hok Hi Hj); [done|..];
        unfold pt_child; [by rewrite Hv|by rewrite Hvj]. }
  assert (pt_pages m' (S lv) root ≡ₚ new ++ pt_pages m (S lv) root) as Hp.
  { cbn [pt_pages]. rewrite <- Permutation_middle. constructor.
    apply (flat_map_update (pt_child (pt_pages m lv) m root) _ indices i);
      [by apply elem_of_indices|apply indices_nodup| |].
    - intros j Hj%elem_of_indices Hne. unfold pt_child. rewrite Hslot by done.
      destruct (has (load64 m (pte_slot root j)) PTE_V) eqn:Hvj; [|done]. by apply pt_frame, Hsib.
    - unfold pt_child. rewrite Hslot, Hv by done. done. }
  split; [|split; [done|split]].
  - split; [by rewrite Hp|rewrite Hp; by apply Forall_app|].
    intros j Hj. rewrite Hslot by done. intros Hvj. destruct (tree_int _ _ _ Hok j Hj Hvj) as [Hx Hcj].
    split; [done|]. destruct (decide (j = i)) as [->|Hne]; [apply Hokc|].
    apply (pt_interior_frame m); [by apply Hsib|done].
  - intros va. pose proof (PX_range (Z.of_nat (S lv)) va ltac:(lia)) as Hj.
    unfold pte_at. cbn [pt_walk]. rewrite Hslot by done.
    destruct (decide (PX (Z.of_nat (S lv)) va = i)) as [->|Hne].
    + rewrite Hv. apply Hat.
    + destruct (has (load64 m (pte_slot root (PX (Z.of_nat (S lv)) va))) PTE_V) eqn:Hvj; [|done].
      by apply (pt_frame m m'), Hsib.
  - intros va E. cbn [pt_walk]. rewrite E, Hslot, Hv by done. done.
Qed.

End tree.

#[global] Arguments pt_pages : simpl never.
