(* ===== verification/Vm.v ===== *)
(** * kernel/vm.c: page tables and user memory

    The routines of [vm.c], with [proc_mapstacks] of [proc.c], on the
    allocator of [Kalloc.v].  A C pointer into the kernel's own data is a
    reader or a list of bytes; user and page-table memory is physical memory. *)

From S2P Require Import Prelude Riscv Mem Cstring State Kalloc PageTable.

Section vm.
Context {KI : KernelImage}.

(** The loop of [walk], from [level] down to 1. *)
Fixpoint walk_loop (level : nat) (pagetable va : Z) (alloc : bool) : M kstate Z :=
  match level with
  | O => ret (pte_slot pagetable (PX 0 va))
  | S level' =>
      let pte := pte_slot pagetable (PX (Z.of_nat level) va) in
      let! m := mem_get in
      if has (load64 m pte) PTE_V then walk_loop level' (PTE2PA (load64 m pte)) va alloc
      else if negb alloc then ret 0
      else
        let! p := kalloc in
        if p =? 0 then ret 0
        else
          mem_mod (fun m => memset m p 0 PGSIZE) ;;;
          mem_mod (fun m => store64 m pte (Z.lor (PA2PTE p) PTE_V)) ;;;
          walk_loop level' p va alloc
  end.

Definition walk (pagetable va : Z) (alloc : bool) : M kstate Z :=
  panic_if (MAXVA <=? va) "walk" ;;;
  walk_loop 2 pagetable va alloc.

Definition walkaddr (pagetable va : Z) : M kstate Z :=
  if MAXVA <=? va then ret 0
  else
    let! pte := walk pagetable va false in
    if pte =? 0 then ret 0
    else
      let! m := mem_get in
      let e := load64 m pte in
      if negb (has e PTE_V) then ret 0
      else if negb (has e PTE_U) then ret 0
      else ret (PTE2PA e).

(** The [for(;;)] of [mappages]; it leaves after the page at [last]. *)
Definition mappages_body (pagetable last perm : Z) (t : Z * Z) : M kstate (Z * Z + Z) :=
  let '(a, pa) := t in
  let! pte := walk pagetable a true in
  if pte =? 0 then ret (inr (-1))
  else
    let! m := mem_get in
    panic_if (has (load64 m pte) PTE_V) "mappages: remap" ;;;
    mem_mod (fun m => store64 m pte (Z.lor (Z.lor (PA2PTE pa) perm) PTE_V)) ;;;
    if a =? last then ret (inr 0)
    else ret (inl (u64 (a + PGSIZE), u64 (pa + PGSIZE))).

Definition mappages (pagetable va size pa perm : Z) : M kstate Z :=
  panic_if (negb (va mod PGSIZE =? 0)) "mappages: va not aligned" ;;;
  panic_if (negb (size mod PGSIZE =? 0)) "mappages: size not aligned" ;;;
  panic_if (size =? 0) "mappages: size" ;;;
  mloop (Z.to_nat (size / PGSIZE))
    (mappages_body pagetable (u64 (va + size - PGSIZE)) perm) (va, pa).

Definition kvmmap (kpgtbl va pa sz perm : Z) : M kstate unit :=
  let! r := mappages kpgtbl va sz pa perm in
  panic_if (negb (r =? 0)) "kvmmap".

(** [proc_mapstacks] of proc.c: a stack page for each process. *)
Definition proc_mapstacks (kpgtbl : Z) : M kstate unit :=
  mfor (seqZ 0 NPROC) (fun p =>
    let! pa := kalloc in
    panic_if (pa =? 0) "kalloc" ;;;
    kvmmap kpgtbl (KSTACK p) pa PGSIZE (Z.lor PTE_R PTE_W)).

Definition kvmmake : M kstate Z :=
  let! kpgtbl := kalloc in
  nonnull kpgtbl ;;;
  mem_mod (fun m => memset m kpgtbl 0 PGSIZE) ;;;
  kvmmap kpgtbl UART0 UART0 PGSIZE (Z.lor PTE_R PTE_W) ;;;
  kvmmap kpgtbl VIRTIO0 VIRTIO0 PGSIZE (Z.lor PTE_R PTE_W) ;;;
  kvmmap kpgtbl PLIC PLIC 0x4000000 (Z.lor PTE_R PTE_W) ;;;
  kvmmap kpgtbl KERNBASE KERNBASE (etext - KERNBASE) (Z.lor PTE_R PTE_X) ;;;
  kvmmap kpgtbl etext etext (PHYSTOP - etext) (Z.lor PTE_R PTE_W) ;;;
  kvmmap kpgtbl TRAMPOLINE trampoline PGSIZE (Z.lor PTE_R PTE_X) ;;;
  proc_mapstacks kpgtbl ;;;
  ret kpgtbl.

Definition kvminit : M kstate unit :=
  let! kpgtbl := kvmmake in
  modify (set_k_kpgtbl kpgtbl).

(** The body of the loop of [uvmunmap]; [a] runs up to [last], excluded. *)
Definition uvmunmap_body (pagetable last : Z) (do_free : bool) (a : Z) : M kstate (Z + unit) :=
  if a <? last then
    let! pte := walk pagetable a false in
    panic_if (pte =? 0) "uvmunmap: walk" ;;;
    let! m := mem_get in
    let e := load64 m pte in
    panic_if (negb (has e PTE_V)) "uvmunmap: not mapped" ;;;
    panic_if (PTE_FLAGS e =? PTE_V) "uvmunmap: not a leaf" ;;;
    when do_free (kfree (PTE2PA e)) ;;;
    mem_mod (fun m => store64 m pte 0) ;;;
    ret (inl (u64 (a + PGSIZE)))
  else ret (inr tt).

Definition uvmunmap (pagetable va npages : Z) (do_free : bool) : M kstate unit :=
  panic_if (negb (va mod PGSIZE =? 0)) "uvmunmap: not aligned" ;;;
  mloop (S (Z.to_nat npages))
    (uvmunmap_body pagetable (u64 (va + npages * PGSIZE)) do_free) va.

Definition uvmcreate : M kstate Z :=
  let! pagetable := kalloc in
  if pagetable =? 0 then ret 0
  else
    mem_mod (fun m => memset m pagetable 0 PGSIZE) ;;;
    ret pagetable.

(** The result of [mappages] is ignored, as in the source. *)
Definition uvmfirst (pagetable : Z) (src : list Z) (sz : Z) : M kstate unit :=
  panic_if (PGSIZE <=? sz) "uvmfirst: more than a page" ;;;
  let! p := kalloc in
  nonnull p ;;;
  mem_mod (fun m => memset m p 0 PGSIZE) ;;;
  mappages pagetable 0 PGSIZE p (Z.lor PTE_W (Z.lor PTE_R (Z.lor PTE_X PTE_U))) ;;;
  mem_mod (fun m => store_bytes m p (take (Z.to_nat sz) src)).

(** [npages] is an [int]: it is cut to 32 bits before [uvmunmap] takes it. *)
Definition uvmdealloc (pagetable oldsz newsz : Z) : M kstate Z :=
  if oldsz <=? newsz then ret oldsz
  else
    (if PGROUNDUP newsz <? PGROUNDUP oldsz then
       let npages := s32 ((PGROUNDUP oldsz - PGROUNDUP newsz) / PGSIZE) in
       uvmunmap pagetable (PGROUNDUP newsz) (u64 npages) true
     else ret tt) ;;;
    ret newsz.

Definition uvmalloc_body (pagetable oldsz newsz xperm : Z) (a : Z) : M kstate (Z + Z) :=
  if a <? newsz then
    let! p := kalloc in
    if p =? 0 then
      uvmdealloc pagetable a oldsz ;;;
      ret (inr 0)
    else
      mem_mod (fun m => memset m p 0 PGSIZE) ;;;
      let! r := mappages pagetable a PGSIZE p (Z.lor (Z.lor PTE_R PTE_U) xperm) in
      if negb (r =? 0) then
        kfree p ;;;
        uvmdealloc pagetable a oldsz ;;;
        ret (inr 0)
      else ret (inl (u64 (a + PGSIZE)))
  else ret (inr newsz).

Definition uvmalloc (pagetable oldsz newsz xperm : Z) : M kstate Z :=
  if newsz <? oldsz then ret oldsz
  else
    let oldsz := PGROUNDUP oldsz in
    mloop (S (Z.to_nat ((newsz - oldsz) / PGSIZE + 1)))
      (uvmalloc_body pagetable oldsz newsz xperm) oldsz.

(** The recursion of [freewalk] goes one table down at each call; [depth] is
    the number of levels below this one. *)
Fixpoint freewalk (depth : nat) (pagetable : Z) : M kstate unit :=
  mfor indices (fun i =>
    let! m := mem_get in
    let pte := load64 m (pte_slot pagetable i) in
    if has pte PTE_V && (Z.land pte (Z.lor PTE_R (Z.lor PTE_W PTE_X)) =? 0) then
      let child := PTE2PA pte in
      match depth with
      | O => hang
      | S depth' => freewalk depth' child
      end ;;;
      mem_mod (fun m => store64 m (pte_slot pagetable i) 0)
    else if has pte PTE_V then panic "freewalk: leaf"
    else ret tt) ;;;
  kfree pagetable.

Definition uvmfree (pagetable sz : Z) : M kstate unit :=
  when (0 <? sz) (uvmunmap pagetable 0 (PGROUNDUP sz / PGSIZE) true) ;;;
  freewalk 2 pagetable.

Definition uvmcopy_body (old new sz : Z) (i : Z) : M kstate (Z + Z) :=
  if i <? sz then
    let! pte := walk old i false in
    panic_if (pte =? 0) "uvmcopy: pte should exist" ;;;
    let! m := mem_get in
    let e := load64 m pte in
    panic_if (negb (has e PTE_V)) "uvmcopy: page not present" ;;;
    let pa := PTE2PA e in
    let flags := PTE_FLAGS e in
    let! p := kalloc in
    if p =? 0 then
      uvmunmap new 0 (i / PGSIZE) true ;;; ret (inr (-1))
    else
      mem_mod (fun m => memmove m p pa PGSIZE) ;;;
      let! r := mappages new i PGSIZE p flags in
      if negb (r =? 0) then
        kfree p ;;;
        uvmunmap new 0 (i / PGSIZE) true ;;; ret (inr (-1))
      else ret (inl (u64 (i + PGSIZE)))
  else ret (inr 0).

Definition uvmcopy (old new sz : Z) : M kstate Z :=
  mloop (S (Z.to_nat (sz / PGSIZE + 1))) (uvmcopy_body old new sz) 0.

Definition uvmclear (pagetable va : Z) : M kstate unit :=
  let! pte := walk pagetable va false in
  panic_if (pte =? 0) "uvmclear" ;;;
  mem_mod (fun m => store64 m pte (Z.land (load64 m pte) (Z.lnot PTE_U))).

(** ** Copies between kernel and user memory *)

(** [memmove] into physical memory from kernel data at [src]. *)
Definition store_from (m : mem) (a : Z) (src : cptr) (n : Z) : mem := fun x =>
  if (a <=? x) && (x <? a + n) then u8 (src (x - a)) else m x.

(** The [while] of [copyout]; [done] bytes of [src] have been copied. *)
Definition copyout_body (pagetable : Z) (src : cptr) (t : Z * Z * Z) : M kstate (Z * Z * Z + Z) :=
  let '(dstva, off, len) := t in
  if 0 <? len then
    let va0 := PGROUNDDOWN dstva in
    if MAXVA <=? va0 then ret (inr (-1))
    else
      let! pte := walk pagetable va0 false in
      let! m := mem_get in
      let e := load64 m pte in
      if (pte =? 0) || negb (has e PTE_V) || negb (has e PTE_U) || negb (has e PTE_W)
      then ret (inr (-1))
      else
        let pa0 := PTE2PA e in
        let n := Z.min (PGSIZE - (dstva - va0)) len in
        mem_mod (fun m => store_from m (pa0 + (dstva - va0)) (fun i => src (off + i)) n) ;;;
        ret (inl (u64 (va0 + PGSIZE), off + n, len - n))
  else ret (inr 0).

Definition copyout (pagetable dstva : Z) (src : cptr) (len : Z) : M kstate Z :=
  mloop (S (Z.to_nat (len / PGSIZE + 2))) (copyout_body pagetable src) (dstva, 0, len).

(** [copyin] returns its result and the bytes it has put at [dst], in order. *)
Definition copyin_body (pagetable : Z) (t : Z * list Z * Z) : M kstate (Z * list Z * Z + Z * list Z) :=
  let '(srcva, dst, len) := t in
  if 0 <? len then
    let va0 := PGROUNDDOWN srcva in
    let! pa0 := walkaddr pagetable va0 in
    if pa0 =? 0 then ret (inr (-1, dst))
    else
      let n := Z.min (PGSIZE - (srcva - va0)) len in
      let! m := mem_get in
      ret (inl (u64 (va0 + PGSIZE), dst ++ load_bytes m (pa0 + (srcva - va0)) (Z.to_nat n), len - n))
  else ret (inr (0, dst)).

Definition copyin (pagetable srcva len : Z) : M kstate (Z * list Z) :=
  mloop (S (Z.to_nat (len / PGSIZE + 2))) (copyin_body pagetable) (srcva, [], len).

(** The inner loop of [copyinstr]: at most [n] bytes from [p]; the flag says
    whether a NUL was copied. *)
Fixpoint copyinstr_page (m : mem) (n : nat) (p : Z) (dst : list Z) : list Z * bool :=
  match n with
  | O => (dst, false)
  | S n' => if load8 m p =? 0 then (dst ++ [0], true)
            else copyinstr_page m n' (p + 1) (dst ++ [load8 m p])
  end.

Definition copyinstr_body (pagetable : Z) (t : Z * list Z * Z) : M kstate (Z * list Z * Z + Z * list Z) :=
  let '(srcva, dst, max) := t in
  if 0 <? max then
    let va0 := PGROUNDDOWN srcva in
    let! pa0 := walkaddr pagetable va0 in
    if pa0 =? 0 then ret (inr (-1, dst))
    else
      let n := Z.min (PGSIZE - (srcva - va0)) max in
      let! m := mem_get in
      let '(dst, got_null) := copyinstr_page m (Z.to_nat n) (pa0 + (srcva - va0)) dst in
      if got_null : bool then ret (inr (0, dst))
      else ret (inl (u64 (va0 + PGSIZE), dst, max - n))
  else ret (inr (-1, dst)).

Definition copyinstr (pagetable srcva max : Z) : M kstate (Z * list Z) :=
  mloop (S (Z.to_nat (max / PGSIZE + 2))) (copyinstr_body pagetable) (srcva, [], max).

End vm.
