(* ===== verification/VmSpec.v ===== *)
(** * What the routines of kernel/vm.c do

    The page table is seen through [pte_at], the function from addresses to
    leaf entries that the tree in memory describes.  Every routine keeps the
    tree well formed and its pages off the free list. *)

From S2P Require Import Prelude Riscv Mem Cstring State Kalloc PageTable Vm.

(** The only state the memory routines change. *)
Definition vm_upd (m : mem) (f : Z) (s : kstate) : kstate := set_k_mem m (set_k_freelist f s).

Lemma vm_upd_id s : vm_upd (k_mem s) (k_freelist s) s = s.
Proof. by destruct s. Qed.

Section vmspec.
Context {KI : KernelImage}.

(** [vm_inv s l root]: [l] is the free list and [root] is a well-formed table
    none of whose pages is free. *)
Record vm_inv (s : kstate) (l : list Z) (lv : nat) (root : Z) : Prop := {
  vm_held : Lkmem ∉ k_held s;
  vm_kmem : kmem_inv s l;
  vm_tree : tree_ok (k_mem s) lv root;
  vm_disj : NoDup (l ++ pt_pages (k_mem s) lv root)
}.

(** ** walk without allocation *)

Lemma walk_loop_noalloc lv root va s :
  walk_loop lv root va false s = Ok (default 0 (pt_walk (k_mem s) lv root va)) s.
Proof.
  revert root. induction lv as [|lv IH]; intros root; [done|].
  cbn [walk_loop pt_walk]. unfold bind at 1, mem_get, gets. cbn [negb].
  destruct (has _ PTE_V); [apply IH|done].
Qed.

Lemma walk_noalloc root va s :
  va < MAXVA -> walk root va false s = Ok (default 0 (pt_walk (k_mem s) 2 root va)) s.
Proof.
  intros H. unfold walk. replace (MAXVA <=? va) with false by (symmetry; apply Z.leb_gt; done).
  apply (walk_loop_noalloc 2).
Qed.

(** Slots of a well-formed tree are never the null pointer. *)
Lemma pt_walk_pos m lv root va a :
  tree_ok m lv root -> pt_walk m lv root va = Some a -> 0 < a.
Proof.
  intros [_ Hr _] (p & Hp & ->)%pt_walk_slot. rewrite Forall_forall in Hr.
  pose proof (ram_page_bounds p (Hr p Hp)). pose proof (PX_range 0 va ltac:(lia)).
  unfold pte_slot. lia.
Qed.

(** ** walk with allocation *)

Lemma vm_inv_child s l lv root i :
  vm_inv s l (S lv) root -> 0 <= i < 512 -> has (load64 (k_mem s) (pte_slot root i)) PTE_V = true ->
  vm_inv s l lv (PTE2PA (load64 (k_mem s) (pte_slot root i))).
Proof.
  intros [Hh Hk Ht Hd] Hi Hv. destruct (tree_ok_child _ _ _ _ Ht Hi Hv) as [Hc _].
  split; [done..|]. apply NoDup_app in Hd as (Hd1 & Hd2 & _). apply NoDup_app.
  split; [done|]. split; [|apply Hc]. intros p Hp Hp'. apply (Hd2 p Hp).
  by apply (pt_pages_child _ lv root i).
Qed.

(** The memory after [walk] has put the fresh page [p] below entry [i]. *)
Definition link_page (m : mem) (root i p : Z) : mem :=
  store64 (memset (memset m p 5 PGSIZE) p 0 PGSIZE) (pte_slot root i) (Z.lor (PA2PTE p) PTE_V).

Lemma link_page_ok s l lv root i p f :
  vm_inv s (p :: l) (S lv) root -> 0 <= i < 512 ->
  has (load64 (k_mem s) (pte_slot root i)) PTE_V = false ->
  freelist_rep (k_mem s) f l ->
  let m' := link_page (k_mem s) root i p in
  vm_inv (vm_upd m' f s) l (S lv) root /\
  pt_pages m' (S lv) root ≡ₚ p :: pt_pages (k_mem s) (S lv) root /\
  (forall va, pte_at m' (S lv) root va = pte_at (k_mem s) (S lv) root va) /\
  load64 m' (pte_slot root i) = Z.lor (PA2PTE p) PTE_V /\
  frame_out (p :: pt_pages (k_mem s) (S lv) root) (k_mem s) m'.
Proof.
  intros [Hh Hk Ht Hd] Hi Hv Hf m'. pose proof (kmem_pages _ _ Hk) as [Rp Rl]%Forall_cons.
  pose proof (tree_ram _ _ _ Ht) as Rt. pose proof Hd as Hd'. rewrite <- app_comm_cons in Hd'.
  apply NoDup_cons in Hd' as [Hpn Hd']. rewrite elem_of_app in Hpn.
  assert (ram_page root) as Rr by (rewrite Forall_forall in Rt; apply Rt, pt_pages_root).
  assert (root <> p) as Hne by (intros ->; apply Hpn; right; apply pt_pages_root).
  pose proof (pte_slot_range root i Hi) as Hs. pose proof (ram_page_disjoint _ _ Rr Rp Hne) as Hdis.
  pose proof (ram_page_page_addr p Rp) as Pp. pose proof (ram_page_bounds p Rp) as Bp.
  assert (0 <= Z.lor (PA2PTE p) PTE_V < 2 ^ 64) as Hrange.
  { rewrite pte_lor_eq by done. change PTE_V with 1. lia. }
  assert (forall x, (x < p \/ p + 4096 <= x) -> (x < pte_slot root i \/ pte_slot root i + 8 <= x) ->
            load8 m' x = load8 (k_mem s) x) as Hb.
  { intros x H1 H2. unfold m', link_page. rewrite load8_store64_out by done.
    rewrite !load8_memset. unfold PGSIZE. zdec; try lia; done. }
  assert (forall q, ram_page q -> q <> root -> q <> p -> page_eq (k_mem s) m' q) as Hpe.
  { intros q Rq H1 H2 x Hx. pose proof (ram_page_disjoint _ _ Rq Rr H1).
    pose proof (ram_page_disjoint _ _ Rq Rp H2). apply Hb; lia. }
  assert (load64 m' (pte_slot root i) = Z.lor (PA2PTE p) PTE_V) as Hi'
    by (by apply load64_store64_same).
  destruct (pt_extend (k_mem s) m' lv root i p) as (Hok & Hperm & Hat); try done.
  - intros Hin. apply Hpn. by right.
  - intros q Hq Hqr. apply Hpe; [by rewrite Forall_forall in Rt; apply Rt|done|].
    intros ->. apply Hpn. by right.
  - intros j Hj. destruct (Z.eqb_spec j i) as [->|Hji]; [done|].
    pose proof (pte_slot_range root j Hj). apply loadn_ext. intros x Hx. apply Hb; [lia|].
    unfold pte_slot in *. lia.
  - intros j Hj. pose proof (pte_slot_range p j Hj). unfold m', link_page.
    rewrite load64_store64_out by lia. apply load64_memset_0; unfold PGSIZE; lia.
  - split; [split|split; [done|split; [done|split; [done|]]]].
    + done.
    + split; [|done|by pose proof (kmem_nodup _ _ Hk) as [_ ?]%NoDup_cons]. cbn.
      eapply freelist_rep_ext; [|exact Hf]. intros q Hq. rewrite Forall_forall in Rl.
      apply loadn_ext. intros x Hx. apply (Hpe q); [by apply Rl| | |lia].
      * intros ->. apply NoDup_app in Hd' as (_ & Hd' & _). apply (Hd' root Hq), pt_pages_root.
      * intros ->. apply Hpn. by left.
    + done.
    + cbn [vm_upd k_mem set_k_mem]. rewrite Hperm, <- Permutation_middle. done.
    + intros x Hx. apply Hb.
      * apply Hx. apply elem_of_cons. by left.
      * pose proof (Hx root ltac:(right; apply pt_pages_root)). lia.
Qed.

(** [walk(.., 1)]: the tree grows by pages off the free list, the address
    space stays as it was, and unless memory runs out there is now a leaf
    slot for [va]. *)
Lemma walk_loop_alloc lv : forall root va s l,
  vm_inv s l lv root ->
  exists r m' f' new l',
    walk_loop lv root va true s = Ok r (vm_upd m' f' s) /\ l = new ++ l' /\
    vm_inv (vm_upd m' f' s) l' lv root /\
    pt_pages m' lv root ≡ₚ new ++ pt_pages (k_mem s) lv root /\
    (forall va', pte_at m' lv root va' = pte_at (k_mem s) lv root va') /\
    frame_out (new ++ pt_pages (k_mem s) lv root) (k_mem s) m' /\
    (pt_walk m' lv root va = Some r \/ (r = 0 /\ l' = [])).
Proof.
  induction lv as [|lv IH]; intros root va s l Hinv.
  - eexists _, (k_mem s), (k_freelist s), [], l. rewrite vm_upd_id. cbn [walk_loop].
    split; [done|]. split; [done|]. split; [done|]. split; [done|].
    split; [done|]. split; [apply frame_out_refl|by left].
  - pose proof (PX_range (Z.of_nat (S lv)) va ltac:(lia)) as Hi.
    (* the part below a valid entry *)
    assert (forall s1 l1, vm_inv s1 l1 (S lv) root ->
      has (load64 (k_mem s1) (pte_slot root (PX (Z.of_nat (S lv)) va))) PTE_V = true ->
      exists r m' f' new l',
        walk_loop lv (PTE2PA (load64 (k_mem s1) (pte_slot root (PX (Z.of_nat (S lv)) va)))) va true s1
          = Ok r (vm_upd m' f' s1) /\ l1 = new ++ l' /\
        vm_inv (vm_upd m' f' s1) l' (S lv) root /\
        pt_pages m' (S lv) root ≡ₚ new ++ pt_pages (k_mem s1) (S lv) root /\
        (forall va', pte_at m' (S lv) root va' = pte_at (k_mem s1) (S lv) root va') /\
        frame_out (new ++ pt_pages (k_mem s1) (S lv) root) (k_mem s1) m' /\
        (pt_walk m' (S lv) root va = Some r \/ (r = 0 /\ l' = []))) as Hdesc.
    { clear s l Hinv. intros s l Hinv Hv.
      destruct (IH _ va s l (vm_inv_child _ _ _ _ _ Hinv Hi Hv))
        as (r & m' & f' & new & l' & Hrun & -> & Hinv' & Hperm & Hat & Hfr & Hres).
      destruct Hinv as [Hh Hk Ht Hd], Hinv' as [Hh' Hk' Ht' Hd']. cbn [vm_upd k_mem set_k_mem] in *.
      pose proof Hd as Hd2. rewrite <- (assoc_L (++)) in Hd2. apply NoDup_app in Hd2 as (N1 & N2 & N3).
      apply NoDup_app in N3 as (N3 & N4 & N5).
      assert (NoDup (new ++ pt_pages (k_mem s) (S lv) root)) as Hnd.
      { apply NoDup_app. split; [done|]. split; [|done]. intros p H1 H2. apply (N2 p H1), elem_of_app. by right. }
      destruct (pt_child_update (k_mem s) m' lv root _ new Ht Hi Hv Ht' Hperm Hat Hfr Hnd)
        as (Hok & Hp & Ha & Hw).
      { pose proof (kmem_pages _ _ Hk) as Hr. by apply Forall_app in Hr as [Hr _]. }
      exists r, m', f', new, l'. split; [done|]. split; [done|]. split.
      { split; [done..|]. cbn [vm_upd k_mem set_k_mem]. rewrite Hp.
        rewrite (assoc_L (++)), (Permutation_app_comm l' new). done. }
      split; [done|]. split; [done|]. split.
      { eapply frame_out_mono; [|exact Hfr]. intros p [?|Hp']%elem_of_app; apply elem_of_app; [by left|]. right. eapply pt_pages_child; [exact Hi|done|exact Hp']. }
      destruct Hres as [Hres|Hres]; [left; by rewrite Hw|by right]. }
    cbn [walk_loop]. unfold bind at 1, mem_get, gets. cbn [negb].
    destruct (has (load64 (k_mem s) (pte_slot root (PX (Z.of_nat (S lv)) va))) PTE_V) eqn:Hv.
    + by apply Hdesc.
    + destruct l as [|p l].
      * rewrite (bind_ok _ _ _ _ _ (kalloc_nil s (vm_held _ _ _ _ Hinv) (vm_kmem _ _ _ _ Hinv))).
        eexists _, (k_mem s), (k_freelist s), [], []. rewrite vm_upd_id.
        split; [done|]. split; [done|]. split; [done|]. split; [done|].
        split; [done|]. split; [apply frame_out_refl|by right].
      * rewrite (bind_ok _ _ _ _ _ (kalloc_cons s p l (vm_held _ _ _ _ Hinv) (vm_kmem _ _ _ _ Hinv))).
        pose proof (kmem_pages _ _ (vm_kmem _ _ _ _ Hinv)) as [Rp Rl]%Forall_cons.
        pose proof (ram_page_bounds p Rp).
        destruct (Z.eqb_spec p 0); [lia|].
        pose proof (kmem_rep _ _ (vm_kmem _ _ _ _ Hinv)) as [_ Hf].
        destruct (link_page_ok s l lv root _ p _ Hinv Hi Hv Hf) as (Hinv1 & Hp1 & Ha1 & Hl1 & Hf1).
        pose proof (ram_page_page_addr p Rp) as Pp.
        destruct (Hdesc _ _ Hinv1) as (r & m' & f' & new & l' & Hrun & -> & Hinv' & Hp & Ha & Hfr & Hres).
        { cbn [vm_upd k_mem set_k_mem]. rewrite Hl1. by rewrite has_flag_lor. }
        cbn [vm_upd k_mem set_k_mem] in Hrun, Hp, Ha, Hfr. rewrite Hl1, PTE2PA_lor in Hrun by done.
        exists r, m', f', (p :: new), l'. split; [exact Hrun|]. split; [done|]. split; [done|].
        split; [rewrite Hp, Hp1; by rewrite <- Permutation_middle|].
        split; [intros va'; by rewrite Ha, Ha1|].
        split; [|done]. eapply frame_out_trans.
        { eapply frame_out_mono; [|exact Hf1]. intros q. elems. }
        { eapply frame_out_mono; [|exact Hfr]. intros q. rewrite elem_of_app, Hp1. elems. }
Qed.

(** ** Writing leaf entries *)

(** Where a leaf slot lies: in a page of the tree. *)
Lemma leaf_frame m lv root va a v :
  pt_walk m lv root va = Some a -> frame_out (pt_pages m lv root) m (store64 m a v).
Proof.
  intros (p & Hp & ->)%pt_walk_slot x Hx. apply load8_store64_out.
  pose proof (pte_slot_range p (PX 0 va) ltac:(apply PX_range; lia)).
  specialize (Hx p Hp). lia.
Qed.

(** A write confined to the tree's pages does not disturb the free list. *)
Lemma kmem_inv_frame s l ps m' :
  (forall p, p ∈ ps -> p ∉ l) -> Forall ram_page ps -> frame_out ps (k_mem s) m' ->
  kmem_inv s l -> kmem_inv (set_k_mem m' s) l.
Proof.
  intros Hd Hr Hf Hk. apply kmem_inv_mem; [|done]. intros p x Hp Hx.
  apply (frame_out_page ps _ _ p Hr); [|  |done|lia].
  - pose proof (kmem_pages _ _ Hk) as Hl. rewrite Forall_forall in Hl. by apply Hl.
  - intros Hin. by apply (Hd p Hin).
Qed.

Lemma vm_inv_leaf_store s l root va a v :
  vm_inv s l 2 root -> pt_walk (k_mem s) 2 root va = Some a ->
  vm_inv (set_k_mem (store64 (k_mem s) a v) s) l 2 root.
Proof.
  intros [Hh Hk Ht Hd] Hw. split; [done| | |].
  - eapply kmem_inv_frame; [|apply Ht|by eapply leaf_frame|done].
    intros p Hp Hl. apply NoDup_app in Hd as (_ & Hd & _). by apply (Hd p Hl).
  - by eapply tree_ok_leaf_store.
  - cbn [k_mem set_k_mem]. by rewrite (proj1 (pt_leaf_store _ _ _ _ _ v Ht Hw)).
Qed.

(** ** mappages *)

Definition leaf_entry (pa perm : Z) : Z := Z.lor (Z.lor (PA2PTE pa) perm) PTE_V.

Lemma perm_valid_range perm : 0 <= perm < 1024 -> 0 <= Z.lor perm PTE_V < 1024.
Proof.
  intros Hp. split; [apply Z.lor_nonneg; split; [lia|done]|].
  apply (Z.log2_lt_cancel _ (2 ^ 10)).
  rewrite Z.log2_pow2, Z.log2_lor by (lia || done). change (Z.log2 PTE_V) with 0.
  destruct (decide (perm = 0)) as [->|]; [done|].
  assert (Z.log2 perm < 10); [|lia]. apply Z.log2_lt_pow2; lia.
Qed.

Lemma perm_valid_has perm : has (Z.lor perm PTE_V) PTE_V = true.
Proof.
  unfold has. rewrite Z.land_lor_distr_l. change PTE_V with 1. change (Z.land 1 1) with 1.
  destruct (Z.eqb_spec (Z.lor (Z.land perm 1) 1) 0) as [E|]; [|done].
  apply Z.lor_eq_0_iff in E. lia.
Qed.

Lemma leaf_entry_range pa perm :
  page_addr pa -> 0 <= perm < 1024 -> 0 <= leaf_entry pa perm < 2 ^ 64.
Proof.
  intros Hpa Hp. unfold leaf_entry. rewrite <- Z.lor_assoc.
  pose proof (perm_valid_range perm Hp) as H.
  destruct Hpa as [Hm Hb]. rewrite pte_lor_eq; [|done|exact H]. lia.
Qed.

Lemma leaf_entry_decode pa perm :
  page_addr pa -> 0 <= perm < 1024 ->
  PTE2PA (leaf_entry pa perm) = pa /\ PTE_FLAGS (leaf_entry pa perm) = Z.lor perm PTE_V /\
  has (leaf_entry pa perm) PTE_V = true.
Proof.
  intros Hpa Hp. unfold leaf_entry. rewrite <- Z.lor_assoc.
  pose proof (perm_valid_range perm Hp) as H.
  rewrite PTE2PA_lor, PTE_FLAGS_lor, has_flag_lor by done.
  split; [done|]. split; [done|]. apply perm_valid_has.
Qed.

(** The address space after [k] pages from [a] have been mapped to [pa]. *)
Definition mapped (m m' : mem) (root a pa perm k : Z) : Prop :=
  forall va, 0 <= va < 2 ^ 39 ->
    pte_at m' 2 root va =
      if (a <=? va) && (va <? a + k * 4096)
      then leaf_entry (pa + (va / 4096 * 4096 - a)) perm else pte_at m 2 root va.

Lemma mapped_0 m root a pa perm : mapped m m root a pa perm 0.
Proof. intros va Hva. zdec; try lia; done. Qed.

(** One turn of the loop of [mappages]. *)
Lemma mappages_body_spec root last perm a pa s l :
  vm_inv s l 2 root -> 0 <= a < MAXVA -> a mod 4096 = 0 ->
  page_addr pa -> 0 <= perm < 1024 -> has (pte_at (k_mem s) 2 root a) PTE_V = false ->
  exists m' f' new l' k,
    mappages_body root last perm (a, pa) s =
      Ok (if k =? 0 then inr (-1) else if a =? last then inr 0
          else inl (u64 (a + PGSIZE), u64 (pa + PGSIZE))) (vm_upd m' f' s) /\
    l = new ++ l' /\ vm_inv (vm_upd m' f' s) l' 2 root /\
    pt_pages m' 2 root ≡ₚ new ++ pt_pages (k_mem s) 2 root /\
    frame_out (new ++ pt_pages (k_mem s) 2 root) (k_mem s) m' /\
    mapped (k_mem s) m' root a pa perm k /\ (k = 1 \/ (k = 0 /\ l' = [])).
Proof.
  intros Hinv Ha Hal Hpa Hperm Hnv. rewrite MAXVA_eq in Ha.
  destruct (walk_loop_alloc 2 root a s l Hinv)
    as (r & m1 & f' & new & l' & Hrun & -> & Hinv1 & Hp1 & Hat1 & Hfr1 & Hres).
  unfold mappages_body, walk. rewrite bind_assoc.
  replace (MAXVA <=? a) with false by (symmetry; apply Z.leb_gt; rewrite MAXVA_eq; lia).
  rewrite (bind_ok _ _ _ _ _ (eq_refl : panic_if false "walk" s = Ok tt s)).
  rewrite (bind_ok _ _ _ _ _ Hrun).
  destruct (decide (pt_walk m1 2 root a = Some r)) as [Hw|Hw].
  - pose proof (pt_walk_pos _ _ _ _ _ (vm_tree _ _ _ _ Hinv1) Hw).
    destruct (Z.eqb_spec r 0); [lia|].
    unfold bind at 1, mem_get, gets. cbn [vm_upd k_mem set_k_mem].
    assert (load64 m1 r = pte_at (k_mem s) 2 root a) as E.
    { rewrite <- Hat1. unfold pte_at. by rewrite Hw. }
    rewrite E, Hnv. unfold panic_if, when, bind at 1, ret at 1.
    unfold bind, mem_mod, modify. cbn [vm_upd k_mem set_k_mem].
    fold (leaf_entry pa perm).
    pose proof (leaf_entry_range pa perm Hpa Hperm) as Hle.
    exists (store64 m1 r (leaf_entry pa perm)), f', new, l', 1.
    split; [by destruct (a =? last)|]. split; [done|].
    split; [exact (vm_inv_leaf_store _ _ _ _ _ (leaf_entry pa perm) Hinv1 Hw)|].
    split; [by rewrite (proj1 (pt_leaf_store _ _ _ _ _ _ (vm_tree _ _ _ _ Hinv1) Hw))|].
    split.
    { eapply frame_out_trans; [exact Hfr1|].
      eapply frame_out_mono; [|by eapply leaf_frame]. intros q. by rewrite Hp1. }
    split; [|by left]. intros va Hva.
    rewrite (pte_at_leaf_store m1 root a r _ va (vm_tree _ _ _ _ Hinv1) Hw) by lia.
    rewrite Hat1. zdec; try lia; try done; f_equal; lia.
  - destruct Hres as [?|[-> ->]]; [done|]. cbn [Z.eqb].
    exists m1, f', new, [], 0. split; [done|]. split; [done|]. split; [done|].
    split; [done|]. split; [done|]. split; [|by right].
    intros va Hva. rewrite Hat1. zdec; try lia; done.
Qed.

Lemma mapped_snoc m m1 m2 root a pa perm k :
  0 <= a -> a mod 4096 = 0 -> 0 <= k ->
  mapped m m1 root a pa perm 1 -> mapped m1 m2 root (a + 4096) (pa + 4096) perm k ->
  mapped m m2 root a pa perm (k + 1).
Proof.
  intros Ha Hal Hk H1 H2 va Hva. rewrite (H2 va Hva), (H1 va Hva).
  zdec; try lia; try done; f_equal; lia.
Qed.

Lemma mappages_loop root perm last : 0 <= perm < 1024 -> forall n a pa s l,
  (0 < n)%nat -> vm_inv s l 2 root -> 0 <= a -> a mod 4096 = 0 ->
  a + Z.of_nat n * 4096 <= MAXVA -> pa mod 4096 = 0 -> 0 <= pa ->
  pa + Z.of_nat n * 4096 <= 2 ^ 56 -> last = a + Z.of_nat n * 4096 - 4096 ->
  (forall va, a <= va < a + Z.of_nat n * 4096 -> has (pte_at (k_mem s) 2 root va) PTE_V = false) ->
  exists r m' f' new l' k,
    mloop n (mappages_body root last perm) (a, pa) s = Ok r (vm_upd m' f' s) /\
    l = new ++ l' /\ vm_inv (vm_upd m' f' s) l' 2 root /\
    pt_pages m' 2 root ≡ₚ new ++ pt_pages (k_mem s) 2 root /\
    frame_out (new ++ pt_pages (k_mem s) 2 root) (k_mem s) m' /\
    mapped (k_mem s) m' root a pa perm k /\
    ((r = 0 /\ k = Z.of_nat n) \/ (r = -1 /\ 0 <= k < Z.of_nat n /\ l' = [])).
Proof.
  intros Hperm. induction n as [|n IH]; intros a pa s l Hn Hinv Ha Hal Hmax Hpal Hpa Hpm Hlast Hnv; [lia|].
  rewrite MAXVA_eq in Hmax. cbn [mloop].
  assert (page_addr pa) as Hpp by (split; lia).
  destruct (mappages_body_spec root last perm a pa s l Hinv)
    as (m1 & f1 & new1 & l1 & k1 & Hrun & -> & Hinv1 & Hp1 & Hf1 & Hm1 & Hk1);
    [rewrite MAXVA_eq; lia|done|done|done|apply Hnv; lia|].
  rewrite (bind_ok _ _ _ _ _ Hrun). destruct Hk1 as [->|[-> ->]]; cbn [Z.eqb].
  - destruct (Z.eqb_spec a last) as [E|E].
    + exists 0, m1, f1, new1, l1, 1. repeat (split; [done|]). left. split; [done|lia].
    + unfold u64, PGSIZE. rewrite (Z.mod_small (a + 4096)), (Z.mod_small (pa + 4096)) by lia.
      destruct (IH (a + 4096) (pa + 4096) (vm_upd m1 f1 s) l1)
        as (r & m' & f' & new & l' & k & Hrun' & -> & Hinv' & Hp & Hf & Hm & Hres);
        try done; try lia.
      { rewrite MAXVA_eq. lia. }
      { intros va Hva. cbn [vm_upd k_mem set_k_mem]. rewrite (Hm1 va) by lia.
        zdec; try lia; apply Hnv; lia. }
      cbn [vm_upd k_mem set_k_mem] in Hp, Hf, Hm.
      exists r, m', f', (new1 ++ new), l', (k + 1). split; [exact Hrun'|].
      split; [by rewrite (assoc_L (++))|]. split; [exact Hinv'|].
      split; [rewrite Hp, Hp1; by rewrite !(assoc_L (++)), (Permutation_app_comm new new1)|].
      split.
      { eapply frame_out_trans; [eapply frame_out_mono; [|exact Hf1]; intros q; elems|].
        eapply frame_out_mono; [|exact Hf]. intros q. rewrite elem_of_app, Hp1. elems. }
      split; [apply (mapped_snoc _ m1); [done|done|lia|done|done]|].
      destruct Hres as [[-> ->]|(-> & ? & ->)]; [left|right]; repeat split; lia.
  - exists (-1), m1, f1, new1, [], 0. repeat (split; [done|]). right. repeat split; lia.
Qed.

(** [mappages]: either every page of the range is mapped, or memory ran out
    after [k] pages; nothing outside the range changes. *)
Lemma mappages_run root va size pa perm s l :
  vm_inv s l 2 root -> 0 <= perm < 1024 ->
  0 <= va -> va mod 4096 = 0 -> 0 < size -> size mod 4096 = 0 -> va + size <= MAXVA ->
  0 <= pa -> pa mod 4096 = 0 -> pa + size <= 2 ^ 56 ->
  (forall a, va <= a < va + size -> has (pte_at (k_mem s) 2 root a) PTE_V = false) ->
  exists r m' f' new l' k,
    mappages root va size pa perm s = Ok r (vm_upd m' f' s) /\
    l = new ++ l' /\ vm_inv (vm_upd m' f' s) l' 2 root /\
    pt_pages m' 2 root ≡ₚ new ++ pt_pages (k_mem s) 2 root /\
    frame_out (new ++ pt_pages (k_mem s) 2 root) (k_mem s) m' /\
    mapped (k_mem s) m' root va pa perm k /\
    ((r = 0 /\ k = size / 4096) \/ (r = -1 /\ 0 <= k < size / 4096 /\ l' = [])).
Proof.
  intros Hinv Hperm Hva Hval Hsz Hsal Hmax Hpa Hpal Hpm Hnv. rewrite MAXVA_eq in Hmax.
  unfold mappages, PGSIZE, panic_if, when.
  replace (va mod 4096 =? 0) with true by (symmetry; by apply Z.eqb_eq).
  replace (size mod 4096 =? 0) with true by (symmetry; by apply Z.eqb_eq).
  replace (size =? 0) with false by (symmetry; apply Z.eqb_neq; lia). cbn [negb].
  rewrite !(bind_ok _ _ s tt s) by done.
  unfold u64. rewrite Z.mod_small by lia.
  destruct (mappages_loop root perm (va + size - 4096) Hperm (Z.to_nat (size / 4096)) va pa s l)
    as (r & m' & f' & new & l' & k & Hrun & Hl & Hinv' & Hp & Hf & Hm & Hres);
    try done; try lia; [rewrite MAXVA_eq; lia|intros a Ha; apply Hnv; lia|].
  exists r, m', f', new, l', k. split; [exact Hrun|]. repeat (split; [done|]).
  destruct Hres as [[-> ->]|(-> & ? & ->)]; [left|right]; repeat split; lia.
Qed.

End vmspec.
