(* ===== verification/Asm.v ===== *)
(** * kernel/trampoline.S, kernel/swtch.S, kernel/kernelvec.S, kernel/entry.S

    The assembly of the kernel as lists of instructions, run on the registers of
    a hart and on memory through the page table in [satp].  Instruction fetch,
    and with it the fences, is not part of the model: the trampoline page is
    mapped at one address in every page table. *)

From S2P Require Import Prelude Riscv Mem State Kalloc PageTable.

Inductive reg : Type :=
| RA | SP | GP | TP | T0 | T1 | T2 | S0 | S1 | A0 | A1 | A2 | A3 | A4 | A5 | A6 | A7
| S2 | S3 | S4 | S5 | S6 | S7 | S8 | S9 | S10 | S11 | T3 | T4 | T5 | T6.

#[export] Instance reg_eq_dec : EqDecision reg.
Proof. solve_decision. Defined.

Record machine : Type := mk_machine {
  x_reg : reg -> Z; x_mem : mem; x_sscratch : Z; x_satp : Z; x_mhartid : Z
}.

Definition setr (r : reg) (v : Z) (st : machine) : machine :=
  mk_machine (fun q => if decide (q = r) then v else x_reg st q) (x_mem st) (x_sscratch st) (x_satp st) (x_mhartid st).
Definition set_mem (m : mem) (st : machine) : machine :=
  mk_machine (x_reg st) m (x_sscratch st) (x_satp st) (x_mhartid st).
Definition set_sscratch (v : Z) (st : machine) : machine :=
  mk_machine (x_reg st) (x_mem st) v (x_satp st) (x_mhartid st).
Definition set_xsatp (v : Z) (st : machine) : machine :=
  mk_machine (x_reg st) (x_mem st) (x_sscratch st) v (x_mhartid st).

(** The root table that a value of [satp] names. *)
Definition satp_root (satp : Z) : Z := Z.shiftl (Z.land satp (Z.ones 44)) 12.

(** Sv39: a supervisor load or store of [va]; [satp] 0 is no translation. *)
Definition translate (m : mem) (satp va : Z) (write : bool) : option Z :=
  if satp =? 0 then Some va
  else if (0 <=? va) && (va <? MAXVA) then
    let e := pte_at m 2 (satp_root satp) va in
    if has e PTE_V && has e (if write then PTE_W else PTE_R) then Some (PTE2PA e + va mod 4096) else None
  else None.

Inductive instr : Type :=
| Sd (rs : reg) (off : Z) (rb : reg)
| Ld (rd : reg) (off : Z) (rb : reg)
| Li (rd : reg) (v : Z)
| Addi (rd rs : reg) (v : Z)
| Add (rd rs rt : reg)
| Mul (rd rs rt : reg)
| Csrw_sscratch (rs : reg)
| Csrr_sscratch (rd : reg)
| Csrr_mhartid (rd : reg)
| Csrw_satp (rs : reg)
| Sfence_vma.

Definition page_fault : M machine unit := fault "page fault".

Definition step (i : instr) : M machine unit := fun st =>
  match i with
  | Sd rs off rb =>
      match translate (x_mem st) (x_satp st) (u64 (x_reg st rb + off)) true with
      | Some pa => Ok tt (set_mem (store64 (x_mem st) pa (x_reg st rs)) st)
      | None => page_fault st
      end
  | Ld rd off rb =>
      match translate (x_mem st) (x_satp st) (u64 (x_reg st rb + off)) false with
      | Some pa => Ok tt (setr rd (load64 (x_mem st) pa) st)
      | None => page_fault st
      end
  | Li rd v => Ok tt (setr rd v st)
  | Addi rd rs v => Ok tt (setr rd (u64 (x_reg st rs + v)) st)
  | Add rd rs rt => Ok tt (setr rd (u64 (x_reg st rs + x_reg st rt)) st)
  | Mul rd rs rt => Ok tt (setr rd (u64 (x_reg st rs * x_reg st rt)) st)
  | Csrw_sscratch rs => Ok tt (set_sscratch (x_reg st rs) st)
  | Csrr_sscratch rd => Ok tt (setr rd (x_sscratch st) st)
  | Csrr_mhartid rd => Ok tt (setr rd (x_mhartid st) st)
  | Csrw_satp rs => Ok tt (set_xsatp (x_reg st rs) st)
  | Sfence_vma => Ok tt st
  end.

Definition steps (code : list instr) : M machine unit := mfor code step.

(** ** trampoline.S *)

(** Up to [jr t0]. *)
Definition uservec : list instr :=
  [ Csrw_sscratch A0; Li A0 TRAPFRAME;
    Sd RA 40 A0; Sd SP 48 A0; Sd GP 56 A0; Sd TP 64 A0; Sd T0 72 A0; Sd T1 80 A0; Sd T2 88 A0;
    Sd S0 96 A0; Sd S1 104 A0; Sd A1 120 A0; Sd A2 128 A0; Sd A3 136 A0; Sd A4 144 A0; Sd A5 152 A0;
    Sd A6 160 A0; Sd A7 168 A0; Sd S2 176 A0; Sd S3 184 A0; Sd S4 192 A0; Sd S5 200 A0; Sd S6 208 A0;
    Sd S7 216 A0; Sd S8 224 A0; Sd S9 232 A0; Sd S10 240 A0; Sd S11 248 A0;
    Sd T3 256 A0; Sd T4 264 A0; Sd T5 272 A0; Sd T6 280 A0;
    Csrr_sscratch T0; Sd T0 112 A0;
    Ld SP 8 A0; Ld TP 32 A0; Ld T0 16 A0; Ld T1 0 A0;
    Sfence_vma; Csrw_satp T1; Sfence_vma ].

(** Up to [sret]. *)
Definition userret : list instr :=
  [ Sfence_vma; Csrw_satp A0; Sfence_vma; Li A0 TRAPFRAME;
    Ld RA 40 A0; Ld SP 48 A0; Ld GP 56 A0; Ld TP 64 A0; Ld T0 72 A0; Ld T1 80 A0; Ld T2 88 A0;
    Ld S0 96 A0; Ld S1 104 A0; Ld A1 120 A0; Ld A2 128 A0; Ld A3 136 A0; Ld A4 144 A0; Ld A5 152 A0;
    Ld A6 160 A0; Ld A7 168 A0; Ld S2 176 A0; Ld S3 184 A0; Ld S4 192 A0; Ld S5 200 A0; Ld S6 208 A0;
    Ld S7 216 A0; Ld S8 224 A0; Ld S9 232 A0; Ld S10 240 A0; Ld S11 248 A0;
    Ld T3 256 A0; Ld T4 264 A0; Ld T5 272 A0; Ld T6 280 A0;
    Ld A0 112 A0 ].

(** ** swtch.S, up to [ret] *)
Definition swtch_code : list instr :=
  [ Sd RA 0 A0; Sd SP 8 A0; Sd S0 16 A0; Sd S1 24 A0; Sd S2 32 A0; Sd S3 40 A0; Sd S4 48 A0; Sd S5 56 A0;
    Sd S6 64 A0; Sd S7 72 A0; Sd S8 80 A0; Sd S9 88 A0; Sd S10 96 A0; Sd S11 104 A0;
    Ld RA 0 A1; Ld SP 8 A1; Ld S0 16 A1; Ld S1 24 A1; Ld S2 32 A1; Ld S3 40 A1; Ld S4 48 A1; Ld S5 56 A1;
    Ld S6 64 A1; Ld S7 72 A1; Ld S8 80 A1; Ld S9 88 A1; Ld S10 96 A1; Ld S11 104 A1 ].

(** ** kernelvec.S: before and after the call of [kerneltrap] *)
Definition kernelvec_save : list instr :=
  [ Addi SP SP (-256);
    Sd RA 0 SP; Sd SP 8 SP; Sd GP 16 SP; Sd TP 24 SP; Sd T0 32 SP; Sd T1 40 SP; Sd T2 48 SP;
    Sd A0 72 SP; Sd A1 80 SP; Sd A2 88 SP; Sd A3 96 SP; Sd A4 104 SP; Sd A5 112 SP; Sd A6 120 SP; Sd A7 128 SP;
    Sd T3 216 SP; Sd T4 224 SP; Sd T5 232 SP; Sd T6 240 SP ].

Definition kernelvec_restore : list instr :=
  [ Ld RA 0 SP; Ld SP 8 SP; Ld GP 16 SP; Ld T0 32 SP; Ld T1 40 SP; Ld T2 48 SP;
    Ld A0 72 SP; Ld A1 80 SP; Ld A2 88 SP; Ld A3 96 SP; Ld A4 104 SP; Ld A5 112 SP; Ld A6 120 SP; Ld A7 128 SP;
    Ld T3 216 SP; Ld T4 224 SP; Ld T5 232 SP; Ld T6 240 SP;
    Addi SP SP 256 ].

(** ** entry.S, up to the call of [start] *)
Definition entry_code (stack0 : Z) : list instr :=
  [ Li SP stack0; Li A0 (1024 * 4); Csrr_mhartid A1; Addi A1 A1 1; Mul A0 A0 A1; Add SP SP A0 ].

(** ** Runs of stores and of loads *)

Definition sds (rb : reg) (l : list (reg * Z)) : list instr := map (fun '(r, o) => Sd r o rb) l.
Definition lds (rb : reg) (l : list (reg * Z)) : list instr := map (fun '(r, o) => Ld r o rb) l.

Definition saved (m : mem) (pa : Z) (x : reg -> Z) (l : list (reg * Z)) : mem :=
  fold_left (fun m '(r, o) => store64 m (pa + o) (x r)) l m.
Definition restored (m : mem) (pa : Z) (l : list (reg * Z)) (x : reg -> Z) : reg -> Z :=
  fold_left (fun x '(r, o) => fun q => if decide (q = r) then load64 m (pa + o) else x q) l x.

(** Distinct aligned slots of an area of [n] bytes. *)
Definition slots (n : Z) (l : list (reg * Z)) : Prop :=
  NoDup l.*1 /\ NoDup l.*2 /\ Forall (fun o => 0 <= o /\ o + 8 <= n /\ o mod 8 = 0) l.*2.

#[export] Instance slots_dec n l : Decision (slots n l).
Proof. apply _. Defined.

Section window.
Context {KI : KernelImage}.

(** [n] bytes at [va] that the page table in [satp] maps, readable and
    writable, to memory at [pa] outside the table's own pages. *)
Record window (m : mem) (satp va pa n : Z) : Prop := {
  wi_on : satp <> 0;
  wi_tree : tree_ok m 2 (satp_root satp);
  wi_va : 0 <= va /\ va + n <= MAXVA;
  wi_pa : pa mod 8 = 0;
  wi_map : forall o w, 0 <= o -> o + 8 <= n -> o mod 8 = 0 -> translate m satp (va + o) w = Some (pa + o);
  wi_out : forall o, 0 <= o -> o + 8 <= n -> o mod 8 = 0 -> (pa + o) / 4096 * 4096 ∉ pt_pages m 2 (satp_root satp)
}.

Lemma translate_frame m m' satp va w :
  Forall (page_eq m m') (pt_pages m 2 (satp_root satp)) -> translate m' satp va w = translate m satp va w.
Proof. intros H. unfold translate. by rewrite (proj2 (proj2 (pt_frame _ _ _ _ H))). Qed.

Lemma window_frame m m' satp va pa n :
  Forall (page_eq m m') (pt_pages m 2 (satp_root satp)) -> window m satp va pa n -> window m' satp va pa n.
Proof.
  intros H [H1 H2 H3 H4 H5 H6]. split; try done.
  - by eapply tree_ok_frame.
  - intros. rewrite (translate_frame _ _ _ _ _ H). by apply H5.
  - intros. rewrite (proj1 (pt_frame _ _ _ _ H)). by apply H6.
Qed.

Lemma window_sub m satp va pa n d k :
  window m satp va pa n -> 0 <= d -> d mod 8 = 0 -> 0 <= k -> d + k <= n -> window m satp (va + d) (pa + d) k.
Proof.
  intros [H1 H2 H3 H4 H5 H6] Hd H8 Hk Hn. split; try done; [lia|lia|..].
  - intros o w ???. rewrite <- !Z.add_assoc. apply H5; lia.
  - intros o ???. rewrite <- Z.add_assoc. apply H6; lia.
Qed.

Lemma window_store_eq m satp va pa n o v :
  window m satp va pa n -> 0 <= o -> o + 8 <= n -> o mod 8 = 0 ->
  Forall (page_eq m (store64 m (pa + o) v)) (pt_pages m 2 (satp_root satp)).
Proof.
  intros [_ [_ Hram _] _ Hpa _ Hout] H0 Hn H8. rewrite Forall_forall in *. intros p Hp.
  specialize (Hout o H0 Hn H8). destruct (Hram p Hp) as [Hal _]. intros x Hx. apply load8_store64_out.
  assert ((pa + o) / 4096 * 4096 <> p) by (intros <-; done). lia.
Qed.

Lemma saved_frame l : forall m satp va pa n x,
  window m satp va pa n -> Forall (fun o => 0 <= o /\ o + 8 <= n /\ o mod 8 = 0) l.*2 ->
  Forall (page_eq m (saved m pa x l)) (pt_pages m 2 (satp_root satp)).
Proof.
  induction l as [|[r o] l IH]; intros m satp va pa n x Hw Hl.
  { cbn. apply Forall_forall. intros p _ y _. done. }
  cbn in Hl. apply Forall_cons in Hl as [(H0 & Hn & H8) Hl]. cbn. pose proof (window_store_eq _ _ _ _ _ o (x r) Hw H0 Hn H8) as He.
  pose proof (IH _ _ _ _ _ x (window_frame _ _ _ _ _ _ He Hw) Hl) as H2. rewrite (proj1 (pt_frame _ _ _ _ He)) in H2.
  rewrite Forall_forall in *. intros p Hp y Hy. etransitivity; [exact (H2 p Hp y Hy)|exact (He p Hp y Hy)].
Qed.

Lemma window_addr m satp va pa n o : window m satp va pa n -> 0 <= o -> o + 8 <= n -> u64 (va + o) = va + o.
Proof. intros [_ _ H _ _ _] ??. apply Z.mod_small. rewrite MAXVA_eq in H. lia. Qed.

Lemma sds_run rb l : forall st pa n,
  window (x_mem st) (x_satp st) (x_reg st rb) pa n -> Forall (fun o => 0 <= o /\ o + 8 <= n /\ o mod 8 = 0) l.*2 ->
  steps (sds rb l) st = Ok tt (set_mem (saved (x_mem st) pa (x_reg st) l) st).
Proof.
  induction l as [|[r o] l IH]; intros st pa n Hw Hl; [by destruct st|].
  cbn in Hl. apply Forall_cons in Hl as [(H0 & Hn & H8) Hl]. unfold steps. cbn.
  assert (step (Sd r o rb) st = Ok tt (set_mem (store64 (x_mem st) (pa + o) (x_reg st r)) st)) as Hs.
  { cbn. rewrite (window_addr _ _ _ _ _ _ Hw H0 Hn). by rewrite (wi_map _ _ _ _ _ Hw o true H0 Hn H8). }
  rewrite (bind_ok _ _ _ _ _ Hs). eapply (IH (set_mem _ st)); [|done]. cbn.
  eapply window_frame; [|exact Hw]. by eapply window_store_eq.
Qed.

Lemma lds_run rb l : forall st pa n,
  window (x_mem st) (x_satp st) (x_reg st rb) pa n -> Forall (fun o => 0 <= o /\ o + 8 <= n /\ o mod 8 = 0) l.*2 ->
  (forall o, (rb, o) ∈ l -> load64 (x_mem st) (pa + o) = x_reg st rb) ->
  steps (lds rb l) st =
    Ok tt (mk_machine (restored (x_mem st) pa l (x_reg st)) (x_mem st) (x_sscratch st) (x_satp st) (x_mhartid st)).
Proof.
  induction l as [|[r o] l IH]; intros st pa n Hw Hl Hb; [by destruct st|].
  cbn in Hl. apply Forall_cons in Hl as [(H0 & Hn & H8) Hl]. unfold steps. cbn.
  assert (step (Ld r o rb) st = Ok tt (setr r (load64 (x_mem st) (pa + o)) st)) as Hs.
  { cbn. rewrite (window_addr _ _ _ _ _ _ Hw H0 Hn). by rewrite (wi_map _ _ _ _ _ Hw o false H0 Hn H8). }
  assert (x_reg (setr r (load64 (x_mem st) (pa + o)) st) rb = x_reg st rb) as Hrb.
  { cbn. destruct (decide (rb = r)) as [->|]; [|done]. apply Hb. apply elem_of_cons. by left. }
  rewrite (bind_ok _ _ _ _ _ Hs). change (mfor (map _ l) step) with (steps (lds rb l)). rewrite (IH _ pa n); [done|by rewrite Hrb|done|].
  intros o' Ho'. rewrite Hrb. apply Hb. apply elem_of_cons. by right.
Qed.

End window.

Lemma restored_cons m pa r o l x :
  restored m pa ((r, o) :: l) x = restored m pa l (fun q => if decide (q = r) then load64 m (pa + o) else x q).
Proof. done. Qed.
Lemma saved_cons m pa x r o l : saved m pa x ((r, o) :: l) = saved (store64 m (pa + o) (x r)) pa x l.
Proof. done. Qed.

Lemma restored_out m pa l : forall x r, r ∉ l.*1 -> restored m pa l x r = x r.
Proof.
  induction l as [|[q o] l IH]; intros x r Hr; [done|]. cbn in Hr. apply not_elem_of_cons in Hr as [H1 H2].
  rewrite restored_cons, IH by done. by rewrite decide_False.
Qed.

Lemma restored_in m pa l : forall x r o, NoDup l.*1 -> (r, o) ∈ l -> restored m pa l x r = load64 m (pa + o).
Proof.
  induction l as [|[q p] l IH]; intros x r o Hnd Hin; [by apply elem_of_nil in Hin|].
  cbn in Hnd. apply NoDup_cons in Hnd as [Hq Hnd]. apply elem_of_cons in Hin as [[= -> ->]|Hin]; rewrite restored_cons.
  - rewrite restored_out by done. by rewrite decide_True.
  - by apply IH.
Qed.

Lemma saved_out pa x l : forall m y, (forall o, o ∈ l.*2 -> y < pa + o \/ pa + o + 8 <= y) ->
  load8 (saved m pa x l) y = load8 m y.
Proof.
  induction l as [|[r o] l IH]; intros m y H; [done|]. rewrite saved_cons, IH.
  - apply load8_store64_out. apply H. cbn. apply elem_of_cons. by left.
  - intros o' Ho'. apply H. cbn. apply elem_of_cons. by right.
Qed.

Lemma saved_in pa x l n : forall m r o, slots n l -> (r, o) ∈ l -> 0 <= x r < 2 ^ 64 ->
  load64 (saved m pa x l) (pa + o) = x r.
Proof.
  induction l as [|[q p] l IH]; intros m r o (Hn1 & Hn2 & Hf) Hin Hx; [by apply elem_of_nil in Hin|].
  cbn in Hn1, Hn2, Hf. apply NoDup_cons in Hn1 as [Hq1 Hn1], Hn2 as [Hq2 Hn2]. apply Forall_cons in Hf as [Hp Hf].
  apply elem_of_cons in Hin as [[= -> ->]|Hin]; rewrite saved_cons.
  - unfold load64. erewrite loadn_ext; [by apply (load64_store64_same m (pa + p) (x q))|].
    intros y Hy. apply saved_out. intros o' Ho'. rewrite Forall_forall in Hf. specialize (Hf o' Ho').
    assert (o' <> p) by (intros ->; done). lia.
  - by apply IH.
Qed.

Lemma saved_app m pa x l l' : saved m pa x (l ++ l') = saved (saved m pa x l) pa x l'.
Proof. apply fold_left_app. Qed.

Lemma saved_ext pa x y l : forall m, (forall r, r ∈ l.*1 -> x r = y r) -> saved m pa x l = saved m pa y l.
Proof.
  induction l as [|[r o] l IH]; intros m H; [done|]. rewrite !saved_cons.
  rewrite (H r) by (cbn; elems). apply IH. intros q Hq. apply H. cbn. apply elem_of_cons. by right.
Qed.

Lemma steps_app l l' st st' : steps l st = Ok tt st' -> steps (l ++ l') st = steps l' st'.
Proof. intros H. unfold steps in *. rewrite mfor_app. by rewrite (bind_ok _ _ _ _ _ H). Qed.

Lemma steps_cons i l st st' : step i st = Ok tt st' -> steps (i :: l) st = steps l st'.
Proof. intros H. apply (steps_app [i]). unfold steps. cbn. by rewrite (bind_ok _ _ _ _ _ H). Qed.

(** ** The trapframe *)

(** The slots of [struct trapframe] that hold user registers. *)
Definition tf_most : list (reg * Z) :=
  [ (RA, 40); (SP, 48); (GP, 56); (TP, 64); (T0, 72); (T1, 80); (T2, 88); (S0, 96); (S1, 104);
    (A1, 120); (A2, 128); (A3, 136); (A4, 144); (A5, 152); (A6, 160); (A7, 168);
    (S2, 176); (S3, 184); (S4, 192); (S5, 200); (S6, 208); (S7, 216); (S8, 224); (S9, 232);
    (S10, 240); (S11, 248); (T3, 256); (T4, 264); (T5, 272); (T6, 280) ].
Definition tf_slots : list (reg * Z) := tf_most ++ [(A0, 112)].

Lemma tf_slots_ok : slots 288 tf_slots.
Proof. by_dec. Qed.

(** Its fields by register. *)
Definition tf_slot (r : reg) : Z :=
  match r with
  | RA => 40 | SP => 48 | GP => 56 | TP => 64 | T0 => 72 | T1 => 80 | T2 => 88 | S0 => 96 | S1 => 104
  | A0 => 112 | A1 => 120 | A2 => 128 | A3 => 136 | A4 => 144 | A5 => 152 | A6 => 160 | A7 => 168
  | S2 => 176 | S3 => 184 | S4 => 192 | S5 => 200 | S6 => 208 | S7 => 216 | S8 => 224 | S9 => 232
  | S10 => 240 | S11 => 248 | T3 => 256 | T4 => 264 | T5 => 272 | T6 => 280
  end.

Lemma tf_slot_in r : (r, tf_slot r) ∈ tf_slots.
Proof. destruct r; by_dec. Qed.

(** ** [struct context] *)
Definition ctx_slots : list (reg * Z) :=
  [ (RA, 0); (SP, 8); (S0, 16); (S1, 24); (S2, 32); (S3, 40); (S4, 48); (S5, 56); (S6, 64); (S7, 72);
    (S8, 80); (S9, 88); (S10, 96); (S11, 104) ].

(** ** The frame of [kernelvec] *)
Definition kv_slots : list (reg * Z) :=
  [ (RA, 0); (SP, 8); (GP, 16); (T0, 32); (T1, 40); (T2, 48); (A0, 72); (A1, 80); (A2, 88); (A3, 96);
    (A4, 104); (A5, 112); (A6, 120); (A7, 128); (T3, 216); (T4, 224); (T5, 232); (T6, 240) ].
Definition kv_saves : list (reg * Z) := take 3 kv_slots ++ (TP, 24) :: drop 3 kv_slots.

(** The registers that a C function leaves as they were. *)
Definition callee_saved : list reg := [SP; S0; S1; S2; S3; S4; S5; S6; S7; S8; S9; S10; S11].

Section frames.
Context {KI : KernelImage}.

(** One load of the trapframe. *)
Lemma ld_run st r o rb pa n :
  window (x_mem st) (x_satp st) (x_reg st rb) pa n -> 0 <= o -> o + 8 <= n -> o mod 8 = 0 ->
  step (Ld r o rb) st = Ok tt (setr r (load64 (x_mem st) (pa + o)) st).
Proof.
  intros Hw H0 Hn H8. cbn. rewrite (window_addr _ _ _ _ _ _ Hw H0 Hn).
  by rewrite (wi_map _ _ _ _ _ Hw o false H0 Hn H8).
Qed.

Lemma saved_window m satp va pa n x l :
  window m satp va pa n -> slots n l -> window (saved m pa x l) satp va pa n.
Proof. intros Hw (_ & _ & Hl). eapply window_frame; [|exact Hw]. by eapply saved_frame. Qed.

Lemma uservec_a0 st tf :
  window (x_mem st) (x_satp st) (x_reg st A0) tf 288 ->
  steps [Csrr_sscratch T0; Sd T0 112 A0] st =
    Ok tt (set_mem (store64 (x_mem st) (tf + 112) (x_sscratch st)) (setr T0 (x_sscratch st) st)).
Proof.
  intros Hw. rewrite (steps_cons _ _ _ (setr T0 (x_sscratch st) st)) by done.
  exact (sds_run A0 [(T0, 112)] (setr T0 (x_sscratch st) st) tf 288 Hw ltac:(by_dec)).
Qed.

Lemma uservec_saves st tf :
  window (x_mem st) (x_satp st) TRAPFRAME tf 288 ->
  exists st1, steps (take 34 uservec) st = Ok tt st1 /\
    x_mem st1 = saved (x_mem st) tf (x_reg st) tf_slots /\
    x_satp st1 = x_satp st /\ x_reg st1 A0 = TRAPFRAME.
Proof.
  intros Hw. change (take 34 uservec) with ([Csrw_sscratch A0; Li A0 TRAPFRAME] ++ sds A0 tf_most ++ [Csrr_sscratch T0; Sd T0 112 A0]).
  set (st0 := setr A0 TRAPFRAME (set_sscratch (x_reg st A0) st)).
  assert (steps [Csrw_sscratch A0; Li A0 TRAPFRAME] st = Ok tt st0) as H0 by reflexivity.
  rewrite (steps_app _ _ _ _ H0).
  assert (forall r, r ∈ tf_most.*1 -> x_reg st0 r = x_reg st r) as Hr0.
  { intros r Hr. unfold st0, setr. cbn [x_reg]. rewrite decide_False; [done|]. intros ->. revert Hr. by_dec. }
  assert (window (x_mem st0) (x_satp st0) (x_reg st0 A0) tf 288) as Hw0 by exact Hw.
  assert (x_sscratch st0 = x_reg st A0) as Hs0 by reflexivity.
  assert (x_mem st0 = x_mem st) as Hm0 by reflexivity. assert (x_satp st0 = x_satp st) as Hp0 by reflexivity.
  assert (x_reg st0 A0 = TRAPFRAME) as Ha0 by reflexivity.
  clearbody st0.
  pose proof (sds_run A0 tf_most st0 tf 288 Hw0 ltac:(by_dec)) as H1. rewrite (steps_app _ _ _ _ H1).
  rewrite (saved_ext tf _ _ tf_most (x_mem st0) Hr0), Hm0.
  rewrite uservec_a0 with (tf := tf).
  - eexists. split; [reflexivity|]. cbn [x_mem x_satp x_reg set_mem setr x_sscratch]. rewrite Hs0, Ha0.
    split; [|done]. unfold tf_slots. by rewrite saved_app, saved_cons.
  - cbn [x_mem x_satp x_reg set_mem]. apply saved_window; [by rewrite <- Hm0|by_dec].
Qed.

Lemma uservec_run st tf :
  window (x_mem st) (x_satp st) TRAPFRAME tf 288 ->
  exists st1, steps uservec st = Ok tt st1 /\
    x_mem st1 = saved (x_mem st) tf (x_reg st) tf_slots /\
    x_satp st1 = load64 (x_mem st1) (tf + 0) /\ x_reg st1 SP = load64 (x_mem st1) (tf + 8) /\
    x_reg st1 T0 = load64 (x_mem st1) (tf + 16) /\ x_reg st1 TP = load64 (x_mem st1) (tf + 32).
Proof.
  intros Hw. destruct (uservec_saves st tf Hw) as (st1 & Hrun & Hm & Hs & Ha).
  assert (window (x_mem st1) (x_satp st1) (x_reg st1 A0) tf 288) as Hw1.
  { rewrite Hm, Hs, Ha. apply saved_window; [done|]. apply tf_slots_ok. }
  pose proof (lds_run A0 [(SP, 8); (TP, 32); (T0, 16); (T1, 0)] st1 tf 288 Hw1 ltac:(by_dec)
    ltac:(intros o Ho; exfalso; repeat (apply elem_of_cons in Ho as [[=]|Ho]); by apply elem_of_nil in Ho)) as Hl.
  replace uservec with (take 34 uservec ++ (lds A0 [(SP, 8); (TP, 32); (T0, 16); (T1, 0)] ++ [Sfence_vma; Csrw_satp T1; Sfence_vma]))
    by reflexivity.
  rewrite (steps_app _ _ _ _ Hrun), (steps_app _ _ _ _ Hl).
  eexists. split; [reflexivity|]. repeat split; [exact Hm].
Qed.

Lemma userret_run st tf :
  window (x_mem st) (x_reg st A0) TRAPFRAME tf 288 ->
  exists st1, steps userret st = Ok tt st1 /\ x_mem st1 = x_mem st /\ x_satp st1 = x_reg st A0 /\
    forall r o, (r, o) ∈ tf_slots -> x_reg st1 r = load64 (x_mem st) (tf + o).
Proof.
  intros Hw. replace userret with ([Sfence_vma; Csrw_satp A0; Sfence_vma; Li A0 TRAPFRAME] ++ (lds A0 tf_most ++ [Ld A0 112 A0]))
    by reflexivity.
  set (st0 := setr A0 TRAPFRAME (set_xsatp (x_reg st A0) st)). rewrite (steps_app _ _ _ st0) by done.
  assert (forall o, (A0, o) ∉ tf_most) as Hna.
  { intros o Ho. apply (list_elem_of_fmap_2 fst) in Ho. cbn in Ho. revert Ho. by_dec. }
  rewrite (steps_app _ _ _ _ (lds_run A0 tf_most st0 tf 288 Hw ltac:(by_dec)
    ltac:(intros o Ho; by apply Hna in Ho))).
  set (st1 := mk_machine _ _ _ _ _).
  assert (x_reg st1 A0 = TRAPFRAME) as Ha.
  { unfold st1. cbn [x_reg]. rewrite restored_out; [done|]. by_dec. }
  assert (step (Ld A0 112 A0) st1 = Ok tt (setr A0 (load64 (x_mem st) (tf + 112)) st1)) as Hl.
  { apply (ld_run st1 A0 112 A0 tf 288); [|done|done|done]. rewrite Ha. exact Hw. }
  rewrite (steps_cons _ _ _ _ Hl). eexists. split; [reflexivity|]. split; [done|]. split; [done|].
  intros r o [Hr|[= -> ->]%list_elem_of_singleton]%elem_of_app; cbn [x_reg setr]; [|by rewrite decide_True].
  rewrite decide_False by (intros ->; by apply Hna in Hr). unfold st1. cbn [x_reg].
  rewrite (restored_in _ _ _ _ _ o); [done|by_dec|done].
Qed.

Lemma swtch_run st old new :
  window (x_mem st) (x_satp st) (x_reg st A0) old 112 -> window (x_mem st) (x_satp st) (x_reg st A1) new 112 ->
  exists st1, steps swtch_code st = Ok tt st1 /\ x_satp st1 = x_satp st /\
    x_mem st1 = saved (x_mem st) old (x_reg st) ctx_slots /\
    (forall r o, (r, o) ∈ ctx_slots -> x_reg st1 r = load64 (x_mem st1) (new + o)) /\
    (forall r, r ∉ ctx_slots.*1 -> x_reg st1 r = x_reg st r).
Proof.
  intros Hold Hnew. change swtch_code with (sds A0 ctx_slots ++ lds A1 ctx_slots).
  rewrite (steps_app _ _ _ _ (sds_run A0 ctx_slots st old 112 Hold ltac:(by_dec))).
  set (st0 := set_mem _ st).
  assert (window (x_mem st0) (x_satp st0) (x_reg st0 A1) new 112) as Hw.
  { eapply window_frame; [|exact Hnew]. eapply saved_frame; [exact Hold|by_dec]. }
  rewrite (lds_run A1 ctx_slots st0 new 112 Hw ltac:(by_dec)).
  - eexists. split; [reflexivity|]. split; [done|]. split; [done|]. cbn [x_reg x_mem]. split.
    + intros r o Hr. by rewrite (restored_in _ _ _ _ _ o) by (first [done|by_dec]).
    + intros r Hr. by rewrite restored_out.
  - intros o Ho. exfalso. apply (list_elem_of_fmap_2 fst) in Ho. cbn [fst] in Ho. revert Ho. by_dec.
Qed.

Lemma kernelvec_save_run st pa :
  window (x_mem st) (x_satp st) (u64 (x_reg st SP + -256)) pa 256 ->
  steps kernelvec_save st =
    let st0 := setr SP (u64 (x_reg st SP + -256)) st in Ok tt (set_mem (saved (x_mem st) pa (x_reg st0) kv_saves) st0).
Proof.
  intros Hw. cbv zeta. set (st0 := setr SP _ st). change kernelvec_save with (Addi SP SP (-256) :: sds SP kv_saves).
  rewrite (steps_cons _ _ _ st0) by done.
  exact (sds_run SP kv_saves st0 pa 256 Hw ltac:(by_dec)).
Qed.

Lemma kernelvec_restore_run st pa :
  window (x_mem st) (x_satp st) (x_reg st SP) pa 256 -> load64 (x_mem st) (pa + 8) = x_reg st SP ->
  exists st1, steps kernelvec_restore st = Ok tt st1 /\ x_mem st1 = x_mem st /\ x_satp st1 = x_satp st /\
    x_reg st1 SP = u64 (x_reg st SP + 256) /\
    (forall r o, r <> SP -> (r, o) ∈ kv_slots -> x_reg st1 r = load64 (x_mem st) (pa + o)) /\
    (forall r, r ∉ kv_slots.*1 -> x_reg st1 r = x_reg st r).
Proof.
  intros Hw Hsp. change kernelvec_restore with (lds SP kv_slots ++ [Addi SP SP 256]).
  assert (forall o, (SP, o) ∈ kv_slots -> o = 8) as Ho.
  { intros o Ho. unfold kv_slots in Ho. repeat (apply elem_of_cons in Ho as [E|Ho]; [by inversion E|]).
    by apply elem_of_nil in Ho. }
  assert (forall o, (SP, o) ∈ kv_slots -> load64 (x_mem st) (pa + o) = x_reg st SP) as Hb
    by (intros o ->%Ho; exact Hsp).
  rewrite (steps_app _ _ _ _ (lds_run SP kv_slots st pa 256 Hw ltac:(by_dec) Hb)).
  set (x1 := restored _ _ _ _).
  assert (x1 SP = x_reg st SP) as E. { unfold x1. rewrite (restored_in _ _ _ _ _ 8) by by_dec. done. }
  eexists. split; [reflexivity|]. cbn [x_mem x_satp x_reg setr]. split; [done|]. split; [done|].
  split; [by rewrite decide_True, E|]. split.
  - intros r o Hr Hin. rewrite decide_False by done. unfold x1. by rewrite (restored_in _ _ _ _ _ o) by (first [done|by_dec]).
  - intros r Hr. rewrite decide_False; [by apply restored_out|]. intros ->. apply Hr. by_dec.
Qed.

End frames.
