(* ===== verification/Uvm.v ===== *)
(** * User address spaces

    Proofs about the routines of [kernel/vm.c] that grow, shrink, copy and
    free user memory.  [uvm_inv] describes a process's memory: which pages of
    it are mapped, and that no physical page is used twice. *)

From S2P Require Import Prelude Riscv Mem Cstring State Kalloc PageTable Vm VmSpec.

Section uvm.
Context {KI : KernelImage}.

(** The physical page behind page [i] of the address space. *)
Definition upage (m : mem) (root i : Z) : Z := PTE2PA (pte_at m 2 root (i * 4096)).

(** User memory ends below the trapframe page. *)
Definition UMAX : Z := TRAPFRAME / 4096.

Lemma UMAX_eq : UMAX = 2 ^ 26 - 2.
Proof. reflexivity. Qed.

(** [uvm_inv s l root us]: exactly the pages [us] of user memory are mapped, by
    leaf entries, to pages of RAM; those, the table pages and the free list
    [l] are all different. *)
Record uvm_inv (s : kstate) (l : list Z) (root : Z) (us : list Z) : Prop := {
  uvm_vm : vm_inv s l 2 root;
  uvm_in : forall i, i ∈ us ->
    0 <= i < UMAX /\ has (pte_at (k_mem s) 2 root (i * 4096)) PTE_V = true /\
    PTE_FLAGS (pte_at (k_mem s) 2 root (i * 4096)) <> PTE_V /\ ram_page (upage (k_mem s) root i);
  uvm_out : forall i, 0 <= i < UMAX -> i ∉ us ->
    has (pte_at (k_mem s) 2 root (i * 4096)) PTE_V = false;
  uvm_nodup : NoDup (l ++ pt_pages (k_mem s) 2 root ++ map (upage (k_mem s) root) us)
}.

Lemma pte_at_page m root va va' :
  va / 4096 = va' / 4096 -> pte_at m 2 root va = pte_at m 2 root va'.
Proof.
  intros E. unfold pte_at.
  assert (pt_walk m 2 root va = pt_walk m 2 root va') as ->; [|done].
  cbn [pt_walk]. by rewrite !(PX_page _ va va') by lia.
Qed.

Lemma pte_at_valid_walk m root va :
  has (pte_at m 2 root va) PTE_V = true ->
  exists a, pt_walk m 2 root va = Some a /\ load64 m a = pte_at m 2 root va.
Proof. unfold pte_at. destruct (pt_walk m 2 root va); [eauto|done]. Qed.

(** A valid entry makes [walk] return its slot. *)
Lemma walk_valid s l root va :
  vm_inv s l 2 root -> va < MAXVA -> has (pte_at (k_mem s) 2 root va) PTE_V = true ->
  exists a, pt_walk (k_mem s) 2 root va = Some a /\ a <> 0 /\
            load64 (k_mem s) a = pte_at (k_mem s) 2 root va /\ walk root va false s = Ok a s.
Proof.
  intros Hinv Hva (a & Hw & Hl)%pte_at_valid_walk. exists a. split; [done|].
  pose proof (pt_walk_pos _ _ _ _ _ (vm_tree _ _ _ _ Hinv) Hw). split; [lia|]. split; [done|].
  rewrite walk_noalloc by done. by rewrite Hw.
Qed.

Lemma NoDup_map_notin {A B} (f : A -> B) (x : A) (l : list A) :
  NoDup (map f (x :: l)) -> x ∉ l.
Proof.
  cbn. intros [Hn _]%NoDup_cons Hin. apply Hn. apply list_elem_of_fmap. eauto.
Qed.

(** Writes away from the tables and the free list keep the address space. *)
Lemma pt_frame_disj m m' root ps :
  tree_ok m 2 root -> Forall ram_page ps ->
  (forall p, p ∈ ps -> p ∉ pt_pages m 2 root) -> frame_out ps m m' ->
  pt_pages m' 2 root = pt_pages m 2 root /\
  (forall va, pt_walk m' 2 root va = pt_walk m 2 root va) /\
  (forall va, pte_at m' 2 root va = pte_at m 2 root va) /\ tree_ok m' 2 root.
Proof.
  intros Hok Hr Hd Hf.
  assert (Forall (page_eq m m') (pt_pages m 2 root)) as He.
  { pose proof (tree_ram _ _ _ Hok) as Ht. rewrite Forall_forall in *. intros p Hp.
    apply (frame_out_page ps); [by rewrite Forall_forall|by apply Ht| |done].
    intros Hin. by apply (Hd p Hin). }
  destruct (pt_frame m m' 2 root He) as (E1 & E2 & E3).
  split; [done|]. split; [done|]. split; [done|]. by eapply tree_ok_frame.
Qed.

(** ** uvmunmap *)

(** The memory after one page has been unmapped and freed. *)
Definition unmap_mem (m : mem) (fl pa slot : Z) : mem :=
  store64 (store64 (memset m pa 1 PGSIZE) pa fl) slot 0.

Lemma kfree_frame m p v : frame_out [p] m (store64 (memset m p 1 PGSIZE) p v).
Proof.
  intros x Hx. specialize (Hx p ltac:(apply elem_of_cons; by left)).
  rewrite load8_store64_out by lia. rewrite load8_memset. unfold PGSIZE. zdec; try lia; done.
Qed.

Lemma uvmunmap_body_free s l root last i us :
  uvm_inv s l root (i :: us) -> i * 4096 < last ->
  exists m', uvmunmap_body root last true (i * 4096) s =
      Ok (inl (i * 4096 + 4096)) (vm_upd m' (upage (k_mem s) root i) s) /\
    uvm_inv (vm_upd m' (upage (k_mem s) root i) s) (upage (k_mem s) root i :: l) root us /\
    pt_pages m' 2 root = pt_pages (k_mem s) 2 root /\
    frame_out (upage (k_mem s) root i :: pt_pages (k_mem s) 2 root) (k_mem s) m' /\
    (forall va, 0 <= va < 2 ^ 39 -> va / 4096 <> i -> pte_at m' 2 root va = pte_at (k_mem s) 2 root va).
Proof.
  intros [Hvm Hin Hout Hnd] Hlast. pose proof UMAX_eq as HU.
  destruct (Hin i ltac:(apply elem_of_cons; by left)) as (Hi & Hv & Hleaf & Rp).
  destruct (walk_valid s l root (i * 4096) Hvm) as (a & Hw & Ha0 & Hl & Hwalk);
    [rewrite MAXVA_eq; lia|done|].
  pose proof Hvm as [Hh Hk Ht Hd]. set (pa := upage (k_mem s) root i) in *.
  pose proof (proj1 (NoDup_app _ _) Hnd) as (Nl & Nld & Nr).
  pose proof (proj1 (NoDup_app _ _) Nr) as (Nt & Ntd & Nu).
  assert (pa ∉ l) as Hpl.
  { intros Hp. apply (Nld pa Hp). rewrite elem_of_app. right. cbn. apply elem_of_cons. by left. }
  assert (pa ∉ pt_pages (k_mem s) 2 root) as Hpt.
  { intros Hp. apply (Ntd pa Hp). cbn. apply elem_of_cons. by left. }
  set (m1 := store64 (memset (k_mem s) pa 1 PGSIZE) pa (k_freelist s)).
  destruct (pt_frame_disj (k_mem s) m1 root [pa]) as (E1 & E2 & E3 & Ht1);
    [done|by constructor| |apply kfree_frame|].
  { intros q. rewrite list_elem_of_singleton. by intros ->. }
  assert (vm_inv (vm_upd m1 pa s) (pa :: l) 2 root) as Hvm1.
  { split; [done|exact (kfree_inv s pa l Hk Rp Hpl)|done|].
    cbn [vm_upd k_mem set_k_mem]. rewrite E1. rewrite <- app_comm_cons. constructor; [|done].
    rewrite elem_of_app. tauto. }
  assert (pt_walk m1 2 root (i * 4096) = Some a) as Hw1 by (by rewrite E2).
  exists (store64 m1 a 0). split; [|split].
  - unfold uvmunmap_body. destruct (Z.ltb_spec (i * 4096) last); [|lia].
    rewrite (bind_ok _ _ _ _ _ Hwalk). destruct (Z.eqb_spec a 0); [done|].
    unfold panic_if, when. rewrite (bind_ok _ _ s tt s) by done.
    rewrite (bind_ok _ _ s (k_mem s) s) by done. rewrite Hl, Hv. cbn [negb].
    rewrite (bind_ok _ _ s tt s) by done.
    destruct (Z.eqb_spec (PTE_FLAGS (pte_at (k_mem s) 2 root (i * 4096))) PTE_V); [done|].
    rewrite (bind_ok _ _ s tt s) by done.
    fold (upage (k_mem s) root i). fold pa.
    rewrite (bind_ok _ _ _ _ _ (kfree_run s pa Hh Rp)).
    unfold bind, mem_mod, modify, ret, u64, PGSIZE. rewrite Z.mod_small by lia. done.
  - assert (forall va, 0 <= va < 2 ^ 39 -> pte_at (store64 m1 a 0) 2 root va =
              if va / 4096 =? i then 0 else pte_at (k_mem s) 2 root va) as Hat.
    { intros va Hva. rewrite (pte_at_leaf_store m1 root (i * 4096) a 0 va Ht1 Hw1) by lia.
      rewrite E3, Z.div_mul by lia. done. }
    assert (i ∉ us) as Hius.
    { apply NoDup_map_notin in Nu. exact Nu. }
    assert (forall j, 0 <= j < UMAX -> j <> i -> upage (store64 m1 a 0) root j = upage (k_mem s) root j) as Hup.
    { intros j Hj Hne. unfold upage. rewrite Hat by lia. rewrite Z.div_mul by lia. zcase; [done|done]. }
    split.
    + exact (vm_inv_leaf_store _ _ _ _ _ 0 Hvm1 Hw1).
    + intros j Hj. destruct (Hin j ltac:(apply elem_of_cons; by right)) as (Hjr & Hjv & Hjl & Hjp).
      assert (j <> i) by (by intros ->). cbn [vm_upd k_mem set_k_mem].
      rewrite Hup by done. rewrite Hat by lia. rewrite Z.div_mul by lia.
      destruct (Z.eqb_spec j i); [done|]. done.
    + intros j Hj Hn. cbn [vm_upd k_mem set_k_mem]. rewrite Hat by lia. rewrite Z.div_mul by lia.
      destruct (Z.eqb_spec j i); [done|]. apply Hout; [done|]. rewrite elem_of_cons. tauto.
    + cbn [vm_upd k_mem set_k_mem].
      rewrite (proj1 (pt_leaf_store m1 2 root (i * 4096) a 0 Ht1 Hw1)), E1.
      assert (map (upage (store64 m1 a 0) root) us = map (upage (k_mem s) root) us) as ->.
      { apply map_ext_in. intros j Hj%list_elem_of_In. apply Hup; [|by intros ->].
        by destruct (Hin j ltac:(apply elem_of_cons; by right)). }
      cbn in Hnd. rewrite (Permutation_app_comm (pt_pages _ 2 root)) in Hnd.
      cbn in Hnd. rewrite <- Permutation_middle in Hnd.
      by rewrite <- app_comm_cons, (Permutation_app_comm (pt_pages _ 2 root)).
  - split; [by rewrite (proj1 (pt_leaf_store m1 2 root (i * 4096) a 0 Ht1 Hw1)), E1|]. split.
    + eapply frame_out_trans.
      * eapply (frame_out_mono [pa]); [|apply kfree_frame]. intros q. elems.
      * eapply frame_out_mono; [|by eapply leaf_frame]. intros q. rewrite E1. elems.
    + intros va Hva Hne. rewrite (pte_at_leaf_store m1 root (i * 4096) a 0 va Ht1 Hw1) by lia.
      rewrite E3, Z.div_mul by lia. zcase; [done|done].
Qed.

Lemma uvmunmap_loop root last : forall n k s l us,
  uvm_inv s l root (seqZ k (Z.of_nat n) ++ us) -> last = (k + Z.of_nat n) * 4096 ->
  exists m' f',
    mloop (S n) (uvmunmap_body root last true) (k * 4096) s = Ok tt (vm_upd m' f' s) /\
    uvm_inv (vm_upd m' f' s) (rev (map (upage (k_mem s) root) (seqZ k (Z.of_nat n))) ++ l) root us /\
    pt_pages m' 2 root = pt_pages (k_mem s) 2 root /\
    frame_out (map (upage (k_mem s) root) (seqZ k (Z.of_nat n)) ++ pt_pages (k_mem s) 2 root) (k_mem s) m' /\
    (forall va, 0 <= va < 2 ^ 39 -> ~ (k <= va / 4096 < k + Z.of_nat n) ->
       pte_at m' 2 root va = pte_at (k_mem s) 2 root va).
Proof.
  induction n as [|n IH]; intros k s l us Hinv Hlast.
  - exists (k_mem s), (k_freelist s). rewrite vm_upd_id. cbn [mloop].
    rewrite (bind_ok _ _ s (inr tt) s).
    + split; [done|]. split; [done|]. split; [done|]. split; [done|]. done.
    + unfold uvmunmap_body. destruct (Z.ltb_spec (k * 4096) last); [lia|done].
  - assert (seqZ k (Z.of_nat (S n)) = k :: seqZ (k + 1) (Z.of_nat n)) as Eseq.
    { rewrite seqZ_cons by lia. do 2 f_equal. lia. }
    rewrite Eseq in Hinv |- *. cbn [app map rev].
    destruct (uvmunmap_body_free s l root last k (seqZ (k + 1) (Z.of_nat n) ++ us) Hinv)
      as (m1 & Hrun & Hinv1 & Hp1 & Hf1 & Ha1); [lia|].
    destruct (uvm_in _ _ _ _ Hinv k ltac:(apply elem_of_cons; by left)) as (Hk & _).
    pose proof UMAX_eq as HU.
    destruct (IH (k + 1) _ _ us Hinv1 ltac:(lia)) as (m' & f' & Hrun' & Hinv' & Hp & Hf & Ha).
    cbn [vm_upd k_mem set_k_mem] in Hrun', Hinv', Hp, Hf, Ha.
    assert (map (upage m1 root) (seqZ (k + 1) (Z.of_nat n)) =
            map (upage (k_mem s) root) (seqZ (k + 1) (Z.of_nat n))) as Eup.
    { apply map_ext_in. intros j Hj%list_elem_of_In. unfold upage.
      destruct (uvm_in _ _ _ _ Hinv1 j) as (Hjr & _); [apply elem_of_app; by left|].
      apply elem_of_seqZ in Hj. rewrite Ha1; [done|lia|]. rewrite Z.div_mul by lia. lia. }
    rewrite Eup in Hinv', Hf.
    exists m', f'. split; [|split; [|split; [by rewrite Hp|split]]].
    + remember (S n) as n'. cbn [mloop]. rewrite (bind_ok _ _ _ _ _ Hrun). subst n'.
      replace (k * 4096 + 4096) with ((k + 1) * 4096) by lia. exact Hrun'.
    + rewrite <- (assoc_L (++)). exact Hinv'.
    + eapply frame_out_trans; [eapply frame_out_mono; [|exact Hf1]; intros q; elems|].
      eapply frame_out_mono; [|exact Hf]. intros q. rewrite Hp1. elems.
    + intros va Hva Hn. rewrite Ha by lia. apply Ha1; lia.
Qed.

(** [uvmunmap] with [do_free]: the pages of the range come off the address
    space and onto the free list; everything else stays. *)
Lemma uvmunmap_run s l root k n us :
  uvm_inv s l root (seqZ k n ++ us) -> 0 <= k -> 0 <= n -> k + n <= UMAX ->
  exists m' f',
    uvmunmap root (k * 4096) n true s = Ok tt (vm_upd m' f' s) /\
    uvm_inv (vm_upd m' f' s) (rev (map (upage (k_mem s) root) (seqZ k n)) ++ l) root us /\
    pt_pages m' 2 root = pt_pages (k_mem s) 2 root /\
    frame_out (map (upage (k_mem s) root) (seqZ k n) ++ pt_pages (k_mem s) 2 root) (k_mem s) m' /\
    (forall va, 0 <= va < 2 ^ 39 -> ~ (k <= va / 4096 < k + n) ->
       pte_at m' 2 root va = pte_at (k_mem s) 2 root va).
Proof.
  intros Hinv Hk Hn Hmax. rewrite UMAX_eq in Hmax. unfold uvmunmap, PGSIZE.
  replace ((k * 4096) mod 4096 =? 0) with true by (symmetry; apply Z.eqb_eq, Z.mod_mul; lia).
  rewrite (bind_ok _ _ s tt s) by done.
  unfold u64. rewrite Z.mod_small by lia.
  rewrite <- (Z2Nat.id n Hn) in Hinv.
  destruct (uvmunmap_loop root (k * 4096 + n * 4096) (Z.to_nat n) k s l us Hinv ltac:(lia))
    as (m' & f' & H). rewrite (Z2Nat.id n Hn) in H. exists m', f'. exact H.
Qed.

(** ** Taking a page and mapping it *)

Lemma uvm_inv_perm s l root us us' :
  us ≡ₚ us' -> uvm_inv s l root us -> uvm_inv s l root us'.
Proof.
  intros Hp [Hvm Hin Hout Hnd]. split; [done| | |].
  - intros i. rewrite <- Hp. apply Hin.
  - intros i. rewrite <- Hp. apply Hout.
  - by rewrite <- Hp.
Qed.

(** A page that the address space, its tables and the free list do not use. *)
Definition fresh_page (s : kstate) (l : list Z) (root : Z) (us : list Z) (p : Z) : Prop :=
  ram_page p /\ (p ∉ l) /\ (p ∉ pt_pages (k_mem s) 2 root) /\ (p ∉ map (upage (k_mem s) root) us).

(** Writes to fresh or user pages keep the address space. *)
Lemma uvm_inv_write s l root us ps m' :
  uvm_inv s l root us -> Forall ram_page ps ->
  (forall p, p ∈ ps -> (p ∉ l) /\ (p ∉ pt_pages (k_mem s) 2 root)) -> frame_out ps (k_mem s) m' ->
  uvm_inv (set_k_mem m' s) l root us /\ pt_pages m' 2 root = pt_pages (k_mem s) 2 root /\
  (forall va, pte_at m' 2 root va = pte_at (k_mem s) 2 root va).
Proof.
  intros [Hvm Hin Hout Hnd] Hr Hps Hf. pose proof Hvm as [Hh Hk Ht Hd].
  destruct (pt_frame_disj (k_mem s) m' root ps Ht Hr) as (E1 & E2 & E3 & Ht'); [|done|].
  { intros p Hp. by apply Hps. }
  assert (map (upage m' root) us = map (upage (k_mem s) root) us) as Eup.
  { apply map_ext. intros i. unfold upage. by rewrite E3. }
  split; [|done]. split.
  - split; [done| |done|cbn [k_mem set_k_mem]; by rewrite E1].
    apply (kmem_inv_frame s l ps); [|done|done|done]. intros p Hp. by apply Hps.
  - intros i Hi. cbn [k_mem set_k_mem]. unfold upage. rewrite E3. by apply Hin.
  - intros i Hi Hn. cbn [k_mem set_k_mem]. rewrite E3. by apply Hout.
  - cbn [k_mem set_k_mem]. by rewrite E1, Eup.
Qed.

(** [kalloc] and a first write to the page it returned. *)
Lemma uvm_inv_take s p l root us m' :
  uvm_inv s (p :: l) root us -> frame_out [p] (k_mem s) m' ->
  let s' := vm_upd m' (load64 (k_mem s) p) s in
  uvm_inv s' l root us /\ fresh_page s' l root us p /\
  pt_pages m' 2 root = pt_pages (k_mem s) 2 root /\
  (forall va, pte_at m' 2 root va = pte_at (k_mem s) 2 root va).
Proof.
  intros Hinv Hf s'. pose proof Hinv as [Hvm Hin Hout Hnd]. pose proof Hvm as [Hh Hk Ht Hd].
  pose proof (kmem_pages _ _ Hk) as [Rp Rl]%Forall_cons. rewrite <- app_comm_cons in Hnd.
  pose proof Hnd as [Hpn Hnd']%NoDup_cons. rewrite !elem_of_app in Hpn.
  assert (uvm_inv (set_k_freelist (load64 (k_mem s) p) s) l root us) as Hinv1.
  { split; [|exact Hin|exact Hout|exact Hnd'].
    split; [done| |done|by apply NoDup_cons in Hd as [_ ?]].
    pose proof (kmem_rep _ _ Hk) as [_ Hr]. split; [done|done|].
    by pose proof (kmem_nodup _ _ Hk) as [_ ?]%NoDup_cons. }
  destruct (uvm_inv_write _ l root us [p] m' Hinv1) as (Hinv' & E1 & E2);
    [by constructor| |done|].
  { intros q. rewrite list_elem_of_singleton. intros ->. cbn [k_mem set_k_freelist]. tauto. }
  cbn [k_mem set_k_freelist] in E1, E2.
  split; [exact Hinv'|]. split; [|done]. unfold fresh_page, s'. cbn [vm_upd k_mem set_k_mem].
  rewrite E1. assert (map (upage m' root) us = map (upage (k_mem s) root) us) as ->; [|tauto].
  apply map_ext. intros i. unfold upage. by rewrite E2.
Qed.

(** [mappages] of one fresh page at page [i] of user memory. *)
Lemma uvm_map s l root us i p perm :
  uvm_inv s l root us -> fresh_page s l root us p -> 0 <= i < UMAX -> i ∉ us ->
  0 <= perm < 1024 -> Z.lor perm PTE_V <> PTE_V ->
  exists r m' f' new l',
    mappages root (i * 4096) PGSIZE p perm s = Ok r (vm_upd m' f' s) /\ l = new ++ l' /\
    pt_pages m' 2 root ≡ₚ new ++ pt_pages (k_mem s) 2 root /\
    frame_out (new ++ pt_pages (k_mem s) 2 root) (k_mem s) m' /\
    (forall va, 0 <= va < 2 ^ 39 -> va / 4096 <> i \/ r = -1 -> pte_at m' 2 root va = pte_at (k_mem s) 2 root va) /\
    ((r = 0 /\ uvm_inv (vm_upd m' f' s) l' root (i :: us) /\
      pte_at m' 2 root (i * 4096) = leaf_entry p perm) \/
     (r = -1 /\ l' = [] /\ uvm_inv (vm_upd m' f' s) [] root us /\
      fresh_page (vm_upd m' f' s) [] root us p)).
Proof.
  intros Hinv (Rp & Hpl & Hpt & Hpu) Hi Hius Hperm Hleaf. pose proof UMAX_eq as HU.
  pose proof Hinv as [Hvm Hin Hout Hnd]. pose proof (ram_page_page_addr p Rp) as Pp.
  pose proof (ram_page_bounds p Rp) as Bp.
  destruct (mappages_run root (i * 4096) PGSIZE p perm s l Hvm Hperm)
    as (r & m' & f' & new & l' & k & Hrun & Hl & Hvm' & Hp & Hf & Hm & Hres);
    try (unfold PGSIZE; rewrite ?MAXVA_eq; destruct Pp; lia).
  { intros a Ha. rewrite (pte_at_page _ _ a (i * 4096)) by (unfold PGSIZE in *; lia).
    by apply Hout. }
  change (PGSIZE / 4096) with 1 in Hres.
  assert (forall j, 0 <= j < UMAX -> j <> i -> pte_at m' 2 root (j * 4096) = pte_at (k_mem s) 2 root (j * 4096)) as Hother.
  { intros j Hj Hne. rewrite Hm by lia. destruct Hres as [[_ ->]|(_ & Hk & _)]; zdec; try lia; done. }
  assert (forall j, j ∈ us -> upage m' root j = upage (k_mem s) root j) as Hup.
  { intros j Hj. unfold upage. rewrite Hother; [done|by destruct (Hin j Hj)|by intros ->]. }
  assert (map (upage m' root) us = map (upage (k_mem s) root) us) as Eup.
  { apply map_ext_in. intros j Hj%list_elem_of_In. by apply Hup. }
  exists r, m', f', new, l'. repeat (split; [done|]). split.
  { intros va Hva Hne. rewrite Hm by done. destruct Hres as [[-> ->]|(_ & Hk & _)]; zdec; try lia; done. }
  destruct Hres as [[-> ->]|(-> & Hk & ->)]; [left|right].
  - split; [done|].
    assert (pte_at m' 2 root (i * 4096) = leaf_entry p perm) as Hat.
    { rewrite Hm by lia. zdec; try lia. f_equal. lia. }
    split; [|done].
    destruct (leaf_entry_decode p perm Pp Hperm) as (Hpa & Hfl & Hv).
    assert (upage m' root i = p) as Hupi by (unfold upage; by rewrite Hat).
    split; [done| | |].
    + intros j [->|Hj]%elem_of_cons; cbn [vm_upd k_mem set_k_mem].
      * by rewrite Hupi, Hat, Hfl.
      * rewrite Hup, Hother by (done || (by destruct (Hin j Hj)) || by intros ->). by apply Hin.
    + intros j Hj Hn. cbn [vm_upd k_mem set_k_mem]. rewrite elem_of_cons in Hn.
      rewrite Hother by tauto. apply Hout; tauto.
    + cbn [vm_upd k_mem set_k_mem map]. rewrite Hupi, Eup.
      assert (l' ++ pt_pages m' 2 root ++ p :: map (upage (k_mem s) root) us ≡ₚ
              p :: l ++ pt_pages (k_mem s) 2 root ++ map (upage (k_mem s) root) us) as ->.
      { rewrite Hp, Hl, (assoc_L (++) l'), <- Permutation_middle. constructor.
        by rewrite !(assoc_L (++)), (Permutation_app_comm l' new). }
      constructor; [|done]. rewrite !elem_of_app. tauto.
  - assert (new = l) as -> by (by rewrite Hl, app_nil_r). assert (k = 0) as -> by lia.
    assert (forall va, 0 <= va < 2 ^ 39 -> pte_at m' 2 root va = pte_at (k_mem s) 2 root va) as Hat.
    { intros va Hva. rewrite Hm by done. zdec; try lia; done. }
    split; [done|]. split; [done|]. split; [split; [done| | |]|].
    + intros j Hj. cbn [vm_upd k_mem set_k_mem]. destruct (Hin j Hj) as (Hjr & Hj').
      rewrite Hup, Hat by (done || lia). done.
    + intros j Hj Hn. cbn [vm_upd k_mem set_k_mem]. rewrite Hat by lia. by apply Hout.
    + cbn [vm_upd k_mem set_k_mem app]. by rewrite Eup, Hp, <- (assoc_L (++)).
    + unfold fresh_page. cbn [vm_upd k_mem set_k_mem]. rewrite Eup, Hp, elem_of_nil, elem_of_app. tauto.
Qed.

(** ** Growing by one page *)

(** Every physical page an address space, its tables and the allocator hold. *)
Definition owned (s : kstate) (l : list Z) (root : Z) (us : list Z) : list Z :=
  l ++ pt_pages (k_mem s) 2 root ++ map (upage (k_mem s) root) us.

(** Entries of the pages other than [i] are the same in [m] and [m']. *)
Definition pte_same_but (m m' : mem) (root i : Z) : Prop :=
  forall va, 0 <= va < 2 ^ 39 -> va / 4096 <> i -> pte_at m' 2 root va = pte_at m 2 root va.

Lemma upage_same_but m m' root i us :
  pte_same_but m m' root i -> i ∉ us -> (forall j, j ∈ us -> 0 <= j < UMAX) ->
  map (upage m' root) us = map (upage m root) us.
Proof.
  intros He Hi Hr. apply map_ext_in. intros j Hj%list_elem_of_In. unfold upage.
  pose proof (Hr j Hj). pose proof UMAX_eq. rewrite He; [done|lia|].
  rewrite Z.div_mul by lia. by intros ->.
Qed.

Lemma uvm_grow s p l root us i perm m1 :
  uvm_inv s (p :: l) root us -> frame_out [p] (k_mem s) m1 ->
  0 <= i < UMAX -> i ∉ us -> 0 <= perm < 1024 -> Z.lor perm PTE_V <> PTE_V ->
  exists r m2 f2 l2,
    mappages root (i * 4096) PGSIZE p perm (vm_upd m1 (load64 (k_mem s) p) s) =
      Ok r (vm_upd m2 f2 s) /\
    page_eq m1 m2 p /\ frame_out (p :: l ++ pt_pages (k_mem s) 2 root) (k_mem s) m2 /\
    pte_same_but (k_mem s) m2 root i /\
    ((r = 0 /\ uvm_inv (vm_upd m2 f2 s) l2 root (i :: us) /\
      owned (vm_upd m2 f2 s) l2 root (i :: us) ≡ₚ owned s (p :: l) root us /\
      pte_at m2 2 root (i * 4096) = leaf_entry p perm) \/
     (r = -1 /\ exists m3 f3, kfree p (vm_upd m2 f2 s) = Ok tt (vm_upd m3 f3 s) /\
      uvm_inv (vm_upd m3 f3 s) [p] root us /\
      owned (vm_upd m3 f3 s) [p] root us ≡ₚ owned s (p :: l) root us /\
      frame_out (p :: l ++ pt_pages (k_mem s) 2 root) (k_mem s) m3 /\
      (forall va, 0 <= va < 2 ^ 39 -> pte_at m3 2 root va = pte_at (k_mem s) 2 root va))).
Proof.
  intros Hinv Hf1 Hi Hius Hperm Hleaf.
  assert (forall j, j ∈ us -> 0 <= j < UMAX) as Hrange by (intros j Hj; by destruct (uvm_in _ _ _ _ Hinv j Hj)).
  destruct (uvm_inv_take s p l root us m1 Hinv Hf1) as (Hinv1 & Hfresh & E1 & E2).
  pose proof Hfresh as (Rp & Hpl & Hpt & Hpu). cbn [vm_upd k_mem set_k_mem] in Hpt, Hpu.
  destruct (uvm_map _ l root us i p perm Hinv1 Hfresh Hi Hius Hperm Hleaf)
    as (r & m2 & f2 & new & l2 & Hrun & Hl & Hp2 & Hf2 & Hs2 & Hres).
  cbn [vm_upd k_mem set_k_mem] in Hp2, Hf2, Hs2. rewrite E1 in Hp2, Hf2, Hpt.
  assert (frame_out (p :: l ++ pt_pages (k_mem s) 2 root) (k_mem s) m2) as Hfr.
  { eapply frame_out_trans; [eapply frame_out_mono; [|exact Hf1]; intros q; elems|].
    eapply frame_out_mono; [|exact Hf2]. intros q. rewrite Hl. elems. }
  assert (pte_same_but (k_mem s) m2 root i) as Hsame.
  { intros va Hva Hne. rewrite Hs2, E2; [done|done|by left]. }
  pose proof (upage_same_but _ _ _ _ us Hsame Hius Hrange) as Eup.
  exists r, m2, f2, l2. split; [exact Hrun|]. split.
  { apply (frame_out_page (new ++ pt_pages (k_mem s) 2 root)); [| done | |done].
    - apply Forall_app. pose proof (kmem_pages _ _ (vm_kmem _ _ _ _ (uvm_vm _ _ _ _ Hinv1))) as Hr.
      rewrite Hl in Hr. apply Forall_app in Hr as [Hr _]. split; [done|].
      apply (vm_tree _ _ _ _ (uvm_vm _ _ _ _ Hinv)).
    - rewrite elem_of_app. intros [H|H]; [|done]. apply Hpl. rewrite Hl. apply elem_of_app. by left. }
  split; [done|]. split; [done|].
  destruct Hres as [(-> & Hinv2 & Hat)|(-> & -> & Hinv2 & Hfresh2)]; [left|right].
  - split; [done|]. split; [exact Hinv2|]. split; [|done].
    unfold owned. cbn [vm_upd k_mem set_k_mem map]. rewrite Eup.
    assert (upage m2 root i = p) as ->.
    { unfold upage. rewrite Hat. by apply leaf_entry_decode; [apply ram_page_page_addr|]. }
    rewrite Hp2, Hl, (assoc_L (++) l2), <- Permutation_middle. cbn. constructor.
    by rewrite !(assoc_L (++)), (Permutation_app_comm l2 new).
  - split; [done|]. pose proof Hfresh2 as (_ & _ & Hpt2 & Hpu2). cbn [vm_upd k_mem set_k_mem] in Hpt2, Hpu2.
    pose proof Hinv2 as [[Hh2 Hk2 Ht2 Hd2] Hin2 Hout2 Hnd2].
    pose proof (kfree_run _ p Hh2 Rp) as Hfree. cbn [vm_upd k_mem set_k_mem k_freelist set_k_freelist] in Hfree.
    set (m3 := store64 (memset m2 p 1 PGSIZE) p f2) in *.
    assert (frame_out [p] m2 m3) as Hf3 by apply kfree_frame.
    exists m3, p. split; [exact Hfree|].
    destruct (uvm_inv_write _ [] root us [p] m3 Hinv2) as (Hinv3 & E3 & E4); [by constructor| |done|].
    { intros q ->%list_elem_of_singleton. split; [apply not_elem_of_nil|done]. }
    cbn [vm_upd k_mem set_k_mem] in E3, E4.
    assert (map (upage m3 root) us = map (upage m2 root) us) as Eup3.
    { apply map_ext. intros j. unfold upage. by rewrite E4. }
    assert (new = l) as -> by (by rewrite Hl, app_nil_r).
    assert (forall va, 0 <= va < 2 ^ 39 -> pte_at m3 2 root va = pte_at (k_mem s) 2 root va) as Hat3.
    { intros va Hva. rewrite E4, Hs2, E2; [done|done|by right]. }
    split; [split|].
    + split; [done|exact (kfree_inv _ p [] Hk2 Rp (not_elem_of_nil p))|apply Hinv3|].
      cbn [vm_upd k_mem set_k_mem app]. rewrite E3. constructor; [done|apply Ht2].
    + apply Hinv3.
    + apply Hinv3.
    + cbn [vm_upd k_mem set_k_mem app]. rewrite E3, Eup3. constructor; [|done].
      rewrite elem_of_app. tauto.
    + unfold owned. cbn [vm_upd k_mem set_k_mem app]. rewrite E3, Eup3, Eup, Hp2.
      split; [by rewrite <- (assoc_L (++))|]. split; [|done].
      eapply frame_out_trans; [exact Hfr|]. eapply frame_out_mono; [|exact Hf3]. intros q. elems.
Qed.

End uvm.
