(* ===== verification/UvmGrow.v ===== *)
(** * Growing and shrinking user memory

    [uvmdealloc] and [uvmalloc] of [kernel/vm.c]: what a process sees of its
    memory before and after, that no page is lost or used twice, and that a
    failed [uvmalloc] gives back what it took. *)

From S2P Require Import Prelude Riscv Mem Cstring State Kalloc PageTable Vm VmSpec Uvm.

Section grow.
Context {KI : KernelImage}.

(** The number of pages that hold [sz] bytes. *)
Definition npg (sz : Z) : Z := (sz + 4095) / 4096.

(** The byte that user code sees at virtual address [va]. *)
Definition uread (m : mem) (root va : Z) : Z :=
  load8 m (upage m root (va / 4096) + va mod 4096).

(** A process memory of [sz] bytes. *)
Definition uvm_sz (s : kstate) (l : list Z) (root sz : Z) : Prop :=
  uvm_inv s l root (seqZ 0 (npg sz)).

(** The pages of [0, n) look the same in [m] and [m'], and so do the trapframe
    and trampoline pages above user memory. *)
Record usame (m m' : mem) (root n : Z) : Prop := {
  us_low : forall va, 0 <= va < n * 4096 ->
    pte_at m' 2 root va = pte_at m 2 root va /\ uread m' root va = uread m root va;
  us_high : forall va, TRAPFRAME <= va < 2 ^ 39 -> pte_at m' 2 root va = pte_at m 2 root va
}.

Lemma usame_refl m root n : usame m m root n.
Proof. done. Qed.

Lemma usame_trans m1 m2 m3 root n :
  usame m1 m2 root n -> usame m2 m3 root n -> usame m1 m3 root n.
Proof.
  intros [H1 G1] [H2 G2]. split; intros va Hva; [destruct (H1 va Hva), (H2 va Hva); split; congruence|].
  by rewrite G2, G1.
Qed.

Lemma usame_le m m' root n n' : n' <= n -> usame m m' root n -> usame m m' root n'.
Proof. intros Hn [H G]. split; [|done]. intros va Hva. apply H. nia. Qed.

Lemma npg_round sz : 0 <= sz <= 2 ^ 64 - 4096 -> PGROUNDUP sz = npg sz * 4096.
Proof. apply PGROUNDUP_eq. Qed.

Lemma npg_mul n : npg (n * 4096) = n.
Proof. unfold npg. lia. Qed.

Lemma npg_max sz : 0 <= sz <= TRAPFRAME -> 0 <= npg sz <= UMAX.
Proof. rewrite TRAPFRAME_eq, UMAX_eq. unfold npg. lia. Qed.

(** Writes outside the pages of the address space are not seen by it. *)
Lemma usame_frame s l root us m' ps n :
  uvm_inv s l root us -> (forall i, 0 <= i < n -> i ∈ us) -> Forall ram_page ps ->
  (forall i, 0 <= i < n -> upage (k_mem s) root i ∉ ps) ->
  frame_out ps (k_mem s) m' ->
  (forall va, 0 <= va < n * 4096 \/ TRAPFRAME <= va < 2 ^ 39 ->
     pte_at m' 2 root va = pte_at (k_mem s) 2 root va) ->
  usame (k_mem s) m' root n.
Proof.
  intros Hinv Hn Hr Hd Hf Hp. split; intros va Hva; [|apply Hp; by right].
  split; [apply Hp; by left|]. unfold uread.
  assert (0 <= va / 4096 < n) as Hi by lia.
  assert (upage m' root (va / 4096) = upage (k_mem s) root (va / 4096)) as ->.
  { unfold upage. rewrite Hp by lia. done. }
  assert (page_eq (k_mem s) m' (upage (k_mem s) root (va / 4096))) as He.
  { apply (frame_out_page ps); auto. by destruct (uvm_in _ _ _ _ Hinv _ (Hn _ Hi)) as (_ & _ & _ & ?). }
  apply He. lia.
Qed.

Lemma uvm_upage_fresh s l root us i :
  uvm_inv s l root us -> i ∈ us ->
  (upage (k_mem s) root i ∉ l) /\ (upage (k_mem s) root i ∉ pt_pages (k_mem s) 2 root).
Proof.
  intros Hinv Hi. pose proof (uvm_nodup _ _ _ _ Hinv) as Hnd.
  apply NoDup_app in Hnd as (_ & H1 & (_ & H2 & _)%NoDup_app).
  assert (upage (k_mem s) root i ∈ map (upage (k_mem s) root) us) as Hin.
  { apply list_elem_of_fmap. eauto. }
  split; intros Hp; [apply (H1 _ Hp)|by apply (H2 _ Hp)]. apply elem_of_app. by right.
Qed.

Lemma uvm_pages_ram s l root us :
  uvm_inv s l root us -> Forall ram_page (l ++ pt_pages (k_mem s) 2 root).
Proof.
  intros Hinv. apply Forall_app. split.
  - apply (kmem_pages _ _ (vm_kmem _ _ _ _ (uvm_vm _ _ _ _ Hinv))).
  - apply (vm_tree _ _ _ _ (uvm_vm _ _ _ _ Hinv)).
Qed.

Lemma owned_ram s l root us : uvm_inv s l root us -> Forall ram_page (owned s l root us).
Proof.
  intros Hinv. unfold owned. rewrite (assoc_L (++)). apply Forall_app. split; [by eapply uvm_pages_ram|].
  apply Forall_fmap, Forall_forall. intros i Hi. by destruct (uvm_in _ _ _ _ Hinv i Hi) as (_ & _ & _ & ?).
Qed.

Lemma frame_out_perm ps qs m m' : ps ≡ₚ qs -> frame_out ps m m' -> frame_out qs m m'.
Proof. intros Hp. apply frame_out_mono. intros q. by rewrite Hp. Qed.

Lemma frame_owned s l root us m' :
  frame_out (l ++ pt_pages (k_mem s) 2 root) (k_mem s) m' -> frame_out (owned s l root us) (k_mem s) m'.
Proof. apply frame_out_mono. intros q. unfold owned. elems. Qed.

(** ** uvmdealloc *)

Lemma uvmunmap_tail s l root n k :
  uvm_inv s l root (seqZ 0 n) -> 0 <= k <= n -> n <= UMAX ->
  exists m' f' l',
    uvmunmap root (k * 4096) (n - k) true s = Ok tt (vm_upd m' f' s) /\
    uvm_inv (vm_upd m' f' s) l' root (seqZ 0 k) /\
    owned (vm_upd m' f' s) l' root (seqZ 0 k) ≡ₚ owned s l root (seqZ 0 n) /\
    frame_out (owned s l root (seqZ 0 n)) (k_mem s) m' /\
    usame (k_mem s) m' root k.
Proof.
  intros Hinv Hk Hn. pose proof UMAX_eq as HU.
  assert (seqZ 0 n = seqZ 0 k ++ seqZ k (n - k)) as Eseq.
  { replace n with (k + (n - k)) at 1 by lia. rewrite seqZ_app by lia. done. }
  assert (uvm_inv s l root (seqZ k (n - k) ++ seqZ 0 k)) as Hinv1.
  { apply (uvm_inv_perm _ _ _ (seqZ 0 n)); [|done]. rewrite Eseq. apply Permutation_app_comm. }
  destruct (uvmunmap_run s l root k (n - k) (seqZ 0 k) Hinv1) as (m' & f' & Hrun & Hinv' & Hp & Hf & Ha); [lia..|].
  exists m', f', (rev (map (upage (k_mem s) root) (seqZ k (n - k))) ++ l).
  split; [done|]. split; [done|].
  assert (forall va, 0 <= va < k * 4096 \/ TRAPFRAME <= va < 2 ^ 39 ->
    pte_at m' 2 root va = pte_at (k_mem s) 2 root va) as Ha'.
  { intros va Hva. rewrite TRAPFRAME_eq in Hva. apply Ha; lia. }
  split.
  - unfold owned. cbn [vm_upd k_mem set_k_mem]. rewrite Hp, Eseq, map_app.
    assert (map (upage m' root) (seqZ 0 k) = map (upage (k_mem s) root) (seqZ 0 k)) as ->.
    { apply map_ext_in. intros j Hj%list_elem_of_In%elem_of_seqZ. unfold upage. rewrite Ha'; [done|lia]. }
    rewrite <- (Permutation_rev (map _ (seqZ k (n - k)))).
    rewrite <- (assoc_L (++) _ l). rewrite Permutation_app_comm.
    by rewrite <- !(assoc_L (++)).
  - split.
    { eapply frame_out_mono; [|exact Hf]. intros q. unfold owned. rewrite Eseq, map_app. elems. }
    apply (usame_frame s l root (seqZ 0 n) m' (map (upage (k_mem s) root) (seqZ k (n - k)) ++ pt_pages (k_mem s) 2 root));
      try done.
    + intros i Hi. apply elem_of_seqZ. lia.
    + apply Forall_app. split; [|apply (vm_tree _ _ _ _ (uvm_vm _ _ _ _ Hinv))].
      apply Forall_fmap, Forall_forall. intros i Hi%elem_of_seqZ. cbn.
      destruct (uvm_in _ _ _ _ Hinv i) as (_ & _ & _ & ?); [apply elem_of_seqZ; lia|done].
    + intros i Hi. rewrite elem_of_app. intros [Hx|Hx].
      * pose proof (uvm_nodup _ _ _ _ Hinv) as (_ & _ & (_ & _ & Hnd)%NoDup_app)%NoDup_app.
        rewrite Eseq, map_app in Hnd. apply NoDup_app in Hnd as (_ & Hnd & _).
        apply (Hnd (upage (k_mem s) root i)); [|done]. apply list_elem_of_fmap.
        exists i. split; [done|]. apply elem_of_seqZ. lia.
      * revert Hx. apply (uvm_upage_fresh s l root (seqZ 0 n)); [done|]. apply elem_of_seqZ. lia.
Qed.

Lemma uvmdealloc_run s l root oldsz newsz :
  uvm_sz s l root oldsz -> 0 <= oldsz <= TRAPFRAME -> 0 <= newsz ->
  exists m' f' l',
    uvmdealloc root oldsz newsz s = Ok (Z.min oldsz newsz) (vm_upd m' f' s) /\
    uvm_sz (vm_upd m' f' s) l' root (Z.min oldsz newsz) /\
    owned (vm_upd m' f' s) l' root (seqZ 0 (npg (Z.min oldsz newsz))) ≡ₚ
      owned s l root (seqZ 0 (npg oldsz)) /\
    frame_out (owned s l root (seqZ 0 (npg oldsz))) (k_mem s) m' /\
    usame (k_mem s) m' root (npg (Z.min oldsz newsz)).
Proof.
  unfold uvm_sz. intros Hinv Ho Hn. pose proof UMAX_eq as HU.
  pose proof (npg_max oldsz Ho) as Hmax. rewrite TRAPFRAME_eq in Ho. unfold uvmdealloc.
  destruct (Z.leb_spec oldsz newsz).
  { rewrite Z.min_l by lia. exists (k_mem s), (k_freelist s), l. rewrite vm_upd_id.
    split; [done|]. split; [done|]. split; [done|]. split; [done|]. apply usame_refl. }
  rewrite Z.min_r by lia. rewrite !npg_round by lia. unfold PGSIZE.
  assert (0 <= npg newsz <= npg oldsz) as Hle by (unfold npg; lia).
  destruct (Z.ltb_spec (npg newsz * 4096) (npg oldsz * 4096)).
  - replace ((npg oldsz * 4096 - npg newsz * 4096) / 4096) with (npg oldsz - npg newsz) by lia.
    rewrite (s32_id (npg oldsz - npg newsz)) by lia.
    unfold u64. rewrite Z.mod_small by lia.
    destruct (uvmunmap_tail s l root (npg oldsz) (npg newsz) Hinv) as (m' & f' & l' & Hrun & H'); [lia..|].
    exists m', f', l'. split; [|exact H']. by rewrite (bind_ok _ _ _ _ _ Hrun).
  - assert (npg newsz = npg oldsz) as -> by lia.
    exists (k_mem s), (k_freelist s), l. rewrite vm_upd_id. rewrite (bind_ok _ _ s tt s) by done.
    split; [done|]. split; [done|]. split; [done|]. split; [done|]. apply usame_refl.
Qed.

(** ** uvmalloc *)

Lemma alloc_perm xperm :
  0 <= xperm < 1024 ->
  0 <= Z.lor (Z.lor PTE_R PTE_U) xperm < 1024 /\
  Z.lor (Z.lor (Z.lor PTE_R PTE_U) xperm) PTE_V <> PTE_V.
Proof.
  intros Hx. split.
  - split; [apply Z.lor_nonneg; split; [done|lia]|].
    apply (Z.log2_lt_cancel _ (2 ^ 10)). rewrite Z.log2_pow2, Z.log2_lor by (lia || done).
    change (Z.log2 (Z.lor PTE_R PTE_U)) with 4.
    destruct (decide (xperm = 0)) as [->|]; [done|].
    assert (Z.log2 xperm < 10) by (apply Z.log2_lt_pow2; lia). lia.
  - intros E. apply (f_equal (fun z => Z.testbit z 1)) in E.
    rewrite !Z.lor_spec in E. done.
Qed.

(** The new pages of a grown memory: zero, with the flags that were asked for. *)
Definition new_zero (m' : mem) (root i n xperm : Z) : Prop := forall va,
  i * 4096 <= va < n * 4096 ->
  uread m' root va = 0 /\
  PTE_FLAGS (pte_at m' 2 root va) = Z.lor (Z.lor (Z.lor PTE_R PTE_U) xperm) PTE_V.

Lemma new_zero_usame m m' root i n xperm :
  0 <= i -> new_zero m root i n xperm -> usame m m' root n -> new_zero m' root i n xperm.
Proof.
  intros Hi Hz Hs va Hva. destruct (us_low _ _ _ _ Hs va) as [-> ->]; [nia|]. by apply Hz.
Qed.

Lemma new_zero_app m root i j n xperm :
  new_zero m root i j xperm -> new_zero m root j n xperm -> new_zero m root i n xperm.
Proof. intros H1 H2 va Hva. destruct (Z_lt_dec va (j * 4096)); [apply H1|apply H2]; lia. Qed.

Lemma seqZ_snoc i : 0 <= i -> i :: seqZ 0 i ≡ₚ seqZ 0 (i + 1).
Proof.
  intros Hi. rewrite seqZ_app by lia. change (seqZ (0 + i) 1) with [0 + i]. rewrite Z.add_0_l.
  by rewrite Permutation_app_comm.
Qed.

(** Writes to the free pages and the tables only. *)
Lemma usame_grow s l root i m' :
  uvm_inv s l root (seqZ 0 i) -> frame_out (l ++ pt_pages (k_mem s) 2 root) (k_mem s) m' ->
  (forall va, 0 <= va < i * 4096 \/ TRAPFRAME <= va < 2 ^ 39 ->
     pte_at m' 2 root va = pte_at (k_mem s) 2 root va) ->
  usame (k_mem s) m' root i.
Proof.
  intros Hinv Hf Ha. apply (usame_frame s l root (seqZ 0 i) m' (l ++ pt_pages (k_mem s) 2 root)); try done.
  - intros j Hj. apply elem_of_seqZ. lia.
  - exact (uvm_pages_ram _ _ _ _ Hinv).
  - intros j Hj. rewrite elem_of_app.
    destruct (uvm_upage_fresh s l root (seqZ 0 i) j Hinv); [apply elem_of_seqZ; lia|]. tauto.
Qed.

(** One more page, zeroed, at the end of the address space. *)
Lemma uvmalloc_step s p l root i xperm :
  uvm_inv s (p :: l) root (seqZ 0 i) -> 0 <= i < UMAX -> 0 <= xperm < 1024 ->
  exists r m2 f2 l2,
    mappages root (i * 4096) PGSIZE p (Z.lor (Z.lor PTE_R PTE_U) xperm)
      (vm_upd (memset (memset (k_mem s) p 5 PGSIZE) p 0 PGSIZE) (load64 (k_mem s) p) s) =
      Ok r (vm_upd m2 f2 s) /\
    ((r = 0 /\ uvm_inv (vm_upd m2 f2 s) l2 root (seqZ 0 (i + 1)) /\
      owned (vm_upd m2 f2 s) l2 root (seqZ 0 (i + 1)) ≡ₚ owned s (p :: l) root (seqZ 0 i) /\
      frame_out (owned s (p :: l) root (seqZ 0 i)) (k_mem s) m2 /\
      usame (k_mem s) m2 root i /\ new_zero m2 root i (i + 1) xperm) \/
     (r = -1 /\ exists m3 f3, kfree p (vm_upd m2 f2 s) = Ok tt (vm_upd m3 f3 s) /\
      uvm_inv (vm_upd m3 f3 s) [p] root (seqZ 0 i) /\
      owned (vm_upd m3 f3 s) [p] root (seqZ 0 i) ≡ₚ owned s (p :: l) root (seqZ 0 i) /\
      frame_out (owned s (p :: l) root (seqZ 0 i)) (k_mem s) m3 /\
      usame (k_mem s) m3 root i)).
Proof.
  intros Hinv Hi Hx. destruct (alloc_perm xperm Hx) as [Hperm Hleaf]. pose proof UMAX_eq as HU.
  set (m1 := memset (memset (k_mem s) p 5 PGSIZE) p 0 PGSIZE).
  assert (frame_out [p] (k_mem s) m1) as Hf1.
  { intros x Hout. specialize (Hout p ltac:(apply elem_of_cons; by left)).
    unfold m1. rewrite !load8_memset. unfold PGSIZE. zdec; try lia; done. }
  assert (i ∉ seqZ 0 i) as Hni by (rewrite elem_of_seqZ; lia).
  destruct (uvm_grow s p l root (seqZ 0 i) i _ m1 Hinv Hf1 Hi Hni Hperm Hleaf)
    as (r & m2 & f2 & l2 & Hrun & Hpe & Hfr & Hsame & Hres).
  exists r, m2, f2, l2. split; [exact Hrun|].
  destruct Hres as [(-> & Hinv2 & Hown & Hat)|(-> & m3 & f3 & Hfree & Hinv3 & Hown & Hf3 & Ha3)]; [left|right].
  - split; [done|]. split; [by eapply uvm_inv_perm; [apply seqZ_snoc; lia|]|]. split.
    { rewrite <- Hown. unfold owned. by rewrite <- (seqZ_snoc i) by lia. }
    split; [by apply frame_owned|]. split; [apply (usame_grow s (p :: l)); [done|done|]; intros va Hva; rewrite TRAPFRAME_eq in Hva; apply Hsame; lia|].
    intros va Hva. pose proof (kmem_pages _ _ (vm_kmem _ _ _ _ (uvm_vm _ _ _ _ Hinv))) as [Rp _]%Forall_cons.
    destruct (leaf_entry_decode p _ (ram_page_page_addr p Rp) Hperm) as (Hpa & Hfl & _).
    rewrite (pte_at_page _ _ va (i * 4096)) by lia. rewrite Hat. split; [|done].
    unfold uread, upage. replace (va / 4096) with i by lia. rewrite Hat, Hpa.
    rewrite (Hpe (p + va mod 4096)) by lia. unfold m1. rewrite load8_memset. unfold PGSIZE. zdec; try lia; done.
  - split; [done|]. exists m3, f3. split; [done|]. split; [done|]. split; [done|].
    split; [by apply frame_owned|]. apply (usame_grow s (p :: l)); [done|done|]. intros va Hva. rewrite TRAPFRAME_eq in Hva. apply Ha3. lia.
Qed.

(** What a failed [uvmalloc] leaves. *)
Definition rolled_back (s s' : kstate) (l l' : list Z) (root n0 i : Z) : Prop :=
  uvm_inv s' l' root (seqZ 0 n0) /\
  owned s' l' root (seqZ 0 n0) ≡ₚ owned s l root (seqZ 0 i) /\
  frame_out (owned s l root (seqZ 0 i)) (k_mem s) (k_mem s') /\
  usame (k_mem s) (k_mem s') root n0.

(** What a successful one leaves. *)
Definition grown (s s' : kstate) (l l' : list Z) (root i n xperm : Z) : Prop :=
  uvm_inv s' l' root (seqZ 0 n) /\
  owned s' l' root (seqZ 0 n) ≡ₚ owned s l root (seqZ 0 i) /\
  frame_out (owned s l root (seqZ 0 i)) (k_mem s) (k_mem s') /\
  usame (k_mem s) (k_mem s') root i /\ new_zero (k_mem s') root i n xperm.

Lemma roll_back s l root n0 i :
  uvm_inv s l root (seqZ 0 i) -> 0 <= n0 <= i -> i <= UMAX ->
  exists m' f' l', uvmdealloc root (i * 4096) (n0 * 4096) s = Ok (n0 * 4096) (vm_upd m' f' s) /\
    rolled_back s (vm_upd m' f' s) l l' root n0 i.
Proof.
  intros Hinv Hn Hi. rewrite UMAX_eq in Hi.
  destruct (uvmdealloc_run s l root (i * 4096) (n0 * 4096)) as (m' & f' & l' & Hrun & H1 & H2 & H3 & H4);
    [unfold uvm_sz; by rewrite npg_mul|rewrite TRAPFRAME_eq; lia|lia|].
  rewrite Z.min_r in * by lia. unfold uvm_sz in H1. rewrite !npg_mul in *.
  exists m', f', l'. split; [done|]. unfold rolled_back. auto.
Qed.

Lemma uvmalloc_body_run s l root n0 i newsz xperm :
  uvm_inv s l root (seqZ 0 i) -> 0 <= n0 <= i -> i < UMAX -> i * 4096 < newsz -> 0 <= xperm < 1024 ->
  exists r m' f' l',
    uvmalloc_body root (n0 * 4096) newsz xperm (i * 4096) s = Ok r (vm_upd m' f' s) /\
    ((r = inl ((i + 1) * 4096) /\ grown s (vm_upd m' f' s) l l' root i (i + 1) xperm) \/
     (r = inr 0 /\ rolled_back s (vm_upd m' f' s) l l' root n0 i)).
Proof.
  intros Hinv Hn Hi Hlt Hx. pose proof UMAX_eq as HU. unfold uvmalloc_body.
  destruct (Z.ltb_spec (i * 4096) newsz); [|lia].
  pose proof (uvm_vm _ _ _ _ Hinv) as [Hh Hk Ht Hd].
  destruct l as [|p l].
  { rewrite (bind_ok _ _ _ _ _ (kalloc_nil s Hh Hk)). cbn [Z.eqb].
    destruct (roll_back s [] root n0 i Hinv Hn ltac:(lia)) as (m' & f' & l' & Hrun & H').
    exists (inr 0), m', f', l'. rewrite (bind_ok _ _ _ _ _ Hrun). split; [done|]. by right. }
  rewrite (bind_ok _ _ _ _ _ (kalloc_cons s p l Hh Hk)).
  pose proof (kmem_pages _ _ Hk) as [Rp _]%Forall_cons. pose proof (ram_page_bounds p Rp).
  destruct (Z.eqb_spec p 0); [lia|].
  destruct (uvmalloc_step s p l root i xperm Hinv ltac:(lia) Hx) as (r & m2 & f2 & l2 & Hrun & Hres).
  rewrite (bind_ok _ _ _ tt (vm_upd (memset (memset (k_mem s) p 5 PGSIZE) p 0 PGSIZE) (load64 (k_mem s) p) s)) by done.
  rewrite (bind_ok _ _ _ _ _ Hrun).
  destruct Hres as [(-> & H1 & H2 & H3 & H4 & H5)|(-> & m3 & f3 & Hfree & H1 & H2 & H4 & H3)]; cbn [negb Z.eqb].
  - exists (inl ((i + 1) * 4096)), m2, f2, l2. split; [|left; unfold grown; auto 10].
    unfold ret, u64, PGSIZE. rewrite Z.mod_small by lia. do 2 f_equal. lia.
  - rewrite (bind_ok _ _ _ _ _ Hfree).
    destruct (roll_back _ [p] root n0 i H1 Hn ltac:(lia)) as (m' & f' & l' & Hrun' & H1' & H2' & H4' & H3').
    exists (inr 0), m', f', l'. rewrite (bind_ok _ _ _ _ _ Hrun'). split; [done|]. right. split; [done|].
    split; [exact H1'|]. split; [by rewrite <- H2|].
    split; [eapply frame_out_trans; [exact H4|by eapply frame_out_perm]|].
    eapply usame_trans; [eapply usame_le; [|exact H3]; lia|exact H3'].
Qed.

Lemma uvmalloc_loop root n0 newsz xperm : forall n i s l,
  0 <= newsz <= TRAPFRAME -> 0 <= xperm < 1024 ->
  uvm_inv s l root (seqZ 0 i) -> 0 <= n0 <= i -> i <= npg newsz -> npg newsz <= i + Z.of_nat n ->
  exists r m' f' l',
    mloop (S n) (uvmalloc_body root (n0 * 4096) newsz xperm) (i * 4096) s = Ok r (vm_upd m' f' s) /\
    ((r = newsz /\ grown s (vm_upd m' f' s) l l' root i (npg newsz) xperm) \/
     (r = 0 /\ rolled_back s (vm_upd m' f' s) l l' root n0 i)).
Proof.
  intros n. induction n as [|n IH]; intros i s l Hnew Hx Hinv Hn0 Hi Hfuel;
    pose proof UMAX_eq as HU; pose proof (npg_max newsz Hnew) as Hm;
    (destruct (Z_lt_dec (i * 4096) newsz) as [Hlt|Hge];
     [|exists newsz, (k_mem s), (k_freelist s), l; rewrite vm_upd_id; split;
       [cbn [mloop]; unfold uvmalloc_body; destruct (Z.ltb_spec (i * 4096) newsz); [lia|done]|
        left; assert (npg newsz = i) as -> by (unfold npg in *; lia);
        split; [done|]; split; [done|]; split; [done|]; split; [done|]; split; [apply usame_refl|]; intros va Hva; lia]]).
  { unfold npg in *. lia. }
  destruct (uvmalloc_body_run s l root n0 i newsz xperm Hinv Hn0) as (r & m1 & f1 & l1 & Hrun & Hres);
    [unfold npg in *; lia|done|done|].
  remember (S n) as n'. cbn [mloop]. rewrite (bind_ok _ _ _ _ _ Hrun). subst n'.
  destruct Hres as [(-> & H1 & H2 & H5 & H3 & H4)|(-> & Hrb)].
  - destruct (IH (i + 1) _ l1 Hnew Hx H1) as (r & m' & f' & l' & Hrun' & Hres');
      [lia|unfold npg in *; lia|lia|].
    exists r, m', f', l'. split; [exact Hrun'|].
    destruct Hres' as [(-> & G1 & G2 & G5 & G3 & G4)|(-> & G1 & G2 & G5 & G3)]; [left|right]; (split; [done|]).
    + split; [done|]. split; [by rewrite <- H2|].
      cbn [vm_upd k_mem set_k_mem] in *.
      split; [eapply frame_out_trans; [exact H5|by eapply frame_out_perm]|]. split.
      * eapply usame_trans; [exact H3|]. eapply usame_le; [|exact G3]. lia.
      * eapply (new_zero_app _ _ i (i + 1)); [|done].
        eapply new_zero_usame; [lia|exact H4|]. exact G3.
    + split; [done|]. split; [by rewrite <- H2|]. cbn [vm_upd k_mem set_k_mem] in *.
      split; [eapply frame_out_trans; [exact H5|by eapply frame_out_perm]|].
      eapply usame_trans; [eapply usame_le; [|exact H3]; lia|done].
  - exists 0, m1, f1, l1. split; [done|]. by right.
Qed.

Lemma uvmalloc_run s l root oldsz newsz xperm :
  uvm_sz s l root oldsz -> 0 <= oldsz <= newsz -> newsz <= TRAPFRAME -> 0 <= xperm < 1024 ->
  exists r m' f' l',
    uvmalloc root oldsz newsz xperm s = Ok r (vm_upd m' f' s) /\
    ((r = newsz /\ grown s (vm_upd m' f' s) l l' root (npg oldsz) (npg newsz) xperm) \/
     (r = 0 /\ rolled_back s (vm_upd m' f' s) l l' root (npg oldsz) (npg oldsz))).
Proof.
  intros Hinv Hsz Hmax Hx. pose proof TRAPFRAME_eq as HT. unfold uvmalloc.
  destruct (Z.ltb_spec newsz oldsz); [lia|]. rewrite npg_round by lia.
  apply uvmalloc_loop; try done; unfold npg, PGSIZE in *; lia.
Qed.

End grow.
