(* ===== verification/UvmCopy.v ===== *)
(** * Copying and freeing user memory

    [uvmcopy] of [kernel/vm.c], as [fork] uses it: two address spaces at once,
    the parent's that is read and the child's that is built. *)

From S2P Require Import Prelude Riscv Mem Cstring State Kalloc PageTable Vm VmSpec Uvm UvmGrow.

Section copy.
Context {KI : KernelImage}.

(** The physical pages of an address space: its tables and its memory. *)
Definition upages (m : mem) (root : Z) (us : list Z) : list Z :=
  pt_pages m 2 root ++ map (upage m root) us.

(** An address space survives writes outside its pages. *)
Lemma uvm_keep s s' l l' root us ps :
  uvm_inv s l root us -> Lkmem ∉ k_held s' -> kmem_inv s' l' ->
  Forall ram_page ps -> frame_out ps (k_mem s) (k_mem s') ->
  (forall p, p ∈ ps -> p ∉ upages (k_mem s) root us) -> (forall p, p ∈ l' -> p ∈ ps) ->
  uvm_inv s' l' root us /\ upages (k_mem s') root us = upages (k_mem s) root us /\
  (forall va, pte_at (k_mem s') 2 root va = pte_at (k_mem s) 2 root va).
Proof.
  intros [Hvm Hin Hout Hnd] Hh Hk Hr Hf Hps Hl. pose proof Hvm as [_ _ Ht _].
  destruct (pt_frame_disj (k_mem s) (k_mem s') root ps Ht Hr) as (E1 & E2 & E3 & Ht'); [|done|].
  { intros p Hp Hx. apply (Hps p Hp). apply elem_of_app. by left. }
  assert (map (upage (k_mem s') root) us = map (upage (k_mem s) root) us) as Eup.
  { apply map_ext. intros i. unfold upage. by rewrite E3. }
  assert (NoDup (l' ++ upages (k_mem s) root us)) as Hnd'.
  { apply NoDup_app. split; [apply Hk|]. split; [|by apply NoDup_app in Hnd as (_ & _ & ?)].
    intros p Hp. by apply Hps, Hl. }
  split; [|split; [unfold upages; by rewrite E1, Eup|done]]. split.
  - split; [done|done|done|]. rewrite E1. unfold upages in Hnd'. rewrite (assoc_L (++)) in Hnd'.
    by apply NoDup_app in Hnd' as (? & _).
  - intros i Hi. unfold upage. rewrite E3. by apply Hin.
  - intros i Hi Hn. rewrite E3. by apply Hout.
  - by rewrite E1, Eup.
Qed.

Lemma usame_keep s s' l root n ps :
  uvm_inv s l root (seqZ 0 n) -> Forall ram_page ps -> frame_out ps (k_mem s) (k_mem s') ->
  (forall p, p ∈ ps -> p ∉ upages (k_mem s) root (seqZ 0 n)) ->
  (forall va, pte_at (k_mem s') 2 root va = pte_at (k_mem s) 2 root va) ->
  usame (k_mem s) (k_mem s') root n.
Proof.
  intros Hinv Hr Hf Hps E. apply (usame_frame s l root (seqZ 0 n) (k_mem s') ps); auto.
  - intros i Hi. apply elem_of_seqZ. lia.
  - intros i Hi Hp. apply (Hps _ Hp). apply elem_of_app. right. apply list_elem_of_fmap.
    exists i. split; [done|]. apply elem_of_seqZ. lia.
Qed.

(** [pair_inv s l old n new i]: the parent [old] has [n] pages, the child [new]
    has [i]; the two share no page. *)
Record pair_inv (s : kstate) (l : list Z) (old n new i : Z) : Prop := {
  pair_old : uvm_inv s l old (seqZ 0 n);
  pair_new : uvm_inv s l new (seqZ 0 i);
  pair_disj : forall p, p ∈ owned s l new (seqZ 0 i) -> p ∉ upages (k_mem s) old (seqZ 0 n)
}.

(** Work on the child and the free list that keeps the pages it owns leaves
    the parent alone. *)
Lemma pair_step s s' l l' old n new i i' :
  pair_inv s l old n new i -> uvm_inv s' l' new (seqZ 0 i') ->
  owned s' l' new (seqZ 0 i') ≡ₚ owned s l new (seqZ 0 i) ->
  frame_out (owned s l new (seqZ 0 i)) (k_mem s) (k_mem s') ->
  pair_inv s' l' old n new i' /\ usame (k_mem s) (k_mem s') old n.
Proof.
  intros [Ho Hn Hd] Hn' Hown Hf.
  destruct (uvm_keep s s' l l' old (seqZ 0 n) (owned s l new (seqZ 0 i)) Ho) as (Ho' & Eup & E); try done.
  - apply (vm_held _ _ _ _ (uvm_vm _ _ _ _ Hn')).
  - apply (vm_kmem _ _ _ _ (uvm_vm _ _ _ _ Hn')).
  - by eapply owned_ram.
  - intros p Hp. rewrite <- Hown. apply elem_of_app. by left.
  - split; [split; [done|done|]|].
    + intros p. rewrite Hown, Eup. apply Hd.
    + apply (usame_keep s s' l old n (owned s l new (seqZ 0 i))); try done. by eapply owned_ram.
Qed.

(** The pages [i, j) of the child hold what those of the parent hold. *)
Definition ucopied (m m' : mem) (old new i j : Z) : Prop := forall va,
  i * 4096 <= va < j * 4096 ->
  uread m' new va = uread m old va /\
  PTE_FLAGS (pte_at m' 2 new va) = PTE_FLAGS (pte_at m 2 old va).

Lemma flags_valid e : has e PTE_V = true -> Z.lor (PTE_FLAGS e) PTE_V = PTE_FLAGS e.
Proof.
  unfold has. intros He. unfold PTE_FLAGS. change PTE_V with 1 in *.
  apply Z.bits_inj'. intros k Hk. rewrite Z.lor_spec, Z.land_spec.
  destruct (decide (k = 0)) as [->|].
  - destruct (Z.testbit e 0) eqn:E; [done|]. exfalso.
    rewrite Z.land_comm in He. change 1 with (Z.ones 1) in He. rewrite Z.land_comm, Z.land_ones in He by lia.
    change (2 ^ 1) with 2 in He. rewrite <- Z.bit0_mod, E in He. done.
  - replace (Z.testbit 1 k) with false; [by rewrite orb_false_r|].
    symmetry. apply Z.bits_above_log2; [lia|]. change (Z.log2 1) with 0. lia.
Qed.

Lemma PTE_FLAGS_range e : 0 <= PTE_FLAGS e < 1024.
Proof.
  unfold PTE_FLAGS. change 0x3FF with (Z.ones 10). rewrite Z.land_ones by lia.
  change (2 ^ 10) with 1024. lia.
Qed.

Lemma load8_memmove_page m p q off :
  0 <= off < 4096 -> load8 (memmove m p q PGSIZE) (p + off) = load8 m (q + off).
Proof.
  intros Ho. rewrite load8_memmove by (unfold PGSIZE; lia). unfold PGSIZE.
  zdec; try lia. f_equal. lia.
Qed.

(** Copying one page. *)
Lemma uvmcopy_step s p l old n new i :
  pair_inv s (p :: l) old n new i -> 0 <= i < n -> n <= UMAX ->
  let pa := upage (k_mem s) old i in
  let flags := PTE_FLAGS (pte_at (k_mem s) 2 old (i * 4096)) in
  exists r m2 f2 l2,
    mappages new (i * 4096) PGSIZE p flags
      (vm_upd (memmove (memset (k_mem s) p 5 PGSIZE) p pa PGSIZE) (load64 (k_mem s) p) s) =
      Ok r (vm_upd m2 f2 s) /\
    ((r = 0 /\ pair_inv (vm_upd m2 f2 s) l2 old n new (i + 1) /\
      owned (vm_upd m2 f2 s) l2 new (seqZ 0 (i + 1)) ≡ₚ owned s (p :: l) new (seqZ 0 i) /\
      usame (k_mem s) m2 old n /\ usame (k_mem s) m2 new i /\ ucopied (k_mem s) m2 old new i (i + 1)) \/
     (r = -1 /\ exists m3 f3, kfree p (vm_upd m2 f2 s) = Ok tt (vm_upd m3 f3 s) /\
      pair_inv (vm_upd m3 f3 s) [p] old n new i /\
      owned (vm_upd m3 f3 s) [p] new (seqZ 0 i) ≡ₚ owned s (p :: l) new (seqZ 0 i) /\
      usame (k_mem s) m3 old n)).
Proof.
  intros Hpair Hi Hmax pa flags. pose proof Hpair as [Ho Hn Hd]. pose proof UMAX_eq as HU.
  destruct (uvm_in _ _ _ _ Ho i) as (_ & Hv & Hleaf & Rpa); [apply elem_of_seqZ; lia|].
  pose proof (PTE_FLAGS_range (pte_at (k_mem s) 2 old (i * 4096))) as Hperm. fold flags in Hperm.
  pose proof (flags_valid _ Hv) as Hfv. fold flags in Hfv, Hleaf. fold pa in Rpa.
  pose proof (kmem_pages _ _ (vm_kmem _ _ _ _ (uvm_vm _ _ _ _ Hn))) as [Rp _]%Forall_cons.
  assert (p <> pa) as Hne.
  { intros E. apply (Hd p); [apply elem_of_app; left; apply elem_of_cons; by left|].
    apply elem_of_app. right. apply list_elem_of_fmap. exists i. split; [done|]. apply elem_of_seqZ. lia. }
  pose proof (ram_page_disjoint p pa Rp Rpa Hne) as Hdis.
  set (m1 := memmove (memset (k_mem s) p 5 PGSIZE) p pa PGSIZE).
  assert (frame_out [p] (k_mem s) m1) as Hf1.
  { intros x Hout. specialize (Hout p ltac:(apply elem_of_cons; by left)). unfold m1.
    rewrite load8_memmove by (unfold PGSIZE; lia). rewrite !load8_memset. unfold PGSIZE. zdec; try lia; done. }
  assert (i ∉ seqZ 0 i) as Hni by (rewrite elem_of_seqZ; lia).
  destruct (uvm_grow s p l new (seqZ 0 i) i flags m1 Hn Hf1 ltac:(lia) Hni Hperm ltac:(by rewrite Hfv))
    as (r & m2 & f2 & l2 & Hrun & Hpe & Hfr & Hsame & Hres).
  pose proof (frame_owned s (p :: l) new (seqZ 0 i) _ Hfr) as Hfo.
  exists r, m2, f2, l2. split; [exact Hrun|].
  destruct Hres as [(-> & Hinv2 & Hown & Hat)|(-> & m3 & f3 & Hfree & Hinv3 & Hown & Hf3 & Ha3)]; [left|right].
  - split; [done|].
    apply (uvm_inv_perm _ _ _ _ (seqZ 0 (i + 1))) in Hinv2; [|apply seqZ_snoc; lia].
    assert (owned (vm_upd m2 f2 s) l2 new (seqZ 0 (i + 1)) ≡ₚ owned s (p :: l) new (seqZ 0 i)) as Hown2.
    { rewrite <- Hown. unfold owned. by rewrite <- (seqZ_snoc i) by lia. }
    destruct (pair_step s _ _ _ old n new i (i + 1) Hpair Hinv2 Hown2 Hfo) as [Hpair2 Hus].
    split; [done|]. split; [done|]. split; [done|]. split.
    + apply (usame_grow s (p :: l)); [done|done|]. intros va Hva. rewrite TRAPFRAME_eq in Hva. apply Hsame; lia.
    + intros va Hva. destruct (leaf_entry_decode p flags (ram_page_page_addr p Rp) Hperm) as (Hpa & Hfl & _).
      rewrite (pte_at_page m2 _ va (i * 4096)), (pte_at_page (k_mem s) _ va (i * 4096)) by lia.
      rewrite Hat, Hfl. split; [|done]. unfold uread, upage. replace (va / 4096) with i by lia.
      rewrite Hat, Hpa. rewrite (Hpe (p + va mod 4096)) by lia. unfold m1.
      rewrite load8_memmove_page by lia. fold (upage (k_mem s) old i). fold pa.
      rewrite load8_memset. unfold PGSIZE. zdec; try lia; done.
  - split; [done|]. apply (frame_owned s (p :: l) new (seqZ 0 i)) in Hf3.
    destruct (pair_step s _ _ _ old n new i i Hpair Hinv3 Hown Hf3) as [Hpair3 Hus].
    exists m3, f3. split; [done|]. split; [done|]. split; [done|]. exact Hus.
Qed.

(** After a failure the child is empty again and the parent as it was. *)
Definition uncopied (s s' : kstate) (l l' : list Z) (old n new i : Z) : Prop :=
  pair_inv s' l' old n new 0 /\ usame (k_mem s) (k_mem s') old n /\
  owned s' l' new (seqZ 0 0) ≡ₚ owned s l new (seqZ 0 i).

Lemma uncopy s l old n new i :
  pair_inv s l old n new i -> 0 <= i <= UMAX ->
  exists m' f' l', uvmunmap new 0 i true s = Ok tt (vm_upd m' f' s) /\
    uncopied s (vm_upd m' f' s) l l' old n new i.
Proof.
  intros Hpair Hi. destruct (uvmunmap_tail s l new i 0) as (m' & f' & l' & Hrun & H1 & H2 & H3 & _);
    [apply Hpair|lia|lia|].
  rewrite Z.sub_0_r in Hrun. exists m', f', l'. split; [exact Hrun|].
  destruct (pair_step s _ l l' old n new i 0 Hpair H1 H2 H3) as [? ?]. by split.
Qed.

(** What a successful copy of the pages [i, j) leaves. *)
Definition copied (s s' : kstate) (l l' : list Z) (old n new i j : Z) : Prop :=
  pair_inv s' l' old n new j /\ usame (k_mem s) (k_mem s') old n /\
  owned s' l' new (seqZ 0 j) ≡ₚ owned s l new (seqZ 0 i) /\
  usame (k_mem s) (k_mem s') new i /\ ucopied (k_mem s) (k_mem s') old new i j.

Lemma uvmcopy_body_run s l old n new i sz :
  pair_inv s l old n new i -> 0 <= i < n -> n <= UMAX -> i * 4096 < sz ->
  exists r m' f' l',
    uvmcopy_body old new sz (i * 4096) s = Ok r (vm_upd m' f' s) /\
    ((r = inl ((i + 1) * 4096) /\ copied s (vm_upd m' f' s) l l' old n new i (i + 1)) \/
     (r = inr (-1) /\ uncopied s (vm_upd m' f' s) l l' old n new i)).
Proof.
  intros Hpair Hi Hmax Hsz. pose proof UMAX_eq as HU. pose proof Hpair as [Ho Hn Hd].
  destruct (uvm_in _ _ _ _ Ho i) as (_ & Hv & Hleaf & Rpa); [apply elem_of_seqZ; lia|].
  destruct (walk_valid s l old (i * 4096) (uvm_vm _ _ _ _ Ho)) as (a & Hw & Ha0 & Hl & Hwalk);
    [rewrite MAXVA_eq; lia|done|].
  unfold uvmcopy_body. destruct (Z.ltb_spec (i * 4096) sz); [|lia].
  rewrite (bind_ok _ _ _ _ _ Hwalk). destruct (Z.eqb_spec a 0); [done|].
  unfold panic_if, when. rewrite (bind_ok _ _ s tt s) by done.
  rewrite (bind_ok _ _ s (k_mem s) s) by done. rewrite Hl, Hv. cbn [negb].
  rewrite (bind_ok _ _ s tt s) by done. fold (upage (k_mem s) old i).
  change (i * 4096 / PGSIZE) with (i * 4096 / 4096). rewrite Z.div_mul by lia.
  pose proof (uvm_vm _ _ _ _ Hn) as [Hh Hk _ _].
  destruct l as [|p l].
  { rewrite (bind_ok _ _ _ _ _ (kalloc_nil s Hh Hk)). cbn [Z.eqb].
    destruct (uncopy s [] old n new i Hpair ltac:(lia)) as (m' & f' & l' & Hrun & H').
    exists (inr (-1)), m', f', l'. rewrite (bind_ok _ _ _ _ _ Hrun). split; [done|]. by right. }
  rewrite (bind_ok _ _ _ _ _ (kalloc_cons s p l Hh Hk)).
  pose proof (kmem_pages _ _ Hk) as [Rp _]%Forall_cons. pose proof (ram_page_bounds p Rp).
  destruct (Z.eqb_spec p 0); [lia|].
  destruct (uvmcopy_step s p l old n new i Hpair Hi Hmax) as (r & m2 & f2 & l2 & Hrun & Hres).
  rewrite (bind_ok _ _ _ tt (vm_upd (memmove (memset (k_mem s) p 5 PGSIZE) p (upage (k_mem s) old i) PGSIZE)
                               (load64 (k_mem s) p) s)) by done.
  rewrite (bind_ok _ _ _ _ _ Hrun).
  destruct Hres as [(-> & H1 & H2 & H3 & H4 & H5)|(-> & m3 & f3 & Hfree & H1 & H2 & H3)]; cbn [negb Z.eqb].
  - exists (inl ((i + 1) * 4096)), m2, f2, l2. split; [|left; unfold copied; auto 10].
    unfold ret, u64, PGSIZE. rewrite Z.mod_small by lia. do 2 f_equal. lia.
  - rewrite (bind_ok _ _ _ _ _ Hfree).
    destruct (uncopy _ [p] old n new i H1 ltac:(lia)) as (m' & f' & l' & Hrun' & G1 & G2 & G3).
    exists (inr (-1)), m', f', l'. rewrite (bind_ok _ _ _ _ _ Hrun'). split; [done|]. right. split; [done|].
    split; [exact G1|]. split; [|by rewrite <- H2].
    eapply usame_trans; [exact H3|exact G2].
Qed.

Lemma ucopied_app m1 m2 m3 old new i n :
  0 <= i < n -> usame m1 m2 old n -> usame m2 m3 new (i + 1) ->
  ucopied m1 m2 old new i (i + 1) -> ucopied m2 m3 old new (i + 1) n -> ucopied m1 m3 old new i n.
Proof.
  intros Hi Hs Hs' H1 H2 va Hva. destruct (Z_lt_dec va ((i + 1) * 4096)).
  - destruct (us_low _ _ _ _ Hs' va) as [-> ->]; [lia|]. apply H1. lia.
  - destruct (us_low _ _ _ _ Hs va) as [<- <-]; [lia|]. apply H2. lia.
Qed.

Lemma uvmcopy_loop old n new sz : forall k i s l,
  n <= UMAX -> n = npg sz -> pair_inv s l old n new i -> 0 <= i <= n -> n <= i + Z.of_nat k ->
  exists r m' f' l',
    mloop (S k) (uvmcopy_body old new sz) (i * 4096) s = Ok r (vm_upd m' f' s) /\
    ((r = 0 /\ copied s (vm_upd m' f' s) l l' old n new i n) \/
     (r = -1 /\ uncopied s (vm_upd m' f' s) l l' old n new i)).
Proof.
  intros k. induction k as [|k IH]; intros i s l Hmax Hsz Hpair Hi Hfuel; pose proof UMAX_eq as HU;
    (destruct (Z_lt_dec (i * 4096) sz) as [Hlt|Hge];
     [|assert (i = n) as -> by (unfold npg in *; lia);
       exists 0, (k_mem s), (k_freelist s), l; rewrite vm_upd_id; split;
       [cbn [mloop]; unfold uvmcopy_body; destruct (Z.ltb_spec (n * 4096) sz); [lia|done]|
        left; split; [done|]; split; [done|]; split; [apply usame_refl|]; split; [done|];
        split; [apply usame_refl|]; intros va Hva; lia]]).
  { unfold npg in *. lia. }
  destruct (uvmcopy_body_run s l old n new i sz Hpair) as (r & m1 & f1 & l1 & Hrun & Hres);
    [unfold npg in *; lia|done|done|].
  remember (S k) as k'. cbn [mloop]. rewrite (bind_ok _ _ _ _ _ Hrun). subst k'.
  destruct Hres as [(-> & H1 & H2 & H3 & H4 & H5)|(-> & Hrb)];
    [|exists (-1), m1, f1, l1; split; [done|]; by right].
  assert (0 <= i + 1 <= n) as Hi1 by (unfold npg in *; lia).
  destruct (IH (i + 1) _ l1 Hmax Hsz H1 Hi1) as (r & m' & f' & l' & Hrun' & Hres'); [lia|].
  exists r, m', f', l'. split; [exact Hrun'|]. cbn [vm_upd k_mem set_k_mem] in *.
  destruct Hres' as [(-> & G1 & G2 & G3 & G4 & G5)|(-> & G1 & G2 & G3)]; [left|right]; (split; [done|]).
  - split; [done|]. split; [by eapply usame_trans|]. split; [by rewrite G3|]. split.
    + eapply usame_trans; [exact H4|]. eapply usame_le; [|exact G4]. lia.
    + apply (ucopied_app _ m1); [lia|done|exact G4|done|exact G5].
  - split; [done|]. split; [by eapply usame_trans|]. by rewrite G3.
Qed.

Lemma uvmcopy_run s l old new sz :
  pair_inv s l old (npg sz) new 0 -> 0 <= sz <= TRAPFRAME ->
  exists r m' f' l',
    uvmcopy old new sz s = Ok r (vm_upd m' f' s) /\
    ((r = 0 /\ copied s (vm_upd m' f' s) l l' old (npg sz) new 0 (npg sz)) \/
     (r = -1 /\ uncopied s (vm_upd m' f' s) l l' old (npg sz) new 0)).
Proof.
  intros Hpair Hsz. pose proof (npg_max sz Hsz). unfold uvmcopy.
  apply (uvmcopy_loop old (npg sz) new sz _ 0); try done; unfold npg, PGSIZE in *; lia.
Qed.

End copy.
