(* ===== verification/UvmFree.v ===== *)
(** * Freeing page tables

    [freewalk] and [uvmfree] of [kernel/vm.c]: every table page goes back to
    the free list exactly once, and nothing outside the tree is touched. *)

From S2P Require Import Prelude Riscv Mem Cstring State Kalloc PageTable Vm VmSpec Uvm UvmGrow UvmCopy.

Section free.
Context {KI : KernelImage}.

(** No page is mapped below a table of level [lv]. *)
Fixpoint no_leaves (m : mem) (lv : nat) (root : Z) : Prop :=
  match lv with
  | O => forall i, 0 <= i < 512 -> has (load64 m (pte_slot root i)) PTE_V = false
  | S lv' => forall i, 0 <= i < 512 -> has (load64 m (pte_slot root i)) PTE_V = true ->
               no_leaves m lv' (PTE2PA (load64 m (pte_slot root i)))
  end.

Lemma no_leaves_frame m m' lv root :
  Forall (page_eq m m') (pt_pages m lv root) -> no_leaves m lv root -> no_leaves m' lv root.
Proof.
  revert root. induction lv as [|lv IH]; intros root H Hint;
    (assert (page_eq m m' root) as Hroot by (rewrite Forall_forall in H; apply H, pt_pages_root)).
  - intros i Hi. rewrite (pte_slot_page_eq m m') by done. by apply Hint.
  - intros i Hi. rewrite (pte_slot_page_eq m m') by done. intros Hv. apply IH; [|by apply Hint].
    rewrite Forall_forall in *. intros p Hp. apply H. by apply (pt_pages_child m lv root i).
Qed.

(** The address with the given indices. *)
Definition va_of (i2 i1 i0 : Z) : Z := i2 * 2 ^ 30 + i1 * 2 ^ 21 + i0 * 2 ^ 12.

Lemma va_of_PX i2 i1 i0 : 0 <= i2 < 512 -> 0 <= i1 < 512 -> 0 <= i0 < 512 ->
  0 <= va_of i2 i1 i0 < 2 ^ 39 /\ PX 2 (va_of i2 i1 i0) = i2 /\
  PX 1 (va_of i2 i1 i0) = i1 /\ PX 0 (va_of i2 i1 i0) = i0.
Proof.
  intros H2 H1 H0. unfold va_of. rewrite !PX_eq by lia. cbn -[Z.pow]. 
  change (2 ^ (12 + 9 * 2)) with (2 ^ 30). change (2 ^ (12 + 9 * 1)) with (2 ^ 21).
  change (2 ^ (12 + 9 * 0)) with (2 ^ 12). lia.
Qed.

Lemma no_leaves_intro m root :
  (forall va, 0 <= va < 2 ^ 39 -> has (pte_at m 2 root va) PTE_V = false) -> no_leaves m 2 root.
Proof.
  intros H i2 H2 V2 i1 H1 V1 i0 H0.
  destruct (va_of_PX i2 i1 i0 H2 H1 H0) as (Hr & E2 & E1 & E0).
  specialize (H _ Hr). unfold pte_at in H. cbn [pt_walk] in H.
  change (Z.of_nat 2) with 2 in H. change (Z.of_nat 1) with 1 in H.
  by rewrite E2, V2, E1, V1, E0 in H.
Qed.

(** ** freewalk *)

(** The body of the loop of [freewalk], [rec] being the recursive call. *)
Definition fw_entry (rec : Z -> M kstate unit) (root i : Z) : M kstate unit :=
  let! m := mem_get in
  let pte := load64 m (pte_slot root i) in
  if has pte PTE_V && (Z.land pte PTE_RWX =? 0) then
    rec (PTE2PA pte) ;;; mem_mod (fun m => store64 m (pte_slot root i) 0)
  else if has pte PTE_V then panic "freewalk: leaf"
  else ret tt.

Lemma freewalk_O root : freewalk 0 root = (mfor indices (fw_entry (fun _ => hang) root) ;;; kfree root).
Proof. reflexivity. Qed.

Lemma freewalk_S d root : freewalk (S d) root = (mfor indices (fw_entry (freewalk d) root) ;;; kfree root).
Proof. reflexivity. Qed.

(** [freed ps s s' l l']: the pages [ps] have joined the free list. *)
Definition freed (ps : list Z) (s s' : kstate) (l l' : list Z) : Prop :=
  kmem_inv s' l' /\ l' ≡ₚ ps ++ l /\ frame_out ps (k_mem s) (k_mem s').

(** What [freewalk] does to a subtree. *)
Definition frees_tree (lv : nat) (rec : Z -> M kstate unit) : Prop := forall c s l,
  vm_inv s l lv c -> no_leaves (k_mem s) lv c ->
  exists m' f' l', rec c s = Ok tt (vm_upd m' f' s) /\
    freed (pt_pages (k_mem s) lv c) s (vm_upd m' f' s) l l'.

(** The children of the entries [L] of [root], as the loop finds them. *)
Record children_ok (s : kstate) (l : list Z) (lv : nat) (root : Z) (L : list Z) : Prop := {
  ch_held : Lkmem ∉ k_held s;
  ch_kmem : kmem_inv s l;
  ch_root : ram_page root;
  ch_L : NoDup L /\ forall i, i ∈ L -> 0 <= i < 512;
  ch_ok : forall i, i ∈ L -> has (load64 (k_mem s) (pte_slot root i)) PTE_V = true ->
    Z.land (load64 (k_mem s) (pte_slot root i)) PTE_RWX = 0 /\
    tree_ok (k_mem s) lv (PTE2PA (load64 (k_mem s) (pte_slot root i))) /\
    no_leaves (k_mem s) lv (PTE2PA (load64 (k_mem s) (pte_slot root i)));
  ch_nodup : NoDup (root :: flat_map (pt_child (pt_pages (k_mem s) lv) (k_mem s) root) L ++ l)
}.

(** Once the subtree of entry [i] is gone, the rest is as before. *)
Lemma children_ok_step s l lv root i L m1 f1 l1 :
  let m := k_mem s in
  let c := PTE2PA (load64 m (pte_slot root i)) in
  children_ok s l lv root (i :: L) -> has (load64 m (pte_slot root i)) PTE_V = true ->
  freed (pt_pages m lv c) s (vm_upd m1 f1 s) l l1 ->
  let m2 := store64 m1 (pte_slot root i) 0 in
  children_ok (vm_upd m2 f1 s) l1 lv root L /\
  flat_map (pt_child (pt_pages m2 lv) m2 root) L = flat_map (pt_child (pt_pages m lv) m root) L.
Proof.
  intros m c [Hh Hk Rr [HL Hr] Hok Hnd] Hv (Hk1 & Hp1 & Hf1) m2.
  apply NoDup_cons in HL as [HiL HL]. pose proof (Hr i ltac:(apply elem_of_cons; by left)) as Hi.
  cbn [flat_map] in Hnd. unfold pt_child at 1 in Hnd. fold m in Hnd. rewrite Hv in Hnd. fold c in Hnd.
  apply NoDup_cons in Hnd as [Hroot Hnd]. rewrite <- (assoc_L (++)) in Hnd, Hroot.
  pose proof Hnd as (Nc & Ncd & Nr)%NoDup_app. rewrite !elem_of_app in Hroot.
  destruct (Hok i ltac:(apply elem_of_cons; by left) Hv) as (_ & [_ Rc _] & _). fold m c in Rc.
  cbn [vm_upd k_mem set_k_mem] in Hf1. fold m in Hf1.
  pose proof (pte_slot_range root i Hi) as Hs.
  assert (page_eq m m1 root) as Hroot1.
  { apply (frame_out_page (pt_pages m lv c)); [done|done|tauto|done]. }
  assert (forall j, j ∈ L -> load64 m2 (pte_slot root j) = load64 m (pte_slot root j)) as Hslot.
  { intros j Hj. pose proof (Hr j ltac:(apply elem_of_cons; by right)) as Hj'.
    assert (j <> i) by (by intros ->). unfold m2. rewrite load64_store64_out by (unfold pte_slot; lia).
    by apply pte_slot_page_eq. }
  assert (forall j, j ∈ L -> has (load64 m (pte_slot root j)) PTE_V = true ->
    Forall (page_eq m m2) (pt_pages m lv (PTE2PA (load64 m (pte_slot root j))))) as Hsib.
  { intros j Hj Hvj. apply Forall_forall. intros q Hq.
    destruct (Hok j ltac:(apply elem_of_cons; by right) Hvj) as (_ & [_ Rq _] & _).
    fold m in Rq. rewrite Forall_forall in Rq. specialize (Rq q Hq).
    assert (q ∈ flat_map (pt_child (pt_pages m lv) m root) L) as HqL.
    { apply elem_of_flat_map. exists j. split; [done|]. unfold pt_child. by rewrite Hvj. }
    assert (q <> root) as Hne by (intros ->; tauto).
    intros x Hx. unfold m2. rewrite load8_store64_out.
    - apply (frame_out_page (pt_pages m lv c) _ _ q); [done|done| |done|done].
      intros Hqc. apply (Ncd q Hqc), elem_of_app. by left.
    - pose proof (ram_page_disjoint q root Rq Rr Hne). lia. }
  assert (flat_map (pt_child (pt_pages m2 lv) m2 root) L = flat_map (pt_child (pt_pages m lv) m root) L) as Efm.
  { apply flat_map_ext_in. intros j Hj. unfold pt_child. rewrite Hslot by done.
    destruct (has (load64 m (pte_slot root j)) PTE_V) eqn:Hvj; [|done]. by apply pt_frame, Hsib. }
  assert (root ∉ l1) as Hrl1 by (rewrite Hp1, elem_of_app; tauto).
  split; [|done]. split; cbn [vm_upd k_mem set_k_mem]; fold m2.
  - done.
  - apply (kmem_inv_frame (vm_upd m1 f1 s) l1 [root]); [by intros q ->%list_elem_of_singleton|by constructor| |done].
    intros x Hx. specialize (Hx root ltac:(apply elem_of_cons; by left)).
    cbn [vm_upd k_mem set_k_mem]. apply load8_store64_out. lia.
  - done.
  - split; [done|]. intros j Hj. apply Hr. apply elem_of_cons. by right.
  - intros j Hj. rewrite Hslot by done. intros Hvj.
    destruct (Hok j ltac:(apply elem_of_cons; by right) Hvj) as (H1 & H2 & H3).
    split; [done|]. split; [by apply (tree_ok_frame m); [apply Hsib|]|by apply (no_leaves_frame m); [apply Hsib|]].
  - rewrite Efm, Hp1. constructor; [rewrite !elem_of_app; tauto|].
    by rewrite (assoc_L (++)), (Permutation_app_comm (flat_map _ L)), <- (assoc_L (++)).
Qed.

Lemma freewalk_children lv rec root : frees_tree lv rec -> forall L s l,
  children_ok s l lv root L ->
  exists m' f' l', mfor L (fw_entry rec root) s = Ok tt (vm_upd m' f' s) /\
    kmem_inv (vm_upd m' f' s) l' /\
    l' ≡ₚ flat_map (pt_child (pt_pages (k_mem s) lv) (k_mem s) root) L ++ l /\
    frame_out (root :: flat_map (pt_child (pt_pages (k_mem s) lv) (k_mem s) root) L) (k_mem s) m'.
Proof.
  intros Hrec L. induction L as [|i L IH]; intros s l Hch.
  { exists (k_mem s), (k_freelist s), l. rewrite vm_upd_id. split; [done|]. split; [apply Hch|]. done. }
  pose proof Hch as [Hh Hk Rr [HL Hr] Hok Hnd].
  pose proof (Hr i ltac:(apply elem_of_cons; by left)) as Hi.
  destruct (has (load64 (k_mem s) (pte_slot root i)) PTE_V) eqn:Hv.
  - destruct (Hok i ltac:(apply elem_of_cons; by left) Hv) as (Hrwx & Htree & Hno).
    set (c := PTE2PA (load64 (k_mem s) (pte_slot root i))) in *.
    assert (vm_inv s l lv c) as Hvm.
    { split; [done|done|done|]. cbn [flat_map] in Hnd. unfold pt_child at 1 in Hnd. rewrite Hv in Hnd.
      fold c in Hnd. apply NoDup_cons in Hnd as [_ Hnd]. rewrite <- (assoc_L (++)) in Hnd.
      apply NoDup_app in Hnd as (N1 & N2 & N3). apply NoDup_app in N3 as (_ & _ & N3).
      apply NoDup_app. split; [done|]. split; [|done]. intros q Hq Hqc. apply (N2 q Hqc), elem_of_app. by right. }
    destruct (Hrec c s l Hvm Hno) as (m1 & f1 & l1 & Hrun & Hfree).
    destruct (children_ok_step s l lv root i L m1 f1 l1 Hch Hv Hfree) as [Hch2 Efm].
    set (m2 := store64 m1 (pte_slot root i) 0) in *.
    destruct (IH _ _ Hch2) as (m' & f' & l' & Hrun' & Hk' & Hp' & Hf').
    cbn [vm_upd k_mem set_k_mem] in Hp', Hf'. fold m2 in Hp', Hf'. rewrite Efm in Hp', Hf'.
    destruct Hfree as (_ & Hp1 & Hf1). cbn [vm_upd k_mem set_k_mem] in Hf1.
    exists m', f', l'. split; [|split; [done|]].
    + cbn [mfor]. unfold fw_entry at 1. rewrite (bind_ok _ _ s tt (vm_upd m2 f1 s)); [exact Hrun'|].
      rewrite (bind_ok _ _ s (k_mem s) s) by done. rewrite Hv, Hrwx. cbn [andb Z.eqb].
      rewrite (bind_ok _ _ _ _ _ Hrun). done.
    + cbn [flat_map]. unfold pt_child at 1 3. rewrite Hv. fold c. split.
      * rewrite Hp', Hp1. by rewrite !(assoc_L (++)), (Permutation_app_comm (flat_map _ L)).
      * eapply frame_out_trans; [eapply frame_out_mono; [|exact Hf1]; intros q; elems|].
        apply (frame_out_trans _ _ m2).
        -- intros x Hx. specialize (Hx root ltac:(apply elem_of_cons; by left)).
           pose proof (pte_slot_range root i Hi). apply load8_store64_out. lia.
        -- eapply frame_out_mono; [|exact Hf']. intros q. elems.
  - assert (pt_child (pt_pages (k_mem s) lv) (k_mem s) root i = []) as Ei by (unfold pt_child; by rewrite Hv).
    cbn [flat_map] in *. rewrite Ei in *. cbn [app].
    destruct (IH s l) as (m' & f' & l' & Hrun' & H').
    { split; try done.
      - apply NoDup_cons in HL as [_ HL]. split; [done|]. intros j Hj. apply Hr, elem_of_cons. by right.
      - intros j Hj. apply Hok, elem_of_cons. by right. }
    exists m', f', l'. split; [|exact H']. cbn [mfor]. unfold fw_entry at 1.
    rewrite (bind_ok _ _ s tt s); [exact Hrun'|].
    rewrite (bind_ok _ _ s (k_mem s) s) by done. by rewrite Hv.
Qed.

(** Freeing the root once its children are gone. *)
Lemma freewalk_root s l root ps m1 f1 l1 m :
  m = k_mem s -> Lkmem ∉ k_held s -> ram_page root -> root ∉ ps ++ l ->
  kmem_inv (vm_upd m1 f1 s) l1 -> l1 ≡ₚ ps ++ l -> frame_out (root :: ps) m m1 ->
  exists m' f' l', kfree root (vm_upd m1 f1 s) = Ok tt (vm_upd m' f' s) /\
    freed (root :: ps) s (vm_upd m' f' s) l l'.
Proof.
  intros -> Hh Rr Hn Hk Hp Hf. exists (store64 (memset m1 root 1 PGSIZE) root f1), root, (root :: l1).
  split; [exact (kfree_run (vm_upd m1 f1 s) root Hh Rr)|]. split; [|split].
  - apply (kfree_inv (vm_upd m1 f1 s) root l1 Hk Rr). by rewrite Hp.
  - by rewrite Hp.
  - eapply frame_out_trans; [exact Hf|]. eapply frame_out_mono; [|apply kfree_frame]. intros q. elems.
Qed.

Lemma mfor_invalid root : forall L s,
  (forall i, i ∈ L -> has (load64 (k_mem s) (pte_slot root i)) PTE_V = false) ->
  forall rec, mfor L (fw_entry rec root) s = Ok tt s.
Proof.
  induction L as [|i L IH]; intros s H rec; [done|]. cbn [mfor]. rewrite (bind_ok _ _ s tt s).
  - apply IH. intros j Hj. apply H, elem_of_cons. by right.
  - unfold fw_entry. rewrite (bind_ok _ _ s (k_mem s) s) by done.
    by rewrite H by (apply elem_of_cons; by left).
Qed.

Lemma freewalk_run lv : frees_tree lv (freewalk lv).
Proof.
  induction lv as [|lv IH]; intros root s l Hvm Hno; pose proof Hvm as [Hh Hk Ht Hd];
    pose proof (tree_ram _ _ _ Ht) as Rt;
    (assert (ram_page root) as Rr by (rewrite Forall_forall in Rt; apply Rt, pt_pages_root)).
  - rewrite freewalk_O, (bind_ok _ _ s tt s).
    + destruct (freewalk_root s l root [] (k_mem s) (k_freelist s) l (k_mem s)) as (m' & f' & l' & Hrun & H');
        try done; [|by rewrite vm_upd_id|].
      { intros Hin. apply NoDup_app in Hd as (_ & Hd & _). by apply (Hd root Hin), pt_pages_root. }
      rewrite vm_upd_id in Hrun. eauto.
    + apply mfor_invalid. intros i Hi%elem_of_indices. by apply Hno.
  - assert (NoDup (root :: flat_map (pt_child (pt_pages (k_mem s) lv) (k_mem s) root) indices ++ l)) as Hnd.
    { rewrite (Permutation_app_comm l) in Hd. exact Hd. }
    destruct (freewalk_children lv (freewalk lv) root IH indices s l) as (m1 & f1 & l1 & Hrun & Hk1 & Hp1 & Hf1).
    { split; try done.
      - split; [apply indices_nodup|]. intros i. by rewrite elem_of_indices.
      - intros i Hi%elem_of_indices Hv. destruct (tree_int _ _ _ Ht i Hi Hv) as [Hx _].
        split; [done|]. split; [by apply (tree_ok_child _ _ root i)|by apply Hno]. }
    apply NoDup_cons in Hnd as [Hroot _].
    destruct (freewalk_root s l root _ m1 f1 l1 (k_mem s) eq_refl Hh Rr Hroot Hk1 Hp1 Hf1) as (m' & f' & l' & Hrun' & H').
    exists m', f', l'. split; [|exact H']. rewrite freewalk_S, (bind_ok _ _ _ _ _ Hrun). exact Hrun'.
Qed.

(** ** uvmfree *)

Lemma uvmfree_run s l root sz :
  uvm_sz s l root sz -> 0 <= sz <= TRAPFRAME ->
  (forall va, TRAPFRAME <= va < 2 ^ 39 -> has (pte_at (k_mem s) 2 root va) PTE_V = false) ->
  exists m' f' l', uvmfree root sz s = Ok tt (vm_upd m' f' s) /\
    freed (upages (k_mem s) root (seqZ 0 (npg sz))) s (vm_upd m' f' s) l l'.
Proof.
  unfold uvm_sz. intros Hinv Hsz Hhigh. pose proof TRAPFRAME_eq as HT. pose proof UMAX_eq as HU.
  pose proof (npg_max sz Hsz) as Hn.
  assert (seqZ 0 (npg sz) ++ [] = seqZ 0 (npg sz)) as Enil by apply app_nil_r.
  rewrite <- Enil in Hinv.
  destruct (uvmunmap_run s l root 0 (npg sz) [] Hinv) as (m1 & f1 & Hrun & Hinv1 & Hp1 & Hf1 & Ha1); [lia..|].
  set (us := map (upage (k_mem s) root) (seqZ 0 (npg sz))) in *.
  destruct (freewalk_run 2 root (vm_upd m1 f1 s) _ (uvm_vm _ _ _ _ Hinv1)) as (m' & f' & l' & Hrun' & Hk' & Hp' & Hf').
  { apply no_leaves_intro. intros va Hva. cbn [vm_upd k_mem set_k_mem].
    destruct (Z_lt_dec va TRAPFRAME).
    - rewrite (pte_at_page _ _ va (va / 4096 * 4096)) by lia.
      apply (uvm_out _ _ _ _ Hinv1); [lia|apply not_elem_of_nil].
    - rewrite Ha1 by lia. apply Hhigh. lia. }
  cbn [vm_upd k_mem set_k_mem] in Hp', Hf'. rewrite Hp1 in Hp', Hf'.
  exists m', f', l'. split; [|split; [done|]].
  - unfold uvmfree, when. destruct (Z.ltb_spec 0 sz).
    + rewrite npg_round by lia. unfold PGSIZE. rewrite Z.div_mul by lia.
      by rewrite (bind_ok _ _ _ _ _ Hrun).
    + assert (sz = 0) as -> by lia. change (npg 0) with 0 in Hrun.
      rewrite (bind_ok _ _ s tt s) by done.
      assert (vm_upd m1 f1 s = s) as Es; [|by rewrite Es in Hrun'].
      revert Hrun. unfold uvmunmap. cbn. by intros [= ->].
  - unfold upages. fold us. cbn [vm_upd k_mem set_k_mem]. split.
    + rewrite Hp', <- (Permutation_rev us). by rewrite (assoc_L (++)).
    + eapply frame_out_trans; [eapply frame_out_mono; [|exact Hf1]|eapply frame_out_mono; [|exact Hf']];
        intros q; elems.
Qed.

End free.
