(* ===== verification/UvmIo.v ===== *)
(** * Copies between the kernel and user memory

    [walkaddr], [copyin], [copyinstr] and [copyout] of [kernel/vm.c]: what they
    read and write in terms of the bytes user code sees ([uread]), where they
    stop, and what they return. *)

From S2P Require Import Prelude Riscv Mem Cstring State Kalloc PageTable Vm VmSpec Uvm UvmGrow.

Section io.
Context {KI : KernelImage}.

(** User code may read [va]. *)
Definition ureadable (m : mem) (root va : Z) : bool :=
  (va <? MAXVA) && has (pte_at m 2 root va) PTE_V && has (pte_at m 2 root va) PTE_U &&
  negb (PTE2PA (pte_at m 2 root va) =? 0).

(** User code may write [va]. *)
Definition uwritable (m : mem) (root va : Z) : bool :=
  (va <? MAXVA) && has (pte_at m 2 root va) PTE_V && has (pte_at m 2 root va) PTE_U &&
  has (pte_at m 2 root va) PTE_W.

Definition ubytes (m : mem) (root va n : Z) : list Z := map (uread m root) (seqZ va n).

Lemma ubytes_length m root va n : length (ubytes m root va n) = Z.to_nat n.
Proof. unfold ubytes. by rewrite length_map, length_seqZ. Qed.

Lemma ubytes_app m root va n k :
  0 <= n -> 0 <= k -> ubytes m root va (n + k) = ubytes m root va n ++ ubytes m root (va + n) k.
Proof. intros Hn Hk. unfold ubytes. by rewrite seqZ_app, map_app by done. Qed.

Lemma ubytes_page m root va n :
  0 <= n -> va mod 4096 + n <= 4096 ->
  load_bytes m (upage m root (va / 4096) + va mod 4096) (Z.to_nat n) = ubytes m root va n.
Proof.
  intros Hn Hfit. unfold ubytes, seqZ, load_bytes. rewrite map_map. apply map_ext_in.
  intros i Hi%in_seq. unfold uread.
  replace ((Z.of_nat i + va) / 4096) with (va / 4096) by lia. f_equal. lia.
Qed.

(** ** walkaddr *)

Lemma walkaddr_run s root va :
  tree_ok (k_mem s) 2 root ->
  walkaddr root va s =
    Ok (if (va <? MAXVA) && has (pte_at (k_mem s) 2 root va) PTE_V && has (pte_at (k_mem s) 2 root va) PTE_U
        then PTE2PA (pte_at (k_mem s) 2 root va) else 0) s.
Proof.
  intros Ht. unfold walkaddr. destruct (Z.leb_spec MAXVA va), (Z.ltb_spec va MAXVA); try lia; [done|].
  rewrite (bind_ok _ _ _ _ _ (walk_noalloc root va s ltac:(lia))). unfold pte_at.
  destruct (pt_walk (k_mem s) 2 root va) as [a|] eqn:Hw; unfold default, id; cbn [from_option]; [|done].
  pose proof (pt_walk_pos _ _ _ _ _ Ht Hw). destruct (Z.eqb_spec a 0); [lia|].
  rewrite (bind_ok _ _ s (k_mem s) s) by done. cbn [andb].
  destruct (has (load64 (k_mem s) a) PTE_V); cbn [negb andb]; [|done].
  by destruct (has (load64 (k_mem s) a) PTE_U).
Qed.

Lemma walkaddr_page s root va :
  tree_ok (k_mem s) 2 root -> 0 <= va < 2 ^ 64 ->
  walkaddr root (PGROUNDDOWN va) s =
    Ok (if ureadable (k_mem s) root va then upage (k_mem s) root (va / 4096) else 0) s.
Proof.
  intros Ht Hva. rewrite walkaddr_run by done. rewrite PGROUNDDOWN_eq by done. f_equal.
  unfold ureadable, upage. rewrite (pte_at_page _ _ va (va / 4096 * 4096)) by lia.
  replace (va / 4096 * 4096 <? MAXVA) with (va <? MAXVA).
  2: { rewrite MAXVA_eq. destruct (Z.ltb_spec va (2 ^ 38)), (Z.ltb_spec (va / 4096 * 4096) (2 ^ 38)); lia. }
  destruct (_ && _ && _); cbn [andb]; [|done].
  destruct (Z.eqb_spec (PTE2PA (pte_at (k_mem s) 2 root (va / 4096 * 4096))) 0); done.
Qed.

Lemma ureadable_page m root va va' :
  va / 4096 = va' / 4096 -> ureadable m root va = ureadable m root va'.
Proof.
  intros E. unfold ureadable. rewrite (pte_at_page _ _ va va') by done.
  replace (va <? MAXVA) with (va' <? MAXVA); [done|]. rewrite MAXVA_eq.
  destruct (Z.ltb_spec va (2 ^ 38)), (Z.ltb_spec va' (2 ^ 38)); lia.
Qed.

Lemma ureadable_pa m root va :
  ureadable m root va = true -> upage m root (va / 4096) <> 0 /\ va < 2 ^ 38.
Proof.
  unfold ureadable. rewrite !andb_true_iff, negb_true_iff, Z.ltb_lt, Z.eqb_neq, MAXVA_eq.
  unfold upage. rewrite (pte_at_page _ _ (va / 4096 * 4096) va) by lia. tauto.
Qed.

Lemma NoDup_map_inj {A B} (f : A -> B) (l : list A) x y :
  NoDup (map f l) -> x ∈ l -> y ∈ l -> f x = f y -> x = y.
Proof.
  induction l as [|z l IH]; cbn; [by intros _ ?%elem_of_nil|].
  intros [Hn Hnd]%NoDup_cons [->|Hx]%elem_of_cons [->|Hy]%elem_of_cons E; [done| | |by apply IH].
  - destruct Hn. rewrite E. apply list_elem_of_fmap. eauto.
  - destruct Hn. rewrite <- E. apply list_elem_of_fmap. eauto.
Qed.

(** ** copyin *)

(** [copyin] reads the longest readable prefix of the range, page by page. *)
Lemma copyin_loop root s : tree_ok (k_mem s) 2 root -> forall k srcva dst len,
  0 <= srcva < 2 ^ 64 -> 0 <= len -> (srcva + len + 4095) / 4096 - srcva / 4096 <= Z.of_nat k ->
  exists r n, mloop (S k) (copyin_body root) (srcva, dst, len) s =
      Ok (r, dst ++ ubytes (k_mem s) root srcva n) s /\ 0 <= n <= len /\
    (forall va, srcva <= va < srcva + n -> ureadable (k_mem s) root va = true) /\
    ((r = 0 /\ n = len) \/ (r = -1 /\ n < len /\ ureadable (k_mem s) root (srcva + n) = false)).
Proof.
  intros Ht k. induction k as [|k IH]; intros srcva dst len Hva Hlen Hk;
    (destruct (decide (len = 0)) as [->|Hne];
     [exists 0, 0; cbn; rewrite app_nil_r; split; [done|]; split; [lia|]; split; [lia|by left]|]); [lia|].
  remember (S k) as k'. cbn [mloop]. subst k'. unfold copyin_body at 1.
  destruct (Z.ltb_spec 0 len); [|lia].
  pose proof (walkaddr_page s root srcva Ht Hva) as Hw.
  destruct (ureadable (k_mem s) root srcva) eqn:Hread.
  2: { exists (-1), 0. split.
       - rewrite bind_assoc, (bind_ok _ _ _ _ _ Hw). cbn. by rewrite app_nil_r.
       - split; [lia|]. split; [lia|]. right. rewrite Z.add_0_r. split; [done|]. split; [lia|done]. }
  destruct (ureadable_pa _ _ _ Hread) as [Hpa Hmax].
  rewrite bind_assoc, (bind_ok _ _ _ _ _ Hw).
  destruct (Z.eqb_spec (upage (k_mem s) root (srcva / 4096)) 0) as [?|_]; [done|].
  rewrite bind_assoc, (bind_ok _ _ s (k_mem s) s) by done. unfold bind at 1, ret at 1.
  rewrite PGROUNDDOWN_eq by done. unfold PGSIZE.
  replace (srcva - srcva / 4096 * 4096) with (srcva mod 4096) by lia.
  set (n := Z.min (4096 - srcva mod 4096) len). assert (0 < n <= len) as Hn by lia.
  assert (forall va, srcva <= va < srcva + n -> ureadable (k_mem s) root va = true) as Hall.
  { intros va Hr. rewrite <- Hread. apply ureadable_page. lia. }
  rewrite ubytes_page by lia. unfold u64. rewrite Z.mod_small by lia.
  destruct (decide (n = len)) as [E|Hnl].
  - exists 0, len. rewrite E in *. rewrite Z.sub_diag. split; [done|]. split; [lia|]. split; [done|by left].
  - destruct (IH (srcva / 4096 * 4096 + 4096) (dst ++ ubytes (k_mem s) root srcva n) (len - n))
      as (r & n' & Hrun & Hn' & Hall' & Hres); [lia..|].
    replace (srcva / 4096 * 4096 + 4096) with (srcva + n) in * by lia.
    exists r, (n + n'). rewrite Hrun, ubytes_app, (assoc_L (++)) by lia. split; [done|]. split; [lia|].
    split; [intros va Hr; destruct (Z_lt_dec va (srcva + n)); [apply Hall|apply Hall']; lia|].
    replace (srcva + (n + n')) with (srcva + n + n') by lia.
    destruct Hres as [[-> ->]|(-> & ? & ?)]; [left|right]; (split; [done|]); [lia|]. split; [lia|done].
Qed.

Lemma copyin_run root s srcva len :
  tree_ok (k_mem s) 2 root -> 0 <= srcva < 2 ^ 64 -> 0 <= len ->
  exists r n, copyin root srcva len s = Ok (r, ubytes (k_mem s) root srcva n) s /\ 0 <= n <= len /\
    (forall va, srcva <= va < srcva + n -> ureadable (k_mem s) root va = true) /\
    ((r = 0 /\ n = len) \/ (r = -1 /\ n < len /\ ureadable (k_mem s) root (srcva + n) = false)).
Proof.
  intros Ht Hva Hlen. unfold copyin.
  destruct (copyin_loop root s Ht (Z.to_nat (len / PGSIZE + 2)) srcva [] len Hva Hlen) as (r & n & H).
  { unfold PGSIZE. lia. }
  exists r, n. exact H.
Qed.

(** ** copyinstr *)

Lemma copyinstr_page_run m : forall n p dst,
  exists j found, copyinstr_page m n p dst = (dst ++ load_bytes m p j, found) /\ (j <= n)%nat /\
    if found : bool then
      (0 < j)%nat /\ load8 m (p + Z.of_nat j - 1) = 0 /\
      forall i, 0 <= i < Z.of_nat j - 1 -> load8 m (p + i) <> 0
    else j = n /\ forall i, 0 <= i < Z.of_nat n -> load8 m (p + i) <> 0.
Proof.
  induction n as [|n IH]; intros p dst; cbn [copyinstr_page].
  { exists 0%nat, false. cbn. rewrite app_nil_r. split; [done|]. split; [lia|]. split; [done|lia]. }
  destruct (Z.eqb_spec (load8 m p) 0) as [E|Hne].
  - exists 1%nat, true. split; [by rewrite load_bytes_S, E|]. split; [lia|]. split; [lia|].
    split; [by replace (p + Z.of_nat 1 - 1) with p by lia|lia].
  - destruct (IH (p + 1) (dst ++ [load8 m p])) as (j & found & Hrun & Hj & Hres).
    exists (S j), found. rewrite Hrun, load_bytes_S, <- (assoc_L (++)). split; [done|]. split; [lia|].
    destruct found.
    + destruct Hres as (H1 & H2 & H3). split; [lia|].
      split; [by replace (p + Z.of_nat (S j) - 1) with (p + 1 + Z.of_nat j - 1) by lia|].
      intros i Hi. destruct (decide (i = 0)) as [->|]; [by rewrite Z.add_0_r|].
      replace (p + i) with (p + 1 + (i - 1)) by lia. apply H3. lia.
    + destruct Hres as (H1 & H2). split; [lia|].
      intros i Hi. destruct (decide (i = 0)) as [->|]; [by rewrite Z.add_0_r|].
      replace (p + i) with (p + 1 + (i - 1)) by lia. apply H2. lia.
Qed.

(** The bytes of one page, up to the NUL. *)
Lemma copyinstr_page_user m root va n dst :
  0 <= n -> va mod 4096 + n <= 4096 ->
  exists j found,
    copyinstr_page m (Z.to_nat n) (upage m root (va / 4096) + va mod 4096) dst =
      (dst ++ ubytes m root va j, found) /\ 0 <= j <= n /\
    if found : bool then
      0 < j /\ uread m root (va + j - 1) = 0 /\
      forall x, va <= x < va + j - 1 -> uread m root x <> 0
    else j = n /\ forall x, va <= x < va + n -> uread m root x <> 0.
Proof.
  intros Hn Hfit.
  destruct (copyinstr_page_run m (Z.to_nat n) (upage m root (va / 4096) + va mod 4096) dst)
    as (j & found & Hrun & Hj & Hres).
  exists (Z.of_nat j), found. rewrite Hrun, <- (Nat2Z.id j), ubytes_page, Nat2Z.id by lia.
  split; [done|]. split; [lia|].
  assert (forall x, va <= x < va + n ->
    uread m root x = load8 m (upage m root (va / 4096) + va mod 4096 + (x - va))) as Hx.
  { intros x Hx. unfold uread. replace (x / 4096) with (va / 4096) by lia. f_equal. lia. }
  destruct found.
  - destruct Hres as (H1 & H2 & H3). split; [lia|]. split.
    + rewrite Hx by lia. rewrite <- H2. f_equal. lia.
    + intros x Hr. rewrite Hx by lia. apply H3. lia.
  - destruct Hres as (-> & H2). split; [lia|]. intros x Hr. rewrite Hx by lia. apply H2. lia.
Qed.

(** What [copyinstr] returns and has copied: [n] bytes of user memory. *)
Definition copyinstr_post (m : mem) (root srcva max r n : Z) : Prop :=
  0 <= n <= max /\ (forall va, srcva <= va < srcva + n -> ureadable m root va = true) /\
  ((r = 0 /\ 0 < n /\ uread m root (srcva + n - 1) = 0 /\
    forall va, srcva <= va < srcva + n - 1 -> uread m root va <> 0) \/
   (r = -1 /\ (forall va, srcva <= va < srcva + n -> uread m root va <> 0) /\
    (n = max \/ ureadable m root (srcva + n) = false))).

Lemma copyinstr_loop root s : tree_ok (k_mem s) 2 root -> forall k srcva dst max,
  0 <= srcva < 2 ^ 64 -> 0 <= max -> (srcva + max + 4095) / 4096 - srcva / 4096 <= Z.of_nat k ->
  exists r n, mloop (S k) (copyinstr_body root) (srcva, dst, max) s =
      Ok (r, dst ++ ubytes (k_mem s) root srcva n) s /\ copyinstr_post (k_mem s) root srcva max r n.
Proof.
  intros Ht k. induction k as [|k IH]; intros srcva dst max Hva Hmax Hk;
    (destruct (decide (max = 0)) as [->|Hne];
     [exists (-1), 0; cbn; rewrite app_nil_r; split; [done|]; split; [lia|];
      split; [lia|]; right; split; [done|]; split; [lia|by left]|]); [lia|].
  remember (S k) as k'. cbn [mloop]. subst k'. unfold copyinstr_body at 1.
  destruct (Z.ltb_spec 0 max); [|lia].
  pose proof (walkaddr_page s root srcva Ht Hva) as Hw.
  destruct (ureadable (k_mem s) root srcva) eqn:Hread.
  2: { exists (-1), 0. split.
       - rewrite bind_assoc, (bind_ok _ _ _ _ _ Hw). cbn. by rewrite app_nil_r.
       - split; [lia|]. split; [lia|]. right. rewrite Z.add_0_r. split; [done|]. split; [lia|by right]. }
  destruct (ureadable_pa _ _ _ Hread) as [Hpa Hlt].
  rewrite bind_assoc, (bind_ok _ _ _ _ _ Hw).
  destruct (Z.eqb_spec (upage (k_mem s) root (srcva / 4096)) 0) as [?|_]; [done|].
  rewrite bind_assoc, (bind_ok _ _ s (k_mem s) s) by done.
  rewrite PGROUNDDOWN_eq by done. unfold PGSIZE.
  replace (srcva - srcva / 4096 * 4096) with (srcva mod 4096) by lia.
  set (n := Z.min (4096 - srcva mod 4096) max). assert (0 < n <= max) as Hn by lia.
  assert (forall va, srcva <= va < srcva + n -> ureadable (k_mem s) root va = true) as Hall.
  { intros va Hr. rewrite <- Hread. apply ureadable_page. lia. }
  destruct (copyinstr_page_user (k_mem s) root srcva n dst) as (j & found & -> & Hj & Hres); [lia..|].
  destruct found; unfold bind at 1, ret at 1.
  - destruct Hres as (H1 & H2 & H3). exists 0, j. split; [done|]. split; [lia|].
    split; [intros va Hr; apply Hall; lia|]. left. done.
  - destruct Hres as (-> & H2). unfold u64. rewrite Z.mod_small by lia.
    destruct (decide (n = max)) as [E|Hnl].
    + exists (-1), max. rewrite E in *. rewrite Z.sub_diag. split; [done|]. split; [lia|].
      split; [done|]. right. split; [done|]. split; [done|by left].
    + destruct (IH (srcva / 4096 * 4096 + 4096) (dst ++ ubytes (k_mem s) root srcva n) (max - n))
        as (r & n' & Hrun & Hn' & Hall' & Hres); [lia..|].
      replace (srcva / 4096 * 4096 + 4096) with (srcva + n) in * by lia.
      exists r, (n + n'). rewrite Hrun, ubytes_app, (assoc_L (++)) by lia. split; [done|]. split; [lia|].
      split; [intros va Hr; destruct (Z_lt_dec va (srcva + n)); [apply Hall|apply Hall']; lia|].
      replace (srcva + (n + n')) with (srcva + n + n') by lia.
      destruct Hres as [(-> & G1 & G2 & G3)|(-> & G1 & G2)]; [left|right]; (split; [done|]).
      * split; [lia|]. split; [done|]. intros va Hr. destruct (Z_lt_dec va (srcva + n)); [apply H2|apply G3]; lia.
      * split; [intros va Hr; destruct (Z_lt_dec va (srcva + n)); [apply H2|apply G1]; lia|].
        destruct G2; [left; lia|by right].
Qed.

Lemma copyinstr_run root s srcva max :
  tree_ok (k_mem s) 2 root -> 0 <= srcva < 2 ^ 64 -> 0 <= max ->
  exists r n, copyinstr root srcva max s = Ok (r, ubytes (k_mem s) root srcva n) s /\
    copyinstr_post (k_mem s) root srcva max r n.
Proof.
  intros Ht Hva Hmax. unfold copyinstr.
  destruct (copyinstr_loop root s Ht (Z.to_nat (max / PGSIZE + 2)) srcva [] max Hva Hmax) as (r & n & H).
  { unfold PGSIZE. lia. }
  exists r, n. exact H.
Qed.

(** ** copyout *)

Lemma set_k_mem_id s : set_k_mem (k_mem s) s = s.
Proof. by destruct s. Qed.

Lemma load8_store_from m a src n x :
  load8 (store_from m a src n) x =
    if (a <=? x) && (x <? a + n) then u8 (src (x - a)) else load8 m x.
Proof.
  unfold load8, store_from. zdec; try done. unfold u8. by rewrite Zmod_mod.
Qed.

(** Writing [n] bytes of one user page. *)
Lemma uwrite_page s l root us va src n :
  uvm_inv s l root us -> va / 4096 ∈ us -> 0 <= n -> va mod 4096 + n <= 4096 ->
  let m' := store_from (k_mem s) (upage (k_mem s) root (va / 4096) + va mod 4096) src n in
  uvm_inv (set_k_mem m' s) l root us /\
  (forall x, pte_at m' 2 root x = pte_at (k_mem s) 2 root x) /\
  frame_out [upage (k_mem s) root (va / 4096)] (k_mem s) m' /\
  forall x, x / 4096 ∈ us -> uread m' root x =
    if (va <=? x) && (x <? va + n) then u8 (src (x - va)) else uread (k_mem s) root x.
Proof.
  intros Hinv Hi Hn Hfit m'. set (p := upage (k_mem s) root (va / 4096)) in *.
  destruct (uvm_in _ _ _ _ Hinv _ Hi) as (_ & _ & _ & Rp). fold p in Rp.
  destruct (uvm_upage_fresh _ _ _ _ _ Hinv Hi) as [Hpl Hpt]. fold p in Hpl, Hpt.
  assert (frame_out [p] (k_mem s) m') as Hf.
  { intros x Hx. specialize (Hx p ltac:(apply elem_of_cons; by left)). unfold m'.
    rewrite load8_store_from. zdec; try lia; done. }
  destruct (uvm_inv_write s l root us [p] m' Hinv) as (Hinv' & E1 & E2);
    [by constructor|by intros q ->%list_elem_of_singleton|done|].
  split; [done|]. split; [done|]. split; [done|]. intros x Hx. unfold uread.
  assert (upage m' root (x / 4096) = upage (k_mem s) root (x / 4096)) as ->
    by (unfold upage; by rewrite E2).
  unfold m'. rewrite load8_store_from. fold p. destruct (decide (x / 4096 = va / 4096)) as [E|Hne].
  - rewrite E. fold p. replace (p + x mod 4096 - (p + va mod 4096)) with (x - va) by lia.
    zdec; try lia; done.
  - assert (upage (k_mem s) root (x / 4096) <> p) as Hpp.
    { intros Ep. apply Hne. pose proof (uvm_nodup _ _ _ _ Hinv) as (_ & _ & (_ & _ & Hnd)%NoDup_app)%NoDup_app.
      by apply (NoDup_map_inj (upage (k_mem s) root) us). }
    destruct (uvm_in _ _ _ _ Hinv _ Hx) as (_ & _ & _ & Rx).
    pose proof (ram_page_disjoint _ _ Rx Rp Hpp). zdec; try lia; done.
Qed.

(** Above user memory there are only pages the user may not touch. *)
Definition high_ok (m : mem) (root : Z) : Prop := forall va,
  TRAPFRAME <= va < MAXVA -> has (pte_at m 2 root va) PTE_U = false.

Lemma uwritable_page m root va va' :
  va / 4096 = va' / 4096 -> uwritable m root va = uwritable m root va'.
Proof.
  intros E. unfold uwritable. rewrite (pte_at_page _ _ va va') by done.
  replace (va <? MAXVA) with (va' <? MAXVA); [done|]. rewrite MAXVA_eq.
  destruct (Z.ltb_spec va (2 ^ 38)), (Z.ltb_spec va' (2 ^ 38)); lia.
Qed.

Lemma uwritable_in s l root us va :
  uvm_inv s l root us -> high_ok (k_mem s) root -> 0 <= va -> uwritable (k_mem s) root va = true ->
  va / 4096 ∈ us /\ va < 2 ^ 38.
Proof.
  intros Hinv Hhigh Hva. unfold uwritable. rewrite !andb_true_iff, Z.ltb_lt.
  intros (((Hmax & Hv) & Hu) & _). split; [|by rewrite MAXVA_eq in Hmax].
  destruct (Z_lt_dec va TRAPFRAME) as [Hlt|].
  - destruct (decide (va / 4096 ∈ us)) as [|Hn]; [done|]. exfalso.
    rewrite (pte_at_page _ _ va (va / 4096 * 4096)) in Hv by lia.
    rewrite (uvm_out _ _ _ _ Hinv) in Hv; [done| |done].
    rewrite UMAX_eq. rewrite TRAPFRAME_eq in Hlt. lia.
  - rewrite Hhigh in Hu by lia. done.
Qed.

(** The first page of [copyout]: it is written, or the copy stops. *)
Lemma copyout_body_run s l root us src dstva off len :
  uvm_inv s l root us -> high_ok (k_mem s) root -> 0 <= dstva < 2 ^ 64 -> 0 < len ->
  copyout_body root src (dstva, off, len) s =
    if uwritable (k_mem s) root dstva then
      let n := Z.min (4096 - dstva mod 4096) len in
      Ok (inl (dstva / 4096 * 4096 + 4096, off + n, len - n))
         (set_k_mem (store_from (k_mem s) (upage (k_mem s) root (dstva / 4096) + dstva mod 4096)
                       (fun i => src (off + i)) n) s)
    else Ok (inr (-1)) s.
Proof.
  intros Hinv Hhigh Hva Hlen. unfold copyout_body. destruct (Z.ltb_spec 0 len); [|lia].
  rewrite PGROUNDDOWN_eq by done.
  pose proof (uwritable_page (k_mem s) root dstva (dstva / 4096 * 4096) ltac:(lia)) as Ew.
  pose proof (uwritable_in s l root us dstva Hinv Hhigh ltac:(lia)) as Hin. rewrite Ew in Hin |- *.
  destruct (Z.leb_spec MAXVA (dstva / 4096 * 4096)).
  { unfold uwritable. destruct (Z.ltb_spec (dstva / 4096 * 4096) MAXVA); [lia|done]. }
  rewrite (bind_ok _ _ _ _ _ (walk_noalloc root (dstva / 4096 * 4096) s ltac:(lia))).
  rewrite (bind_ok _ _ s (k_mem s) s) by done.
  assert (uwritable (k_mem s) root (dstva / 4096 * 4096) =
    has (pte_at (k_mem s) 2 root (dstva / 4096 * 4096)) PTE_V &&
    has (pte_at (k_mem s) 2 root (dstva / 4096 * 4096)) PTE_U &&
    has (pte_at (k_mem s) 2 root (dstva / 4096 * 4096)) PTE_W) as Ew'.
  { unfold uwritable. destruct (Z.ltb_spec (dstva / 4096 * 4096) MAXVA); [done|lia]. }
  unfold upage. fold (upage (k_mem s) root (dstva / 4096)). rewrite Ew' in Hin |- *.
  unfold pte_at in Hin |- *.
  destruct (pt_walk (k_mem s) 2 root (dstva / 4096 * 4096)) as [a|] eqn:Hw;
    unfold default, id; cbn [from_option]; [|done].
  pose proof (pt_walk_pos _ _ _ _ _ (vm_tree _ _ _ _ (uvm_vm _ _ _ _ Hinv)) Hw).
  destruct (Z.eqb_spec a 0); [lia|]. cbn [orb].
  destruct (has (load64 (k_mem s) a) PTE_V), (has (load64 (k_mem s) a) PTE_U),
    (has (load64 (k_mem s) a) PTE_W); cbn [negb orb andb] in *; try done.
  destruct Hin as [_ Hmax]; [done|].
  unfold bind, mem_mod, modify, ret, u64, PGSIZE. rewrite Z.mod_small by lia.
  replace (dstva - dstva / 4096 * 4096) with (dstva mod 4096) by lia.
  assert (upage (k_mem s) root (dstva / 4096) = PTE2PA (load64 (k_mem s) a)) as ->; [|done].
  unfold upage, pte_at. by rewrite Hw.
Qed.

(** What [copyout] returns and has written: [n] bytes from [src + off]. *)
Definition copyout_post (m m' : mem) (root : Z) (us : list Z) (src : cptr) (dstva off len r n : Z) : Prop :=
  0 <= n <= len /\ (forall x, dstva <= x < dstva + n -> uwritable m root x = true) /\
  (forall x, x / 4096 ∈ us -> uread m' root x =
     if (dstva <=? x) && (x <? dstva + n) then u8 (src (off + (x - dstva))) else uread m root x) /\
  (forall x, pte_at m' 2 root x = pte_at m 2 root x) /\
  frame_out (map (upage m root) us) m m' /\
  ((r = 0 /\ n = len) \/ (r = -1 /\ n < len /\ uwritable m root (dstva + n) = false)).

Lemma copyout_post_0 m root us src dstva off len r :
  0 <= len -> ((r = 0 /\ 0 = len) \/ (r = -1 /\ 0 < len /\ uwritable m root (dstva + 0) = false)) ->
  copyout_post m m root us src dstva off len r 0.
Proof.
  intros Hl Hr. split; [lia|]. split; [lia|]. split; [|done]. intros x Hx. zdec; try lia; done.
Qed.

Lemma copyout_loop root l us src : forall k dstva off len s,
  uvm_inv s l root us -> high_ok (k_mem s) root -> 0 <= dstva < 2 ^ 64 -> 0 <= len ->
  (dstva + len + 4095) / 4096 - dstva / 4096 <= Z.of_nat k ->
  exists r n m', mloop (S k) (copyout_body root src) (dstva, off, len) s = Ok r (set_k_mem m' s) /\
    uvm_inv (set_k_mem m' s) l root us /\ copyout_post (k_mem s) m' root us src dstva off len r n.
Proof.
  induction k as [|k IH]; intros dstva off len s Hinv Hhigh Hva Hlen Hk;
    (destruct (decide (len = 0)) as [->|Hne];
     [exists 0, 0, (k_mem s); cbn; rewrite set_k_mem_id; split; [done|]; split; [done|];
      apply copyout_post_0; [lia|by left]|]); [lia|].
  remember (S k) as k'. cbn [mloop]. subst k'.
  pose proof (copyout_body_run s l root us src dstva off len Hinv Hhigh Hva ltac:(lia)) as Hb.
  destruct (uwritable (k_mem s) root dstva) eqn:Hw; cbv zeta in Hb.
  2: { exists (-1), 0, (k_mem s). rewrite set_k_mem_id, (bind_ok _ _ _ _ _ Hb).
       split; [done|]. split; [done|]. apply copyout_post_0; [lia|].
       right. rewrite Z.add_0_r. split; [done|]. split; [lia|done]. }
  rewrite (bind_ok _ _ _ _ _ Hb). destruct (uwritable_in s l root us dstva Hinv Hhigh ltac:(lia) Hw) as [Hin Hmax].
  set (n := Z.min (4096 - dstva mod 4096) len) in *. assert (0 < n <= len) as Hn by lia.
  assert (forall x, dstva <= x < dstva + n -> uwritable (k_mem s) root x = true) as Hall.
  { intros x Hr. rewrite <- Hw. apply uwritable_page. lia. }
  destruct (uwrite_page s l root us dstva (fun i => src (off + i)) n Hinv Hin) as (Hinv1 & Ep & Hf & Hrd); [lia..|].
  set (m1 := store_from _ _ _ n) in *.
  assert (frame_out (map (upage (k_mem s) root) us) (k_mem s) m1) as Hf1.
  { eapply frame_out_mono; [|exact Hf]. intros q ->%list_elem_of_singleton. apply list_elem_of_fmap. eauto. }
  destruct (decide (n = len)) as [E|Hnl].
  - exists 0, len, m1. rewrite E in *. rewrite Z.sub_diag. split; [done|]. split; [done|]. split; [lia|].
    split; [done|]. split; [done|]. split; [done|]. split; [done|by left].
  - assert (high_ok m1 root) as Hhigh1 by (intros x Hx; rewrite Ep; by apply Hhigh).
    destruct (IH (dstva / 4096 * 4096 + 4096) (off + n) (len - n) _ Hinv1 Hhigh1)
      as (r & n' & m' & Hrun & Hinv' & Hn' & Hall' & Hrd' & Ep' & Hf' & Hres); [lia..|].
    cbn [k_mem set_k_mem] in Hn', Hall', Hrd', Ep', Hf', Hres.
    replace (dstva / 4096 * 4096 + 4096) with (dstva + n) in * by lia.
    assert (forall x, uwritable m1 root x = uwritable (k_mem s) root x) as Euw.
    { intros x. unfold uwritable. by rewrite Ep. }
    exists r, (n + n'), m'. split; [exact Hrun|]. split; [exact Hinv'|]. split; [lia|]. split.
    { intros x Hr. destruct (Z_lt_dec x (dstva + n)); [apply Hall; lia|]. rewrite <- Euw. apply Hall'. lia. }
    split.
    { intros x Hx. rewrite Hrd', Hrd by done.
      replace (off + n + (x - (dstva + n))) with (off + (x - dstva)) by lia. zdec; try lia; done. }
    split; [intros x; by rewrite Ep', Ep|]. split.
    { eapply frame_out_trans; [exact Hf1|]. eapply frame_out_mono; [|exact Hf'].
      intros q. by rewrite (map_ext (upage m1 root) (upage (k_mem s) root)) by (intros i; unfold upage; by rewrite Ep). }
    replace (dstva + (n + n')) with (dstva + n + n') by lia. rewrite Euw in Hres.
    destruct Hres as [[-> ->]|(-> & ? & ?)]; [left|right]; (split; [done|]); [lia|]. split; [lia|done].
Qed.

Lemma copyout_run root l us src dstva len s :
  uvm_inv s l root us -> high_ok (k_mem s) root -> 0 <= dstva < 2 ^ 64 -> 0 <= len ->
  exists r n m', copyout root dstva src len s = Ok r (set_k_mem m' s) /\
    uvm_inv (set_k_mem m' s) l root us /\ copyout_post (k_mem s) m' root us src dstva 0 len r n.
Proof.
  intros Hinv Hhigh Hva Hlen. unfold copyout. apply copyout_loop; try done. unfold PGSIZE. lia.
Qed.

End io.
