(* ===== verification/Sample.v ===== *)
(** * Concrete states

    A kernel image and small concrete states on which the hypotheses of the
    theorems are checked to hold: zeroed tables, a few free pages, an empty
    page table, and what the routines themselves make of them. *)

From S2P Require Import Prelude Riscv Mem State Kalloc PageTable Vm VmSpec Uvm UvmGrow UvmCopy UvmIo.

(** Addresses as a build of the kernel gives them. *)
Program Definition sample_image : KernelImage :=
  {| etext := 0x80008000; kend := 0x80021d50; trampoline := 0x80007000;
     sym_forkret := 0x80001a00; sym_usertrap := 0x80002400; sym_uservec := 0x80007000;
     sym_userret := 0x8000709c; sym_kernelvec := 0x80005c00 |}.
Solve All Obligations with (cbv; intuition discriminate).

#[export] Existing Instance sample_image.

Definition zero_lock : sleeplock := mk_sleeplock false 0.
Definition zero_proc : proc :=
  mk_proc UNUSED Cnull 0 0 0 None 0 0 0 0 (mk_context 0 0 []) (replicate 16 None) None (replicate 16 0).
Definition zero_file : file := mk_file FD_NONE 0 false false 0 None 0 0.
Definition zero_inode : inode := mk_inode 0 0 0 zero_lock false 0 0 0 0 0 (replicate 13 0).
Definition zero_block : block := fun _ => 0.

(** [.bss] as the loader leaves it. *)
Definition zero_state : kstate := {|
  k_held := []; k_cur := None; k_sched := []; k_mem := fun _ => 0; k_freelist := 0; k_kpgtbl := 0;
  k_procs := replicate 64 zero_proc; k_nextpid := 1; k_initproc := None; k_ticks := 0;
  k_ftable := replicate 100 zero_file; k_itable := replicate 50 zero_inode;
  k_sb := mk_superblock 0 0 0 0 0 0 0 0;
  k_bufs := replicate 31 (mk_buf false false 0 0 zero_lock 0 0 0 zero_block);
  k_log := mk_logst 0 0 0 false 0 (mk_logheader 0 (replicate 30 0));
  k_disk := fun _ => zero_block; k_wtrace := []; k_pipes := ∅; k_cons := mk_consst (replicate 128 0) 0 0 0;
  k_uart := mk_uartst (replicate 32 0) 0 0 [] [] [] |}.

(** Sixteen free pages. *)
Definition sample_page (i : Z) : Z := 0x80030000 + 4096 * i.
Definition sample_pages : list Z := map sample_page (seqZ 0 16).

Definition sample_mem : mem :=
  fold_right (fun i m => store64 m (sample_page i) (sample_page (i + 1)))
    (fun _ => 0) (seqZ 0 15).

Definition sample0 : kstate := set_k_mem sample_mem (set_k_freelist (sample_page 0) zero_state).

(** Two page-table roots, still empty. *)
Definition sample_root : Z := 0x80050000.
Definition sample_root2 : Z := 0x80051000.

Lemma sample_ram : Forall ram_page (sample_root :: sample_root2 :: sample_pages).
Proof. repeat constructor; vm_compute; intuition discriminate. Qed.

Lemma sample_kmem : kmem_inv sample0 sample_pages.
Proof.
  split.
  - vm_compute. repeat split.
  - by pose proof sample_ram as [_ [_ ?]%Forall_cons]%Forall_cons.
  - apply (bool_decide_unpack _). vm_compute. exact I.
Qed.

Lemma sample_mem_high x : 0x80050000 <= x -> load8 sample_mem x = 0.
Proof.
  intros Hx. unfold sample_mem.
  assert (forall L, (forall i, i ∈ L -> i < 16) ->
    load8 (fold_right (fun i m => store64 m (sample_page i) (sample_page (i + 1))) (fun _ => 0) L) x = 0) as H.
  { induction L as [|i L IH]; intros HL; [done|]. cbn [fold_right].
    specialize (HL i ltac:(apply elem_of_cons; by left)) as Hi.
    rewrite load8_store64_out by (unfold sample_page; lia).
    apply IH. intros j Hj. apply HL, elem_of_cons. by right. }
  apply H. intros i. rewrite elem_of_seqZ. lia.
Qed.

Lemma sample_zero root i : 0x80050000 <= root -> 0 <= i < 512 -> load64 sample_mem (pte_slot root i) = 0.
Proof.
  intros Hr Hi. transitivity (load64 (fun _ => 0) (pte_slot root i)); [|by vm_compute].
  apply loadn_ext. intros x Hx. rewrite sample_mem_high by (unfold pte_slot in *; lia). done.
Qed.

(** An empty address space. *)
Lemma sample_empty root :
  root ∈ [sample_root; sample_root2] -> uvm_inv sample0 sample_pages root (seqZ 0 0).
Proof.
  intros Hroot. assert (0x80050000 <= root /\ ram_page root /\ root ∉ sample_pages) as (Hr & Rr & Hn).
  { pose proof sample_ram as [H1 [H2 _]%Forall_cons]%Forall_cons.
    apply elem_of_cons in Hroot as [->|Hroot]; [|apply list_elem_of_singleton in Hroot as ->]; (split; [done|]); (split; [done|]);
      apply (bool_decide_unpack _); vm_compute; exact I. }
  pose proof (pt_pages_zero sample_mem 2 root (fun i => sample_zero root i Hr)) as Ep.
  assert (forall va, pte_at sample_mem 2 root va = 0) as Ea.
  { intros va. apply pte_at_zero. intros i Hi. by apply sample_zero. }
  pose proof (kmem_nodup _ _ sample_kmem) as Hnd.
  assert (NoDup (sample_pages ++ [root])) as Hnd'.
  { apply NoDup_app. split; [done|]. split; [|apply NoDup_singleton].
    intros q Hq Hq2. apply list_elem_of_singleton in Hq2 as ->. done. }
  split.
  - split; [apply not_elem_of_nil|apply sample_kmem| |cbn [k_mem sample0 set_k_mem]; by rewrite Ep].
    split; cbn [k_mem sample0 set_k_mem]; rewrite ?Ep; [apply NoDup_singleton|by constructor|].
    apply pt_interior_zero. intros i Hi. by apply sample_zero.
  - intros i Hi. change (seqZ 0 0) with (@nil Z) in Hi. by apply elem_of_nil in Hi.
  - intros i Hi _. cbn [k_mem sample0 set_k_mem]. by rewrite Ea.
  - cbn [k_mem sample0 set_k_mem]. rewrite Ep. exact Hnd'.
Qed.

(** A process memory of 5000 bytes, as [uvmalloc] makes it. *)
Definition sample1 : kstate :=
  match uvmalloc sample_root 0 5000 PTE_W sample0 with Ok _ s => s | _ => sample0 end.

Lemma sample1_result :
  match uvmalloc sample_root 0 5000 PTE_W sample0 with Ok r _ => r | _ => -1 end = 5000.
Proof. vm_compute. reflexivity. Qed.

Lemma sample1_uvm : exists l m f, sample1 = vm_upd m f sample0 /\ uvm_sz sample1 l sample_root 5000 /\
  owned sample1 l sample_root (seqZ 0 2) ≡ₚ owned sample0 sample_pages sample_root (seqZ 0 0) /\
  frame_out (owned sample0 sample_pages sample_root (seqZ 0 0)) (k_mem sample0) (k_mem sample1) /\
  usame (k_mem sample0) (k_mem sample1) sample_root 0.
Proof.
  assert (uvm_sz sample0 sample_pages sample_root 0) as H0.
  { apply sample_empty. apply elem_of_cons. by left. }
  destruct (uvmalloc_run sample0 sample_pages sample_root 0 5000 PTE_W H0) as (r & m & f & l & Hrun & Hres);
    [lia|vm_compute; discriminate|vm_compute; intuition discriminate|].
  pose proof sample1_result as Hr. unfold sample1. rewrite Hrun in Hr |- *.
  exists l, m, f. split; [done|].
  destruct Hres as [(_ & H1 & H2 & H3 & H4 & _)|(-> & _)]; [|discriminate Hr].
  split; [exact H1|]. split; [exact H2|]. split; [exact H3|exact H4].
Qed.

#[global] Opaque sample1.

(** The same memory beside a second, still empty, address space. *)
Lemma sample1_pair : exists l, pair_inv sample1 l sample_root 2 sample_root2 0.
Proof.
  destruct sample1_uvm as (l & m & f & E & H1 & H2 & H3 & _). exists l.
  assert (uvm_inv sample0 sample_pages sample_root2 (seqZ 0 0)) as H0.
  { apply sample_empty. apply elem_of_cons. right. by apply list_elem_of_singleton. }
  assert (uvm_inv sample0 sample_pages sample_root (seqZ 0 0)) as H0'.
  { apply sample_empty. apply elem_of_cons. by left. }
  assert (owned sample0 sample_pages sample_root (seqZ 0 0) = sample_pages ++ [sample_root]) as Eo.
  { unfold owned. change (k_mem sample0) with sample_mem.
    rewrite (pt_pages_zero sample_mem 2 sample_root) by (intros i; by apply sample_zero). done. }
  assert (upages (k_mem sample0) sample_root2 (seqZ 0 0) = [sample_root2]) as Eu.
  { unfold upages. change (k_mem sample0) with sample_mem.
    rewrite (pt_pages_zero sample_mem 2 sample_root2) by (intros i; by apply sample_zero). done. }
  assert (sample_root2 ∉ owned sample0 sample_pages sample_root (seqZ 0 0)) as Hn.
  { rewrite Eo. apply (bool_decide_unpack _). vm_compute. exact I. }
  destruct (uvm_keep sample0 sample1 sample_pages l sample_root2 (seqZ 0 0)
    (owned sample0 sample_pages sample_root (seqZ 0 0))) as (K1 & K2 & K3).
  - exact H0.
  - rewrite E. apply not_elem_of_nil.
  - apply (vm_kmem _ _ _ _ (uvm_vm _ _ _ _ H1)).
  - exact (owned_ram _ _ _ _ H0').
  - exact H3.
  - intros p Hp Hin. rewrite Eu in Hin. apply list_elem_of_singleton in Hin as ->. exact (Hn Hp).
  - intros p Hp. rewrite <- H2. apply elem_of_app. by left.
  - split; [exact H1|exact K1|].
    assert (forall p, p ∈ upages (k_mem sample1) sample_root (seqZ 0 2) ->
      (p ∉ l) /\ p ∈ owned sample0 sample_pages sample_root (seqZ 0 0)) as Hd.
    { intros p Hp. split; [|rewrite <- H2; apply elem_of_app; by right].
      pose proof (uvm_nodup _ _ _ _ H1) as (_ & Hx & _)%NoDup_app. intros Hl. by apply (Hx p). }
    unfold owned. fold (upages (k_mem sample1) sample_root2 (seqZ 0 0)). rewrite K2, Eu.
    intros p Hp Hin. apply Hd in Hin as [Hl Ho].
    apply elem_of_app in Hp as [Hp|Hp]; [exact (Hl Hp)|]. apply list_elem_of_singleton in Hp as ->. exact (Hn Ho).
Qed.


Lemma sample1_high : high_ok (k_mem sample1) sample_root.
Proof.
  destruct sample1_uvm as (l & m & f & _ & _ & _ & _ & H). intros va Hva.
  rewrite (us_high _ _ _ _ H) by (rewrite MAXVA_eq in Hva; lia).
  change (k_mem sample0) with sample_mem. rewrite pte_at_zero; [done|].
  intros i Hi. by apply sample_zero.
Qed.
