(* ===== verification/VmClaims.v ===== *)
(** * What the virtual-memory routines guarantee

    The properties of [kernel/vm.c] that the rest of the kernel relies on,
    each with an instance on a concrete address space. *)

From S2P Require Import Prelude Riscv Mem Cstring State Kalloc PageTable Vm VmSpec Uvm UvmGrow UvmCopy.
From S2P Require Import UvmFree UvmIo Sample.

Section claims.
Context {KI : KernelImage}.

(** C18: [mappages] of unmapped pages returns 0 with exactly those pages mapped
    to consecutive physical pages with the given permissions, or, when no page
    is left for the tables, -1 with a prefix of them mapped.  The pages it
    adds to the tables come off the free list, and no byte outside the tables
    and those pages changes. *)
Theorem mappages_correct root va size pa perm s l :
  vm_inv s l 2 root -> 0 <= perm < 1024 ->
  0 <= va -> va mod 4096 = 0 -> 0 < size -> size mod 4096 = 0 -> va + size <= MAXVA ->
  0 <= pa -> pa mod 4096 = 0 -> pa + size <= 2 ^ 56 ->
  (forall a, va <= a < va + size -> has (pte_at (k_mem s) 2 root a) PTE_V = false) ->
  exists r m' f' new l' k,
    mappages root va size pa perm s = Ok r (vm_upd m' f' s) /\
    l = new ++ l' /\ vm_inv (vm_upd m' f' s) l' 2 root /\
    pt_pages m' 2 root ≡ₚ new ++ pt_pages (k_mem s) 2 root /\
    frame_out (new ++ pt_pages (k_mem s) 2 root) (k_mem s) m' /\
    mapped (k_mem s) m' root va pa perm k /\
    ((r = 0 /\ k = size / 4096) \/ (r = -1 /\ 0 <= k < size / 4096 /\ l' = [])).
Proof. apply mappages_run. Qed.

(** C16: [uvmalloc] from [oldsz] to [newsz] returns [newsz] with the memory
    grown by zeroed pages of the requested permissions, or 0 with the address
    space as it was before the call.  Either way what the process had is
    unchanged, and every page is still in exactly one of the free list, the
    tables and the user memory. *)
Theorem uvmalloc_correct s l root oldsz newsz xperm :
  uvm_sz s l root oldsz -> 0 <= oldsz <= newsz -> newsz <= TRAPFRAME -> 0 <= xperm < 1024 ->
  exists r m' f' l',
    uvmalloc root oldsz newsz xperm s = Ok r (vm_upd m' f' s) /\
    ((r = newsz /\ grown s (vm_upd m' f' s) l l' root (npg oldsz) (npg newsz) xperm) \/
     (r = 0 /\ rolled_back s (vm_upd m' f' s) l l' root (npg oldsz) (npg oldsz))).
Proof. apply uvmalloc_run. Qed.

(** [uvmdealloc] shrinks the memory to [newsz] (or leaves it alone if that
    is not smaller), gives the pages it unmaps back to the allocator, and does
    not change what is left. *)
Theorem uvmdealloc_correct s l root oldsz newsz :
  uvm_sz s l root oldsz -> 0 <= oldsz <= TRAPFRAME -> 0 <= newsz ->
  exists m' f' l',
    uvmdealloc root oldsz newsz s = Ok (Z.min oldsz newsz) (vm_upd m' f' s) /\
    uvm_sz (vm_upd m' f' s) l' root (Z.min oldsz newsz) /\
    owned (vm_upd m' f' s) l' root (seqZ 0 (npg (Z.min oldsz newsz))) ≡ₚ
      owned s l root (seqZ 0 (npg oldsz)) /\
    frame_out (owned s l root (seqZ 0 (npg oldsz))) (k_mem s) m' /\
    usame (k_mem s) m' root (npg (Z.min oldsz newsz)).
Proof. apply uvmdealloc_run. Qed.

(** C4: [uvmcopy] either returns 0 with the child's memory an exact copy of the
    parent's, contents and permissions, in pages of its own, or returns -1 with
    the child empty and its pages given back; the parent is unchanged. *)
Theorem uvmcopy_correct s l old new sz :
  pair_inv s l old (npg sz) new 0 -> 0 <= sz <= TRAPFRAME ->
  exists r m' f' l',
    uvmcopy old new sz s = Ok r (vm_upd m' f' s) /\
    ((r = 0 /\ copied s (vm_upd m' f' s) l l' old (npg sz) new 0 (npg sz)) \/
     (r = -1 /\ uncopied s (vm_upd m' f' s) l l' old (npg sz) new 0)).
Proof. apply uvmcopy_run. Qed.

(** C17: [uvmfree] of an address space whose trapframe and trampoline are already
    unmapped terminates without a panic and returns every page of it, memory
    and tables, to the free list exactly once, touching nothing else. *)
Theorem uvmfree_no_leak s l root sz :
  uvm_sz s l root sz -> 0 <= sz <= TRAPFRAME ->
  (forall va, TRAPFRAME <= va < 2 ^ 39 -> has (pte_at (k_mem s) 2 root va) PTE_V = false) ->
  exists m' f' l', uvmfree root sz s = Ok tt (vm_upd m' f' s) /\
    freed (upages (k_mem s) root (seqZ 0 (npg sz))) s (vm_upd m' f' s) l l'.
Proof. apply uvmfree_run. Qed.

(** C28: [copyout] writes the longest prefix of the range that the process may
    write, byte for byte, and nothing else; it returns 0 exactly when that is
    the whole range. *)
Theorem copyout_correct root l us src dstva len s :
  uvm_inv s l root us -> high_ok (k_mem s) root -> 0 <= dstva < 2 ^ 64 -> 0 <= len ->
  exists r n m', copyout root dstva src len s = Ok r (set_k_mem m' s) /\
    uvm_inv (set_k_mem m' s) l root us /\ copyout_post (k_mem s) m' root us src dstva 0 len r n.
Proof. apply copyout_run. Qed.

(** [copyin] delivers the bytes of the longest readable prefix of the range
    and returns 0 exactly when that is the whole range, whatever address and
    length user code passes. *)
Theorem copyin_correct root s srcva len :
  tree_ok (k_mem s) 2 root -> 0 <= srcva < 2 ^ 64 -> 0 <= len ->
  exists r n, copyin root srcva len s = Ok (r, ubytes (k_mem s) root srcva n) s /\ 0 <= n <= len /\
    (forall va, srcva <= va < srcva + n -> ureadable (k_mem s) root va = true) /\
    ((r = 0 /\ n = len) \/ (r = -1 /\ n < len /\ ureadable (k_mem s) root (srcva + n) = false)).
Proof. apply copyin_run. Qed.

(** C29: [copyinstr] returns 0 with the user's string up to and including its
    first NUL, or -1 when there is no NUL in the first [max] bytes or an
    unreadable page comes first; it never reads past either. *)
Theorem copyinstr_correct root s srcva max :
  tree_ok (k_mem s) 2 root -> 0 <= srcva < 2 ^ 64 -> 0 <= max ->
  exists r n, copyinstr root srcva max s = Ok (r, ubytes (k_mem s) root srcva n) s /\
    copyinstr_post (k_mem s) root srcva max r n.
Proof. apply copyinstr_run. Qed.

Lemma uwritable_readable s l root us va :
  uvm_inv s l root us -> high_ok (k_mem s) root -> 0 <= va ->
  uwritable (k_mem s) root va = true -> ureadable (k_mem s) root va = true.
Proof.
  intros Hinv Hhigh Hva Hw. destruct (uwritable_in _ _ _ _ _ Hinv Hhigh Hva Hw) as [Hin _].
  destruct (uvm_in _ _ _ _ Hinv _ Hin) as (_ & _ & _ & Rp). pose proof (ram_page_bounds _ Rp) as Hb.
  unfold upage in Hb. rewrite (pte_at_page _ _ (va / 4096 * 4096) va) in Hb by lia.
  unfold uwritable in Hw. unfold ureadable. rewrite !andb_true_iff in *.
  rewrite negb_true_iff, Z.eqb_neq. split; [tauto|lia].
Qed.

(** A buffer that [copyout] has put into a process's memory comes back
    unchanged from [copyin]. *)
Theorem copyout_copyin root l us src dstva len s s1 :
  uvm_inv s l root us -> high_ok (k_mem s) root -> 0 <= dstva < 2 ^ 64 -> 0 <= len ->
  copyout root dstva src len s = Ok 0 s1 ->
  copyin root dstva len s1 = Ok (0, map (fun i => u8 (src i)) (seqZ 0 len)) s1.
Proof.
  intros Hinv Hhigh Hva Hlen Hout.
  destruct (copyout_run root l us src dstva len s Hinv Hhigh Hva Hlen)
    as (r & n & m' & Hrun & Hinv' & Hn & Hw & Hrd & Ep & _ & Hres).
  rewrite Hrun in Hout. injection Hout as -> <-. destruct Hres as [[_ ->]|[? _]]; [|done].
  destruct (copyin_run root (set_k_mem m' s) dstva len) as (r & n & Hin & Hn' & _ & Hres);
    [apply (uvm_vm _ _ _ _ Hinv')|done|done|].
  cbn [k_mem set_k_mem] in Hin, Hres.
  assert (forall va, dstva <= va < dstva + len -> ureadable m' root va = true) as Hr.
  { intros va Hx. transitivity (ureadable (k_mem s) root va); [unfold ureadable; by rewrite Ep|].
    apply (uwritable_readable s l root us); [done|done|lia|by apply Hw]. }
  destruct Hres as [[-> ->]|(_ & ? & Hno)]; [|rewrite Hr in Hno by lia; done].
  rewrite Hin. do 2 f_equal. unfold ubytes.
  replace (seqZ dstva len) with (map (Z.add dstva) (seqZ 0 len)).
  2: { unfold seqZ. rewrite map_map. apply map_ext. intros i. lia. }
  rewrite map_map. apply map_ext_in. intros i Hi%list_elem_of_In%elem_of_seqZ.
  destruct (uwritable_in s l root us (dstva + i) Hinv Hhigh) as [Hus _]; [lia|apply Hw; lia|].
  rewrite Hrd by done. zdec; try lia. do 2 f_equal. lia.
Qed.

End claims.

(** ** Instances *)

Lemma mappages_witness :
  exists r m' f' new l' k,
    mappages sample_root 0 8192 0x80060000 PTE_R sample0 = Ok r (vm_upd m' f' sample0) /\
    sample_pages = new ++ l' /\ vm_inv (vm_upd m' f' sample0) l' 2 sample_root /\
    pt_pages m' 2 sample_root ≡ₚ new ++ pt_pages (k_mem sample0) 2 sample_root /\
    frame_out (new ++ pt_pages (k_mem sample0) 2 sample_root) (k_mem sample0) m' /\
    mapped (k_mem sample0) m' sample_root 0 0x80060000 PTE_R k /\
    ((r = 0 /\ k = 8192 / 4096) \/ (r = -1 /\ 0 <= k < 8192 / 4096 /\ l' = [])).
Proof.
  apply mappages_correct; [|solve [vm_compute; intuition discriminate]..|].
  - apply (uvm_vm _ _ _ _ (sample_empty sample_root ltac:(apply elem_of_cons; by left))).
  - intros a Ha. change (k_mem sample0) with sample_mem.
    rewrite pte_at_zero; [done|]. intros i Hi. by apply sample_zero.
Defined.

Lemma uvmalloc_witness :
  exists r m' f' l',
    uvmalloc sample_root 0 10000 PTE_W sample0 = Ok r (vm_upd m' f' sample0) /\
    ((r = 10000 /\ grown sample0 (vm_upd m' f' sample0) sample_pages l' sample_root (npg 0) (npg 10000) PTE_W) \/
     (r = 0 /\ rolled_back sample0 (vm_upd m' f' sample0) sample_pages l' sample_root (npg 0) (npg 0))).
Proof.
  apply uvmalloc_correct; [|solve [vm_compute; intuition discriminate]..].
  apply sample_empty. apply elem_of_cons. by left.
Defined.

Lemma uvmdealloc_witness :
  exists l m' f' l',
    uvmdealloc sample_root 5000 100 sample1 = Ok (Z.min 5000 100) (vm_upd m' f' sample1) /\
    uvm_sz (vm_upd m' f' sample1) l' sample_root (Z.min 5000 100) /\
    owned (vm_upd m' f' sample1) l' sample_root (seqZ 0 (npg (Z.min 5000 100))) ≡ₚ
      owned sample1 l sample_root (seqZ 0 (npg 5000)) /\
    frame_out (owned sample1 l sample_root (seqZ 0 (npg 5000))) (k_mem sample1) m' /\
    usame (k_mem sample1) m' sample_root (npg (Z.min 5000 100)).
Proof.
  destruct sample1_uvm as (l & m & f & _ & H & _). exists l.
  apply uvmdealloc_correct; [exact H|vm_compute; intuition discriminate|lia].
Defined.

Lemma uvmcopy_witness :
  exists l r m' f' l',
    uvmcopy sample_root sample_root2 5000 sample1 = Ok r (vm_upd m' f' sample1) /\
    ((r = 0 /\ copied sample1 (vm_upd m' f' sample1) l l' sample_root (npg 5000) sample_root2 0 (npg 5000)) \/
     (r = -1 /\ uncopied sample1 (vm_upd m' f' sample1) l l' sample_root (npg 5000) sample_root2 0)).
Proof.
  destruct sample1_pair as (l & H). exists l.
  apply uvmcopy_correct; [exact H|vm_compute; intuition discriminate].
Defined.

Lemma uvmfree_witness :
  exists l m' f' l', uvmfree sample_root 5000 sample1 = Ok tt (vm_upd m' f' sample1) /\
    freed (upages (k_mem sample1) sample_root (seqZ 0 (npg 5000))) sample1 (vm_upd m' f' sample1) l l'.
Proof.
  destruct sample1_uvm as (l & m & f & _ & H & _ & _ & Hs). exists l.
  apply uvmfree_no_leak; [exact H|vm_compute; intuition discriminate|].
  intros va Hva. rewrite (us_high _ _ _ _ Hs) by done.
  change (k_mem sample0) with sample_mem. rewrite pte_at_zero; [done|].
  intros i Hi. by apply sample_zero.
Defined.

Lemma copyout_witness :
  exists l r n m', copyout sample_root 4090 (fun i => 65 + i) 12 sample1 = Ok r (set_k_mem m' sample1) /\
    uvm_inv (set_k_mem m' sample1) l sample_root (seqZ 0 2) /\
    copyout_post (k_mem sample1) m' sample_root (seqZ 0 2) (fun i => 65 + i) 4090 0 12 r n.
Proof.
  destruct sample1_uvm as (l & m & f & _ & H & _). exists l.
  apply copyout_correct; [exact H|exact sample1_high|lia|lia].
Defined.

Lemma sample1_tree : tree_ok (k_mem sample1) 2 sample_root.
Proof. destruct sample1_uvm as (l & m & f & _ & H & _). apply (uvm_vm _ _ _ _ H). Qed.

Lemma copyin_witness :
  exists r n, copyin sample_root 4090 12 sample1 = Ok (r, ubytes (k_mem sample1) sample_root 4090 n) sample1 /\
    0 <= n <= 12 /\
    (forall va, 4090 <= va < 4090 + n -> ureadable (k_mem sample1) sample_root va = true) /\
    ((r = 0 /\ n = 12) \/ (r = -1 /\ n < 12 /\ ureadable (k_mem sample1) sample_root (4090 + n) = false)).
Proof. apply copyin_correct; [exact sample1_tree|lia|lia]. Defined.

Lemma copyinstr_witness :
  exists r n, copyinstr sample_root 4090 12 sample1 = Ok (r, ubytes (k_mem sample1) sample_root 4090 n) sample1 /\
    copyinstr_post (k_mem sample1) sample_root 4090 12 r n.
Proof. apply copyinstr_correct; [exact sample1_tree|lia|lia]. Defined.

(** A string written across a page boundary and read back. *)
Definition sample2 : kstate :=
  match copyout sample_root 4090 (fun i => 65 + i) 12 sample1 with Ok _ s => s | _ => sample1 end.

Lemma sample2_result :
  match copyout sample_root 4090 (fun i => 65 + i) 12 sample1 with Ok r _ => r | _ => -7 end = 0.
Proof. vm_compute. reflexivity. Qed.

Lemma sample2_run : copyout sample_root 4090 (fun i => 65 + i) 12 sample1 = Ok 0 sample2.
Proof.
  pose proof sample2_result as H. unfold sample2.
  destruct (copyout sample_root 4090 (fun i => 65 + i) 12 sample1); try discriminate H. by rewrite H.
Qed.

Lemma copyout_copyin_witness :
  copyin sample_root 4090 12 sample2 = Ok (0, map (fun i => u8 (65 + i)) (seqZ 0 12)) sample2.
Proof.
  destruct sample1_uvm as (l & m & f & _ & H & _).
  apply (copyout_copyin sample_root l (seqZ 0 2) (fun i => 65 + i) 4090 12 sample1 sample2);
    [exact H|exact sample1_high|lia|lia|exact sample2_run].
Defined.

Lemma kinit_witness :
  exists s' l, kinit zero_state = Ok tt s' /\ kmem_inv s' l /\ k_held s' = [] /\ forall p, p ∈ l <-> ram_page p.
Proof. apply (kinit_frees_all zero_state); [apply not_elem_of_nil|reflexivity]. Defined.

Lemma kalloc_witness :
  ((list_to_set sample_pages : gset Z) = ∅ /\ kalloc sample0 = Ok 0 sample0) \/
  (exists p s', kalloc sample0 = Ok p s' /\ p ∈ (list_to_set sample_pages : gset Z) /\
     free_pages s' (list_to_set sample_pages ∖ {[p]}) /\
     ram_page p /\ k_held s' = k_held sample0 /\ k_procs s' = k_procs sample0 /\
     (forall x, p <= x < p + 4096 -> load8 (k_mem s') x = 5) /\
     (forall x, x < p \/ p + 4096 <= x -> load8 (k_mem s') x = load8 (k_mem sample0) x)).
Proof.
  apply (kalloc_refines_set sample0 (list_to_set sample_pages)); [apply not_elem_of_nil|].
  exists sample_pages. split; [exact sample_kmem|reflexivity].
Defined.

Lemma kfree_witness :
  exists s', kfree sample_root sample0 = Ok tt s' /\
     free_pages s' ({[sample_root]} ∪ list_to_set sample_pages) /\ k_held s' = k_held sample0 /\
     (forall x, sample_root + 8 <= x < sample_root + 4096 -> load8 (k_mem s') x = 1) /\
     (forall x, x < sample_root \/ sample_root + 4096 <= x -> load8 (k_mem s') x = load8 (k_mem sample0) x).
Proof.
  apply (kfree_refines_set sample0 (list_to_set sample_pages) sample_root).
  - apply not_elem_of_nil.
  - exists sample_pages. split; [exact sample_kmem|reflexivity].
  - pose proof sample_ram as [H _]%Forall_cons. exact H.
  - rewrite elem_of_list_to_set. apply (bool_decide_unpack _). vm_compute. exact I.
Defined.

(** An address inside a page. *)
Lemma kfree_rejects_witness : kfree (sample_root + 1) sample0 = Panic "kfree".
Proof. apply (kfree_rejects sample0 (sample_root + 1)). intros [H _]. vm_compute in H. discriminate. Defined.
