(* ===== verification/SampleFs.v ===== *)
(** * Concrete states of the file system

    A cache just initialised by [binit] over an empty disk, and one block
    pinned in it as [log_write] leaves it. *)

From S2P Require Import Prelude Riscv Mem State Sched SchedSpec Bio BioLocks BioList Cache BioSpec Session Log LogSpec Sample.

(** No other thread changes anything. *)
Definition idle_env : Env := fun _ s => s.
#[export] Existing Instance idle_env.

Definition sample_proc : proc := set_p_pid 1 (set_p_state RUNNING zero_proc).
Definition sample_log : logst := mk_logst 2 30 0 false 1 (mk_logheader 1 (<[0%nat := 100]> (replicate 30 0))).

Definition fs0 : kstate :=
  set_k_cur (Some 0%nat) (set_k_procs (<[0%nat := sample_proc]> (replicate 64 zero_proc))
    (set_k_log sample_log zero_state)).

Lemma fs0_ready : ready fs0 0 1.
Proof.
  split; try done.
  - by exists sample_proc.
  - intros i H. by apply elem_of_nil in H.
  - intros H. by apply elem_of_nil in H.
  - intros i H. by apply elem_of_nil in H.
Qed.

(** After [binit]. *)
Lemma fs0_cache : exists s, binit fs0 = Ok tt s /\ core s = core fs0 /\ k_procs s = k_procs fs0 /\
  k_disk s = (fun _ => zero_block) /\ k_wtrace s = [] /\ crep 1 s (cells (k_disk s) no_pins).
Proof.
  destruct (binit_spec 1 fs0) as (bs & Hrun & Hrep); [done| |].
  { apply Forall_replicate. done. }
  by exists (set_k_bufs bs fs0).
Qed.

(** A rebooted machine: the cache is empty. *)
Lemma fs0_rest : exists s, ready s 0 1 /\ k_log s = sample_log /\ k_disk s = (fun _ => zero_block) /\
  k_wtrace s = [] /\ k_held s = [] /\ crep 1 s (cells (k_disk s) no_pins).
Proof.
  destruct fs0_cache as (s & _ & Hc & Hp & Hd & Hw & Hrep). exists s.
  assert (bframe 0 fs0 s) as Hf by (split; [done|by rewrite Hp]).
  split; [by eapply bframe_ready; [|apply fs0_ready]|]. split; [by apply (bframe_log _ _ _ Hf)|].
  split; [done|]. split; [done|]. split; [by apply (bframe_held _ _ _ Hf)|done].
Qed.

(** Block 100 pinned: [bread], [bpin], [brelse]. *)
Definition pin100 : pins := upd no_pins 100 (Some zero_block).

Lemma fs0_pinned : exists s, ready s 0 1 /\ k_log s = sample_log /\ k_disk s = (fun _ => zero_block) /\
  crep 1 s (cells (k_disk s) pin100).
Proof.
  destruct fs0_rest as (s & Hrd & Hlog & Hd & Hw & _ & Hrep).
  assert (sess (crep := crep 1) (chold := chold 1) 0 1 s (k_disk s) [] (cells (k_disk s) no_pins) [] s) as Hs.
  { split; try done. intros i b H. by apply elem_of_nil in H. }
  assert (wp (let! i := bread 1 100 in bpin i ;;; brelse i)
    (fun _ s' => sess (crep := crep 1) (chold := chold 1) 0 1 s (k_disk s) [] (cells (k_disk s) pin100) [] s') s) as Hwp.
  { eapply sess_bread; [exact Hs|done|done| |].
    { apply cells_room. exists []. split; [by intros x [? ?]|by apply Nat.ltb_lt]. }
    cbn [c_data c_ref c_owner cells no_pins idle]. intros i s1 Hs1.
    eapply sess_bpin; [exact Hs1|elems|by rewrite upd_same|]. rewrite upd_same. cbn. intros s2 Hs2.
    rewrite <- (bind_ret_r (brelse i)).
    eapply (sess_brelse _ _ _ _ _ _ _ _ i 100 []); [exact Hs2|elems|by rewrite upd_same|by rewrite upd_same| |].
    { intros n y []%elem_of_nil. }
    rewrite upd_same. cbn. intros s3 Hs3. apply wp_ret. eapply sess_ext; [exact Hs3|].
    intros y. unfold cells, pin100, upd. rewrite Hd. by destruct (y =? 100). }
  apply wp_elim in Hwp as (u & s' & _ & [H1 H2 H3 H4 H5 H6]). exists s'.
  split; [done|]. split; [by rewrite (bframe_log _ _ _ H3)|]. split; [by rewrite H4|]. by rewrite H4.
Qed.

Lemma pin100_committable : committable pin100 2 [100] [zero_block].
Proof.
  assert (forall b, b <> 100 -> pin100 b = None) as H by (intros b Hb; unfold pin100; by rewrite upd_other).
  split.
  - by repeat constructor.
  - apply NoDup_singleton.
  - intros b i ->%list_elem_of_singleton Hi. unfold slot. unfold LOGSIZE, MAXOPBLOCKS in Hi. lia.
  - by apply H.
  - intros i Hi. apply H. unfold slot. unfold LOGSIZE, MAXOPBLOCKS in Hi. lia.
  - exists [100]. split; [|by apply Nat.ltb_lt]. intros x Hx. destruct (decide (x = 100)) as [->|Hne]; [elems|].
    rewrite H in Hx by done. by destruct Hx.
Qed.

Lemma sample_log_at : log_at 1 sample_log 2 [100].
Proof.
  split; try done.
  - intros [|i] b Hb; cbn in Hb; [by injection Hb as <-|done].
  - by apply Nat.leb_le.
  - by repeat constructor.
Qed.
