(* ===== verification/LogClaims.v ===== *)
(** * The properties of the log (kernel/log.c) on the cache of kernel/bio.c *)

From Stdlib Require Import FunctionalExtensionality.
From S2P Require Import Prelude Riscv Mem State Sched SchedSpec Bio BioLocks BioList Cache BioSpec Session Log LogSpec LogCrash Sample SampleFs.

(** A machine that comes up with disk [d]: nothing is cached, and [initlog]
    has set the log's variables. *)
Record rebooted (dev start : Z) (d : Z -> block) (r : kstate) (me : nat) (pid : Z) : Prop := {
  rb_ready : ready r me pid;
  rb_rep : crep dev r (cells d no_pins);
  rb_disk : k_disk r = d;
  rb_log : log_set (dev := dev) (k_log r) start
}.

(** A log as [mkfs] sizes it, with twenty blocks in it, and ten buffers of
    other blocks. *)
Definition overcommit : kstate :=
  set_k_log (mk_logst 2 LOGSIZE 0 false 1 (mk_logheader 20 (map (fun i => 100 + i) (seqZ 0 30))))
    (set_k_bufs (map (fun i => mk_buf true false 1 (200 + i) zero_lock 1 0 0 zero_block) (seqZ 0 31)) fs0).

Section claims.
Context {EN : Env} (dev : Z).

#[local] Abbreviation sess := (sess (crep := crep dev) (chold := chold dev)).

Lemma sess_here s me pid P :
  ready s me pid -> crep dev s (cells (k_disk s) P) ->
  sess me pid s (k_disk s) (k_wtrace s) (cells (k_disk s) P) [] s.
Proof. intros Hr Hc. split; try done. intros i b H. by apply elem_of_nil in H. Qed.

Lemma recover_run r d me pid start bs :
  rebooted dev start d r me pid -> head_is (d start) bs -> (length bs <= Z.to_nat LOGSIZE)%nat ->
  Forall (fun b => 0 <= b < 2 ^ 31) bs -> (forall b, b ∈ bs -> home start b) ->
  exists r', recover_from_log r = Ok tt r' /\ k_disk r' = apply_writes d (recover_writes d start bs) /\
    k_wtrace r' = reverse (recover_writes d start bs) ++ k_wtrace r.
Proof.
  intros [Hrd Hrep Hd Hlog] Hhd Hmax Hbs Hhome. subst d.
  pose proof (recover_spec me pid r (k_disk r) (k_wtrace r) r start bs (sess_here r me pid no_pins Hrd Hrep)
    Hlog Hhd Hmax Hbs) as Hwp.
  apply wp_elim in Hwp as (u & r' & Hrun & l & _ & [_ _ _ H4 H5 _]).
  - exists r'. destruct u. done.
  - intros b i Hb Hi. by apply (Hhome b Hb).
  - intros Hst. by destruct (Hhome _ Hst).
Qed.

Lemma recover_home d start bs b :
  home start b -> apply_writes d (recover_writes d start bs) b = apply_writes d (home_writes d start bs) b.
Proof. intros [Hb _]. unfold recover_writes. rewrite apply_writes_app. cbn. by rewrite upd_other. Qed.

Lemma committable_home P start bs xs b : committable P start bs xs -> b ∈ bs -> home start b.
Proof.
  intros [Hp _ Hoff Hst _ _] Hb. split; [|intros i Hi; by apply Hoff].
  apply list_elem_of_lookup in Hb as [i Hi]. destruct (Forall2_lookup_l _ _ _ _ _ Hp Hi) as (x & _ & E). congruence.
Qed.

Lemma commit_empty s : lh_n_of (k_log s) = 0 -> commit s = Ok tt s.
Proof. intros H. unfold commit, log_get. by rewrite bind_gets, H. Qed.

(** Recovery of the disk a crash inside the commit leaves. *)
Lemma crash_recover d start bs xs w1 w2 r me pid :
  length bs = length xs -> (length bs <= Z.to_nat LOGSIZE)%nat -> Forall (fun b => 0 <= b < 2 ^ 31) bs ->
  NoDup bs -> (forall b, b ∈ bs -> home start b) -> head_is (d start) [] ->
  commit_writes d start bs xs = w1 ++ w2 -> rebooted dev start (apply_writes d w1) r me pid ->
  exists r', recover_from_log r = Ok tt r' /\
    ((forall b, home start b -> k_disk r' b = d b) \/
     (forall b, home start b -> k_disk r' b = installed d bs xs b)).
Proof.
  intros Hlen Hmax Hrange Hnd Hhome Hemp Hw Hrb.
  assert ((length (@nil Z) <= Z.to_nat LOGSIZE)%nat) as Hnil by (cbn; lia).
  assert (forall b, b ∈ [] -> home start b) as Hnilh by (intros b []%elem_of_nil).
  destruct (commit_prefix d start bs xs Hlen Hmax Hrange Hnd Hhome Hemp w1 w2 Hw)
    as [[Hhd He]|[(Hhd & Hhw & k & He)|[Hhd He]]].
  - destruct (recover_run _ _ _ _ _ _ Hrb Hhd Hnil (Forall_nil_2 _) Hnilh) as (r' & Hrun & Hd & _).
    exists r'. split; [done|]. left. intros b Hb. rewrite Hd, recover_home by done. by apply He.
  - destruct (recover_run _ _ _ _ _ _ Hrb Hhd Hmax Hrange Hhome) as (r' & Hrun & Hd & _).
    exists r'. split; [done|]. right. intros b Hb. rewrite Hd, recover_home, Hhw by done.
    rewrite <- (reinstall bs xs Hlen Hmax Hnd d k b). apply apply_writes_agree. by apply He.
  - destruct (recover_run _ _ _ _ _ _ Hrb Hhd Hnil (Forall_nil_2 _) Hnilh) as (r' & Hrun & Hd & _).
    exists r'. split; [done|]. right. intros b Hb. rewrite Hd, recover_home by done. by apply He.
Qed.

(** A second recovery after part of the home blocks have been written. *)
Lemma recover_again d start bs k q me pid r' :
  head_is (d start) bs -> (length bs <= Z.to_nat LOGSIZE)%nat ->
  Forall (fun b => 0 <= b < 2 ^ 31) bs -> (forall b, b ∈ bs -> home start b) ->
  k_disk r' = apply_writes d (recover_writes d start bs) ->
  rebooted dev start (apply_writes d (take k (home_writes d start bs))) q me pid ->
  exists q', recover_from_log q = Ok tt q' /\ forall b, home start b -> k_disk q' b = k_disk r' b.
Proof.
  intros Hhd Hmax Hrange Hhome Hd Hq. set (e := apply_writes d _) in Hq.
  assert (forall b, ~ home start b -> e b = d b) as He.
  { intros b Hb. apply apply_writes_out. rewrite fmap_take, home_writes_fst. intros (i & Hi & _)%elem_of_take.
    apply Hb, Hhome. by eapply list_elem_of_lookup_2. }
  assert (home_writes e start bs = home_writes d start bs) as Ehw.
  { apply imap_ext. intros i b Hi. f_equal. apply He. apply slot_not_home. apply lookup_lt_Some in Hi. lia. }
  assert (head_is (e start) bs) as Hhd' by (rewrite He; [done|by intros [? _]]).
  destruct (recover_run _ _ _ _ _ _ Hq Hhd' Hmax Hrange Hhome) as (q' & Hrun & Hd' & _).
  exists q'. split; [done|]. intros b Hb. rewrite Hd, Hd', !recover_home, Ehw by done.
  destruct (decide (b ∈ bs)) as [Hin|Hin].
  - apply apply_writes_hit. by rewrite home_writes_fst.
  - rewrite !(apply_writes_out _ (home_writes d start bs)) by (by rewrite home_writes_fst).
    unfold e. apply apply_writes_out. rewrite fmap_take, home_writes_fst. intros (i & Hi & _)%elem_of_take.
    apply Hin. by eapply list_elem_of_lookup_2.
Qed.

(** C1: a commit is atomic.  With the blocks [bs] of the transaction pinned with
    contents [xs], [commit] returns without a panic, leaves the transaction
    installed, the pins dropped and the log empty.  If the machine stops after
    any prefix of the disk writes of the commit, [recover_from_log] on the
    disk left behind restores, outside the log, either every block as it was
    before the transaction or every block as the transaction wrote it. *)
Theorem commit_atomic s me pid P start bs xs :
  ready s me pid -> crep dev s (cells (k_disk s) P) -> log_at dev (k_log s) start bs ->
  committable P start bs xs -> head_is (k_disk s start) [] ->
  exists s' ws, commit s = Ok tt s' /\ k_wtrace s' = reverse ws ++ k_wtrace s /\
    crep dev s' (cells (k_disk s') (unpins P bs)) /\ lh_n_of (k_log s') = 0 /\
    (forall b, home start b -> k_disk s' b = installed (k_disk s) bs xs b) /\
    forall w1 w2, ws = w1 ++ w2 -> forall r me' pid', rebooted dev start (apply_writes (k_disk s) w1) r me' pid' ->
      exists r', recover_from_log r = Ok tt r' /\
        ((forall b, home start b -> k_disk r' b = k_disk s b) \/
         (forall b, home start b -> k_disk r' b = installed (k_disk s) bs xs b)).
Proof.
  intros Hrd Hrep Hla Hcm Hemp. pose proof (Forall2_length _ _ _ (cm_pins _ _ _ _ Hcm)) as Hlen.
  pose proof (la_max _ _ _ _ Hla) as Hmax. pose proof (la_home _ _ _ _ Hla) as Hrange.
  assert (forall b, b ∈ bs -> home start b) as Hhome by (intros b Hb; by eapply committable_home).
  destruct (decide (bs = [])) as [->|Hne].
  { destruct xs; [|done]. exists s, []. split; [by apply commit_empty, (la_n _ _ _ _ Hla)|].
    split; [done|]. split; [exact Hrep|]. split; [by rewrite (la_n _ _ _ _ Hla)|]. split; [done|].
    intros w1 w2 [-> ->]%eq_sym%app_eq_nil r me' pid' Hrb.
    destruct (recover_run _ _ _ _ _ [] Hrb Hemp ltac:(cbn; lia) (Forall_nil_2 _)) as (r' & Hrun & Hd & _);
      [by intros b []%elem_of_nil|].
    exists r'. split; [done|]. left. intros b Hb. by rewrite Hd, recover_home. }
  pose proof (commit_spec me pid s (k_disk s) (k_wtrace s) P s start bs xs (sess_here s me pid P Hrd Hrep) Hla Hcm Hne) as Hwp.
  apply wp_elim in Hwp as ([] & s' & Hrun & Hs').
  exists s', (commit_writes (k_disk s) start bs xs). split; [done|]. split; [apply Hs'|].
  split; [rewrite (ss_disk _ _ _ _ _ _ _ _ Hs'); apply Hs'|].
  split; [by rewrite (bframe_log _ _ _ (ss_frame _ _ _ _ _ _ _ _ Hs'))|]. split.
  - intros b Hb. rewrite (ss_disk _ _ _ _ _ _ _ _ Hs'). by apply commit_done.
  - intros w1 w2 Hw r me' pid' Hrb. eapply crash_recover; eauto. by apply Hcm.
Qed.

(** C14: recovery can itself be interrupted.  If the machine stops after any prefix
    of the writes of [recover_from_log], running [recover_from_log] again leaves
    every block outside the log as the uninterrupted recovery would have. *)
Theorem recovery_idempotent r d me pid start bs :
  rebooted dev start d r me pid -> head_is (d start) bs -> (length bs <= Z.to_nat LOGSIZE)%nat ->
  Forall (fun b => 0 <= b < 2 ^ 31) bs -> (forall b, b ∈ bs -> home start b) ->
  exists r' ws, recover_from_log r = Ok tt r' /\ k_wtrace r' = reverse ws ++ k_wtrace r /\
    forall w1 w2, ws = w1 ++ w2 -> forall q me' pid', rebooted dev start (apply_writes d w1) q me' pid' ->
      exists q', recover_from_log q = Ok tt q' /\ forall b, home start b -> k_disk q' b = k_disk r' b.
Proof.
  intros Hrb Hhd Hmax Hrange Hhome.
  destruct (recover_run _ _ _ _ _ _ Hrb Hhd Hmax Hrange Hhome) as (r' & Hrun & Hd & Hw).
  exists r', (recover_writes d start bs). split; [done|]. split; [done|].
  intros w1 w2 Hsplit q me' pid' Hq. unfold recover_writes in Hsplit. symmetry in Hsplit.
  destruct (prefix_cases _ _ _ _ Hsplit) as [[k ->]|(m & -> & Hm)].
  { by apply (recover_again d start bs k q me' pid' r'). }
  destruct m as [|p m].
  { rewrite app_nil_r in Hq. rewrite <- (firstn_all (home_writes d start bs)) in Hq.
    by eapply (recover_again d start bs _ q me' pid' r'). }
  cbn in Hm. injection Hm as -> Hm. apply app_eq_nil in Hm as [-> _].
  assert (head_is (apply_writes d (home_writes d start bs ++ [(start, put_head (d start) [])]) start) []) as Hhd'.
  { rewrite apply_writes_app. cbn. rewrite upd_same. apply (put_head_is (d start) []); [cbn; lia|constructor]. }
  destruct (recover_run _ _ _ _ _ [] Hq Hhd' ltac:(cbn; lia) (Forall_nil_2 _)) as (q' & Hrun' & Hd' & _);
    [by intros b []%elem_of_nil|].
  exists q'. split; [done|]. intros b Hb. rewrite Hd', recover_home by done. by rewrite Hd.
Qed.

(** [log_write] of a held buffer adds its block to the transaction once: a
    block already in it is absorbed and nothing else changes, a new block is
    appended to the header and its buffer gets one more reference. *)
Theorem log_write_absorbs s me pid A start bs i b :
  ready s me pid -> crep dev s A -> chold dev s i b -> 0 < c_ref (A b) < 2 ^ 32 - 1 -> 0 <= b < 2 ^ 31 ->
  log_at dev (k_log s) start bs -> Llog ∉ k_held s -> 1 <= log_outstanding (k_log s) ->
  (length bs < Z.to_nat LOGSIZE)%nat -> Z.of_nat (length bs) < log_size (k_log s) - 1 ->
  exists s', log_write i s = Ok tt s' /\ log_at dev (k_log s') start (absorb bs b) /\
    crep dev s' (if decide (b ∈ bs) then A
                 else upd A b (mk_cell (c_data (A b)) (c_ref (A b) + 1) (c_owner (A b)))) /\
    k_disk s' = k_disk s /\ k_wtrace s' = k_wtrace s.
Proof using EN.
  intros Hrd Hrep Hh Hr Hb Hla Hl Hout Hlt Hsz.
  assert (sess me pid s (k_disk s) (k_wtrace s) A [(i, b)] s) as Hs.
  { split; try done. intros j x [= -> ->]%list_elem_of_singleton. split; [done|lia]. }
  pose proof (log_write_spec me pid s _ _ A [(i, b)] s start bs i b Hs Hla) as Hwp.
  apply wp_elim in Hwp as ([] & s' & Hrun & l & Hl' & _ & [H1 H2 H3 H4 H5 _]);
    [|elems|done|done|done|done|done|lia].
  exists s'. split; [done|]. rewrite (bframe_log _ _ _ H3). split; [done|]. split; [done|].
  done.
Qed.

End claims.


(** The hypotheses of [commit_atomic] hold of a transaction of one block. *)
Lemma commit_witness : exists s s',
  head_is (k_disk s 2) [] /\ commit s = Ok tt s' /\ lh_n_of (k_log s') = 0.
Proof.
  destruct fs0_pinned as (s & Hrd & Hlog & Hd & Hrep).
  assert (head_is (k_disk s 2) []) as Hhd by (rewrite Hd; by split).
  assert (log_at 1 (k_log s) 2 [100]) as Hla by (rewrite Hlog; exact sample_log_at).
  destruct (commit_atomic 1 s 0 1 pin100 2 [100] [zero_block] Hrd Hrep Hla pin100_committable Hhd)
    as (s' & ws & Hrun & _ & _ & Hn & _).
  exists s, s'. split; [exact Hhd|]. split; [exact Hrun|exact Hn].
Defined.

(** A rebooted machine whose disk holds a committed transaction: the header at
    block 2 names block 100. *)
Definition crashed_disk : Z -> block := upd (fun _ => zero_block) 2 (put_head zero_block [100]).

Lemma rebooted_sample : exists r, rebooted 1 2 crashed_disk r 0 1.
Proof.
  destruct (binit_spec 1 (set_k_disk crashed_disk fs0)) as (bs & _ & Hrep); [done|by apply Forall_replicate|].
  exists (set_k_bufs bs (set_k_disk crashed_disk fs0)). split; [|exact Hrep|done|by split].
  destruct fs0_ready. by split.
Qed.

Lemma recovery_witness : exists r r', rebooted 1 2 crashed_disk r 0 1 /\ recover_from_log r = Ok tt r'.
Proof.
  destruct rebooted_sample as [r Hr].
  destruct (recovery_idempotent 1 r crashed_disk 0 1 2 [100] Hr) as (r' & ws & Hrun & _).
  - apply put_head_is; [by apply Nat.leb_le|by repeat constructor].
  - by apply Nat.leb_le.
  - by repeat constructor.
  - intros b ->%list_elem_of_singleton. split; [done|]. intros i Hi. unfold slot.
    unfold LOGSIZE, MAXOPBLOCKS in Hi. lia.
  - exists r, r'. split; [exact Hr|exact Hrun].
Defined.

(** Block 101 is added to the transaction that has block 100. *)
Lemma log_write_witness : exists s s' i, log_write i s = Ok tt s' /\ log_at 1 (k_log s') 2 [100; 101].
Proof.
  destruct fs0_rest as (s & Hrd & Hlog & Hd & Hw & Hk & Hrep).
  destruct (bread_spec 1 s 0 1 _ 101 Hrd Hrep) as (i & s1 & _ & [C1 F1 _] & Hh & _ & _); [done|done| |].
  { apply cells_room. exists []. split; [by intros x [? ?]|by apply Nat.ltb_lt]. }
  set (s2 := set_k_log (set_log_outstanding 1 sample_log) s1).
  assert (log_at 1 (k_log s2) 2 [100]) as Hla by (destruct sample_log_at; by split).
  assert (ready s2 0 1) as Hrd2 by (destruct (bframe_ready _ _ _ _ F1 Hrd); by split).
  assert (Llog ∉ k_held s2) as Hll.
  { cbn. rewrite (bframe_held _ _ _ F1), Hk. by intros H%elem_of_nil. }
  destruct (log_write_absorbs 1 s2 0 1 _ 2 [100] i 101 Hrd2 (crep_frame 1 s1 _ s2 C1 eq_refl eq_refl) Hh)
    as (s' & Hrun & Hl & _).
  - rewrite upd_same. cbn. lia.
  - lia.
  - exact Hla.
  - exact Hll.
  - cbn. lia.
  - by apply Nat.ltb_lt.
  - cbn. unfold LOGSIZE, MAXOPBLOCKS. lia.
  - exists s2, s', i. split; [exact Hrun|]. exact Hl.
Defined.
