(* ===== verification/Fs.v ===== *)
(** * kernel/fs.c: blocks, inodes, directories and paths

    A pointer to an inode is an index into [k_itable]; a path or a name is the
    list of its bytes before the NUL.  [dst] and [src] are the two kinds of
    address that [either_copyout] and [either_copyin] take. *)

From S2P Require Import Prelude Riscv Mem Cstring State Sched Uart Bio Log Kalloc Vm.

(** ** fs.h *)

Definition ROOTINO : Z := 1.
Definition BSIZE : Z := 1024.
Definition FSMAGIC : Z := 0x10203040.
Definition NDIRECT : Z := 12.
Definition NINDIRECT : Z := BSIZE / 4.
Definition MAXFILE : Z := NDIRECT + NINDIRECT.
Definition DINODE_SIZE : Z := 64.
Definition IPB : Z := BSIZE / DINODE_SIZE.
Definition IBLOCK (i : Z) (sb : superblock) : Z := u32 (i / IPB + sb_inodestart sb).
Definition BPB : Z := BSIZE * 8.
Definition BBLOCK (b : Z) (sb : superblock) : Z := u32 (b / BPB + sb_bmapstart sb).
Definition DIRSIZ : Z := 14.
Definition DIRENT_SIZE : Z := 16.
Definition T_DIR : Z := 1.
Definition T_FILE : Z := 2.
Definition T_DEVICE : Z := 3.

#[export] Hint Unfold ROOTINO BSIZE NDIRECT NINDIRECT MAXFILE DINODE_SIZE IPB BPB DIRSIZ DIRENT_SIZE
  T_DIR T_FILE T_DEVICE : kconst.

(** [struct dinode] at byte [o] of a block. *)
Definition load16 := loadn 2.
Definition store16 := storen 2.

Definition di_type (d : block) (o : Z) : Z := s16 (load16 d o).
Definition di_major (d : block) (o : Z) : Z := s16 (load16 d (o + 2)).
Definition di_minor (d : block) (o : Z) : Z := s16 (load16 d (o + 4)).
Definition di_nlink (d : block) (o : Z) : Z := s16 (load16 d (o + 6)).
Definition di_size (d : block) (o : Z) : Z := load32 d (o + 8).
Definition di_addr (d : block) (o i : Z) : Z := load32 d (o + 12 + 4 * i).

(** Where inode [inum] starts in its block. *)
Definition di_off (inum : Z) : Z := inum mod IPB * DINODE_SIZE.

Definition dinode_put (d : block) (o : Z) (ip : inode) : block :=
  let d := store16 d o (u16 (i_type ip)) in
  let d := store16 d (o + 2) (u16 (i_major ip)) in
  let d := store16 d (o + 4) (u16 (i_minor ip)) in
  let d := store16 d (o + 6) (u16 (i_nlink ip)) in
  let d := store32 d (o + 8) (i_size ip) in
  fold_left (fun d i => store32 d (o + 12 + 4 * i) (nth (Z.to_nat i) (i_addrs ip) 0))
    (seqZ 0 (NDIRECT + 1)) d.

Definition dinode_get (d : block) (o : Z) (ip : inode) : inode :=
  set_i_addrs (map (di_addr d o) (seqZ 0 (NDIRECT + 1)))
    (set_i_size (di_size d o) (set_i_nlink (di_nlink d o) (set_i_minor (di_minor d o)
      (set_i_major (di_major d o) (set_i_type (di_type d o) ip))))).

(** [struct superblock] in a block. *)
Definition sb_of_block (d : block) : superblock :=
  mk_superblock (load32 d 0) (load32 d 4) (load32 d 8) (load32 d 12) (load32 d 16) (load32 d 20)
    (load32 d 24) (load32 d 28).

(** ** Copies to and from either address space (proc.c) *)

(** A kernel address is physical memory, or a variable of the caller, whose
    new contents are then returned. *)
Inductive dst : Type := ToUser (va : Z) | ToMem (pa : Z) | ToVar.
Inductive src : Type := FromUser (va : Z) | FromKern (p : cptr).

Definition dst_add (d : dst) (m : Z) : dst :=
  match d with ToUser va => ToUser (u64 (va + m)) | ToMem pa => ToMem (u64 (pa + m)) | ToVar => ToVar end.
Definition src_add (a : src) (m : Z) : src :=
  match a with FromUser va => FromUser (u64 (va + m)) | FromKern p => FromKern (fun i => p (m + i)) end.

Definition cbytes (p : cptr) (n : Z) : list Z := map (fun i => u8 (p i)) (seqZ 0 n).

Section fs.
Context {EN : Env} {KI : KernelImage}.

Definition either_copyout (d : dst) (p : cptr) (len : Z) : M kstate (Z * list Z) :=
  let! me := curproc in
  match d with
  | ToUser va => let! pr := proc_get me in
                 let! r := copyout (p_pagetable pr) va p len in ret (r, [])
  | ToMem pa => mem_mod (fun m => store_from m pa p len) ;;; ret (0, [])
  | ToVar => ret (0, cbytes p len)
  end.

(** The bytes that reach the destination, also when the copy fails half way. *)
Definition either_copyin (a : src) (len : Z) : M kstate (Z * list Z) :=
  let! me := curproc in
  match a with
  | FromUser va => let! pr := proc_get me in copyin (p_pagetable pr) va len
  | FromKern p => ret (0, cbytes p len)
  end.

(** ** Blocks *)

Definition readsb (dev : Z) : M kstate superblock :=
  let! bp := bread dev 1 in
  let! d := bdata bp in
  brelse bp ;;;
  ret (sb_of_block d).

Definition fsinit (dev : Z) : M kstate unit :=
  let! sb := readsb dev in
  modify (set_k_sb sb) ;;;
  panic_if (negb (sb_magic sb =? FSMAGIC)) "invalid file system" ;;;
  initlog dev sb.

Definition bzero (dev bno : Z) : M kstate unit :=
  let! bp := bread dev bno in
  bdata_mod bp (fun d => memset d 0 0 BSIZE) ;;;
  log_write bp ;;;
  brelse bp.

(** The inner loop of [balloc]: the first clear bit [bi] with [b + bi < size]. *)
Fixpoint bit_find (k : nat) (d : block) (b size bi : Z) : option Z :=
  match k with
  | O => None
  | S k' => if b + bi <? size then
              if Z.land (load8 d (bi / 8)) (Z.shiftl 1 (bi mod 8)) =? 0 then Some bi
              else bit_find k' d b size (bi + 1)
            else None
  end.

Definition balloc_body (dev : Z) (b : Z) : M kstate (Z + option Z) :=
  let! sb := gets k_sb in
  if b <? sb_size sb then
    let! bp := bread dev (BBLOCK b sb) in
    let! d := bdata bp in
    match bit_find (Z.to_nat BPB) d b (sb_size sb) 0 with
    | Some bi =>
        bdata_mod bp (fun d => store8 d (bi / 8) (Z.lor (load8 d (bi / 8)) (Z.shiftl 1 (bi mod 8)))) ;;;
        log_write bp ;;;
        brelse bp ;;;
        bzero dev (b + bi) ;;;
        ret (inr (Some (b + bi)))
    | None =>
        brelse bp ;;;
        ret (inl (b + BPB))
    end
  else ret (inr None).

Definition balloc (dev : Z) : M kstate Z :=
  let! sb := gets k_sb in
  let! r := mloop (S (Z.to_nat (sb_size sb / BPB + 1))) (balloc_body dev) 0 in
  match r with
  | Some b => ret b
  | None => kputs "balloc: out of blocks" ;;; ret 0
  end.

Definition bfree (dev b : Z) : M kstate unit :=
  let! sb := gets k_sb in
  let! bp := bread dev (BBLOCK b sb) in
  let bi := b mod BPB in
  let m := Z.shiftl 1 (bi mod 8) in
  let! d := bdata bp in
  panic_if (Z.land (load8 d (bi / 8)) m =? 0) "freeing free block" ;;;
  bdata_mod bp (fun d => store8 d (bi / 8) (Z.land (load8 d (bi / 8)) (Z.lnot m))) ;;;
  log_write bp ;;;
  brelse bp.

(** ** Inodes *)

Definition iinit : M kstate unit := mfor (seq 0 (Z.to_nat NINODE)) (fun i => initsleeplock (SLinode i)).

Definition iget (dev inum : Z) : M kstate nat :=
  acquire Litable ;;;
  let! t := gets k_itable in
  match list_find (fun ip => 0 < i_ref ip /\ i_dev ip = dev /\ i_inum ip = inum) t with
  | Some (i, _) =>
      inode_mod i (fun ip => set_i_ref (i_ref ip + 1) ip) ;;;
      release Litable ;;;
      ret i
  | None =>
      match list_find (fun ip => i_ref ip = 0) t with
      | None => panic "iget: no inodes"
      | Some (i, _) =>
          inode_mod i (fun ip => set_i_valid false (set_i_ref 1 (set_i_inum inum (set_i_dev dev ip)))) ;;;
          release Litable ;;;
          ret i
      end
  end.

Definition idup (i : nat) : M kstate nat :=
  acquire Litable ;;;
  inode_mod i (fun ip => set_i_ref (i_ref ip + 1) ip) ;;;
  release Litable ;;;
  ret i.

Definition ialloc_body (dev type : Z) (inum : Z) : M kstate (Z + option nat) :=
  let! sb := gets k_sb in
  if inum <? sb_ninodes sb then
    let! bp := bread dev (IBLOCK inum sb) in
    let! d := bdata bp in
    let o := di_off inum in
    if di_type d o =? 0 then
      bdata_mod bp (fun d => store16 (memset d o 0 DINODE_SIZE) o (u16 type)) ;;;
      log_write bp ;;;
      brelse bp ;;;
      let! i := iget dev inum in
      ret (inr (Some i))
    else
      brelse bp ;;;
      ret (inl (inum + 1))
  else ret (inr None).

Definition ialloc (dev type : Z) : M kstate (option nat) :=
  let! sb := gets k_sb in
  let! r := mloop (S (Z.to_nat (sb_ninodes sb))) (ialloc_body dev type) 1 in
  match r with
  | Some i => ret (Some i)
  | None => kputs "ialloc: no inodes" ;;; ret None
  end.

Definition iupdate (i : nat) : M kstate unit :=
  let! ip := inode_get i in
  let! sb := gets k_sb in
  let! bp := bread (i_dev ip) (IBLOCK (i_inum ip) sb) in
  bdata_mod bp (fun d => dinode_put d (di_off (i_inum ip)) ip) ;;;
  log_write bp ;;;
  brelse bp.

Definition ilock (ip : option nat) : M kstate unit :=
  match ip with
  | None => panic "ilock"
  | Some i =>
      let! n := inode_get i in
      panic_if (i_ref n <? 1) "ilock" ;;;
      acquiresleep (SLinode i) ;;;
      let! n := inode_get i in
      when (negb (i_valid n))
        (let! sb := gets k_sb in
         let! bp := bread (i_dev n) (IBLOCK (i_inum n) sb) in
         let! d := bdata bp in
         inode_mod i (dinode_get d (di_off (i_inum n))) ;;;
         brelse bp ;;;
         inode_mod i (set_i_valid true) ;;;
         panic_if (di_type d (di_off (i_inum n)) =? 0) "ilock: no type")
  end.

Definition iunlock (ip : option nat) : M kstate unit :=
  match ip with
  | None => panic "iunlock"
  | Some i =>
      let! h := holdingsleep (SLinode i) in
      let! n := inode_get i in
      panic_if (negb h || (i_ref n <? 1)) "iunlock" ;;;
      releasesleep (SLinode i)
  end.

(** ** Inode contents *)

Definition addr_get (i : nat) (k : Z) : M kstate Z :=
  let! n := inode_get i in ret (nth (Z.to_nat k) (i_addrs n) 0).
Definition addr_put (i : nat) (k v : Z) : M kstate unit :=
  inode_mod i (fun n => set_i_addrs (<[Z.to_nat k := v]> (i_addrs n)) n).

Definition bmap (i : nat) (bn : Z) : M kstate Z :=
  let! n := inode_get i in
  if bn <? NDIRECT then
    let! addr := addr_get i bn in
    if addr =? 0 then
      let! addr := balloc (i_dev n) in
      if addr =? 0 then ret 0
      else addr_put i bn addr ;;; ret addr
    else ret addr
  else
    let bn := bn - NDIRECT in
    if bn <? NINDIRECT then
      let! addr := addr_get i NDIRECT in
      let! addr := (if addr =? 0 then
                      let! addr := balloc (i_dev n) in
                      when (negb (addr =? 0)) (addr_put i NDIRECT addr) ;;; ret addr
                    else ret addr) in
      if addr =? 0 then ret 0
      else
        let! bp := bread (i_dev n) addr in
        let! d := bdata bp in
        let a := load32 d (4 * bn) in
        let! a := (if a =? 0 then
                     let! a := balloc (i_dev n) in
                     when (negb (a =? 0))
                       (bdata_mod bp (fun d => store32 d (4 * bn) a) ;;; log_write bp) ;;;
                     ret a
                   else ret a) in
        brelse bp ;;;
        ret a
    else panic "bmap: out of range".

Definition itrunc (i : nat) : M kstate unit :=
  mfor (seqZ 0 NDIRECT) (fun k =>
    let! n := inode_get i in
    let! addr := addr_get i k in
    when (negb (addr =? 0)) (bfree (i_dev n) addr ;;; addr_put i k 0)) ;;;
  let! n := inode_get i in
  let! addr := addr_get i NDIRECT in
  when (negb (addr =? 0))
    (let! bp := bread (i_dev n) addr in
     mfor (seqZ 0 NINDIRECT) (fun j =>
       let! d := bdata bp in
       when (negb (load32 d (4 * j) =? 0)) (bfree (i_dev n) (load32 d (4 * j)))) ;;;
     brelse bp ;;;
     bfree (i_dev n) addr ;;;
     addr_put i NDIRECT 0) ;;;
  inode_mod i (set_i_size 0) ;;;
  iupdate i.

Definition iput (i : nat) : M kstate unit :=
  acquire Litable ;;;
  let! n := inode_get i in
  when ((i_ref n =? 1) && i_valid n && (i_nlink n =? 0))
    (acquiresleep (SLinode i) ;;;
     release Litable ;;;
     itrunc i ;;;
     inode_mod i (set_i_type 0) ;;;
     iupdate i ;;;
     inode_mod i (set_i_valid false) ;;;
     releasesleep (SLinode i) ;;;
     acquire Litable) ;;;
  inode_mod i (fun n => set_i_ref (i_ref n - 1) n) ;;;
  release Litable.

Definition iunlockput (i : nat) : M kstate unit := iunlock (Some i) ;;; iput i.

(** [struct stat], as [stati] fills it. *)
Record stat : Type := mk_stat { st_dev : Z; st_ino : Z; st_type : Z; st_nlink : Z; st_size : Z }.

Definition stati (i : nat) : M kstate stat :=
  let! n := inode_get i in
  ret (mk_stat (s32 (i_dev n)) (i_inum n) (i_type n) (i_nlink n) (i_size n)).

(** The loop of [readi]; its state is [tot], [off], [dst] and the bytes put
    into a variable so far. *)
Definition readi_body (i : nat) (n : Z) (t : Z * Z * dst * list Z)
    : M kstate (Z * Z * dst * list Z + Z * list Z) :=
  let '(tot, off, d, out) := t in
  if tot <? n then
    let! addr := bmap i (off / BSIZE) in
    if addr =? 0 then ret (inr (tot, out))
    else
      let! ip := inode_get i in
      let! bp := bread (i_dev ip) addr in
      let m := Z.min (n - tot) (BSIZE - off mod BSIZE) in
      let! data := bdata bp in
      let! ' (r, bytes) := either_copyout d (at_mem data (off mod BSIZE)) m in
      brelse bp ;;;
      if r =? -1 then ret (inr (-1, out))
      else ret (inl (tot + m, off + m, dst_add d m, out ++ bytes))
  else ret (inr (tot, out)).

Definition readi (i : nat) (d : dst) (off n : Z) : M kstate (Z * list Z) :=
  let! ip := inode_get i in
  if (i_size ip <? off) || (u32 (off + n) <? off) then ret (0, [])
  else
    let n := if i_size ip <? off + n then i_size ip - off else n in
    mloop (S (Z.to_nat (n / BSIZE + 2))) (readi_body i n) (0, off, d, []).

(** The loop of [writei]; it leaves with [tot] and [off]. *)
Definition writei_body (i : nat) (n : Z) (t : Z * Z * src) : M kstate (Z * Z * src + Z * Z) :=
  let '(tot, off, a) := t in
  if tot <? n then
    let! addr := bmap i (off / BSIZE) in
    if addr =? 0 then ret (inr (tot, off))
    else
      let! ip := inode_get i in
      let! bp := bread (i_dev ip) addr in
      let m := Z.min (n - tot) (BSIZE - off mod BSIZE) in
      let! ' (r, bytes) := either_copyin a m in
      bdata_mod bp (fun d => store_bytes d (off mod BSIZE) bytes) ;;;
      if r =? -1 then brelse bp ;;; ret (inr (tot, off))
      else
        log_write bp ;;;
        brelse bp ;;;
        ret (inl (tot + m, off + m, src_add a m))
  else ret (inr (tot, off)).

Definition writei (i : nat) (a : src) (off n : Z) : M kstate Z :=
  let! ip := inode_get i in
  if (i_size ip <? off) || (u32 (off + n) <? off) then ret (-1)
  else if MAXFILE * BSIZE <? off + n then ret (-1)
  else
    let! ' (tot, off) := mloop (S (Z.to_nat (n / BSIZE + 2))) (writei_body i n) (0, off, a) in
    let! ip := inode_get i in
    when (i_size ip <? off) (inode_mod i (set_i_size off)) ;;;
    iupdate i ;;;
    ret tot.

(** ** Directories *)

(** [struct dirent]: [inum] at 0 and [name] at 2. *)
Definition de_inum (de : list Z) : Z := u8 (nth 0 de 0) + 256 * u8 (nth 1 de 0).
Definition de_name (de : list Z) : cptr := at_list (drop 2 de).

Definition namecmp (s t : cptr) : Z := strncmp s t DIRSIZ.

(** An entry of the directory, which must be there in full. *)
Definition read_dirent (dp : nat) (off : Z) (msg : string) : M kstate (list Z) :=
  let! ' (r, de) := readi dp ToVar off DIRENT_SIZE in
  panic_if (negb (r =? DIRENT_SIZE)) msg ;;;
  ret de.

Definition dirlookup_body (dp : nat) (name : cptr) (off : Z) : M kstate (Z + option (nat * Z)) :=
  let! n := inode_get dp in
  if off <? i_size n then
    let! de := read_dirent dp off "dirlookup read" in
    if de_inum de =? 0 then ret (inl (off + DIRENT_SIZE))
    else if namecmp name (de_name de) =? 0 then
      let! ip := iget (i_dev n) (de_inum de) in
      ret (inr (Some (ip, off)))
    else ret (inl (off + DIRENT_SIZE))
  else ret (inr None).

(** The inode and [*poff]. *)
Definition dirlookup (dp : nat) (name : cptr) : M kstate (option (nat * Z)) :=
  let! n := inode_get dp in
  panic_if (negb (i_type n =? T_DIR)) "dirlookup not DIR" ;;;
  mloop (S (Z.to_nat (i_size n / DIRENT_SIZE + 1))) (dirlookup_body dp name) 0.

Definition dirlink_body (dp : nat) (off : Z) : M kstate (Z + Z) :=
  let! n := inode_get dp in
  if off <? i_size n then
    let! de := read_dirent dp off "dirlink read" in
    if de_inum de =? 0 then ret (inr off) else ret (inl (off + DIRENT_SIZE))
  else ret (inr off).

(** The bytes of [de] once [strncpy] and the assignment of [de.inum] are done. *)
Definition dirent_bytes (name : cptr) (inum : Z) : list Z :=
  [u8 inum; u8 (inum / 256)] ++ load_bytes (strncpy (fun _ => 0) 0 name DIRSIZ) 0 (Z.to_nat DIRSIZ).

Definition dirlink (dp : nat) (name : cptr) (inum : Z) : M kstate Z :=
  let! r := dirlookup dp name in
  match r with
  | Some (ip, _) => iput ip ;;; ret (-1)
  | None =>
      let! n := inode_get dp in
      let! off := mloop (S (Z.to_nat (i_size n / DIRENT_SIZE + 1))) (dirlink_body dp) 0 in
      let! r := writei dp (FromKern (at_list (dirent_bytes name inum))) off DIRENT_SIZE in
      if negb (r =? DIRENT_SIZE) then ret (-1) else ret 0
  end.

End fs.

(** ** Paths *)

Definition slash : Z := 47.

(** The [while] loops that pass over slashes. *)
Fixpoint skip_slashes (path : list Z) : list Z :=
  match path with c :: p' => if c =? slash then skip_slashes p' else path | [] => [] end.

(** The [while] that passes over one element: the element and the rest. *)
Fixpoint take_elem (path : list Z) : list Z * list Z :=
  match path with
  | c :: p' => if c =? slash then ([], path) else let '(e, r) := take_elem p' in (c :: e, r)
  | [] => ([], [])
  end.

(** The rest of the path and [name]. *)
Definition skipelem (path : list Z) : option (list Z * list Z) :=
  match skip_slashes path with
  | [] => None
  | p => let '(e, r) := take_elem p in Some (skip_slashes r, take (Z.to_nat DIRSIZ) e)
  end.

Section paths.
Context {EN : Env} {KI : KernelImage}.

(** The loop of [namex], on the inode, the path and the last name. *)
Definition namex_body (nameiparent : bool) (t : nat * list Z * list Z)
    : M kstate (nat * list Z * list Z + option nat * list Z) :=
  let '(ip, path, name) := t in
  match skipelem path with
  | None =>
      if nameiparent then iput ip ;;; ret (inr (None, name)) else ret (inr (Some ip, name))
  | Some (path, name) =>
      ilock (Some ip) ;;;
      let! n := inode_get ip in
      if negb (i_type n =? T_DIR) then iunlockput ip ;;; ret (inr (None, name))
      else if nameiparent && bool_decide (path = []) then iunlock (Some ip) ;;; ret (inr (Some ip, name))
      else
        let! next := dirlookup ip (at_list name) in
        match next with
        | None => iunlockput ip ;;; ret (inr (None, name))
        | Some (next, _) => iunlockput ip ;;; ret (inl (next, path, name))
        end
  end.

(** The inode and [name]. *)
Definition namex (path : list Z) (nameiparent : bool) : M kstate (option nat * list Z) :=
  let! ip := (match path with
              | c :: _ => if c =? slash then iget ROOTDEV ROOTINO
                          else let! p := curproc in let! pr := proc_get p in
                               match p_cwd pr with Some i => idup i | None => fault "cwd is null" end
              | [] => let! p := curproc in let! pr := proc_get p in
                      match p_cwd pr with Some i => idup i | None => fault "cwd is null" end
              end) in
  mloop (S (length path)) (namex_body nameiparent) (ip, path, []).

Definition namei (path : list Z) : M kstate (option nat) :=
  let! ' (ip, _) := namex path false in ret ip.

Definition nameiparent (path : list Z) : M kstate (option nat * list Z) := namex path true.

End paths.
