(* ===== verification/FsBlocks.v ===== *)
(** * Allocating and freeing disk blocks

    [balloc], [bfree] and [bzero] of kernel/fs.c inside a transaction, against
    the free map as a predicate on block numbers. *)

From S2P Require Import Prelude Riscv Mem Cstring State Sched SchedSpec Bio BioLocks Cache Session Log LogSpec Txn Uart Kalloc Vm Fs.

(** Bit [j] of a bitmap block. *)
Definition bit_used (x : block) (j : Z) : bool := negb (Z.land (load8 x (j / 8)) (Z.shiftl 1 (j mod 8)) =? 0).

Definition set_bit (j : Z) (x : block) : block :=
  store8 x (j / 8) (Z.lor (load8 x (j / 8)) (Z.shiftl 1 (j mod 8))).
Definition clear_bit (j : Z) (x : block) : block :=
  store8 x (j / 8) (Z.land (load8 x (j / 8)) (Z.lnot (Z.shiftl 1 (j mod 8)))).

Lemma bit_used_testbit x j : 0 <= j -> bit_used x j = Z.testbit (load8 x (j / 8)) (j mod 8).
Proof.
  intros Hj. unfold bit_used. set (k := j mod 8). assert (0 <= k < 8) by (unfold k; lia). set (v := load8 x (j / 8)).
  rewrite Z.shiftl_1_l. destruct (Z.testbit v k) eqn:E.
  - apply negb_true_iff, Z.eqb_neq. intros H0. apply (f_equal (fun z => Z.testbit z k)) in H0.
    rewrite Z.land_spec, E, Z.pow2_bits_true, Z.bits_0 in H0 by lia. done.
  - apply negb_false_iff, Z.eqb_eq, Z.bits_inj'. intros i Hi. rewrite Z.land_spec, Z.bits_0, Z.pow2_bits_eqb by lia.
    destruct (Z.eqb_spec k i) as [<-|]; [by rewrite E|by rewrite andb_false_r].
Qed.

Lemma u8_bits v i : 0 <= i < 8 -> Z.testbit (u8 v) i = Z.testbit v i.
Proof. intros Hi. unfold u8. apply Z.mod_pow2_bits_low. lia. Qed.

Lemma bit_used_store x j i v : 0 <= j -> 0 <= i -> (forall k, 0 <= k < 8 -> k <> j mod 8 -> Z.testbit v k = Z.testbit (load8 x (j / 8)) k) ->
  bit_used (store8 x (j / 8) v) i = if i =? j then Z.testbit v (j mod 8) else bit_used x i.
Proof.
  intros Hj Hi Hv. rewrite !bit_used_testbit by done. rewrite load8_store8.
  destruct (Z.eqb_spec (i / 8) (j / 8)) as [E|E].
  - rewrite u8_bits by lia. destruct (Z.eqb_spec i j) as [->|]; [done|]. rewrite Hv by lia. by rewrite E.
  - destruct (Z.eqb_spec i j) as [->|]; [done|done].
Qed.

Lemma bit_used_set x j i : 0 <= j -> 0 <= i -> bit_used (set_bit j x) i = (i =? j) || bit_used x i.
Proof.
  intros Hj Hi. unfold set_bit. rewrite bit_used_store by (try done; intros k Hk Hne;
    rewrite Z.lor_spec, Z.shiftl_1_l, Z.pow2_bits_eqb, (proj2 (Z.eqb_neq _ _)), orb_false_r by lia; done).
  destruct (Z.eqb_spec i j); [|done]. rewrite Z.lor_spec, Z.shiftl_1_l, Z.pow2_bits_true by lia. apply orb_true_r.
Qed.

Lemma bit_used_clear x j i : 0 <= j -> 0 <= i -> bit_used (clear_bit j x) i = negb (i =? j) && bit_used x i.
Proof.
  intros Hj Hi. unfold clear_bit. rewrite bit_used_store by (try done; intros k Hk Hne;
    rewrite Z.land_spec, Z.lnot_spec, Z.shiftl_1_l, Z.pow2_bits_eqb, (proj2 (Z.eqb_neq _ _)), andb_true_r by lia; done).
  destruct (Z.eqb_spec i j); [|done]. rewrite Z.land_spec, Z.lnot_spec, Z.shiftl_1_l, Z.pow2_bits_true by lia. apply andb_false_r.
Qed.

(** The inner loop of [balloc]. *)
Lemma bit_find_spec x b size k : forall bi, 0 <= bi ->
  match bit_find k x b size bi with
  | Some j => bi <= j < bi + Z.of_nat k /\ b + j < size /\ bit_used x j = false /\ forall i, bi <= i < j -> bit_used x i = true
  | None => forall i, bi <= i < bi + Z.of_nat k -> b + i < size -> bit_used x i = true
  end.
Proof.
  induction k as [|k IH]; intros bi Hbi; cbn [bit_find]; [lia|]. zcase; [|intros i Hi Hlt; lia].
  destruct (Z.land (load8 x (bi / 8)) (Z.shiftl 1 (bi mod 8)) =? 0) eqn:E.
  - split; [lia|]. split; [done|]. split; [unfold bit_used; by rewrite E|]. lia.
  - specialize (IH (bi + 1) ltac:(lia)). assert (bit_used x bi = true) as Hu by (unfold bit_used; by rewrite E).
    destruct (bit_find k x b size (bi + 1)) as [j|].
    + destruct IH as (H1 & H2 & H3 & H4). split; [lia|]. split; [done|]. split; [done|].
      intros i Hi. destruct (decide (i = bi)) as [->|]; [done|]. apply H4. lia.
    + intros i Hi Hlt. destruct (decide (i = bi)) as [->|]; [done|]. apply IH; lia.
Qed.

Section blocks.
Context {EN : Env} {KI : KernelImage} {dev : Z} {crep : kstate -> (Z -> cell) -> Prop} {chold : kstate -> nat -> Z -> Prop}.
Context {BC : BlockCache dev crep chold}.
Variables (me : nat) (pid : Z) (start size : Z).
Local Abbreviation txn := (txn (crep := crep) (chold := chold) (dev := dev) me pid start size).

(** The log has room for [n] blocks more, and the cache for as many buffers. *)
Definition spare (bs : list Z) (n : nat) : Prop :=
  (length bs + n <= Z.to_nat LOGSIZE)%nat /\ Z.of_nat (length bs + n) <= size - 1.

Lemma absorb_length bs b : (length bs <= length (absorb bs b) <= S (length bs))%nat.
Proof. unfold absorb. destruct (decide _); [lia|]. rewrite length_app. cbn. lia. Qed.

Lemma spare_absorb bs b n : spare bs (S n) -> spare (absorb bs b) n.
Proof. unfold spare. pose proof (absorb_length bs b). lia. Qed.

Lemma bzero_spec s0 d w P bs L s b :
  txn s0 d w P bs L s -> b ∉ lb_blocks L -> 0 <= b < 2 ^ 31 -> spare bs 1 -> (length bs + length L < bhead)%nat ->
  wp (bzero dev b) (fun _ s' => txn s0 d w (upd P b (Some (memset (view d P b) 0 0 BSIZE))) (absorb bs b) L s') s.
Proof using BC.
  intros Ht Hb Hr [H1 H2] Hroom. unfold bzero. eapply txn_bread; [exact Ht|done|done|]. clear s Ht. intros i s Ht.
  eapply txn_bdata_mod; [exact Ht|]. clear s Ht. intros s Ht.
  eapply txn_log_write; [exact Ht|done|lia|lia|]. clear s Ht. intros s Ht.
  rewrite <- (bind_ret_r (brelse i)). eapply txn_brelse_logged; [exact Ht|]. clear s Ht. intros s Ht. by apply wp_ret.
Qed.

(** The free map as the transaction sees it. *)
Definition used (d : Z -> block) (P : pins) (sb : superblock) (b : Z) : bool :=
  bit_used (view d P (BBLOCK b sb)) (b mod BPB).

(** The geometry of a file system: its bitmap blocks come before its [size]
    blocks end, and none of them is given out. *)
Record geometry (sb : superblock) : Prop := {
  ge_size : 0 < sb_size sb < 2 ^ 31;
  ge_bmap : 0 <= sb_bmapstart sb /\ sb_bmapstart sb + sb_size sb / BPB < sb_size sb
}.

Lemma BBLOCK_eq sb b : geometry sb -> 0 <= b < sb_size sb -> BBLOCK b sb = b / BPB + sb_bmapstart sb.
Proof. intros [H1 H2] Hb. unfold BBLOCK, u32, BPB, BSIZE in *. apply Z.mod_small. lia. Qed.

Lemma BBLOCK_same sb b b' : b / BPB = b' / BPB -> BBLOCK b sb = BBLOCK b' sb.
Proof. unfold BBLOCK. by intros ->. Qed.

Lemma view_upd d P b x y : view d (upd P b (Some x)) y = if y =? b then x else view d P y.
Proof. unfold view, upd. by destruct (y =? b). Qed.

(** The pins once block [b] is marked and zeroed. *)
Definition allocated (d : Z -> block) (P : pins) (sb : superblock) (b : Z) : pins :=
  let P1 := upd P (BBLOCK b sb) (Some (set_bit (b mod BPB) (view d P (BBLOCK b sb)))) in
  upd P1 b (Some (memset (view d P1 b) 0 0 BSIZE)).

(** One turn of the outer loop of [balloc]. *)
Lemma balloc_body_spec s0 d w P bs s b :
  txn s0 d w P bs [] s -> geometry (k_sb s0) -> b mod BPB = 0 -> 0 <= b < sb_size (k_sb s0) ->
  spare bs 2 -> (length bs + 1 < bhead)%nat ->
  wp (balloc_body dev b) (fun r s' => match r with
    | inr (Some a) => b <= a < b + BPB /\ a < sb_size (k_sb s0) /\ used d P (k_sb s0) a = false /\
        (forall x, b <= x < a -> used d P (k_sb s0) x = true) /\
        txn s0 d w (allocated d P (k_sb s0) a) (absorb (absorb bs (BBLOCK a (k_sb s0))) a) [] s'
    | inl b' => b' = b + BPB /\ (forall x, b <= x < b' -> x < sb_size (k_sb s0) -> used d P (k_sb s0) x = true) /\ txn s0 d w P bs [] s'
    | inr None => False
    end) s.
Proof using BC.
  intros Ht Hg Hb0 Hb Hsp Hroom. unfold balloc_body. set (sb := k_sb s0) in *.
  pose proof (BBLOCK_eq sb b Hg Hb) as Ebb. destruct Hg as [Hg1 Hg2].
  eapply txn_get_sb; [exact Ht|]. fold sb. destruct (Z.ltb_spec b (sb_size sb)); [|lia].
  eapply txn_bread; [exact Ht|apply not_elem_of_nil|cbn; lia|]. clear s Ht. intros i s Ht.
  eapply txn_bdata; [exact Ht|]. set (x := view d P (BBLOCK b sb)) in *.
  assert (forall j, 0 <= j < BPB -> used d P sb (b + j) = bit_used x j) as Hu.
  { intros j Hj. unfold used. rewrite (BBLOCK_same sb (b + j) b) by (unfold BPB, BSIZE in *; lia).
    fold x. f_equal. unfold BPB, BSIZE in *. lia. }
  pose proof (bit_find_spec x b (sb_size sb) (Z.to_nat BPB) 0 ltac:(lia)) as Hf. change (0 + Z.of_nat (Z.to_nat BPB)) with BPB in Hf.
  destruct (bit_find (Z.to_nat BPB) x b (sb_size sb) 0) as [j|].
  - destruct Hf as (Hj & Hlt & Hfree & Hall). destruct Hsp as [Hs1 Hs2].
    eapply txn_bdata_mod; [exact Ht|]. clear s Ht. intros s Ht. cbv beta in Ht. fold (set_bit j x) in Ht.
    assert (0 <= BBLOCK b sb < 2 ^ 31) by (rewrite Ebb; unfold BPB, BSIZE in *; lia).
    eapply txn_log_write; [exact Ht|done|lia|lia|]. clear s Ht. intros s Ht.
    eapply txn_brelse_logged; [exact Ht|]. clear s Ht. intros s Ht.
    pose proof (absorb_length bs (BBLOCK b sb)).
    apply wp_bind. eapply wp_mono; [eapply (bzero_spec _ _ _ _ _ [] _ (b + j)); [exact Ht|apply not_elem_of_nil|lia| |cbn; lia]|].
    { unfold spare. lia. }
    clear s Ht. intros u s Ht. apply wp_ret. split; [lia|]. split; [done|]. rewrite Hu by lia. split; [done|].
    split; [intros y Hy; replace y with (b + (y - b)) by lia; rewrite Hu by lia; apply Hall; lia|].
    unfold allocated. rewrite (BBLOCK_same sb (b + j) b) by (unfold BPB, BSIZE in *; lia). fold x.
    replace ((b + j) mod BPB) with j by (unfold BPB, BSIZE in *; lia). exact Ht.
  - eapply txn_brelse_clean; [exact Ht|]. clear s Ht. intros s Ht. apply wp_ret. split; [done|]. split; [|exact Ht].
    intros y Hy Hys. replace y with (b + (y - b)) by lia. rewrite Hu by lia. apply Hf; lia.
Qed.

Lemma balloc_loop s0 d w P bs : geometry (k_sb s0) -> spare bs 2 -> (length bs + 1 < bhead)%nat ->
  forall fuel b s a, txn s0 d w P bs [] s -> b mod BPB = 0 -> 0 <= b -> b <= a < sb_size (k_sb s0) ->
  used d P (k_sb s0) a = false -> (forall x, 0 <= x < b -> used d P (k_sb s0) x = true) ->
  (Z.to_nat ((a - b) / BPB) < fuel)%nat ->
  wp (mloop fuel (balloc_body dev) b) (fun r s' => exists a, r = Some a /\ 0 <= a < sb_size (k_sb s0) /\
    used d P (k_sb s0) a = false /\ (forall x, 0 <= x < a -> used d P (k_sb s0) x = true) /\
    txn s0 d w (allocated d P (k_sb s0) a) (absorb (absorb bs (BBLOCK a (k_sb s0))) a) [] s') s.
Proof using BC.
  intros Hg Hsp Hroom. induction fuel as [|fuel IH]; intros b s a Ht Hb0 Hb Ha Hfree Hall Hf; [lia|].
  apply wp_mloop. eapply wp_mono; [apply balloc_body_spec; try done; lia|]. clear s Ht. intros [b'|[a'|]] s H; [| |done].
  - destruct H as (-> & Hu & Ht). unfold BPB, BSIZE in *.
    assert (b + 1024 * 8 <= a). { destruct (decide (a < b + 1024 * 8)); [|lia]. rewrite Hu in Hfree by lia. done. }
    apply (IH _ _ a); try done; try lia. intros x Hx. destruct (decide (x < b)); [apply Hall; lia|apply Hu; lia].
  - destruct H as (Ha' & Hlt & Hf' & Hall' & Ht). exists a'. split; [done|]. split; [lia|]. split; [done|]. split; [|exact Ht].
    intros x Hx. destruct (decide (x < b)); [apply Hall; lia|apply Hall'; lia].
Qed.

Lemma balloc_spec s0 d w P bs s a :
  txn s0 d w P bs [] s -> geometry (k_sb s0) -> spare bs 2 -> (length bs + 1 < bhead)%nat ->
  0 <= a < sb_size (k_sb s0) -> used d P (k_sb s0) a = false ->
  wp (balloc dev) (fun b s' => 0 <= b < sb_size (k_sb s0) /\
    used d P (k_sb s0) b = false /\ (forall x, 0 <= x < b -> used d P (k_sb s0) x = true) /\
    txn s0 d w (allocated d P (k_sb s0) b) (absorb (absorb bs (BBLOCK b (k_sb s0))) b) [] s') s.
Proof using BC.
  intros Ht Hg Hsp Hroom Ha Hfree. unfold balloc. eapply txn_get_sb; [exact Ht|]. apply wp_bind.
  eapply wp_mono; [apply (balloc_loop s0 d w P bs Hg Hsp Hroom _ 0 s a); try done; unfold BPB, BSIZE; lia|].
  clear s Ht. intros r s (b & -> & H). by apply wp_ret.
Qed.

Lemma bfree_spec s0 d w P bs L s b :
  txn s0 d w P bs L s -> geometry (k_sb s0) -> 0 <= b < sb_size (k_sb s0) -> used d P (k_sb s0) b = true ->
  BBLOCK b (k_sb s0) ∉ lb_blocks L -> spare bs 1 -> (length bs + length L < bhead)%nat ->
  wp (bfree dev b) (fun _ s' =>
    txn s0 d w (upd P (BBLOCK b (k_sb s0)) (Some (clear_bit (b mod BPB) (view d P (BBLOCK b (k_sb s0))))))
      (absorb bs (BBLOCK b (k_sb s0))) L s') s.
Proof using BC.
  intros Ht Hg Hb Hu Hn [H1 H2] Hroom. unfold bfree. set (sb := k_sb s0) in *. pose proof (BBLOCK_eq sb b Hg Hb) as Ebb.
  destruct Hg as [Hg1 Hg2]. eapply txn_get_sb; [exact Ht|]. fold sb.
  eapply txn_bread; [exact Ht|done|done|]. clear s Ht. intros i s Ht. eapply txn_bdata; [exact Ht|].
  unfold used, bit_used in Hu. apply negb_true_iff in Hu. rewrite Hu. apply wp_bind, wp_ret.
  eapply txn_bdata_mod; [exact Ht|]. clear s Ht. intros s Ht. fold (clear_bit (b mod BPB) (view d P (BBLOCK b sb))) in Ht.
  eapply txn_log_write; [exact Ht|rewrite Ebb; unfold BPB, BSIZE in *; lia|lia|lia|]. clear s Ht. intros s Ht.
  rewrite <- (bind_ret_r (brelse i)). eapply txn_brelse_logged; [exact Ht|]. clear s Ht. intros s Ht. by apply wp_ret.
Qed.

(** What the two do to the free map. *)
Lemma used_allocated d P sb b x :
  geometry sb -> 0 <= b < sb_size sb -> 0 <= x < sb_size sb ->
  (forall y, 0 <= y < sb_size sb -> BBLOCK y sb <> b) ->
  used d (allocated d P sb b) sb x = (x =? b) || used d P sb x.
Proof.
  intros Hg Hb Hx Hd. unfold used, allocated. rewrite view_upd, (proj2 (Z.eqb_neq _ _) (Hd x Hx)), view_upd.
  destruct (Z.eqb_spec (BBLOCK x sb) (BBLOCK b sb)) as [E|E].
  - rewrite bit_used_set by (unfold BPB, BSIZE; lia). rewrite E. f_equal.
    rewrite !BBLOCK_eq in E by done. unfold BPB, BSIZE in *. destruct (Z.eqb_spec x b) as [->|]; [by apply Z.eqb_eq|].
    apply Z.eqb_neq. lia.
  - destruct (Z.eqb_spec x b) as [->|]; [done|done].
Qed.

End blocks.
