(* ===== verification/FsFiles.v ===== *)
(** * The contents of files

    [bmap], [readi], [writei] and [iupdate] of kernel/fs.c inside a transaction,
    for the blocks a file already has: a file is the array of its bytes. *)

From Stdlib Require Import FunctionalExtensionality.
From S2P Require Import Prelude Riscv Mem Cstring State Sched SchedSpec Bio BioLocks Cache Session Log LogSpec Txn Uart Kalloc Vm Fs FsBlocks.

Definition iaddr (ip : inode) (k : Z) : Z := nth (Z.to_nat k) (i_addrs ip) 0.

(** The block that holds block [bn] of the file, 0 if there is none. *)
Definition blkno (d : Z -> block) (P : pins) (ip : inode) (bn : Z) : Z :=
  if bn <? NDIRECT then iaddr ip bn
  else if iaddr ip NDIRECT =? 0 then 0 else load32 (view d P (iaddr ip NDIRECT)) (4 * (bn - NDIRECT)).

(** Byte [o] of the file. *)
Definition fbyte (d : Z -> block) (P : pins) (ip : inode) (o : Z) : Z :=
  load8 (view d P (blkno d P ip (o / BSIZE))) (o mod BSIZE).

Definition fbytes (d : Z -> block) (P : pins) (ip : inode) (o n : Z) : list Z := map (fbyte d P ip) (seqZ o n).

(** The first [nb] blocks of the file exist, are distinct and are not its
    indirect block. *)
Record file_ok (d : Z -> block) (P : pins) (ip : inode) (nb : Z) : Prop := {
  fo_max : nb <= MAXFILE;
  fo_blk : forall bn, 0 <= bn < nb -> 0 < blkno d P ip bn < 2 ^ 31;
  fo_inj : forall bn bn', 0 <= bn < nb -> 0 <= bn' < nb -> blkno d P ip bn = blkno d P ip bn' -> bn = bn';
  fo_ind : forall bn, 0 <= bn < nb -> blkno d P ip bn <> iaddr ip NDIRECT
}.

Lemma seqZ_split o a b : 0 <= a -> 0 <= b -> seqZ o (a + b) = seqZ o a ++ seqZ (o + a) b.
Proof. intros. by apply seqZ_app. Qed.

Lemma fbytes_shift d P ip o n : fbytes d P ip o n = map (fun k => fbyte d P ip (o + k)) (seqZ 0 n).
Proof.
  unfold fbytes. replace (seqZ o n) with (map (Z.add o) (seqZ 0 n)); [by rewrite map_map|].
  rewrite <- (Z.add_0_r o) at 2. by rewrite <- fmap_add_seqZ.
Qed.

(** The part of a file that lies in one block. *)
Lemma fbytes_block d P ip o m : 0 <= o -> 0 <= m -> o mod BSIZE + m <= BSIZE ->
  cbytes (at_mem (view d P (blkno d P ip (o / BSIZE))) (o mod BSIZE)) m = fbytes d P ip o m.
Proof.
  intros Ho Hm Hb. rewrite fbytes_shift. apply map_ext_in. intros k Hk. apply list_elem_of_In, elem_of_seqZ in Hk.
  unfold at_mem, fbyte, BSIZE in *. rewrite u8_small by apply load8_range.
  replace ((o + k) / 1024) with (o / 1024) by lia. f_equal. lia.
Qed.

Section files.
Context {EN : Env} {KI : KernelImage} {dev : Z} {crep : kstate -> (Z -> cell) -> Prop} {chold : kstate -> nat -> Z -> Prop}.
Context {BC : BlockCache dev crep chold}.
Variables (me : nat) (pid : Z) (start size : Z).
Local Abbreviation txn := (txn (crep := crep) (chold := chold) (dev := dev) me pid start size).

Lemma addr_get_spec {R} s0 d w P bs L s i ip j (k : Z -> M kstate R) Q :
  txn s0 d w P bs L s -> k_itable s0 !! i = Some ip -> wp (k (iaddr ip j)) Q s -> wp (bind (addr_get i j) k) Q s.
Proof.
  intros Ht Hi Hk. unfold addr_get. rewrite bind_assoc. eapply txn_inode_get; [exact Ht|exact Hi|].
  unfold wp. rewrite bind_ret. exact Hk.
Qed.

Lemma bmap_spec s0 d w P bs s i ip bn :
  txn s0 d w P bs [] s -> k_itable s0 !! i = Some ip -> i_dev ip = dev -> 0 <= bn < MAXFILE ->
  blkno d P ip bn <> 0 -> (length bs < bhead)%nat ->
  wp (bmap i bn) (fun r s' => r = blkno d P ip bn /\ txn s0 d w P bs [] s') s.
Proof using BC.
  intros Ht Hi Hdev Hbn Hne Hroom. unfold bmap, blkno in *. eapply txn_inode_get; [exact Ht|exact Hi|].
  destruct (Z.ltb_spec bn NDIRECT) as [Hd|Hd].
  - eapply addr_get_spec; [exact Ht|exact Hi|]. destruct (Z.eqb_spec (iaddr ip bn) 0); [done|]. by apply wp_ret.
  - destruct (Z.ltb_spec (bn - NDIRECT) NINDIRECT); [|unfold MAXFILE in Hbn; lia].
    eapply addr_get_spec; [exact Ht|exact Hi|]. destruct (Z.eqb_spec (iaddr ip NDIRECT) 0) as [E|E]; [done|].
    apply wp_bind, wp_ret. rewrite (proj2 (Z.eqb_neq _ _) E), Hdev.
    eapply txn_bread; [exact Ht|apply not_elem_of_nil|cbn; lia|]. clear s Ht. intros b s Ht.
    eapply txn_bdata; [exact Ht|]. rewrite (proj2 (Z.eqb_neq _ _) Hne). apply wp_bind, wp_ret.
    eapply txn_brelse_clean; [exact Ht|]. clear s Ht. intros s Ht. by apply wp_ret.
Qed.

(** How many turns the loops over blocks need from byte [o] to byte [e]. *)
Definition turns (o e : Z) : Z := if o <? e then (e - 1) / BSIZE - o / BSIZE + 1 else 0.

Lemma turns_step o e : 0 <= o < e -> 0 <= turns (o + Z.min (e - o) (BSIZE - o mod BSIZE)) e < turns o e.
Proof.
  intros H. unfold turns, BSIZE. destruct (Z.ltb_spec o e); [|lia].
  destruct (Z.min_spec (e - o) (1024 - o mod 1024)) as [[Hm ->]|[Hm ->]].
  - destruct (Z.ltb_spec (o + (e - o)) e); lia.
  - replace (o + (1024 - o mod 1024)) with ((o / 1024 + 1) * 1024) by lia.
    destruct (Z.ltb_spec ((o / 1024 + 1) * 1024) e); lia.
Qed.

Lemma turns_le o n : 0 <= o -> 0 <= n -> turns o (o + n) <= n / BSIZE + 2.
Proof. intros. unfold turns, BSIZE. zcase; lia. Qed.

(** ** readi into a variable of the kernel *)

Lemma readi_loop s0 d w P bs i ip nb off n :
  k_itable s0 !! i = Some ip -> i_dev ip = dev -> file_ok d P ip nb -> 0 <= off -> off + n <= nb * BSIZE ->
  (length bs < bhead)%nat ->
  forall fuel tot s, txn s0 d w P bs [] s -> 0 <= tot <= n -> (Z.to_nat (turns (off + tot) (off + n)) < fuel)%nat ->
  wp (mloop fuel (readi_body i n) (tot, off + tot, ToVar, fbytes d P ip off tot))
    (fun r s' => r = (n, fbytes d P ip off n) /\ txn s0 d w P bs [] s') s.
Proof using BC.
  intros Hi Hdev Hok Hoff Hn Hroom. induction fuel as [|fuel IH]; intros tot s Ht Htot Hf; [lia|].
  apply wp_mloop. unfold readi_body. destruct (Z.ltb_spec tot n) as [Hlt|Hge].
  2:{ apply wp_ret. by replace tot with n by lia. }
  set (o := off + tot) in *.
  assert (0 <= o / BSIZE < nb) as Hbn by (unfold BSIZE in *; lia).
  pose proof (fo_blk _ _ _ _ Hok (o / BSIZE) Hbn) as Hblk. pose proof (fo_max _ _ _ _ Hok) as Hmax.
  apply wp_bind. eapply wp_mono; [eapply bmap_spec; [exact Ht|exact Hi|done|lia|lia|done]|].
  clear s Ht. intros a s [-> Ht]. destruct (Z.eqb_spec (blkno d P ip (o / BSIZE)) 0) as [E|_]; [lia|].
  eapply txn_inode_get; [exact Ht|exact Hi|]. rewrite Hdev.
  eapply txn_bread; [exact Ht|apply not_elem_of_nil|cbn; lia|]. clear s Ht. intros b s Ht.
  eapply txn_bdata; [exact Ht|]. set (m := Z.min (n - tot) (BSIZE - o mod BSIZE)).
  assert (0 < m /\ o mod BSIZE + m <= BSIZE) as [Hm Hmb] by (unfold m, BSIZE in *; lia).
  unfold either_copyout. rewrite bind_assoc. eapply txn_curproc; [exact Ht|]. apply wp_bind, wp_ret.
  rewrite fbytes_block by lia. eapply txn_brelse_clean; [exact Ht|]. clear s Ht. intros s Ht. apply wp_ret.
  unfold o. rewrite <- Z.add_assoc.
  replace (fbytes d P ip off tot ++ fbytes d P ip (off + tot) m) with (fbytes d P ip off (tot + m))
    by (unfold fbytes; by rewrite seqZ_split, map_app by lia).
  apply IH; [exact Ht|lia|]. pose proof (turns_step o (off + n) ltac:(lia)) as Hs.
  replace (off + n - o) with (n - tot) in Hs by lia. fold m in Hs. replace (off + (tot + m)) with (o + m) by lia. lia.
Qed.

Lemma readi_spec s0 d w P bs s i ip nb off n :
  txn s0 d w P bs [] s -> k_itable s0 !! i = Some ip -> i_dev ip = dev -> file_ok d P ip nb ->
  0 <= off <= i_size ip -> 0 <= n -> off + n < 2 ^ 32 -> i_size ip <= nb * BSIZE -> (length bs < bhead)%nat ->
  wp (readi i ToVar off n) (fun r s' =>
    r = (Z.min n (i_size ip - off), fbytes d P ip off (Z.min n (i_size ip - off))) /\ txn s0 d w P bs [] s') s.
Proof using BC.
  intros Ht Hi Hdev Hok Hoff Hn Hmax Hsz Hroom. unfold readi. eapply txn_inode_get; [exact Ht|exact Hi|].
  unfold u32. rewrite (Z.mod_small (off + n)) by lia.
  destruct (Z.ltb_spec (i_size ip) off); [lia|]. destruct (Z.ltb_spec (off + n) off); [lia|]. cbn [orb].
  set (n' := Z.min n (i_size ip - off)).
  assert ((if i_size ip <? off + n then i_size ip - off else n) = n') as -> by (unfold n'; zcase; lia).
  assert (0 <= n' /\ off + n' <= nb * BSIZE) as [Hn' Hb] by (unfold n'; lia).
  pose proof (turns_le off n' ltac:(lia) Hn').
  pose proof (readi_loop s0 d w P bs i ip nb off n' Hi Hdev Hok ltac:(lia) Hb Hroom (S (Z.to_nat (n' / BSIZE + 2))) 0 s Ht) as Hl.
  rewrite Z.add_0_r in Hl. apply Hl; [lia|lia].
Qed.

(** ** iupdate *)

Definition inode_block (sb : superblock) (ip : inode) : Z := IBLOCK (i_inum ip) sb.

Definition dinode_of (d : Z -> block) (P : pins) (sb : superblock) (ip : inode) : block :=
  dinode_put (view d P (inode_block sb ip)) (di_off (i_inum ip)) ip.

Lemma iupdate_spec s0 d w P bs s i ip :
  txn s0 d w P bs [] s -> k_itable s0 !! i = Some ip -> i_dev ip = dev -> inode_block (k_sb s0) ip < 2 ^ 31 ->
  spare size bs 1 -> (length bs < bhead)%nat ->
  wp (iupdate i) (fun _ s' => txn s0 d w (upd P (inode_block (k_sb s0) ip) (Some (dinode_of d P (k_sb s0) ip)))
    (absorb bs (inode_block (k_sb s0) ip)) [] s') s.
Proof using BC.
  intros Ht Hi Hdev Hib [H1 H2] Hroom. unfold iupdate. eapply txn_inode_get; [exact Ht|exact Hi|].
  eapply txn_get_sb; [exact Ht|]. rewrite Hdev. fold (inode_block (k_sb s0) ip).
  assert (0 <= inode_block (k_sb s0) ip) by (unfold inode_block, IBLOCK, u32; lia).
  eapply txn_bread; [exact Ht|apply not_elem_of_nil|cbn; lia|]. clear s Ht. intros b s Ht.
  eapply txn_bdata_mod; [exact Ht|]. clear s Ht. intros s Ht.
  eapply txn_log_write; [exact Ht|lia|lia|lia|]. clear s Ht. intros s Ht.
  rewrite <- (bind_ret_r (brelse b)). eapply txn_brelse_logged; [exact Ht|]. clear s Ht. intros s Ht. by apply wp_ret.
Qed.

(** ** writei from memory of the kernel *)

(** The file after [tot] bytes of [p] have been written from [off] on; besides
    its blocks only those of [ex] have changed. *)
Record written (ex : list Z) (d : Z -> block) (P P' : pins) (ip : inode) (nb off tot : Z) (p : cptr) : Prop := {
  wr_bytes : forall o, 0 <= o < nb * BSIZE ->
    fbyte d P' ip o = if (off <=? o) && (o <? off + tot) then u8 (p (o - off)) else fbyte d P ip o;
  wr_blkno : forall bn, blkno d P' ip bn = blkno d P ip bn;
  wr_frame : forall y, y ∉ ex -> (forall bn, 0 <= bn < nb -> y <> blkno d P ip bn) -> P' y = P y
}.

Lemma blkno_frame d P P' ip bn : (iaddr ip NDIRECT <> 0 -> P' (iaddr ip NDIRECT) = P (iaddr ip NDIRECT)) ->
  blkno d P' ip bn = blkno d P ip bn.
Proof.
  intros H. unfold blkno. destruct (bn <? NDIRECT); [done|]. destruct (Z.eqb_spec (iaddr ip NDIRECT) 0); [done|].
  unfold view. by rewrite H.
Qed.

Lemma file_ok_written ex d P P' ip nb off tot p : file_ok d P ip nb -> written ex d P P' ip nb off tot p -> file_ok d P' ip nb.
Proof.
  intros [H1 H2 H3 H4] [_ Hb _]. split; [done|..]; intros; rewrite ?Hb in *; eauto.
Qed.

Lemma written_0 d P ip nb off p : written [] d P P ip nb off 0 p.
Proof. split; try done. intros o Ho. zdec; try lia; done. Qed.

Lemma cbytes_nth p n k : 0 <= k < n -> nth (Z.to_nat k) (cbytes p n) 0 = u8 (p k).
Proof.
  intros Hk. unfold cbytes. rewrite (nth_indep _ 0 (u8 (p 0))) by (rewrite length_map, length_seqZ; lia).
  rewrite (map_nth (fun i => u8 (p i))). do 2 f_equal. apply nth_lookup_Some. rewrite lookup_seqZ. split; lia.
Qed.

Lemma cbytes_length p n : 0 <= n -> Z.of_nat (length (cbytes p n)) = n.
Proof. intros. unfold cbytes. rewrite length_map, length_seqZ. lia. Qed.

(** A write to another block of the disk. *)
Lemma written_other d P P' ip nb off tot p b x :
  written [] d P P' ip nb off tot p -> (forall bn, 0 <= bn < nb -> b <> blkno d P ip bn) -> b <> iaddr ip NDIRECT ->
  written [b] d P (upd P' b (Some x)) ip nb off tot p.
Proof.
  intros [H1 H2 H3] Hb Hd.
  assert (forall bn, blkno d (upd P' b (Some x)) ip bn = blkno d P ip bn) as Hn.
  { intros bn. rewrite <- H2. apply blkno_frame. intros _. by rewrite upd_other. }
  split; [|exact Hn|].
  - intros o Ho. rewrite <- H1 by done. unfold fbyte. rewrite Hn, H2, view_upd.
    destruct (Z.eqb_spec (blkno d P ip (o / BSIZE)) b) as [E|]; [|done].
    exfalso. apply (Hb (o / BSIZE)); [unfold BSIZE in *; lia|done].
  - intros y Hy Hy'. apply not_elem_of_cons in Hy as [Hy _]. rewrite upd_other by done. apply H3; [apply not_elem_of_nil|done].
Qed.

(** One block more. *)
Lemma written_step d P P' ip nb off tot p m q :
  file_ok d P ip nb -> written [] d P P' ip nb off tot p -> 0 <= off -> 0 <= tot -> 0 <= m ->
  (off + tot) mod BSIZE + m <= BSIZE -> off + tot < nb * BSIZE -> (forall i, q i = p (tot + i)) ->
  let a := blkno d P ip ((off + tot) / BSIZE) in
  written [] d P (upd P' a (Some (store_bytes (view d P' a) ((off + tot) mod BSIZE) (cbytes q m)))) ip nb off (tot + m) p.
Proof.
  intros Hok [Hb Hn Hf] Hoff Htot Hm Hblk Hnb Hq a. set (o1 := off + tot) in *.
  assert (0 <= o1 / BSIZE < nb) as Hbn by (unfold BSIZE in *; lia).
  assert (forall bn, blkno d (upd P' a (Some (store_bytes (view d P' a) (o1 mod BSIZE) (cbytes q m)))) ip bn = blkno d P ip bn) as Hn'.
  { intros bn. rewrite <- Hn. apply blkno_frame. intros _. apply upd_other. intros E. by apply (fo_ind _ _ _ _ Hok (o1 / BSIZE) Hbn). }
  split; [|exact Hn'|].
  - intros o Ho. unfold fbyte at 1. rewrite Hn', view_upd. assert (0 <= o / BSIZE < nb) as Hbo by (unfold BSIZE in *; lia).
    destruct (Z.eqb_spec (blkno d P ip (o / BSIZE)) a) as [E|E].
    + apply (fo_inj _ _ _ _ Hok) in E; [|done|done]. rewrite load8_store_bytes, cbytes_length by done.
      specialize (Hb o Ho). unfold fbyte at 1 in Hb. rewrite Hn, E in Hb. fold a in Hb. rewrite Hb. clear Hb Hn Hn' Hf Hok.
      unfold BSIZE in *. destruct (Z.leb_spec (o1 mod 1024) (o mod 1024)); destruct (Z.ltb_spec (o mod 1024) (o1 mod 1024 + m)); cbn [andb].
      * rewrite cbytes_nth, Hq by lia. replace (tot + (o mod 1024 - o1 mod 1024)) with (o - off) by lia.
        rewrite u8_u8. zdec; try lia; done.
      * zdec; try lia; done.
      * zdec; try lia; done.
      * zdec; try lia; done.
    + rewrite <- (Hn (o / BSIZE)). change (load8 (view d P' (blkno d P' ip (o / BSIZE))) (o mod BSIZE)) with (fbyte d P' ip o).
      rewrite (Hb o Ho). assert (o / BSIZE <> o1 / BSIZE) as Hne by (intros E'; apply E; by rewrite E').
      unfold BSIZE in *. zdec; try lia; done.
  - intros y Hy0 Hy. rewrite upd_other by (by apply Hy). by apply Hf.
Qed.

Lemma writei_loop s0 d w P (bs0 : list Z) i ip nb off n p :
  k_itable s0 !! i = Some ip -> i_dev ip = dev -> file_ok d P ip nb -> 0 <= off -> off + n <= nb * BSIZE ->
  forall fuel tot P' bs q s, txn s0 d w P' bs [] s -> written [] d P P' ip nb off tot p -> 0 <= tot <= n ->
  (forall k, q k = p (tot + k)) ->
  Z.of_nat (length bs) + turns (off + tot) (off + n) <= Z.of_nat (length bs0) + turns off (off + n) ->
  Z.of_nat (length bs0) + turns off (off + n) < Z.min LOGSIZE size ->
  (Z.to_nat (turns (off + tot) (off + n)) < fuel)%nat ->
  wp (mloop fuel (writei_body i n) (tot, off + tot, FromKern q))
    (fun r s' => r = (n, off + n) /\ exists P' bs, txn s0 d w P' bs [] s' /\ written [] d P P' ip nb off n p /\
       Z.of_nat (length bs) <= Z.of_nat (length bs0) + turns off (off + n)) s.
Proof using BC.
  intros Hi Hdev Hok Hoff Hn. induction fuel as [|fuel IH]; intros tot P' bs q s Ht Hw Htot Hq Hbs Hlog Hf; [lia|].
  apply wp_mloop. unfold writei_body. destruct (Z.ltb_spec tot n) as [Hlt|Hge].
  2:{ apply wp_ret. replace tot with n in * by lia. split; [done|]. exists P', bs. split; [done|]. split; [done|].
      assert (0 <= turns (off + n) (off + n)) by (unfold turns; zcase; lia). lia. }
  set (o := off + tot) in *. assert (0 <= o / BSIZE < nb) as Hbn by (unfold BSIZE in *; lia).
  pose proof (file_ok_written _ _ _ _ _ _ _ _ _ Hok Hw) as Hok'. pose proof (fo_max _ _ _ _ Hok) as Hmax.
  pose proof (fo_blk _ _ _ _ Hok' (o / BSIZE) Hbn) as Hblk. pose proof (turns_step o (off + n) ltac:(lia)) as Hs.
  change (Z.to_nat LOGSIZE) with bhead in *. assert (Z.of_nat bhead = LOGSIZE) as Eb by done.
  apply wp_bind. eapply wp_mono; [eapply bmap_spec; [exact Ht|exact Hi|done|lia|lia|lia]|].
  clear s Ht. intros a s [-> Ht]. destruct (Z.eqb_spec (blkno d P' ip (o / BSIZE)) 0) as [E|_]; [lia|].
  eapply txn_inode_get; [exact Ht|exact Hi|]. rewrite Hdev.
  eapply txn_bread; [exact Ht|apply not_elem_of_nil|cbn; lia|]. clear s Ht. intros b s Ht.
  set (m := Z.min (n - tot) (BSIZE - o mod BSIZE)).
  assert (0 < m /\ o mod BSIZE + m <= BSIZE) as [Hm Hmb] by (unfold m, BSIZE in *; lia).
  unfold either_copyin. rewrite bind_assoc. eapply txn_curproc; [exact Ht|]. apply wp_bind, wp_ret.
  eapply txn_bdata_mod; [exact Ht|]. clear s Ht. intros s Ht. change (0 =? -1) with false. cbv iota.
  eapply txn_log_write; [exact Ht|lia|lia|lia|]. clear s Ht. intros s Ht.
  eapply txn_brelse_logged; [exact Ht|]. clear s Ht. intros s Ht. apply wp_ret.
  rewrite (wr_blkno _ _ _ _ _ _ _ _ _ Hw) in Ht.
  replace (off + n - o) with (n - tot) in Hs by lia. fold m in Hs. pose proof (absorb_length bs (blkno d P ip (o / BSIZE))).
  assert (o + m = off + (tot + m)) as Eo by (unfold o; lia). rewrite Eo in *. eapply (IH _ _ _ _ _ Ht); try lia.
  - apply (written_step _ _ _ _ _ _ _ _ _ q); try done; lia.
  - intros k. cbn. rewrite Hq. f_equal. lia.
Qed.

(** The inode after a write that ends at [e]. *)
Definition grown (ip : inode) (e : Z) : inode := if i_size ip <? e then set_i_size e ip else ip.

Lemma grow_spec {R} s0 d w P bs s i ip e (k : unit -> M kstate R) Q :
  txn s0 d w P bs [] s -> k_itable s0 !! i = Some ip ->
  (forall s1 s', k_sb s1 = k_sb s0 -> k_itable s1 !! i = Some (grown ip e) -> txn s1 d w P bs [] s' -> wp (k tt) Q s') ->
  wp (bind (when (i_size ip <? e) (inode_mod i (set_i_size e))) k) Q s.
Proof using BC.
  intros Ht Hi Hk. unfold grown in Hk. destruct (i_size ip <? e); cbn [when].
  - eapply txn_inode_mod; [exact Ht|]. intros s' Ht'. eapply Hk; [|  |exact Ht']; [done|]. cbn. by rewrite list_lookup_alter_eq, Hi.
  - apply wp_bind, wp_ret. by eapply (Hk s0).
Qed.

Lemma writei_spec s0 d w P bs s i ip nb off n p :
  txn s0 d w P bs [] s -> k_itable s0 !! i = Some ip -> i_dev ip = dev -> file_ok d P ip nb ->
  0 <= off <= i_size ip -> 0 <= n -> off + n <= nb * BSIZE ->
  Z.of_nat (length bs) + turns off (off + n) + 1 < Z.min LOGSIZE size ->
  inode_block (k_sb s0) ip < 2 ^ 31 -> (forall bn, 0 <= bn < nb -> inode_block (k_sb s0) ip <> blkno d P ip bn) ->
  inode_block (k_sb s0) ip <> iaddr ip NDIRECT ->
  wp (writei i (FromKern p) off n) (fun r s' => r = n /\ exists s1 P' bs', txn s1 d w P' bs' [] s' /\
    k_itable s1 !! i = Some (grown ip (off + n)) /\ written [inode_block (k_sb s0) ip] d P P' ip nb off n p /\
    Z.of_nat (length bs') <= Z.of_nat (length bs) + turns off (off + n) + 1) s.
Proof using BC.
  intros Ht Hi Hdev Hok Hoff Hn Hnb Hlog Hib Hd Hd2. pose proof (fo_max _ _ _ _ Hok) as Hmax.
  unfold writei. eapply txn_inode_get; [exact Ht|exact Hi|].
  unfold u32. unfold MAXFILE, NINDIRECT, NDIRECT, BSIZE in Hmax, Hnb. rewrite (Z.mod_small (off + n)) by lia.
  destruct (Z.ltb_spec (i_size ip) off); [lia|]. destruct (Z.ltb_spec (off + n) off); [lia|]. cbn [orb].
  destruct (Z.ltb_spec (MAXFILE * BSIZE) (off + n)); [unfold MAXFILE, NINDIRECT, NDIRECT, BSIZE in *; lia|].
  pose proof (turns_le off n ltac:(lia) Hn). apply wp_bind.
  pose proof (writei_loop s0 d w P bs i ip nb off n p Hi Hdev Hok ltac:(lia) Hnb (S (Z.to_nat (n / BSIZE + 2))) 0 P bs p s Ht (written_0 _ _ _ _ _ _)) as Hl.
  rewrite Z.add_0_r in Hl. eapply wp_mono; [apply Hl; try lia; done|]. clear s Ht Hl. intros [tot off'] s ([= -> ->] & P' & bs' & Ht & Hw & Hbs).
  eapply txn_inode_get; [exact Ht|exact Hi|]. set (ip' := grown ip (off + n)).
  assert (inode_block (k_sb s0) ip' = inode_block (k_sb s0) ip /\ i_dev ip' = dev /\ forall k, iaddr ip' k = iaddr ip k) as (Eib & Hdev' & Ead).
  { unfold ip', grown. destruct (i_size ip <? off + n); done. }
  eapply grow_spec; [exact Ht|exact Hi|]. fold ip'. clear s Ht. intros s1 s Hsb Hi1 Ht. apply wp_bind.
  change (Z.to_nat LOGSIZE) with bhead in *. assert (Z.of_nat bhead = LOGSIZE) as Eb by done.
  eapply wp_mono; [eapply iupdate_spec; [exact Ht|exact Hi1|done|by rewrite Hsb, Eib| |lia]|].
  { unfold spare. change (Z.to_nat LOGSIZE) with bhead. lia. }
  clear s Ht. intros u s Ht. apply wp_ret. split; [done|]. eexists s1, _, _. split; [exact Ht|]. split; [done|].
  rewrite Hsb, Eib in *. pose proof (absorb_length bs' (inode_block (k_sb s0) ip)). split; [|lia].
  by apply written_other.
Qed.

End files.
