(* ===== verification/FsClaims.v ===== *)
(** * The properties of blocks and files *)

From S2P Require Import Prelude Riscv Mem Cstring State Sched SchedSpec Uart Bio BioLocks BioList Cache BioSpec Session Log LogSpec Txn Kalloc Vm Sample SampleFs Fs FsBlocks FsFiles.

Section claims.
Context {EN : Env} {KI : KernelImage}.
Variable dev : Z.
Local Abbreviation txn := (txn (crep := crep dev) (chold := chold dev) (dev := dev)).

(** Every bitmap block is itself marked used. *)
Definition bitmap_used (d : Z -> block) (P : pins) (sb : superblock) : Prop :=
  forall x, 0 <= x < sb_size sb -> used d P sb (BBLOCK x sb) = true.

Lemma bitmap_other d P sb b : bitmap_used d P sb -> used d P sb b = false ->
  forall x, 0 <= x < sb_size sb -> BBLOCK x sb <> b.
Proof. intros H Hb x Hx <-. by rewrite H in Hb. Qed.

(** C19: [balloc] inside a transaction, on a disk that is not full, returns the
    first free block, marks it and no other as used, and leaves it zeroed; no
    other block changes.  [bfree] then makes the free map what it was. *)
Theorem balloc_bfree me pid start size s0 d w P bs s a :
  txn me pid start size s0 d w P bs [] s -> geometry (k_sb s0) -> bitmap_used d P (k_sb s0) ->
  spare size bs 2 -> (length bs + 1 < bhead)%nat -> 0 <= a < sb_size (k_sb s0) -> used d P (k_sb s0) a = false ->
  exists b s1 P1 bs1, balloc dev s = Ok b s1 /\ txn me pid start size s0 d w P1 bs1 [] s1 /\
    0 <= b < sb_size (k_sb s0) /\ used d P (k_sb s0) b = false /\
    (forall x, 0 <= x < b -> used d P (k_sb s0) x = true) /\
    (forall x, 0 <= x < sb_size (k_sb s0) -> used d P1 (k_sb s0) x = (x =? b) || used d P (k_sb s0) x) /\
    (forall o, 0 <= o < BSIZE -> load8 (view d P1 b) o = 0) /\
    (forall y, y <> b -> y <> BBLOCK b (k_sb s0) -> P1 y = P y) /\
    (spare size bs1 1 -> (length bs1 < bhead)%nat ->
     exists s2 P2 bs2, bfree dev b s1 = Ok tt s2 /\ txn me pid start size s0 d w P2 bs2 [] s2 /\
       forall x, 0 <= x < sb_size (k_sb s0) -> used d P2 (k_sb s0) x = used d P (k_sb s0) x).
Proof using EN KI.
  intros Ht Hg Hbm Hsp Hroom Ha Hfree. set (sb := k_sb s0) in *.
  pose proof (balloc_spec me pid start size s0 d w P bs s a Ht Hg Hsp Hroom Ha Hfree) as Hwp.
  apply wp_elim in Hwp as (b & s1 & Hrun & Hb & Hf & Hall & Ht1). fold sb in Hb, Hf, Hall, Ht1.
  pose proof (bitmap_other d P sb b Hbm Hf) as Hne.
  exists b, s1. do 2 eexists. split; [exact Hrun|]. split; [exact Ht1|]. split; [done|]. split; [done|]. split; [done|].
  assert (forall x, 0 <= x < sb_size sb -> used d (allocated d P sb b) sb x = (x =? b) || used d P sb x) as Hu
    by (intros x Hx; by apply used_allocated).
  split; [exact Hu|]. split; [|split].
  - intros o Ho. unfold allocated. rewrite view_upd, Z.eqb_refl, load8_memset. zdec; [done|lia..].
  - intros y H1 H2. unfold allocated. by rewrite !upd_other by done.
  - intros Hsp1 Hr1. assert (used d (allocated d P sb b) sb b = true) as Hub by (rewrite Hu by done; by rewrite Z.eqb_refl).
    pose proof (bfree_spec me pid start size s0 d w _ _ [] s1 b Ht1 Hg Hb Hub (not_elem_of_nil _) Hsp1 ltac:(cbn; lia)) as Hwp.
    apply wp_elim in Hwp as ([] & s2 & Hrun2 & Ht2). fold sb in Ht2. exists s2. do 2 eexists. split; [exact Hrun2|]. split; [exact Ht2|].
    intros x Hx. unfold used at 1. rewrite view_upd. destruct (Z.eqb_spec (BBLOCK x sb) (BBLOCK b sb)) as [E|E].
    + rewrite bit_used_clear by (unfold BPB, BSIZE; lia). rewrite <- E.
      change (bit_used (view d (allocated d P sb b) (BBLOCK x sb)) (x mod BPB)) with (used d (allocated d P sb b) sb x).
      rewrite Hu by done. rewrite !BBLOCK_eq in E by done. destruct (Z.eqb_spec x b) as [->|Hxb].
      * rewrite Z.eqb_refl. by rewrite Hf.
      * rewrite (proj2 (Z.eqb_neq _ _)) by (unfold BPB, BSIZE in *; lia). done.
    + change (bit_used (view d (allocated d P sb b) (BBLOCK x sb)) (x mod BPB)) with (used d (allocated d P sb b) sb x).
      rewrite Hu by done. destruct (Z.eqb_spec x b) as [->|]; [done|done].
Qed.

(** C8: a file remembers what is written to it.  [writei] of [n] bytes within a
    file's blocks stores all of them and grows the file if it has to; [readi]
    then returns them; every other byte of the file, and every block other than
    the file's and its inode's, is unchanged. *)
Theorem writei_readi me pid start size s0 d w P bs s i ip nb off n p :
  txn me pid start size s0 d w P bs [] s -> k_itable s0 !! i = Some ip -> i_dev ip = dev -> file_ok d P ip nb ->
  0 <= off <= i_size ip -> 0 <= n -> off + n <= nb * BSIZE -> i_size ip <= nb * BSIZE ->
  Z.of_nat (length bs) + turns off (off + n) + 1 < Z.min LOGSIZE size ->
  inode_block (k_sb s0) ip < 2 ^ 31 -> (forall bn, 0 <= bn < nb -> inode_block (k_sb s0) ip <> blkno d P ip bn) ->
  inode_block (k_sb s0) ip <> iaddr ip NDIRECT ->
  exists s1 s2 P1, writei i (FromKern p) off n s = Ok n s1 /\ readi i ToVar off n s1 = Ok (n, cbytes p n) s2 /\
    (forall o, 0 <= o < nb * BSIZE -> o < off \/ off + n <= o -> fbyte d P1 ip o = fbyte d P ip o) /\
    (forall y, y <> inode_block (k_sb s0) ip -> (forall bn, 0 <= bn < nb -> y <> blkno d P ip bn) -> P1 y = P y) /\
    exists s0' bs1, txn me pid start size s0' d w P1 bs1 [] s2 /\ k_itable s0' !! i = Some (grown ip (off + n)).
Proof using EN KI.
  intros Ht Hi Hdev Hok Hoff Hn Hnb Hsz Hlog Hib Hd Hd2.
  pose proof (writei_spec me pid start size s0 d w P bs s i ip nb off n p Ht Hi Hdev Hok Hoff Hn Hnb Hlog Hib Hd Hd2) as Hwp.
  apply wp_elim in Hwp as (r & s1 & Hrun & -> & s0' & P1 & bs1 & Ht1 & Hi1 & Hw & Hbs).
  set (ip' := grown ip (off + n)) in *.
  assert (i_dev ip' = dev /\ (forall k, iaddr ip' k = iaddr ip k) /\ off + n <= i_size ip' <= nb * BSIZE) as (Hdev' & Ead & Hsz').
  { unfold ip', grown. destruct (Z.ltb_spec (i_size ip) (off + n)); cbn; repeat split; try done; lia. }
  assert (forall bn, blkno d P1 ip' bn = blkno d P1 ip bn) as Ebk by (intros bn; unfold blkno; by rewrite !Ead).
  assert (file_ok d P1 ip' nb) as Hok'.
  { destruct (file_ok_written _ _ _ _ _ _ _ _ _ Hok Hw) as [F1 F2 F3 F4]. split; [done|..]; intros; rewrite ?Ebk, ?Ead in *; eauto. }
  assert (forall o, fbyte d P1 ip' o = fbyte d P1 ip o) as Efb by (intros o; unfold fbyte; by rewrite Ebk).
  pose proof (fo_max _ _ _ _ Hok) as Hmax. change (Z.to_nat LOGSIZE) with bhead in *. assert (Z.of_nat bhead = LOGSIZE) as Eb by done.
  pose proof (readi_spec me pid start size s0' d w P1 bs1 s1 i ip' nb off n Ht1 Hi1 Hdev' Hok' ltac:(lia) Hn) as Hrd.
  assert (off + n < 2 ^ 32) by (unfold MAXFILE, NINDIRECT, NDIRECT, BSIZE in *; lia).
  specialize (Hrd ltac:(done) ltac:(lia) ltac:(lia)). rewrite Z.min_l in Hrd by lia.
  apply wp_elim in Hrd as (r & s2 & Hrun2 & -> & Ht2). exists s1, s2, P1. split; [exact Hrun|]. split.
  { rewrite Hrun2, fbytes_shift. do 2 f_equal. apply map_ext_in. intros k Hk. apply list_elem_of_In, elem_of_seqZ in Hk.
    rewrite Efb, (wr_bytes _ _ _ _ _ _ _ _ _ Hw) by lia. zdec; try lia. do 2 f_equal. lia. }
  split; [|split; [|by exists s0', bs1]].
  - intros o Ho Hout. rewrite (wr_bytes _ _ _ _ _ _ _ _ _ Hw) by done. zdec; try lia; done.
  - intros y Hy1 Hy2. apply (wr_frame _ _ _ _ _ _ _ _ _ Hw); [|done]. by rewrite list_elem_of_singleton.
Qed.

End claims.

(** ** Instances *)

(** A small file system as [mkfs] lays it out: the log from block 2 on, inodes
    from 32, the bitmap in block 45, data from 46; blocks 46 and 47 are those of
    a file of 1500 bytes. *)
Definition sample_sb : superblock := mk_superblock FSMAGIC 2000 1954 200 30 2 32 45.
Definition sample_disk : Z -> block :=
  upd (fun _ => zero_block) 45 (store_bytes zero_block 0 (replicate 6 255)).
Definition sample_inode : inode := mk_inode 1 5 1 (mk_sleeplock true 1) true T_FILE 0 0 1 1500 ([46; 47] ++ replicate 11 0).
Definition fs_of (d : Z -> block) (ip : inode) : kstate :=
  set_k_sb sample_sb (set_k_disk d (set_k_itable (<[0%nat := ip]> (replicate 50 zero_inode))
    (set_k_log (mk_logst 2 30 1 false 1 (mk_logheader 0 (replicate 30 0))) fs0))).
Definition fs2 : kstate := fs_of sample_disk sample_inode.

(** In the first operation after [binit]. *)
Lemma fs_of_txn d ip : exists s, txn (crep := crep 1) (chold := chold 1) (dev := 1) 0 1 2 30 (fs_of d ip) d [] no_pins [] [] s.
Proof.
  destruct (binit_spec 1 (fs_of d ip)) as (bs & Hrun & Hrep); [done|by apply Forall_replicate|].
  exists (set_k_bufs bs (fs_of d ip)).
  split; [|intros b; unfold no_pins; split; [intros [? ?]; done|intros []%elem_of_nil]|constructor|apply not_elem_of_nil].
  exists (k_log (fs_of d ip)). split.
  - split; try done.
    + destruct fs0_ready as [H1 H2 H3 H4 H5 H6]. by split.
    + intros i b []%elem_of_nil.
  - split; [|done]. split; try done. cbn; lia.
Qed.

Lemma fs2_geometry : geometry sample_sb.
Proof. split; vm_compute; intuition discriminate. Qed.

Lemma fs2_file : file_ok sample_disk no_pins sample_inode 2.
Proof.
  assert (forall bn, 0 <= bn < 2 -> blkno sample_disk no_pins sample_inode bn = 46 + bn) as H.
  { intros bn Hbn. assert (bn = 0 \/ bn = 1) as [-> | ->] by lia; reflexivity. }
  split; [vm_compute; discriminate|..].
  - intros bn Hbn. rewrite H by done. lia.
  - intros bn bn' Hbn Hbn'. rewrite !H by done. lia.
  - intros bn Hbn. rewrite H by done. change (iaddr sample_inode NDIRECT) with 0. lia.
Qed.

Lemma balloc_witness : exists s b s1, balloc 1 s = Ok b s1 /\ 0 <= b < 2000 /\
  used sample_disk no_pins sample_sb b = false.
Proof.
  destruct (fs_of_txn sample_disk sample_inode) as (s & Ht). exists s.
  destruct (balloc_bfree 1 0 1 2 30 fs2 sample_disk [] no_pins [] s 48 Ht fs2_geometry) as (b & s1 & P1 & bs1 & Hrun & _ & Hb & Hu & _).
  - intros x Hx. change (0 <= x < 2000) in Hx. change (k_sb fs2) with sample_sb.
    assert (BBLOCK x sample_sb = 45) as ->; [|vm_compute; reflexivity].
    rewrite (BBLOCK_eq sample_sb x fs2_geometry Hx). change (sb_bmapstart sample_sb) with 45. unfold BPB, BSIZE. lia.
  - split; vm_compute; [lia|discriminate].
  - vm_compute. lia.
  - split; done.
  - vm_compute. reflexivity.
  - exists b, s1. split; [exact Hrun|]. split; [exact Hb|exact Hu].
Defined.

(** Eight bytes across the boundary of the two blocks. *)
Lemma writei_witness : exists s s1 s2, writei 0 (FromKern (fun i => 65 + i)) 1020 8 s = Ok 8 s1 /\
  readi 0 ToVar 1020 8 s1 = Ok (8, [65; 66; 67; 68; 69; 70; 71; 72]) s2.
Proof.
  destruct (fs_of_txn sample_disk sample_inode) as (s & Ht). exists s.
  destruct (writei_readi 1 0 1 2 30 fs2 sample_disk [] no_pins [] s 0 sample_inode 2 1020 8 (fun i => 65 + i) Ht)
    as (s1 & s2 & P1 & Hw & Hr & _); try done; try exact fs2_file.
  - intros bn Hbn. assert (bn = 0 \/ bn = 1) as [-> | ->] by lia; vm_compute; discriminate.
  - exists s1, s2. split; [exact Hw|exact Hr].
Defined.
