(* ===== verification/FsDir.v ===== *)
(** * Directories, paths and the inode table

    [iget], [dirlookup] and [skipelem] of kernel/fs.c. *)

From S2P Require Import Prelude Riscv Mem Cstring State Sched SchedSpec Uart Bio BioLocks BioList Cache BioSpec Session Log LogSpec Txn Kalloc Vm Sample SampleFs Fs FsBlocks FsFiles FsClaims.

(** ** The inode table *)

Definition live (dev inum : Z) (ip : inode) : Prop := 0 < i_ref ip /\ i_dev ip = dev /\ i_inum ip = inum.

(** At most one entry is in use for an inode. *)
Definition one_copy (t : list inode) : Prop :=
  forall i j ip jp, t !! i = Some ip -> t !! j = Some jp -> 0 < i_ref ip -> live (i_dev ip) (i_inum ip) jp -> i = j.

(** What [iget] makes of the table. *)
Definition iget_step (dev inum : Z) (t t' : list inode) (i : nat) : Prop :=
  exists ip ip', t !! i = Some ip /\ t' = <[i := ip']> t /\ live dev inum ip' /\ i_ref ip' = i_ref ip + 1 /\
    ((live dev inum ip /\ ip' = set_i_ref (i_ref ip + 1) ip) \/
     (i_ref ip = 0 /\ i_valid ip' = false /\ forall j jp, t !! j = Some jp -> ~ live dev inum jp)).

Lemma one_copy_iget dev inum t t' i : one_copy t -> iget_step dev inum t t' i -> one_copy t'.
Proof.
  intros H1 (ip & ip' & Hi & -> & (Hr' & Hd' & Hn') & Hr & Hc) j k jp kp Hj Hk Hjr Hl.
  assert (forall m mp, m <> i -> t !! m = Some mp -> 0 < i_ref mp -> i_dev mp = dev -> i_inum mp = inum -> False) as Hno.
  { intros m mp Hm Hmp Hmr Hmd Hmn. destruct Hc as [[Hlive _]|(_ & _ & Hall)]; [|by apply (Hall m mp)].
    apply Hm. symmetry. by apply (H1 i m ip mp Hi Hmp); [apply Hlive|destruct Hlive as (_ & <- & <-)]. }
  destruct (decide (j = i)) as [->|Hji], (decide (k = i)) as [->|Hki]; [done|..].
  - rewrite list_lookup_insert_eq in Hj by (by eapply lookup_lt_Some). injection Hj as <-.
    rewrite list_lookup_insert_ne in Hk by done. exfalso. destruct Hl as (Ha & Hb & Hc'). apply (Hno k kp Hki Hk Ha); congruence.
  - rewrite list_lookup_insert_eq in Hk by (by eapply lookup_lt_Some). injection Hk as <-.
    rewrite list_lookup_insert_ne in Hj by done. exfalso. destruct Hl as (Ha & Hb & Hc'). apply (Hno j jp Hji Hj Hjr); congruence.
  - rewrite list_lookup_insert_ne in Hj, Hk by done. by apply (H1 j k jp kp).
Qed.

Section dirs.
Context {EN : Env} {KI : KernelImage}.

Lemma iget_run dev inum s :
  Litable ∉ k_held s ->
  (exists i t', iget dev inum s = Ok i (set_k_itable t' s) /\ iget_step dev inum (k_itable s) t' i) \/
  (iget dev inum s = Panic "iget: no inodes" /\ forall i ip, k_itable s !! i = Some ip -> i_ref ip <> 0 /\ ~ live dev inum ip).
Proof.
  intros Hl. unfold iget. run (acquire_ok Litable s Hl). change (k_itable (set_k_held _ s)) with (k_itable s).
  destruct (list_find _ (k_itable s)) as [[i ip]|] eqn:E1.
  - apply list_find_Some in E1 as (Hi & Hlive & _). left. unfold inode_mod. ksimp.
    erewrite bind_ok by (by apply release_ok). exists i, (alter (fun ip => set_i_ref (i_ref ip + 1) ip) i (k_itable s)).
    split; [by destruct s|]. exists ip, (set_i_ref (i_ref ip + 1) ip). split; [done|].
    split; [exact (alter_insert _ _ _ _ Hi)|]. destruct Hlive as (H1 & H2 & H3). repeat split; try done; [cbn; lia|]. by left.
  - assert (forall i ip, k_itable s !! i = Some ip -> ~ live dev inum ip) as Hno.
    { intros i ip Hi Hlv. apply list_find_None in E1. rewrite Forall_forall in E1. by eapply E1; [eapply list_elem_of_lookup_2|]. }
    clear E1. destruct (list_find _ (k_itable s)) as [[i ip]|] eqn:E2.
    + apply list_find_Some in E2 as (Hi & Hz & _). left. unfold inode_mod. ksimp.
      erewrite bind_ok by (by apply release_ok).
      exists i, (alter (fun ip => set_i_valid false (set_i_ref 1 (set_i_inum inum (set_i_dev dev ip)))) i (k_itable s)).
      split; [by destruct s|]. exists ip, (set_i_valid false (set_i_ref 1 (set_i_inum inum (set_i_dev dev ip)))). split; [done|].
      split; [exact (alter_insert _ _ _ _ Hi)|]. repeat split; try done; [cbn; lia|]. by right.
    + right. split; [done|]. intros i ip Hi. split; [|by eapply Hno]. intros Hz. apply list_find_None in E2.
      rewrite Forall_forall in E2. by eapply E2; [eapply list_elem_of_lookup_2|].
Qed.

(** C21: the inode table.  [iget] returns the entry that is in use for the inode,
    with one reference more, or else takes a free entry, not yet valid; it
    panics only if there is neither.  Either way at most one entry is in use
    for an inode, and no other entry changes. *)
Theorem iget_one_copy dev inum s :
  Litable ∉ k_held s -> one_copy (k_itable s) ->
  match iget dev inum s with
  | Ok i s' => exists t', s' = set_k_itable t' s /\ one_copy t' /\ iget_step dev inum (k_itable s) t' i
  | Panic _ => forall i ip, k_itable s !! i = Some ip -> i_ref ip <> 0 /\ ~ live dev inum ip
  | _ => False
  end.
Proof.
  intros Hl H1. destruct (iget_run dev inum s Hl) as [(i & t' & -> & Hs)|[-> H]]; [|done].
  exists t'. split; [done|]. split; [by eapply one_copy_iget|done].
Qed.

(** ** Looking up a name *)

(** Entry [k] of a directory, and whether it is one for [name]. *)
Definition dent (d : Z -> block) (P : pins) (ip : inode) (k : Z) : list Z := fbytes d P ip (16 * k) 16.
Definition hit (d : Z -> block) (P : pins) (ip : inode) (name : cptr) (k : Z) : bool :=
  negb (de_inum (dent d P ip k) =? 0) && (namecmp name (de_name (dent d P ip k)) =? 0).

Section lookup.
Variables (dev : Z) (me : nat) (pid start size : Z).
Local Abbreviation txn := (txn (crep := crep dev) (chold := chold dev) (dev := dev) me pid start size).

Lemma read_dirent_spec s0 d w P bs s dp ip nb k msg :
  txn s0 d w P bs [] s -> k_itable s0 !! dp = Some ip -> i_dev ip = dev -> file_ok d P ip nb ->
  0 <= k -> 16 * k + 16 <= i_size ip -> i_size ip <= nb * BSIZE -> (length bs < bhead)%nat ->
  wp (read_dirent dp (16 * k) msg) (fun de s' => de = dent d P ip k /\ txn s0 d w P bs [] s') s.
Proof using EN KI.
  intros Ht Hi Hdev Hok Hk Hsz Hnb Hroom. unfold read_dirent, DIRENT_SIZE. apply wp_bind.
  pose proof (fo_max _ _ _ _ Hok). unfold MAXFILE, NDIRECT, NINDIRECT, BSIZE in *.
  eapply wp_mono; [eapply (readi_spec me pid start size s0 d w P bs s dp ip nb (16 * k) 16); try done; unfold BSIZE; lia|].
  clear s Ht. intros r s [-> Ht]. rewrite Z.min_l by lia. apply wp_bind, wp_panic_if; [done|]. by apply wp_ret.
Qed.

(** The first entry for the name, with a reference to its inode, or none. *)
Definition lookup_post (s0 : kstate) (d : Z -> block) (w : list (Z * block)) (P : pins) (bs : list Z) (ip : inode)
    (name : cptr) (N : Z) (r : option (nat * Z)) (s' : kstate) : Prop :=
  match r with
  | None => (forall j, 0 <= j < N -> hit d P ip name j = false) /\ txn s0 d w P bs [] s'
  | Some (i, off) => exists k t', off = 16 * k /\ 0 <= k < N /\ hit d P ip name k = true /\
      (forall j, 0 <= j < k -> hit d P ip name j = false) /\
      iget_step dev (de_inum (dent d P ip k)) (k_itable s0) t' i /\ txn (set_k_itable t' s0) d w P bs [] s'
  end.

Lemma dirlookup_loop s0 d w P bs dp ip nb name N :
  k_itable s0 !! dp = Some ip -> i_dev ip = dev -> file_ok d P ip nb -> i_size ip = 16 * N -> i_size ip <= nb * BSIZE ->
  (length bs < bhead)%nat -> Litable ∉ k_held s0 -> (exists i fp, k_itable s0 !! i = Some fp /\ i_ref fp = 0) ->
  forall fuel k s, txn s0 d w P bs [] s -> 0 <= k <= N -> (forall j, 0 <= j < k -> hit d P ip name j = false) ->
  (Z.to_nat (N - k) < fuel)%nat ->
  wp (mloop fuel (dirlookup_body dp name) (16 * k)) (lookup_post s0 d w P bs ip name N) s.
Proof using EN KI.
  intros Hi Hdev Hok Hsz Hnb Hroom Hl (fi & fp & Hfi & Hfp). induction fuel as [|fuel IH]; intros k s Ht Hk Hno Hf; [lia|].
  apply wp_mloop. unfold dirlookup_body. eapply txn_inode_get; [exact Ht|exact Hi|].
  destruct (Z.ltb_spec (16 * k) (i_size ip)).
  2:{ apply wp_ret. split; [|exact Ht]. intros j Hj. apply Hno. lia. }
  apply wp_bind. eapply wp_mono; [eapply (read_dirent_spec s0 d w P bs s dp ip nb k); try done; lia|].
  clear s Ht. intros de s [-> Ht]. unfold DIRENT_SIZE. replace (16 * k + 16) with (16 * (k + 1)) by lia.
  assert (hit d P ip name k = false -> wp (mloop fuel (dirlookup_body dp name) (16 * (k + 1))) (lookup_post s0 d w P bs ip name N) s) as Hnext.
  { intros Hh. apply IH; [exact Ht|lia| |lia]. intros j Hj. destruct (decide (j = k)) as [->|]; [done|]. apply Hno. lia. }
  assert (hit d P ip name k = negb (de_inum (dent d P ip k) =? 0) && (namecmp name (de_name (dent d P ip k)) =? 0)) as Hh by done.
  destruct (de_inum (dent d P ip k) =? 0); [by apply wp_ret, Hnext|].
  destruct (namecmp name (de_name (dent d P ip k)) =? 0); [|by apply wp_ret, Hnext].
  rewrite Hdev. apply wp_bind. pose proof (txn_itable _ _ _ _ _ _ _ _ _ _ _ Ht) as Et.
  destruct (iget_run dev (de_inum (dent d P ip k)) s) as [(i & t' & Hrun & Hstep)|[_ Hfull]].
  - by rewrite (txn_held _ _ _ _ _ _ _ _ _ _ _ Ht).
  - eapply wp_ok; [exact Hrun|]. apply wp_ret. exists k, t'. rewrite Et in Hstep. split; [done|]. split; [lia|]. split; [done|].
    split; [exact Hno|]. split; [exact Hstep|]. by apply txn_set_itable.
  - exfalso. rewrite Et in Hfull. by destruct (Hfull fi fp Hfi).
Qed.

Lemma dirlookup_spec s0 d w P bs s dp ip nb name N :
  txn s0 d w P bs [] s -> k_itable s0 !! dp = Some ip -> i_type ip = T_DIR -> i_dev ip = dev -> file_ok d P ip nb ->
  0 <= N -> i_size ip = 16 * N -> i_size ip <= nb * BSIZE ->
  (length bs < bhead)%nat -> Litable ∉ k_held s0 -> (exists i fp, k_itable s0 !! i = Some fp /\ i_ref fp = 0) ->
  wp (dirlookup dp name) (lookup_post s0 d w P bs ip name N) s.
Proof using EN KI.
  intros Ht Hi Hty Hdev Hok HN Hsz Hnb Hroom Hl Hfree. unfold dirlookup.
  eapply txn_inode_get; [exact Ht|exact Hi|]. rewrite Hty. change (negb (T_DIR =? T_DIR)) with false. apply wp_bind, wp_panic_if; [done|].
  rewrite Hsz. unfold DIRENT_SIZE. change 0 with (16 * 0) at 1.
  eapply dirlookup_loop; try done; try lia.
Qed.

(** C26: [dirlookup] finds the first entry of a directory whose inode number is
    not zero and whose name agrees with the given one, and returns its offset
    and a reference to its inode; if no entry agrees it returns a null pointer. *)
Theorem dirlookup_first s0 d w P bs s dp ip nb name N :
  txn s0 d w P bs [] s -> k_itable s0 !! dp = Some ip -> i_type ip = T_DIR -> i_dev ip = dev -> file_ok d P ip nb ->
  0 <= N -> i_size ip = 16 * N -> i_size ip <= nb * BSIZE ->
  (length bs < bhead)%nat -> Litable ∉ k_held s0 -> (exists i fp, k_itable s0 !! i = Some fp /\ i_ref fp = 0) ->
  exists r s', dirlookup dp name s = Ok r s' /\ lookup_post s0 d w P bs ip name N r s'.
Proof using EN KI. intros. apply wp_elim. by eapply dirlookup_spec. Qed.

End lookup.
End dirs.

Lemma iget_witness : match iget 1 5 fs2 with
  | Ok i s' => exists t', s' = set_k_itable t' fs2 /\ one_copy t' /\ iget_step 1 5 (k_itable fs2) t' i
  | Panic _ => forall i ip, k_itable fs2 !! i = Some ip -> i_ref ip <> 0 /\ ~ live 1 5 ip
  | _ => False
  end.
Proof.
  apply (iget_one_copy 1 5 fs2); [apply not_elem_of_nil|].
  intros i j ip jp Hi Hj Hr (Hr' & _). assert (forall k kp, k_itable fs2 !! k = Some kp -> 0 < i_ref kp -> k = 0%nat) as H.
  { intros [|k] kp Hk Hkr; [done|]. cbn [k_itable fs2 fs_of set_k_sb set_k_disk set_k_itable] in Hk.
    rewrite list_lookup_insert_ne in Hk by done. apply lookup_replicate in Hk as [-> _]. cbn in Hkr. lia. }
  rewrite (H i ip Hi Hr). by rewrite (H j jp Hj Hr').
Defined.

(** A directory whose second entry is a file [a] with inode 7. *)
Definition dir_disk : Z -> block := upd sample_disk 46 (store_bytes zero_block 16 [7; 0; 97]).
Definition dir_inode : inode := set_i_type T_DIR (set_i_size 32 sample_inode).

Lemma dirlookup_witness : exists s r s', dirlookup 0 (at_list [97]) s = Ok r s' /\
  lookup_post 1 0 1 2 30 (fs_of dir_disk dir_inode) dir_disk [] no_pins [] dir_inode (at_list [97]) 2 r s'.
Proof.
  destruct (fs_of_txn dir_disk dir_inode) as (s & Ht). exists s.
  apply (dirlookup_first 1 0 1 2 30 (fs_of dir_disk dir_inode) dir_disk [] no_pins [] s 0 dir_inode 2 (at_list [97]) 2 Ht);
    try done; [|apply Nat.ltb_lt; done|apply not_elem_of_nil|by exists 1%nat, zero_inode].
  assert (forall bn, 0 <= bn < 2 -> blkno dir_disk no_pins dir_inode bn = 46 + bn) as H.
  { intros bn Hbn. assert (bn = 0 \/ bn = 1) as [-> | ->] by lia; reflexivity. }
  split; [vm_compute; discriminate|..].
  - intros bn Hbn. rewrite H by done. lia.
  - intros bn bn' Hbn Hbn'. rewrite !H by done. lia.
  - intros bn Hbn. rewrite H by done. change (iaddr dir_inode NDIRECT) with 0. lia.
Defined.

(** ** Paths *)

(** The elements of a path: what is between the slashes and not empty. *)
Definition elements (path : list Z) : list (list Z) := pieces slash path.

Lemma elements_skip p : elements (skip_slashes p) = elements p.
Proof.
  induction p as [|c p IH]; [done|]. cbn [skip_slashes]. destruct (c =? slash) eqn:E; [|done].
  rewrite IH. unfold elements, pieces. cbn [split_on]. rewrite E. by rewrite filter_cons_False by (by intros ?).
Qed.

(** Either the whole rest is one element, or a slash follows it. *)
Lemma take_elem_parts p e r : take_elem p = (e, r) -> exists ws, split_on slash p = e :: ws /\
  (forall p', skip_slashes r = p' -> elements p' = filter (fun w => w <> []) ws) /\ (r = [] -> ws = []).
Proof.
  revert e r. induction p as [|c p IH]; intros e r; cbn.
  - intros [= <- <-]. exists []. split; [done|]. split; [|done]. by intros p' <-.
  - destruct (c =? slash) eqn:E.
    + intros [= <- <-]. exists (split_on slash p). split; [done|]. split; [|done]. intros p' <-.
      rewrite elements_skip. unfold elements, pieces. cbn [split_on]. rewrite E. by rewrite filter_cons_False by (by intros ?).
    + destruct (take_elem p) as [e' r']. intros [= <- <-]. destruct (IH e' r' eq_refl) as (ws & -> & H).
      exists ws. split; [done|exact H].
Qed.

(** [skipelem] takes paths apart as they are meant to be: it returns the
    first element, cut to [DIRSIZ] bytes, and a path with the elements that
    remain, which does not begin with a slash; runs of slashes count as one, and
    there is no element exactly when the path is empty but for slashes. *)
Theorem skipelem_elements path :
  match skipelem path with
  | None => elements path = []
  | Some (rest, name) => exists e es, elements path = e :: es /\ name = take (Z.to_nat DIRSIZ) e /\
      elements rest = es /\ head rest <> Some slash
  end.
Proof.
  unfold skipelem. rewrite <- (elements_skip path).
  assert (head (skip_slashes path) <> Some slash) as Hh.
  { clear. induction path as [|c p IH]; [done|]. cbn. destruct (Z.eqb_spec c slash); [done|]. cbn. congruence. }
  destruct (skip_slashes path) as [|c p]; [done|]. destruct (take_elem (c :: p)) as [e r] eqn:E.
  destruct (take_elem_parts _ _ _ E) as (ws & Hp & Hr & _).
  assert (e <> []) as He.
  { cbn in E. destruct (Z.eqb_spec c slash) as [->|]; [by cbn in Hh|]. destruct (take_elem p). by injection E as <- _. }
  exists e, (elements (skip_slashes r)). split; [|split; [done|split; [done|]]].
  - unfold elements at 1, pieces. rewrite Hp, filter_cons_True by done. f_equal. symmetry. by apply Hr.
  - clear. induction r as [|c p IH]; [done|]. cbn. destruct (Z.eqb_spec c slash); [done|]. cbn. congruence.
Qed.
