(* ===== verification/Mkfs.v ===== *)
(** * mkfs/mkfs.c: the initial disk image

    The image as an array of blocks; [None] is the end of the program with an
    error, an assertion or a read past the end of the image.  A file to copy is
    the list of what each [read] of it returned. *)

From S2P Require Import Prelude Riscv Mem Cstring State Sched Uart Bio Cache Log Kalloc Vm Fs.

Definition NINODES : Z := 200.

Definition nbitmap : Z := FSSIZE / BPB + 1.
Definition ninodeblocks : Z := NINODES / IPB + 1.
Definition nlog : Z := LOGSIZE.
Definition nmeta : Z := 2 + nlog + ninodeblocks + nbitmap.
Definition nblocks : Z := FSSIZE - nmeta.

(** The bytes of a number in the order of the RISC-V, as a little-endian host
    reads them back. *)
Definition xshort (x : Z) : Z := u8 x + 256 * u8 (Z.shiftr x 8).
Definition xint (x : Z) : Z := u8 x + 256 * (u8 (Z.shiftr x 8) + 256 * (u8 (Z.shiftr x 16) + 256 * u8 (Z.shiftr x 24))).

Definition mkfs_sb : superblock :=
  mk_superblock FSMAGIC (xint FSSIZE) (xint nblocks) (xint NINODES) (xint nlog) (xint 2) (xint (2 + nlog)) (xint (2 + nlog + ninodeblocks)).

(** The image, its length in blocks, [freeinode] and [freeblock]. *)
Record mkst : Type := MkSt { m_im : Z -> block; m_len : Z; m_freeinode : Z; m_freeblock : Z }.
Definition set_m_freeinode (v : Z) (s : mkst) : mkst := MkSt (m_im s) (m_len s) v (m_freeblock s).
Definition set_m_freeblock (v : Z) (s : mkst) : mkst := MkSt (m_im s) (m_len s) (m_freeinode s) v.

Definition wsect (sec : Z) (buf : block) (s : mkst) : mkst :=
  MkSt (upd (m_im s) sec buf) (Z.max (m_len s) (sec + 1)) (m_freeinode s) (m_freeblock s).
Definition rsect (sec : Z) (s : mkst) : option block :=
  if sec <? m_len s then Some (m_im s sec) else None.

Definition no_inode : inode := mk_inode 0 0 0 (mk_sleeplock false 0) false 0 0 0 0 0 (replicate 13 0).

Definition winode (inum : Z) (ip : inode) (s : mkst) : option mkst :=
  let bn := IBLOCK inum mkfs_sb in
  buf ← rsect bn s;
  Some (wsect bn (dinode_put buf (di_off inum) ip) s).

Definition rinode (inum : Z) (s : mkst) : option inode :=
  buf ← rsect (IBLOCK inum mkfs_sb) s;
  Some (dinode_get buf (di_off inum) no_inode).

Definition mk_ialloc (type : Z) (s : mkst) : option (mkst * Z) :=
  let inum := m_freeinode s in
  let s := set_m_freeinode (inum + 1) s in
  s ← winode inum (set_i_size (xint 0) (set_i_nlink (xshort 1) (set_i_type (xshort type) no_inode))) s;
  Some (s, inum).

Fixpoint mark_bits (n : nat) (i : Z) (buf : block) : block :=
  match n with
  | O => buf
  | S n' => mark_bits n' (i + 1) (store8 buf (i / 8) (Z.lor (load8 buf (i / 8)) (Z.shiftl 1 (i mod 8))))
  end.

Definition mk_balloc (used : Z) (s : mkst) : option mkst :=
  if BPB <=? used then None
  else Some (wsect (sb_bmapstart mkfs_sb) (mark_bits (Z.to_nat used) 0 (fun _ => 0)) s).

(** [uint x] of [iappend]: the block for block [fbn] of the file, and the inode
    and the image with it. *)
Definition addr_of (din : inode) (k : Z) : Z := nth (Z.to_nat k) (i_addrs din) 0.
Definition set_addr (din : inode) (k v : Z) : inode := set_i_addrs (<[Z.to_nat k := v]> (i_addrs din)) din.

Definition direct_for (k : Z) (din : inode) (s : mkst) : inode * mkst :=
  if xint (addr_of din k) =? 0
  then (set_addr din k (xint (m_freeblock s)), set_m_freeblock (m_freeblock s + 1) s) else (din, s).

Definition blk_for (fbn : Z) (din : inode) (s : mkst) : option (Z * inode * mkst) :=
  if fbn <? NDIRECT then
    let '(din, s) := direct_for fbn din s in
    Some (xint (addr_of din fbn), din, s)
  else
    let '(din, s) := direct_for NDIRECT din s in
    indirect ← rsect (xint (addr_of din NDIRECT)) s;
    let k := fbn - NDIRECT in
    if load32 indirect (4 * k) =? 0 then
      let indirect := store32 indirect (4 * k) (xint (m_freeblock s)) in
      let s := wsect (xint (addr_of din NDIRECT)) indirect (set_m_freeblock (m_freeblock s + 1) s) in
      Some (xint (load32 indirect (4 * k)), din, s)
    else Some (xint (load32 indirect (4 * k)), din, s).

(** The loop of [iappend], with the bytes that are left. *)
Fixpoint iappend_loop (fuel : nat) (din : inode) (off : Z) (p : list Z) (s : mkst) : option (inode * Z * mkst) :=
  match fuel with
  | O => None
  | S f =>
      if Z.of_nat (length p) <=? 0 then Some (din, off, s)
      else
        let fbn := off / BSIZE in
        if MAXFILE <=? fbn then None
        else
          '(x, din, s) ← blk_for fbn din s;
          let n1 := Z.min (Z.of_nat (length p)) ((fbn + 1) * BSIZE - off) in
          buf ← rsect x s;
          let s := wsect x (store_bytes buf (off - fbn * BSIZE) (take (Z.to_nat n1) p)) s in
          iappend_loop f din (off + n1) (drop (Z.to_nat n1) p) s
  end.

Definition iappend (inum : Z) (p : list Z) (s : mkst) : option mkst :=
  din ← rinode inum s;
  '(din, off, s) ← iappend_loop (S (length p)) din (xint (i_size din)) p s;
  winode inum (set_i_size (xint off) din) s.

(** [struct dirent], the name padded with NULs. *)
Definition dirent (inum : Z) (name : list Z) : list Z :=
  let i := xshort inum in [u8 i; u8 (Z.shiftr i 8)] ++ name ++ replicate (Z.to_nat DIRSIZ - length name) 0.

(** [strncmp(argv[i], "user/", 5) == 0], and the name without the prefix and
    without a leading underscore. *)
Definition short_name (arg : list Z) : list Z :=
  if decide (take 5 arg = str_bytes "user/") then drop 5 arg else arg.
Definition strip_underscore (name : list Z) : list Z := match name with 95 :: name' => name' | _ => name end.

Fixpoint iappends (inum : Z) (l : list (list Z)) (s : mkst) : option mkst :=
  match l with [] => Some s | p :: l' => s ← iappend inum p s; iappends inum l' s end.

(** The body of the loop over the arguments. *)
Definition add_file (rootino : Z) (arg : list Z) (reads : list (list Z)) (s : mkst) : option mkst :=
  let shortname := short_name arg in
  if decide (47 ∈ shortname) then None
  else
    let shortname := strip_underscore shortname in
    if DIRSIZ <? Z.of_nat (length shortname) then None
    else
      '(s, inum) ← mk_ialloc T_FILE s;
      s ← iappend rootino (dirent inum shortname) s;
      iappends inum reads s.

Fixpoint add_files (rootino : Z) (l : list (list Z * list (list Z))) (s : mkst) : option mkst :=
  match l with [] => Some s | (arg, reads) :: l' => s ← add_file rootino arg reads s; add_files rootino l' s end.

(** [struct superblock] in a block of zeroes. *)
Definition sb_block (sb : superblock) : block :=
  fold_left (fun b '(o, v) => store32 b o v)
    [(0, sb_magic sb); (4, sb_size sb); (8, sb_nblocks sb); (12, sb_ninodes sb); (16, sb_nlog sb); (20, sb_logstart sb);
     (24, sb_inodestart sb); (28, sb_bmapstart sb)] (fun _ => 0).

Fixpoint zero_image (n : nat) (i : Z) (s : mkst) : mkst :=
  match n with O => s | S n' => zero_image n' (i + 1) (wsect i (fun _ => 0) s) end.

Definition mkfs_main (files : list (list Z * list (list Z))) : option mkst :=
  let s := MkSt (fun _ _ => 0) 0 1 nmeta in
  let s := zero_image (Z.to_nat FSSIZE) 0 s in
  let s := wsect 1 (sb_block mkfs_sb) s in
  '(s, rootino) ← mk_ialloc T_DIR s;
  if negb (rootino =? ROOTINO) then None
  else
    s ← iappend rootino (dirent rootino [46]) s;
    s ← iappend rootino (dirent rootino [46; 46]) s;
    s ← add_files rootino files s;
    din ← rinode rootino s;
    let off := xint (i_size din) in
    let off := (off / BSIZE + 1) * BSIZE in
    s ← winode rootino (set_i_size (xint off) din) s;
    mk_balloc (m_freeblock s) s.
