(* ===== verification/MkfsSpec.v ===== *)
(** * What mkfs puts into the image

    The blocks of a file and its bytes as [iappend] lays them out, in the terms in
    which kernel/fs.c reads them. *)

From S2P Require Import Prelude Riscv Mem Cstring State Sched Uart Bio Cache Log Kalloc Vm Fs Mkfs.

Lemma xint_id x : 0 <= x < 2 ^ 32 -> xint x = x.
Proof. intros H. unfold xint, u8. rewrite !Z.shiftr_div_pow2 by lia. change (2 ^ 8) with 256. change (2 ^ 16) with 65536. change (2 ^ 24) with 16777216. lia. Qed.
Lemma xshort_id x : 0 <= x < 2 ^ 16 -> xshort x = x.
Proof. intros H. unfold xshort, u8. rewrite Z.shiftr_div_pow2 by lia. change (2 ^ 8) with 256. lia. Qed.

(** ** The dinode of an inode *)

Lemma load16_store16_same m a v : 0 <= v < 2 ^ 16 -> load16 (store16 m a v) a = v.
Proof. intros H. unfold load16, store16. rewrite loadn_storen_same. by apply Z.mod_small. Qed.
Lemma load32_store32_same m a v : 0 <= v < 2 ^ 32 -> load32 (store32 m a v) a = v.
Proof. intros H. unfold load32, store32. rewrite loadn_storen_same. by apply Z.mod_small. Qed.

(** The addresses part of [dinode_put]. *)
Lemma put_addrs_out l f (d : block) o x : (forall k, k ∈ l -> 0 <= k) -> x < o + 12 \/ (forall k, k ∈ l -> o + 12 + 4 * k + 4 <= x \/ x + 1 <= o + 12 + 4 * k) ->
  load8 (fold_left (fun d i => store32 d (o + 12 + 4 * i) (f i)) l d) x = load8 d x.
Proof.
  revert d. induction l as [|k l IH]; intros d H0 Hx; [done|]. cbn [fold_left]. rewrite IH.
  - apply load8_storen_out. specialize (H0 k ltac:(left)). destruct Hx as [Hx|Hx]; [|specialize (Hx k ltac:(left))]; lia.
  - intros j Hj. apply H0. by right.
  - destruct Hx as [Hx|Hx]; [by left|right]. intros j Hj. apply Hx. by right.
Qed.

Lemma put_addrs_in l f (d : block) o k : NoDup l -> (forall j, j ∈ l -> 0 <= f j < 2 ^ 32) -> k ∈ l ->
  load32 (fold_left (fun d i => store32 d (o + 12 + 4 * i) (f i)) l d) (o + 12 + 4 * k) = f k.
Proof.
  revert d. induction l as [|j l IH]; intros d Hnd Hf Hk; [by apply elem_of_nil in Hk|]. apply NoDup_cons in Hnd as [Hj Hnd]. cbn [fold_left].
  destruct (decide (k ∈ l)) as [Hin|Hout]; [apply IH; [done| |done]; intros i Hi; apply Hf; by right|]. apply elem_of_cons in Hk as [->|?]; [|done].
  assert (forall l' d', j ∉ l' -> load32 (fold_left (fun d i => store32 d (o + 12 + 4 * i) (f i)) l' d') (o + 12 + 4 * j) = load32 d' (o + 12 + 4 * j)) as Hout'.
  { clear. induction l' as [|i l' IH]; intros d' Hn; [done|]. apply not_elem_of_cons in Hn as [Hne Hn]. cbn [fold_left]. rewrite IH by done. apply loadn_storen_out. lia. }
  rewrite Hout' by done. apply load32_store32_same. apply Hf. left.
Qed.

(** An inode that fits its dinode. *)
Definition fits (ip : inode) : Prop :=
  0 <= i_type ip < 2 ^ 15 /\ 0 <= i_major ip < 2 ^ 15 /\ 0 <= i_minor ip < 2 ^ 15 /\ 0 <= i_nlink ip < 2 ^ 15 /\ 0 <= i_size ip < 2 ^ 32 /\
  length (i_addrs ip) = 13%nat /\ Forall (fun a => 0 <= a < 2 ^ 32) (i_addrs ip).

Definition same_dinode (ip ip' : inode) : Prop :=
  i_type ip = i_type ip' /\ i_major ip = i_major ip' /\ i_minor ip = i_minor ip' /\ i_nlink ip = i_nlink ip' /\ i_size ip = i_size ip' /\ i_addrs ip = i_addrs ip'.

Lemma dinode_put_out d o ip x : x < o \/ o + DINODE_SIZE <= x -> load8 (dinode_put d o ip) x = load8 d x.
Proof.
  intros H. unfold dinode_put, DINODE_SIZE in *. rewrite put_addrs_out.
  - unfold store16, store32. rewrite !load8_storen_out by lia. done.
  - intros k Hk. apply elem_of_seqZ in Hk. lia.
  - right. intros k Hk. apply elem_of_seqZ in Hk. unfold NDIRECT in Hk. lia.
Qed.

Lemma dinode_get_ext d d' o ip : (forall x, o <= x < o + DINODE_SIZE -> load8 d x = load8 d' x) -> dinode_get d o ip = dinode_get d' o ip.
Proof.
  intros H. unfold DINODE_SIZE in H. assert (forall n a, o <= a -> a + Z.of_nat n <= o + 64 -> loadn n d a = loadn n d' a) as E.
  { intros n a H1 H2. apply loadn_ext. intros x Hx. apply H. lia. }
  unfold dinode_get, di_type, di_major, di_minor, di_nlink, di_size, load16, load32. rewrite !E by lia. f_equal. apply map_ext_in. intros k Hk.
  apply list_elem_of_In, elem_of_seqZ in Hk. unfold NDIRECT in Hk. apply E; lia.
Qed.

Lemma dinode_get_put d o ip ip0 : fits ip -> same_dinode (dinode_get (dinode_put d o ip) o ip0) ip.
Proof.
  intros (H1 & H2 & H3 & H4 & H5 & H6 & H7). unfold same_dinode, dinode_get. cbn [i_type i_major i_minor i_nlink i_size i_addrs set_i_type set_i_major set_i_minor set_i_nlink set_i_size set_i_addrs].
  set (d1 := store32 (store16 (store16 (store16 (store16 d o (u16 (i_type ip))) (o + 2) (u16 (i_major ip))) (o + 4) (u16 (i_minor ip))) (o + 6) (u16 (i_nlink ip))) (o + 8) (i_size ip)).
  assert (forall n a, a + Z.of_nat n <= o + 12 -> loadn n (dinode_put d o ip) a = loadn n d1 a) as E.
  { intros n a Ha. apply loadn_ext. intros x Hx. unfold dinode_put. apply put_addrs_out; [intros k Hk; apply elem_of_seqZ in Hk; lia|left; lia]. }
  unfold di_type, di_major, di_minor, di_nlink, di_size, load16, load32. rewrite !E by lia. unfold d1, store16, store32.
  assert (forall v, 0 <= v < 2 ^ 15 -> s16 (u16 v) = v) as S16 by (intros v Hv; unfold s16, u16; rewrite !Z.mod_small by lia; destruct (Z.ltb_spec v (2 ^ 15)); lia).
  assert (forall v, 0 <= v < 2 ^ 15 -> u16 v mod 256 ^ Z.of_nat 2 = u16 v) as M16 by (intros v Hv; change (256 ^ Z.of_nat 2) with (2 ^ 16); unfold u16; by rewrite Zmod_mod).
  rewrite !(loadn_storen_out 2 4) by lia. rewrite (loadn_storen_same 4). change (256 ^ Z.of_nat 4) with (2 ^ 32). rewrite (Z.mod_small (i_size ip)) by done.
  split; [rewrite !(loadn_storen_out 2 2) by lia; rewrite loadn_storen_same, M16 by done; by apply S16|].
  split; [rewrite !(loadn_storen_out 2 2) by lia; rewrite loadn_storen_same, M16 by done; by apply S16|].
  split; [rewrite !(loadn_storen_out 2 2) by lia; rewrite loadn_storen_same, M16 by done; by apply S16|].
  split; [rewrite loadn_storen_same, M16 by done; by apply S16|]. split; [done|].
  apply (nth_ext _ _ 0 0); [rewrite length_map, length_seqZ, H6; done|]. intros k Hk. rewrite length_map, length_seqZ in Hk. unfold NDIRECT in Hk.
  rewrite (nth_indep _ 0 (di_addr (dinode_put d o ip) o 0)), map_nth by (rewrite length_map, length_seqZ; unfold NDIRECT; lia).
  assert (nth k (seqZ 0 (NDIRECT + 1)) 0 = Z.of_nat k) as -> by (apply nth_lookup_Some, lookup_seqZ; unfold NDIRECT; lia).
  unfold di_addr, dinode_put. rewrite (put_addrs_in (seqZ 0 (NDIRECT + 1)) (fun i => nth (Z.to_nat i) (i_addrs ip) 0)); [by rewrite Nat2Z.id|apply NoDup_seqZ| |].
  - intros j Hj. apply elem_of_seqZ in Hj. unfold NDIRECT in Hj. rewrite Forall_lookup in H7. destruct (lookup_lt_is_Some_2 (i_addrs ip) (Z.to_nat j) ltac:(lia)) as [v Ev].
    rewrite (nth_lookup_Some _ _ _ _ Ev). by eapply H7.
  - apply elem_of_seqZ. unfold NDIRECT. lia.
Qed.

(** ** The blocks of a file *)

(** The file of [ip] has the blocks [bl], the indirect block [ind] (0 if it has
    none) and, from its start, the bytes [c], with zeroes after them. *)
Record frep (im : Z -> block) (ip : inode) (bl : list Z) (ind : Z) (c : list Z) : Prop := {
  fr_max : (length bl <= 268)%nat;
  fr_cov : (length c <= 1024 * length bl)%nat;
  fr_addrs : length (i_addrs ip) = 13%nat;
  fr_direct : forall k, 0 <= k < 12 -> addr_of ip k = nth (Z.to_nat k) bl 0;
  fr_single : addr_of ip 12 = ind;
  fr_none : (length bl <= 12)%nat -> ind = 0;
  fr_ind : (12 < length bl)%nat -> ind <> 0 /\ forall k, 0 <= k < 256 -> load32 (im ind) (4 * k) = nth (12 + Z.to_nat k) bl 0;
  fr_bytes : forall o, (o < 1024 * length bl)%nat -> load8 (im (nth (o / 1024) bl 0)) (Z.of_nat (o mod 1024)) = nth o c 0
}.

Definition owned (bl : list Z) (ind : Z) : list Z := bl ++ (if ind =? 0 then [] else [ind]).

(** The image, and the blocks that are not used yet. *)
Record blank_rest (s : mkst) : Prop := {
  rm_len : m_len s = FSSIZE;
  rm_free : nmeta <= m_freeblock s <= FSSIZE;
  rm_zero : forall b x, m_freeblock s <= b -> load8 (m_im s b) x = 0
}.

Definition owns (s : mkst) (bl : list Z) (ind : Z) : Prop :=
  Forall (fun b => nmeta <= b < m_freeblock s) (owned bl ind) /\ NoDup (owned bl ind).

Lemma owned_ind bl ind : ind <> 0 -> owned bl ind = bl ++ [ind].
Proof. intros H. unfold owned. by rewrite (proj2 (Z.eqb_neq _ _) H). Qed.

Lemma owned_in bl ind b : b ∈ bl -> b ∈ owned bl ind.
Proof. intros H. unfold owned. set_solver. Qed.

(** A block of the file is a real block. *)
Lemma owns_nth s bl ind k : owns s bl ind -> (k < length bl)%nat -> nmeta <= nth k bl 0 < m_freeblock s /\ nth k bl 0 ∈ bl.
Proof.
  intros [Hf _] Hk. assert (nth k bl 0 ∈ bl) as Hin by (apply list_elem_of_In, nth_In; done). split; [|done]. rewrite Forall_forall in Hf. apply Hf. by apply owned_in.
Qed.

Lemma nth_past (bl : list Z) k : (length bl <= k)%nat -> nth k bl 0 = 0.
Proof. apply nth_overflow. Qed.

Lemma frep_frame im im' ip bl ind c : frep im ip bl ind c -> (forall b, b ∈ owned bl ind -> im' b = im b) -> frep im' ip bl ind c.
Proof.
  intros [H1 H2 H3 H4 H5 H6 H7 H8] Hf. split; try done.
  - intros Hl. destruct (H7 Hl) as [Hne Hk]. split; [done|]. intros k Hk'. rewrite Hf by (rewrite owned_ind by done; set_solver +). by apply Hk.
  - intros o Ho. rewrite Hf; [by apply H8|]. apply owned_in, list_elem_of_In, nth_In. apply Nat.Div0.div_lt_upper_bound. lia.
Qed.

(** One more block at the end of the file. *)
Lemma nth_snoc (bl : list Z) x k : (k < length bl)%nat -> nth k (bl ++ [x]) 0 = nth k bl 0.
Proof. intros H. by apply app_nth1. Qed.
Lemma nth_snoc_last (bl : list Z) x : nth (length bl) (bl ++ [x]) 0 = x.
Proof. rewrite app_nth2 by lia. by rewrite Nat.sub_diag. Qed.

Lemma set_addr_get ip k v j : length (i_addrs ip) = 13%nat -> 0 <= k < 13 -> 0 <= j -> addr_of (set_addr ip k v) j = if j =? k then v else addr_of ip j.
Proof.
  intros Hl Hk Hj. unfold addr_of, set_addr. cbn [i_addrs set_i_addrs]. rewrite !nth_lookup. destruct (Z.eqb_spec j k) as [->|Hne].
  - by rewrite list_lookup_insert_eq by lia.
  - by rewrite list_lookup_insert_ne by lia.
Qed.

Lemma set_addr_length ip k v : length (i_addrs (set_addr ip k v)) = length (i_addrs ip).
Proof. apply length_insert. Qed.

(** ** Taking a block *)

Lemma nmeta_val : nmeta = 46.
Proof. reflexivity. Qed.

Lemma rest_alloc s : blank_rest s -> m_freeblock s + 1 <= FSSIZE -> blank_rest (set_m_freeblock (m_freeblock s + 1) s).
Proof.
  intros [H1 H2 H3] Hf. split; cbn [m_len m_freeblock m_im set_m_freeblock]; [done|lia|]. intros b x Hb. apply H3. lia.
Qed.

Lemma rest_wsect s b buf : blank_rest s -> b < m_freeblock s -> blank_rest (wsect b buf s).
Proof.
  intros [H1 H2 H3] Hf. split; cbn [m_len m_freeblock m_im wsect]; [lia|lia|]. intros y x Hy. rewrite upd_other by lia. by apply H3.
Qed.

Lemma rest_rsect s b : blank_rest s -> b < m_freeblock s -> rsect b s = Some (m_im s b).
Proof. intros [H1 H2 _] Hb. unfold rsect. rewrite (proj2 (Z.ltb_lt _ _)) by lia. done. Qed.

Lemma owned_snoc bl ind x : owned (bl ++ [x]) ind ≡ₚ x :: owned bl ind.
Proof. unfold owned. rewrite <- app_assoc. cbn. by rewrite Permutation_middle. Qed.

Lemma owns_fresh s bl ind b : owns s bl ind -> m_freeblock s <= b -> b ∉ owned bl ind.
Proof. intros [Hf _] Hb Hin. rewrite Forall_forall in Hf. specialize (Hf b Hin). cbn in Hf. lia. Qed.

Lemma owns_alloc s bl ind : nmeta <= m_freeblock s -> owns s bl ind -> owns (set_m_freeblock (m_freeblock s + 1) s) (bl ++ [m_freeblock s]) ind.
Proof.
  intros Hm Ho. pose proof (owns_fresh _ _ _ (m_freeblock s) Ho ltac:(lia)) as Hn. destruct Ho as [Hf Hd]. unfold owns. rewrite owned_snoc. cbn [m_freeblock set_m_freeblock]. split.
  - constructor; [lia|]. eapply Forall_impl; [exact Hf|]. cbn. lia.
  - by constructor.
Qed.

Lemma owns_alloc_ind s bl : nmeta <= m_freeblock s -> owns s bl 0 -> owns (set_m_freeblock (m_freeblock s + 1) s) bl (m_freeblock s).
Proof.
  intros Hm Ho. pose proof (owns_alloc s bl 0 Hm Ho) as [Hf Hd]. assert (m_freeblock s <> 0) as Hne by (rewrite nmeta_val in Hm; lia).
  unfold owns. rewrite owned_ind by done. change (owned (bl ++ [m_freeblock s]) 0) with ((bl ++ [m_freeblock s]) ++ []) in Hf, Hd. by rewrite app_nil_r in Hf, Hd.
Qed.

(** A block of zeroes after the blocks of the file. *)
Lemma new_bytes im bl c x o : (length c <= 1024 * length bl)%nat -> (forall y, load8 (im x) y = 0) ->
  (forall o, (o < 1024 * length bl)%nat -> load8 (im (nth (o / 1024) bl 0)) (Z.of_nat (o mod 1024)) = nth o c 0) ->
  (o < 1024 * (length bl + 1))%nat -> load8 (im (nth (o / 1024) (bl ++ [x]) 0)) (Z.of_nat (o mod 1024)) = nth o c 0.
Proof.
  intros Hc Hz Hb Ho. pose proof (Nat.div_mod_eq o 1024). pose proof (Nat.mod_upper_bound o 1024 ltac:(lia)). destruct (decide (o < 1024 * length bl)%nat) as [Hlt|Hge].
  - rewrite nth_snoc by lia. by apply Hb.
  - replace (o / 1024)%nat with (length bl) by lia. rewrite nth_snoc_last, Hz. symmetry. apply nth_past. lia.
Qed.

Lemma add_direct im ip bl c x : frep im ip bl 0 c -> (length bl < 12)%nat -> (forall y, load8 (im x) y = 0) -> frep im (set_addr ip (Z.of_nat (length bl)) x) (bl ++ [x]) 0 c.
Proof.
  intros [H1 H2 H3 H4 H5 H6 H7 H8] Hl Hz. split; rewrite ?length_app, ?set_addr_length; cbn [length]; try lia.
  - intros k Hk. rewrite set_addr_get by lia. destruct (Z.eqb_spec k (Z.of_nat (length bl))) as [->|Hne]; [by rewrite Nat2Z.id, nth_snoc_last|].
    rewrite H4 by done. destruct (decide (k < Z.of_nat (length bl))); [by rewrite nth_snoc by lia|]. rewrite !nth_past; [done|rewrite length_app; cbn; lia|lia].
  - rewrite set_addr_get by lia. by rewrite (proj2 (Z.eqb_neq _ _)) by lia.
  - intros o Ho. by apply new_bytes.
Qed.

(** The indirect block, still without an entry. *)
Definition single_ready (im : Z -> block) (ip : inode) (bl : list Z) (ind : Z) (c : list Z) : Prop :=
  (12 <= length bl < 268)%nat /\ (length c <= 1024 * length bl)%nat /\ length (i_addrs ip) = 13%nat /\ (forall k, 0 <= k < 12 -> addr_of ip k = nth (Z.to_nat k) bl 0) /\
  addr_of ip 12 = ind /\ ind <> 0 /\ (forall k, 0 <= k < 256 -> load32 (im ind) (4 * k) = nth (12 + Z.to_nat k) bl 0) /\
  (forall o, (o < 1024 * length bl)%nat -> load8 (im (nth (o / 1024) bl 0)) (Z.of_nat (o mod 1024)) = nth o c 0).

Lemma add_indirect im ip bl ind c x : single_ready im ip bl ind c -> ind ∉ bl -> 0 <= x < 2 ^ 32 -> x <> ind -> (forall y, load8 (im x) y = 0) ->
  frep (upd im ind (store32 (im ind) (4 * (Z.of_nat (length bl) - 12)) x)) ip (bl ++ [x]) ind c.
Proof.
  intros (H1 & H2 & H3 & H4 & H5 & H6 & H7 & H8) Hin Hx Hxi Hz. split; rewrite ?length_app; cbn [length]; try done; try lia.
  - intros k Hk. rewrite H4 by done. by rewrite nth_snoc by lia.
  - intros _. split; [done|]. intros k Hk. rewrite upd_same. destruct (decide (k = Z.of_nat (length bl) - 12)) as [->|Hne].
    + rewrite load32_store32_same by done. replace (12 + Z.to_nat (Z.of_nat (length bl) - 12))%nat with (length bl) by lia. by rewrite nth_snoc_last.
    + unfold load32, store32. rewrite loadn_storen_out by lia. fold (load32 (im ind) (4 * k)). rewrite H7 by done.
      destruct (decide (12 + Z.to_nat k < length bl)%nat); [by rewrite nth_snoc|]. rewrite !nth_past; [done|rewrite length_app; cbn; lia|lia].
  - intros o Ho. apply new_bytes; [done|intros y; by rewrite upd_other| |lia]. intros o' Ho'. assert (o' / 1024 < length bl)%nat as Hq by (apply Nat.Div0.div_lt_upper_bound; lia).
    rewrite upd_other; [by apply H8|]. intros E. apply Hin. rewrite <- E. by apply list_elem_of_In, nth_In.
Qed.

Definition extra (fbn : Z) (bl : list Z) : Z :=
  if fbn <? Z.of_nat (length bl) then 0 else if fbn =? 12 then 2 else 1.

(** The file grows into blocks that were not used, and nothing but its blocks and
    its addresses changes. *)
Record extends (s : mkst) (din : inode) (bl : list Z) (ind : Z) (s' : mkst) (din' : inode) (bl' : list Z) (ind' : Z) : Prop := {
  ex_freeinode : m_freeinode s' = m_freeinode s;
  ex_free : m_freeblock s <= m_freeblock s';
  ex_din : exists a, din' = set_i_addrs a din;
  ex_frame : forall b, b ∉ owned bl' ind' -> m_im s' b = m_im s b;
  ex_mono : forall b, b ∈ owned bl ind -> b ∈ owned bl' ind';
  ex_new : forall b, b ∈ owned bl' ind' -> b ∈ owned bl ind \/ m_freeblock s <= b < m_freeblock s'
}.

Lemma addrs_self (ip : inode) : ip = set_i_addrs (i_addrs ip) ip.
Proof. by destruct ip. Qed.

Lemma extends_refl s din bl ind : extends s din bl ind s din bl ind.
Proof. split; try done; [eexists; apply addrs_self|tauto]. Qed.

Lemma extends_trans s din bl ind s1 din1 bl1 ind1 s2 din2 bl2 ind2 :
  extends s din bl ind s1 din1 bl1 ind1 -> extends s1 din1 bl1 ind1 s2 din2 bl2 ind2 -> extends s din bl ind s2 din2 bl2 ind2.
Proof.
  intros [A1 A2 [a Aa] A4 A5 A6] [B1 B2 [b Bb] B4 B5 B6]. split; [congruence|lia|exists b; by rewrite Bb, Aa| |naive_solver|].
  - intros y Hy. rewrite B4 by done. apply A4. intros Hin. by apply Hy, B5.
  - intros y Hy. destruct (B6 y Hy) as [Hy'|?]; [destruct (A6 y Hy') as [?|?]; [by left|right; lia]|right; lia].
Qed.

(** What [blk_for] of block [fbn] leaves: the block [x] of the file, at most the
    blocks it took changed. *)
Record got_block (s : mkst) (din : inode) (bl : list Z) (ind : Z) (c : list Z) (fbn x : Z) (din' : inode) (s' : mkst) (bl' : list Z) (ind' : Z) : Prop := {
  gb_rest : blank_rest s';
  gb_frep : frep (m_im s') din' bl' ind' c;
  gb_owns : owns s' bl' ind';
  gb_x : nth (Z.to_nat fbn) bl' 0 = x;
  gb_len : Z.of_nat (length bl') = Z.max (Z.of_nat (length bl)) (fbn + 1);
  gb_free : m_freeblock s' = m_freeblock s + extra fbn bl;
  gb_ext : extends s din bl ind s' din' bl' ind'
}.

Lemma got_same s din bl ind c fbn : blank_rest s -> frep (m_im s) din bl ind c -> owns s bl ind -> 0 <= fbn < Z.of_nat (length bl) ->
  got_block s din bl ind c fbn (nth (Z.to_nat fbn) bl 0) din s bl ind.
Proof.
  intros H1 H2 H3 H4. split; try done; [lia| |apply extends_refl]. unfold extra. rewrite (proj2 (Z.ltb_lt _ _)) by lia. lia.
Qed.

Lemma fb_small s : blank_rest s -> 46 <= m_freeblock s <= 2000.
Proof. intros [_ H _]. rewrite nmeta_val in H. exact H. Qed.

Lemma nth_small s bl ind k : blank_rest s -> owns s bl ind -> (k < length bl)%nat -> 46 <= nth k bl 0 < 2000.
Proof. intros HR HO Hk. destruct (owns_nth _ _ _ _ HO Hk) as [H _]. rewrite nmeta_val in H. pose proof (fb_small s HR). lia. Qed.

Lemma blk_for_direct s din bl ind c fbn : blank_rest s -> frep (m_im s) din bl ind c -> owns s bl ind -> 0 <= fbn <= Z.of_nat (length bl) -> fbn < 12 -> m_freeblock s + extra fbn bl <= FSSIZE ->
  exists x din' s' bl' ind', blk_for fbn din s = Some (x, din', s') /\ got_block s din bl ind c fbn x din' s' bl' ind'.
Proof.
  intros HR HF HO Hf H12 Hfree. unfold blk_for, NDIRECT. rewrite (proj2 (Z.ltb_lt _ _)) by lia. unfold direct_for. rewrite (fr_direct _ _ _ _ _ HF) by lia.
  pose proof (fb_small s HR) as Hsm. unfold extra in Hfree. destruct (Z.ltb_spec fbn (Z.of_nat (length bl))) as [Hlt|Hge].
  - pose proof (nth_small _ _ _ (Z.to_nat fbn) HR HO ltac:(lia)) as Hn. rewrite xint_id by lia. rewrite (proj2 (Z.eqb_neq _ _)) by lia.
    rewrite (fr_direct _ _ _ _ _ HF) by lia. rewrite xint_id by lia. do 5 eexists. split; [reflexivity|]. apply got_same; try done. lia.
  - assert (fbn = Z.of_nat (length bl)) as -> by lia. rewrite nth_past by lia. change (xint 0 =? 0) with true. cbv iota.
    rewrite set_addr_get by (try exact (fr_addrs _ _ _ _ _ HF); lia). rewrite Z.eqb_refl, !xint_id by (rewrite ?xint_id; lia).
    assert (ind = 0) as E by (apply (fr_none _ _ _ _ _ HF); lia). rewrite (proj2 (Z.eqb_neq _ _)) in Hfree by lia.
    do 3 eexists. exists (bl ++ [m_freeblock s]), ind. split; [reflexivity|]. split; try done.
    + by apply rest_alloc.
    + rewrite E. apply add_direct; [|lia|intros y; apply (rm_zero _ HR); lia]. cbn [m_im set_m_freeblock]. rewrite E in HF. exact HF.
    + apply owns_alloc; [rewrite nmeta_val; lia|done].
    + by rewrite Nat2Z.id, nth_snoc_last.
    + rewrite length_app. cbn. lia.
    + cbn [m_freeblock set_m_freeblock]. unfold extra. rewrite Z.ltb_irrefl. rewrite (proj2 (Z.eqb_neq _ _)) by lia. lia.
    + split; cbn [m_freeblock set_m_freeblock]; [done|lia|by eexists|done|intros b Hb; rewrite owned_snoc; by right|].
      intros b. rewrite owned_snoc, elem_of_cons. intros [->|Hb]; [right; lia|by left].
Qed.

Lemma owns_single s bl ind : owns s bl ind -> ind <> 0 -> 46 <= ind < m_freeblock s /\ ind ∉ bl.
Proof.
  intros [Hf Hd] Hne. rewrite owned_ind in Hf, Hd by done. apply Forall_app in Hf as [_ Hf]. rewrite Forall_singleton, nmeta_val in Hf.
  apply NoDup_app in Hd as (_ & Hd & _). split; [lia|]. intros Hin. apply (Hd ind Hin). left.
Qed.

(** An entry of an indirect block that is there. *)
Definition with_entry (bl : list Z) (ind : Z) (s : mkst) : mkst :=
  wsect ind (store32 (m_im s ind) (4 * (Z.of_nat (length bl) - 12)) (m_freeblock s)) (set_m_freeblock (m_freeblock s + 1) s).

Lemma blk_for_single s din bl ind c : blank_rest s -> single_ready (m_im s) din bl ind c -> owns s bl ind ->
  blk_for (Z.of_nat (length bl)) din s = Some (m_freeblock s, din, with_entry bl ind s).
Proof.
  intros HR (H1 & H2 & H3 & H4 & H5 & H6 & H7 & H8) HO. pose proof (fb_small s HR) as Hfb.
  destruct (owns_single _ _ _ HO H6) as [Hi _].
  unfold blk_for, direct_for, NDIRECT. rewrite (proj2 (Z.ltb_ge _ _)) by lia. rewrite H5, !xint_id by lia. rewrite (proj2 (Z.eqb_neq _ _)) by done.
  rewrite H5, !xint_id by lia. rewrite rest_rsect by (done || lia). cbn [mbind option_bind]. rewrite H7 by lia.
  replace (12 + Z.to_nat (Z.of_nat (length bl) - 12))%nat with (length bl) by lia. rewrite nth_past by lia. cbv iota. rewrite Z.eqb_refl.
  rewrite load32_store32_same by lia. rewrite xint_id by lia. done.
Qed.

Lemma got_single s din bl ind c : blank_rest s -> single_ready (m_im s) din bl ind c -> owns s bl ind -> m_freeblock s + 1 <= FSSIZE ->
  blank_rest (with_entry bl ind s) /\ frep (m_im (with_entry bl ind s)) din (bl ++ [m_freeblock s]) ind c /\ owns (with_entry bl ind s) (bl ++ [m_freeblock s]) ind /\
  (forall b, b <> ind -> m_im (with_entry bl ind s) b = m_im s b).
Proof.
  intros HR HS HO Hfree. pose proof (fb_small s HR) as Hfb. assert (ind <> 0) as Hne by apply HS. destruct (owns_single _ _ _ HO Hne) as [Hi Hd].
  split; [apply rest_wsect; [by apply rest_alloc|cbn [m_freeblock set_m_freeblock]; lia]|].
  split; [apply add_indirect; [exact HS|exact Hd|lia|lia|intros y; apply (rm_zero _ HR); lia]|].
  split; [apply owns_alloc; [rewrite nmeta_val; lia|done]|]. intros b Hb. cbn. by apply upd_other.
Qed.

Lemma frep_single im ip bl ind c : frep im ip bl ind c -> (12 < length bl < 268)%nat -> single_ready im ip bl ind c.
Proof. intros [H1 H2 H3 H4 H5 H6 H7 H8] Hl. destruct (H7 ltac:(lia)) as [H9 H10]. repeat (split; [first [done | lia]|]). done. Qed.

(** A new indirect block is a block of zeroes. *)
Lemma load32_zero (d : block) a : (forall x, load8 d x = 0) -> load32 d a = 0.
Proof. intros H. unfold load32. rewrite (loadn_ext 4 d (fun _ => 0) a); [|intros x _; by rewrite H]. reflexivity. Qed.

Lemma new_single s din bl c : blank_rest s -> frep (m_im s) din bl 0 c -> length bl = 12%nat ->
  single_ready (m_im s) (set_addr din 12 (m_freeblock s)) bl (m_freeblock s) c.
Proof.
  intros HR [H1 H2 H3 H4 H5 H6 H7 H8] Hl. pose proof (fb_small s HR) as Hfb. split; [lia|]. split; [done|]. split; [by rewrite set_addr_length|].
  split; [intros k Hk; rewrite set_addr_get by lia; rewrite (proj2 (Z.eqb_neq _ _)) by lia; by apply H4|].
  split; [by rewrite set_addr_get by lia|]. split; [lia|]. split; [|done]. intros k Hk. rewrite nth_past by lia. apply load32_zero. intros x. apply (rm_zero _ HR). lia.
Qed.

Lemma blk_for_new_single s din : blank_rest s -> length (i_addrs din) = 13%nat -> addr_of din 12 = 0 ->
  blk_for 12 din s = blk_for 12 (set_addr din 12 (m_freeblock s)) (set_m_freeblock (m_freeblock s + 1) s).
Proof.
  intros HR Hl H0. pose proof (fb_small s HR) as Hfb. unfold blk_for at 1. change (12 <? NDIRECT) with false. unfold direct_for. change NDIRECT with 12. rewrite H0. change (xint 0 =? 0) with true.
  unfold blk_for, direct_for. change (12 <? NDIRECT) with false. change NDIRECT with 12. rewrite !set_addr_get by lia. cbn [Z.eqb Pos.eqb]. rewrite !(xint_id (m_freeblock s)) by lia.
  rewrite (proj2 (Z.eqb_neq _ _)) by lia. rewrite !set_addr_get by lia. cbn [Z.eqb Pos.eqb]. by rewrite !(xint_id (m_freeblock s)) by lia.
Qed.

Lemma blk_for_there s din bl ind c fbn : blank_rest s -> frep (m_im s) din bl ind c -> owns s bl ind -> 12 <= fbn < Z.of_nat (length bl) ->
  blk_for fbn din s = Some (nth (Z.to_nat fbn) bl 0, din, s).
Proof.
  intros HR HF HO Hf. pose proof (fb_small s HR) as Hfb. pose proof (fr_max _ _ _ _ _ HF) as Hmax. destruct (fr_ind _ _ _ _ _ HF ltac:(lia)) as [Hne Hk].
  destruct (owns_single _ _ _ HO Hne) as [Hi _]. pose proof (nth_small _ _ _ (Z.to_nat fbn) HR HO ltac:(lia)) as Hn.
  unfold blk_for, direct_for, NDIRECT. rewrite (proj2 (Z.ltb_ge _ _)) by lia. rewrite (fr_single _ _ _ _ _ HF), !xint_id by lia. rewrite (proj2 (Z.eqb_neq _ _)) by done.
  rewrite (fr_single _ _ _ _ _ HF), !xint_id by lia. rewrite rest_rsect by (done || lia). cbn [mbind option_bind]. rewrite Hk by lia.
  replace (12 + Z.to_nat (fbn - 12))%nat with (Z.to_nat fbn) by lia. rewrite (proj2 (Z.eqb_neq _ _)) by lia. by rewrite xint_id by lia.
Qed.

Lemma blk_for_ok s din bl ind c fbn : blank_rest s -> frep (m_im s) din bl ind c -> owns s bl ind ->
  0 <= fbn <= Z.of_nat (length bl) -> fbn < 268 -> m_freeblock s + extra fbn bl <= FSSIZE ->
  exists x din' s' bl' ind', blk_for fbn din s = Some (x, din', s') /\ got_block s din bl ind c fbn x din' s' bl' ind'.
Proof.
  intros HR HF HO Hf Hmax Hfree. destruct (Z.lt_ge_cases fbn 12) as [H12|H12]; [exact (blk_for_direct s din bl ind c fbn HR HF HO Hf H12 Hfree)|].
  pose proof (fb_small s HR) as Hfb. unfold extra in Hfree. destruct (Z.ltb_spec fbn (Z.of_nat (length bl))) as [Hlt|Hge].
  { do 5 eexists. split; [eapply blk_for_there; [done..|lia]|]. apply got_same; [done..|lia]. }
  assert (fbn = Z.of_nat (length bl)) as E by lia. destruct (Z.eqb_spec fbn 12) as [E12|Hne].
  - assert (length bl = 12%nat) as Hl by lia. assert (ind = 0) as -> by (apply (fr_none _ _ _ _ _ HF); lia).
    set (s1 := set_m_freeblock (m_freeblock s + 1) s). assert (blank_rest s1) as HR1 by (apply rest_alloc; [done|lia]).
    pose proof (new_single _ _ _ _ HR HF Hl) as HS. assert (owns s1 bl (m_freeblock s)) as HO1 by (apply owns_alloc_ind; [rewrite nmeta_val; lia|done]).
    destruct (got_single s1 _ bl _ c HR1 HS HO1 ltac:(cbn [m_freeblock set_m_freeblock s1]; lia)) as (G1 & G2 & G3 & G4).
    exists (m_freeblock s1), (set_addr din 12 (m_freeblock s)), (with_entry bl (m_freeblock s) s1), (bl ++ [m_freeblock s1]), (m_freeblock s).
    split; [rewrite E12, blk_for_new_single by (done || apply HF); replace (blk_for 12) with (blk_for (Z.of_nat (length bl))) by (by rewrite Hl); by apply (blk_for_single s1 _ bl _ c)|].
    split; [exact G1|exact G2|exact G3| | | |].
    + by rewrite E, Nat2Z.id, nth_snoc_last.
    + rewrite length_app. cbn. lia.
    + unfold extra. rewrite (proj2 (Z.ltb_ge _ _)) by lia. rewrite (proj2 (Z.eqb_eq _ _)) by lia. cbn [m_freeblock with_entry wsect set_m_freeblock s1]. lia.
    + split; cbn [m_freeblock with_entry wsect set_m_freeblock s1]; [done|lia|by eexists| | |].
      { intros b Hb. rewrite G4; [done|]. intros ->. apply Hb. rewrite owned_ind by lia. set_solver +. }
      { intros b Hb. rewrite owned_snoc, owned_ind by lia. right. apply elem_of_app. left. unfold owned in Hb. change (0 =? 0) with true in Hb. by rewrite app_nil_r in Hb. }
      intros b. rewrite owned_snoc, elem_of_cons, owned_ind, elem_of_app, list_elem_of_singleton by lia.
      intros [->|[Hb| ->]]; [right; lia|left; by apply owned_in|right; lia].
  - pose proof (fr_max _ _ _ _ _ HF). pose proof (frep_single _ _ _ _ _ HF ltac:(lia)) as HS. assert (ind <> 0) as Hi by apply HS.
    destruct (got_single s _ bl _ c HR HS HO Hfree) as (G1 & G2 & G3 & G4).
    do 5 eexists. split; [rewrite E; by eapply blk_for_single|]. split; [exact G1|exact G2|exact G3| | | |].
    + by rewrite E, Nat2Z.id, nth_snoc_last.
    + rewrite length_app. cbn. lia.
    + unfold extra. rewrite (proj2 (Z.ltb_ge _ _)) by lia. rewrite (proj2 (Z.eqb_neq _ _)) by lia. cbn [m_freeblock with_entry wsect set_m_freeblock]. lia.
    + split; cbn [m_freeblock with_entry wsect set_m_freeblock]; [done|lia|eexists; apply addrs_self| |intros b Hb; rewrite owned_snoc; by right|].
      { intros b Hb. rewrite G4; [done|]. intros ->. apply Hb. rewrite owned_ind by lia. set_solver +. }
      intros b. rewrite owned_snoc, elem_of_cons. intros [->|Hb]; [right; lia|by left].
Qed.

(** ** Appending *)

(** Bytes written after the end of the file, within its block. *)
Lemma write_chunk s ip bl ind c p :
  frep (m_im s) ip bl ind c -> owns s bl ind -> (length c / 1024 < length bl)%nat -> (length c mod 1024 + length p <= 1024)%nat -> Forall (fun b => 0 <= b < 256) p ->
  frep (upd (m_im s) (nth (length c / 1024) bl 0) (store_bytes (m_im s (nth (length c / 1024) bl 0)) (Z.of_nat (length c mod 1024)) p)) ip bl ind (c ++ p).
Proof.
  intros [H1 H2 H3 H4 H5 H6 H7 H8] [Hf Hd] Hl Hp Hb. set (x := nth (length c / 1024) bl 0). pose proof (Nat.div_mod_eq (length c) 1024) as Hdm.
  assert (x ∈ bl) as Hx by (by apply list_elem_of_In, nth_In). pose proof (proj1 (proj1 (NoDup_app _ _) Hd)) as Hnd.
  split; try done.
  - rewrite length_app. lia.
  - intros Hl'. destruct (H7 Hl') as [Hne Hk]. split; [done|]. intros k Hk'. rewrite upd_other; [by apply Hk|]. intros E. rewrite owned_ind in Hd by done.
    apply NoDup_app in Hd as (_ & Hd & _). apply (Hd x Hx). rewrite <- E. left.
  - intros o Ho. pose proof (Nat.div_mod_eq o 1024) as Hdm'. pose proof (Nat.mod_upper_bound o 1024 ltac:(lia)). pose proof (Nat.mod_upper_bound (length c) 1024 ltac:(lia)).
    assert (o / 1024 < length bl)%nat as Hq by (apply Nat.Div0.div_lt_upper_bound; lia).
    destruct (decide (o / 1024 = length c / 1024)%nat) as [Eq|Nq].
    + rewrite Eq. fold x. rewrite upd_same, load8_store_bytes. destruct (decide (o < length c)%nat) as [Hoc|Hoc].
      * rewrite app_nth1 by done. rewrite (proj2 (andb_false_iff _ _)); [|left; apply Z.leb_gt; lia]. unfold x. rewrite <- Eq. by apply H8.
      * rewrite app_nth2 by lia. destruct (decide (o < length c + length p)%nat) as [Hop|Hop].
        -- rewrite (proj2 (andb_true_iff _ _)) by (split; [apply Z.leb_le|apply Z.ltb_lt]; lia). replace (Z.to_nat _) with (o - length c)%nat by lia.
           apply u8_small. rewrite List.Forall_forall in Hb. apply Hb, nth_In. lia.
        -- rewrite (proj2 (andb_false_iff _ _)); [|right; apply Z.ltb_ge; lia]. rewrite (nth_past p) by lia. rewrite <- (nth_past c o) by lia. unfold x. rewrite <- Eq. by apply H8.
    + rewrite upd_other; [|intros E; apply Nq; unfold x in E; rewrite NoDup_ListNoDup, NoDup_nth in Hnd; by apply (Hnd _ _ Hq Hl)]. rewrite H8 by done.
      destruct (decide (o < length c)%nat) as [Hoc|Hoc]; [by rewrite app_nth1|]. rewrite app_nth2 by lia. rewrite !nth_past; [done|nia|lia].
Qed.

(** The number of blocks that [n] bytes take, without and with the indirect block. *)
Definition data_blocks (n : nat) : Z := (Z.of_nat n + 1023) / 1024.
Definition used_blocks (nb : Z) : Z := if 12 <? nb then nb + 1 else nb.

(** A file of which every block holds a byte. *)
Record file_at (s : mkst) (din : inode) (bl : list Z) (ind : Z) (c : list Z) : Prop := {
  fa_rest : blank_rest s;
  fa_frep : frep (m_im s) din bl ind c;
  fa_owns : owns s bl ind;
  fa_len : Z.of_nat (length bl) = data_blocks (length c)
}.

Lemma extra_used fbn bl : 0 <= fbn <= Z.of_nat (length bl) ->
  extra fbn bl = used_blocks (Z.max (Z.of_nat (length bl)) (fbn + 1)) - used_blocks (Z.of_nat (length bl)).
Proof. intros H. unfold extra, used_blocks. repeat zcase; lia. Qed.

Lemma used_mono a b : a <= b -> used_blocks a <= used_blocks b.
Proof. intros H. unfold used_blocks. repeat zcase; lia. Qed.

(** One turn of the loop of [iappend]. *)
Lemma append_turn s din bl ind c q : file_at s din bl ind c -> (0 < length q)%nat -> (length c mod 1024 + length q <= 1024)%nat -> Forall (fun b => 0 <= b < 256) q ->
  Z.of_nat (length c + length q) <= 268 * 1024 ->
  m_freeblock s + (used_blocks (data_blocks (length c + length q)) - used_blocks (Z.of_nat (length bl))) <= FSSIZE ->
  exists x din' s1 bl' ind', blk_for (Z.of_nat (length c) / 1024) din s = Some (x, din', s1) /\ rsect x s1 = Some (m_im s1 x) /\
    let s' := wsect x (store_bytes (m_im s1 x) (Z.of_nat (length c) - Z.of_nat (length c) / 1024 * 1024) q) s1 in
    file_at s' din' bl' ind' (c ++ q) /\ extends s din bl ind s' din' bl' ind' /\
    m_freeblock s' = m_freeblock s + (used_blocks (data_blocks (length c + length q)) - used_blocks (Z.of_nat (length bl))).
Proof.
  intros [HR HF HO HL] Hq Hfit Hb Hmax Hfree. set (fbn := Z.of_nat (length c) / 1024). pose proof (Nat.div_mod_eq (length c) 1024) as Hdm.
  assert (fbn = Z.of_nat (length c / 1024)) as Ef by (unfold fbn; rewrite Nat2Z.inj_div; done).
  assert (Z.of_nat (length c) - fbn * 1024 = Z.of_nat (length c mod 1024)) as Em by lia.
  unfold data_blocks in HL. assert (0 <= fbn <= Z.of_nat (length bl)) as Hfb by (unfold fbn; lia).
  assert (data_blocks (length c + length q) = Z.max (Z.of_nat (length bl)) (fbn + 1)) as Ed by (unfold data_blocks, fbn; rewrite HL; lia).
  rewrite Ed in *. rewrite <- extra_used in * by done.
  destruct (blk_for_ok s din bl ind c fbn HR HF HO Hfb ltac:(unfold fbn; lia) Hfree) as (x & din' & s1 & bl' & ind' & Hrun & [G1 G2 G3 G4 G5 G6 G7]).
  rewrite Ef, Nat2Z.id in G4. assert (length c / 1024 < length bl')%nat as Hlt by lia. destruct (owns_nth _ _ _ _ G3 Hlt) as [Hx Hin]. rewrite G4 in Hx, Hin.
  exists x, din', s1, bl', ind'. split; [done|]. split; [apply rest_rsect; [done|lia]|]. rewrite Em. cbv zeta. split; [|split; [|done]].
  - split; [apply rest_wsect; [done|lia]| |exact G3|].
    + pose proof (write_chunk s1 din' bl' ind' c q G2 G3 Hlt Hfit Hb) as W. rewrite G4 in W. exact W.
    + rewrite length_app. rewrite Ed. exact G5.
  - destruct G7 as [E1 E2 E3 E4 E5 E6]. split; try done. intros b Hb'. cbn [m_im wsect]. rewrite upd_other; [by apply E4|]. intros ->. by apply Hb', owned_in.
Qed.

Lemma iappend_loop_ok fuel : forall s din bl ind c p, file_at s din bl ind c -> Forall (fun b => 0 <= b < 256) p -> (length p < fuel)%nat ->
  Z.of_nat (length c + length p) <= 268 * 1024 ->
  m_freeblock s + (used_blocks (data_blocks (length c + length p)) - used_blocks (Z.of_nat (length bl))) <= FSSIZE ->
  exists din' s' bl' ind', iappend_loop fuel din (Z.of_nat (length c)) p s = Some (din', Z.of_nat (length c + length p), s') /\
    file_at s' din' bl' ind' (c ++ p) /\ extends s din bl ind s' din' bl' ind' /\
    m_freeblock s' = m_freeblock s + (used_blocks (data_blocks (length c + length p)) - used_blocks (Z.of_nat (length bl))).
Proof.
  induction fuel as [|fuel IH]; intros s din bl ind c p Hat Hb Hfuel Hmax Hfree; [lia|]. cbn [iappend_loop].
  destruct (Z.leb_spec (Z.of_nat (length p)) 0) as [H0|H0].
  - destruct p; [|cbn in H0; lia]. exists din, s, bl, ind. rewrite app_nil_r. cbn [length]. rewrite Nat.add_0_r. rewrite <- (fa_len _ _ _ _ _ Hat). split; [done|]. split; [done|]. split; [apply extends_refl|lia].
  - unfold BSIZE. rewrite (proj2 (Z.leb_gt _ _)) by (unfold MAXFILE, NDIRECT, NINDIRECT, BSIZE; cbn; lia).
    set (n := Z.to_nat (Z.min (Z.of_nat (length p)) ((Z.of_nat (length c) / 1024 + 1) * 1024 - Z.of_nat (length c)))).
    assert (0 < n <= length p)%nat as Hn by lia. assert (length (take n p) = n) as Ht by (rewrite length_take; lia).
    pose proof (Nat.div_mod_eq (length c) 1024) as Hdm. assert (Z.of_nat (length c) / 1024 = Z.of_nat (length c / 1024)) as Ef by (by rewrite Nat2Z.inj_div).
    assert (used_blocks (data_blocks (length c + n)) <= used_blocks (data_blocks (length c + length p))) as Hmono by (apply used_mono; unfold data_blocks; lia).
    destruct (append_turn s din bl ind c (take n p) Hat) as (x & din1 & s1 & bl1 & ind1 & Hrun & Hrs & Hat1 & Hex1 & Hfr1); rewrite ?Ht; try lia; [by apply Forall_take|].
    rewrite Hrun. cbn [mbind option_bind]. rewrite Hrs. cbn [mbind option_bind]. set (s2 := wsect _ _ s1) in *.
    assert (length (drop n p) = (length p - n)%nat) as Hd by apply length_drop. rewrite Ht in Hfr1.
    assert (Z.of_nat (length bl1) = data_blocks (length c + n)) as Hl1 by (rewrite (fa_len _ _ _ _ _ Hat1), length_app, Ht; done).
    destruct (IH s2 din1 bl1 ind1 (c ++ take n p) (drop n p) Hat1) as (din2 & s3 & bl2 & ind2 & Hrun2 & Hat2 & Hex2 & Hfr2); rewrite ?length_app, ?Ht, ?Hd, ?Hl1; try lia.
    { by apply Forall_drop. }
    { replace (length c + n + (length p - n))%nat with (length c + length p)%nat by lia. lia. }
    rewrite length_app, Ht, Hd in Hrun2. rewrite length_app, Ht, Hd, Hl1 in Hfr2.
    replace (length c + n + (length p - n))%nat with (length c + length p)%nat in Hrun2, Hfr2 by lia.
    exists din2, s3, bl2, ind2. split; [|split; [|split; [by eapply extends_trans|lia]]].
    + rewrite <- Hrun2. f_equal. unfold n. lia.
    + by rewrite <- app_assoc, take_drop in Hat2.
Qed.
