(* ===== verification/MkfsImage.v ===== *)
(** * The image that mkfs builds

    The inodes and the files of the image at every moment of [main]: which
    contents each inode has, and that files share no block. *)

From S2P Require Import Prelude Riscv Mem Cstring State Sched Uart Bio Cache Log Kalloc Vm Fs Mkfs MkfsSpec.

(** ** Inodes *)

Definition din_at (s : mkst) (inum : Z) : inode := dinode_get (m_im s (IBLOCK inum mkfs_sb)) (di_off inum) no_inode.

Lemma iblock_val inum : 0 <= inum < 208 -> IBLOCK inum mkfs_sb = 32 + inum / 16.
Proof. intros H. unfold IBLOCK. change (sb_inodestart mkfs_sb) with 32. change IPB with 16. unfold u32. rewrite Z.mod_small; lia. Qed.

Lemma rinode_ok s inum : blank_rest s -> 0 <= inum < 208 -> rinode inum s = Some (din_at s inum).
Proof. intros HR Hi. unfold rinode. pose proof (fb_small s HR). rewrite rest_rsect; [done|done|]. rewrite iblock_val by done. lia. Qed.

(** What [winode] changes. *)
Record wrote_inode (s : mkst) (inum : Z) (ip : inode) (s' : mkst) : Prop := {
  wi_rest : blank_rest s';
  wi_this : same_dinode (din_at s' inum) ip;
  wi_other : forall j, 0 <= j < 208 -> j <> inum -> din_at s' j = din_at s j;
  wi_frame : forall b, b < 32 \/ 45 <= b -> m_im s' b = m_im s b;
  wi_freeinode : m_freeinode s' = m_freeinode s;
  wi_freeblock : m_freeblock s' = m_freeblock s
}.

Lemma winode_ok s inum ip : blank_rest s -> 0 <= inum < 208 -> fits ip -> exists s', winode inum ip s = Some s' /\ wrote_inode s inum ip s'.
Proof.
  intros HR Hi Hf. unfold winode. pose proof (fb_small s HR). pose proof (iblock_val inum Hi) as Hb. rewrite rest_rsect by (done || lia). cbn [mbind option_bind].
  eexists. split; [reflexivity|]. split; try done.
  - apply rest_wsect; [done|lia].
  - unfold din_at. cbn [m_im wsect]. rewrite upd_same. by apply dinode_get_put.
  - intros j Hj Hne. unfold din_at. cbn [m_im wsect]. pose proof (iblock_val j Hj) as Hbj. destruct (decide (IBLOCK j mkfs_sb = IBLOCK inum mkfs_sb)) as [E|E].
    + rewrite E, upd_same. apply dinode_get_ext. intros x Hx. apply dinode_put_out. unfold di_off, DINODE_SIZE in *. change IPB with 16 in *. lia.
    + by rewrite upd_other.
  - intros b Hb'. cbn [m_im wsect]. apply upd_other. lia.
Qed.

(** ** The files of the image *)

Definition blocks_of (cl : list (Z * list Z)) : Z := foldr (fun '(_, c) a => used_blocks (data_blocks (length c)) + a) 0 cl.

(** Inode [inum] has the type [t] and the contents [c], in the blocks [bl]. *)
Record entry (s : mkst) (inum t : Z) (c bl : list Z) (ind : Z) : Prop := {
  en_type : i_type (din_at s inum) = t;
  en_small : 0 <= t < 2 ^ 15;
  en_major : i_major (din_at s inum) = 0;
  en_minor : i_minor (din_at s inum) = 0;
  en_nlink : i_nlink (din_at s inum) = 1;
  en_size : i_size (din_at s inum) = Z.of_nat (length c);
  en_file : file_at s (din_at s inum) bl ind c
}.

(** The inodes from 1 on are the files [cl] with the blocks [L]; the next inodes
    are free. *)
Record image (s : mkst) (cl : list (Z * list Z)) (L : list (list Z * Z)) : Prop := {
  im_rest : blank_rest s;
  im_next : m_freeinode s = 1 + Z.of_nat (length cl);
  im_blocks : m_freeblock s = nmeta + blocks_of cl;
  im_len : length L = length cl;
  im_entry : forall k t c bl ind, cl !! k = Some (t, c) -> L !! k = Some (bl, ind) -> entry s (1 + Z.of_nat k) t c bl ind;
  im_disj : forall j k f g b, L !! j = Some f -> L !! k = Some g -> b ∈ owned f.1 f.2 -> b ∈ owned g.1 g.2 -> j = k;
  im_free : forall j, Z.of_nat (length cl) < j < 208 -> i_type (din_at s j) = 0;
  im_zero : i_type (din_at s 0) = 0;
  im_sb : m_im s 1 = sb_block mkfs_sb;
  im_log : forall x, load8 (m_im s 2) x = 0
}.

Lemma blocks_of_insert cl k t t' c c' : cl !! k = Some (t, c) ->
  blocks_of (<[k := (t', c')]> cl) = blocks_of cl + (used_blocks (data_blocks (length c')) - used_blocks (data_blocks (length c))).
Proof.
  revert k. induction cl as [|[u d] cl IH]; intros [|k] H; [done|done| |].
  - injection H as -> ->. cbn. lia.
  - change (used_blocks (data_blocks (length d)) + blocks_of (<[k := (t', c')]> cl) = used_blocks (data_blocks (length d)) + blocks_of cl +
      (used_blocks (data_blocks (length c')) - used_blocks (data_blocks (length c)))). rewrite (IH k H). lia.
Qed.

Lemma blocks_of_app cl cl' : blocks_of (cl ++ cl') = blocks_of cl + blocks_of cl'.
Proof. induction cl as [|[t c] cl IH]; [done|]. change (used_blocks (data_blocks (length c)) + blocks_of (cl ++ cl') = used_blocks (data_blocks (length c)) + blocks_of cl + blocks_of cl'). lia. Qed.

Lemma frep_addrs im ip ip' bl ind c : i_addrs ip = i_addrs ip' -> frep im ip bl ind c -> frep im ip' bl ind c.
Proof. intros E [H1 H2 H3 H4 H5 H6 H7 H8]. unfold addr_of in *. rewrite E in *. by split. Qed.

Lemma file_addrs_small s din bl ind c : file_at s din bl ind c -> Forall (fun a => 0 <= a < 2 ^ 32) (i_addrs din).
Proof.
  intros [HR HF HO _]. pose proof (fb_small s HR). apply Forall_lookup. intros i a Ha. pose proof (lookup_lt_Some _ _ _ Ha) as Hi. rewrite (fr_addrs _ _ _ _ _ HF) in Hi.
  assert (addr_of din (Z.of_nat i) = a) as <- by (unfold addr_of; rewrite Nat2Z.id; by apply nth_lookup_Some).
  destruct (decide (i < 12)%nat) as [H12|H12].
  - rewrite (fr_direct _ _ _ _ _ HF) by lia. destruct (decide (Z.to_nat (Z.of_nat i) < length bl)%nat) as [Hl|Hl]; [pose proof (nth_small _ _ _ _ HR HO Hl); lia|rewrite nth_past by lia; lia].
  - replace (Z.of_nat i) with 12 by lia. rewrite (fr_single _ _ _ _ _ HF). destruct (decide (ind = 0)) as [->|Hne]; [lia|]. destruct (owns_single _ _ _ HO Hne). lia.
Qed.

(** ** [iappend] on the image *)

Lemma file_at_frame s s' din bl ind c : file_at s din bl ind c -> blank_rest s' -> m_freeblock s <= m_freeblock s' ->
  (forall b, b ∈ owned bl ind -> m_im s' b = m_im s b) -> file_at s' din bl ind c.
Proof.
  intros [HR HF HO HL] HR' Hfb Hfr. split; [done|by eapply frep_frame| |done]. destruct HO as [Ho Hd]. split; [|done]. eapply Forall_impl; [exact Ho|]. cbn. lia.
Qed.

Lemma owned_high s bl ind b : owns s bl ind -> b ∈ owned bl ind -> 46 <= b < m_freeblock s.
Proof. intros [Ho _] Hb. rewrite Forall_forall in Ho. specialize (Ho b Hb). cbv beta in Ho. rewrite nmeta_val in Ho. lia. Qed.

Lemma entry_frame s s' inum t c bl ind : entry s inum t c bl ind -> blank_rest s' -> m_freeblock s <= m_freeblock s' -> din_at s' inum = din_at s inum ->
  (forall b, b ∈ owned bl ind -> m_im s' b = m_im s b) -> entry s' inum t c bl ind.
Proof. intros [H1 H2 H3 H4 H5 H6 H7] HR Hfb Hd Hfr. split; rewrite ?Hd; try done. by eapply file_at_frame. Qed.

(** The blocks of a file after it grew, and those of the others. *)
Lemma disj_insert (L : list (list Z * Z)) k bl ind bl' ind' s fb : L !! k = Some (bl, ind) ->
  (forall j g, L !! j = Some g -> owns s g.1 g.2) ->
  (forall j k f g b, L !! j = Some f -> L !! k = Some g -> b ∈ owned f.1 f.2 -> b ∈ owned g.1 g.2 -> j = k) ->
  (forall b, b ∈ owned bl' ind' -> b ∈ owned bl ind \/ m_freeblock s <= b < fb) ->
  forall i j f g b, <[k := (bl', ind')]> L !! i = Some f -> <[k := (bl', ind')]> L !! j = Some g -> b ∈ owned f.1 f.2 -> b ∈ owned g.1 g.2 -> i = j.
Proof.
  intros Hk Ho Hd Hn. assert (forall i f b, i <> k -> L !! i = Some f -> b ∈ owned f.1 f.2 -> b ∉ owned bl' ind') as Hother.
  { intros i f b Hik Hi Hb Hb'. destruct (Hn b Hb') as [Hold|Hnew]; [by apply Hik, (Hd i k f (bl, ind) b)|]. pose proof (owned_high _ _ _ _ (Ho i f Hi) Hb). lia. }
  pose proof (lookup_lt_Some _ _ _ Hk) as Hlt. intros i j f g b Hi Hj Hbi Hbj. destruct (decide (i = k)) as [Ei|Ei], (decide (j = k)) as [Ej|Ej]; [congruence| | |].
  - rewrite Ei, list_lookup_insert_eq in Hi by done. rewrite list_lookup_insert_ne in Hj by done. injection Hi as <-. by destruct (Hother j g b Ej Hj Hbj).
  - rewrite Ej, list_lookup_insert_eq in Hj by done. rewrite list_lookup_insert_ne in Hi by done. injection Hj as <-. by destruct (Hother i f b Ei Hi Hbi).
  - rewrite list_lookup_insert_ne in Hi, Hj by done. by eapply Hd.
Qed.

Lemma image_owns s cl L j g : image s cl L -> L !! j = Some g -> owns s g.1 g.2.
Proof.
  intros HI Hg. destruct g as [bl ind]. pose proof (lookup_lt_Some _ _ _ Hg) as Hl. rewrite (im_len _ _ _ HI) in Hl. apply lookup_lt_is_Some in Hl as [[t c] Hc].
  exact (fa_owns _ _ _ _ _ (en_file _ _ _ _ _ _ (im_entry _ _ _ HI _ _ _ _ _ Hc Hg))).
Qed.

Lemma din_frame s s' j : 0 <= j < 208 -> (forall b, b < 46 -> m_im s' b = m_im s b) -> din_at s' j = din_at s j.
Proof. intros Hj Hf. unfold din_at. rewrite Hf; [done|]. rewrite iblock_val by done. lia. Qed.

Lemma size_fits n : Z.of_nat n <= 268 * 1024 -> xint (Z.of_nat n) = Z.of_nat n.
Proof. intros H. apply xint_id. lia. Qed.

(** What [iappend] does to a file and to the rest of the image. *)
Record appended (s : mkst) (inum t : Z) (c bl : list Z) (ind : Z) (p : list Z) (s' : mkst) (bl' : list Z) (ind' : Z) : Prop := {
  ap_entry : entry s' inum t (c ++ p) bl' ind';
  ap_freeinode : m_freeinode s' = m_freeinode s;
  ap_freeblock : m_freeblock s' = m_freeblock s + (used_blocks (data_blocks (length (c ++ p))) - used_blocks (data_blocks (length c)));
  ap_mono : m_freeblock s <= m_freeblock s';
  ap_other : forall j, 0 <= j < 208 -> j <> inum -> din_at s' j = din_at s j;
  ap_frame : forall b, b < 32 \/ 45 <= b -> b ∉ owned bl' ind' -> m_im s' b = m_im s b;
  ap_new : forall b, b ∈ owned bl' ind' -> b ∈ owned bl ind \/ m_freeblock s <= b < m_freeblock s'
}.

Lemma iappend_ok s inum t c bl ind p : 0 <= inum < 208 -> entry s inum t c bl ind -> Forall (fun b => 0 <= b < 256) p ->
  Z.of_nat (length c + length p) <= 268 * 1024 ->
  m_freeblock s + (used_blocks (data_blocks (length c + length p)) - used_blocks (data_blocks (length c))) <= FSSIZE ->
  exists s' bl' ind', iappend inum p s = Some s' /\ appended s inum t c bl ind p s' bl' ind'.
Proof.
  intros Hinum [E1 E2 E3 E4 E5 E6 E7] Hb Hmax Hroom. pose proof (fa_rest _ _ _ _ _ E7) as HR.
  unfold iappend. rewrite rinode_ok by done. cbn [mbind option_bind]. rewrite E6, size_fits by lia.
  destruct (iappend_loop_ok (S (length p)) s (din_at s inum) bl ind c p E7 Hb ltac:(lia) Hmax) as (din1 & s1 & bl1 & ind1 & Hrun & Hat & Hex & Hfr1); [by rewrite (fa_len _ _ _ _ _ E7)|].
  rewrite Hrun. cbn [mbind option_bind]. rewrite size_fits by lia. destruct Hex as [X1 X2 [a Xa] X4 X5 X6]. rewrite (fa_len _ _ _ _ _ E7) in Hfr1.
  pose proof (fun b => owned_high _ _ _ b (fa_owns _ _ _ _ _ Hat)) as Hhigh.
  assert (forall b, b < 46 -> m_im s1 b = m_im s b) as Hlow by (intros b Hb'; apply X4; intros Hin; specialize (Hhigh b Hin); lia).
  set (din2 := set_i_size (Z.of_nat (length c + length p)) din1).
  assert (fits din2) as Hfits.
  { pose proof (file_addrs_small _ _ _ _ _ Hat) as Hs. pose proof (fr_addrs _ _ _ _ _ (fa_frep _ _ _ _ _ Hat)) as Hl. unfold din2. rewrite Xa in Hs, Hl |- *.
    unfold fits. cbn [i_type i_major i_minor i_nlink i_size i_addrs set_i_size set_i_addrs] in *. rewrite E1, E3, E4, E5. repeat (split; [first [done | lia]|]). done. }
  destruct (winode_ok s1 inum din2 (fa_rest _ _ _ _ _ Hat) Hinum Hfits) as (s' & Hw & [W1 (S1 & S2 & S3 & S4 & S5 & S6) W3 W4 W5 W6]).
  rewrite Hw. exists s', bl1, ind1. split; [done|]. assert (i_addrs din1 = i_addrs (din_at s' inum)) as Haddr by (by rewrite S6).
  unfold din2 in S1, S2, S3, S4, S5. rewrite Xa in S1, S2, S3, S4. cbn [i_type i_major i_minor i_nlink i_size i_addrs set_i_size set_i_addrs] in S1, S2, S3, S4, S5.
  split; [| | | | | |].
  - split; [congruence|done|congruence|congruence|congruence|rewrite length_app, S5; done|].
    eapply file_at_frame in Hat; [|exact W1|lia|intros b Hin; apply W4; specialize (Hhigh b Hin); lia]. destruct Hat as [A1 A2 A3 A4]. split; [done| |done|done]. by eapply frep_addrs.
  - congruence.
  - rewrite length_app. lia.
  - lia.
  - intros j Hj Hne. rewrite W3 by done. by apply din_frame.
  - intros b Hb' Hin. rewrite W4 by done. by apply X4.
  - rewrite W6. exact X6.
Qed.

Lemma image_appended s cl L k t c bl ind p s' bl' ind' : image s cl L -> (length cl < 207)%nat -> cl !! k = Some (t, c) -> L !! k = Some (bl, ind) ->
  appended s (1 + Z.of_nat k) t c bl ind p s' bl' ind' -> image s' (<[k := (t, c ++ p)]> cl) (<[k := (bl', ind')]> L).
Proof.
  intros HI Hmany Hk HL [A1 A2 A3 A3' A4 A5 A6]. pose proof (lookup_lt_Some _ _ _ Hk) as Hlt. pose proof (fa_rest _ _ _ _ _ (en_file _ _ _ _ _ _ A1)) as HR'.
  pose proof (fa_owns _ _ _ _ _ (en_file _ _ _ _ _ _ A1)) as HO'. pose proof (im_len _ _ _ HI) as Hlen.
  pose proof (disj_insert L k bl ind bl' ind' s _ HL (fun j g => image_owns _ _ _ j g HI) (im_disj _ _ _ HI) A6) as Hdisj.
  split; rewrite ?length_insert; try done.
  - rewrite A2. exact (im_next _ _ _ HI).
  - rewrite A3, (im_blocks _ _ _ HI), (blocks_of_insert _ _ _ _ _ _ Hk). lia.
  - intros j u d bj ij Hj HLj. destruct (decide (j = k)) as [->|Hne].
    + rewrite list_lookup_insert_eq in Hj by lia. rewrite list_lookup_insert_eq in HLj by lia. by injection Hj as <- <-; injection HLj as <- <-.
    + pose proof HLj as HLj'. rewrite list_lookup_insert_ne in Hj by done. rewrite list_lookup_insert_ne in HLj by done. pose proof (lookup_lt_Some _ _ _ Hj). pose proof (im_entry _ _ _ HI _ _ _ _ _ Hj HLj) as He.
      eapply entry_frame; [exact He|done|done|apply A4; lia|]. intros b Hin. pose proof (owned_high _ _ _ _ (fa_owns _ _ _ _ _ (en_file _ _ _ _ _ _ He)) Hin) as Hhi.
      apply A5; [lia|]. intros Hin'. apply Hne. apply (Hdisj j k (bj, ij) (bl', ind') b); [done|by rewrite list_lookup_insert_eq by lia|done|done].
  - intros j Hj. rewrite A4 by lia. apply (im_free _ _ _ HI). lia.
  - rewrite A4 by lia. exact (im_zero _ _ _ HI).
  - rewrite A5; [exact (im_sb _ _ _ HI)|lia|]. intros Hin. pose proof (owned_high _ _ _ _ HO' Hin). lia.
  - intros x. rewrite A5; [exact (im_log _ _ _ HI x)|lia|]. intros Hin. pose proof (owned_high _ _ _ _ HO' Hin). lia.
Qed.

Lemma iappend_image s cl L k t c p : image s cl L -> (length cl < 207)%nat -> cl !! k = Some (t, c) -> Forall (fun b => 0 <= b < 256) p ->
  Z.of_nat (length c + length p) <= 268 * 1024 -> blocks_of (<[k := (t, c ++ p)]> cl) <= nblocks ->
  exists s' L', iappend (1 + Z.of_nat k) p s = Some s' /\ image s' (<[k := (t, c ++ p)]> cl) L'.
Proof.
  intros HI Hmany Hk Hb Hmax Hblocks. pose proof (lookup_lt_Some _ _ _ Hk) as Hlt.
  assert (exists g, L !! k = Some g) as [[bl ind] HL] by (apply lookup_lt_is_Some; rewrite (im_len _ _ _ HI); done).
  pose proof (im_entry _ _ _ HI _ _ _ _ _ Hk HL) as He. rewrite (blocks_of_insert _ _ _ _ _ _ Hk), length_app in Hblocks. unfold nblocks in Hblocks. pose proof (im_blocks _ _ _ HI) as Hfb.
  destruct (iappend_ok s (1 + Z.of_nat k) t c bl ind p ltac:(lia) He Hb Hmax ltac:(lia)) as (s' & bl' & ind' & Hrun & Hap).
  exists s', (<[k := (bl', ind')]> L). split; [done|]. by eapply image_appended.
Qed.

(** ** [ialloc] on the image *)

Lemma new_inode_addrs t k : addr_of (set_i_size (xint 0) (set_i_nlink (xshort 1) (set_i_type t no_inode))) k = 0.
Proof. unfold addr_of. cbn [i_addrs set_i_size set_i_nlink set_i_type no_inode]. rewrite nth_lookup. destruct (replicate 13 0 !! Z.to_nat k) as [v|] eqn:E; [|done]. by apply lookup_replicate in E as [-> _]. Qed.

Lemma empty_file s ip : blank_rest s -> length (i_addrs ip) = 13%nat -> (forall k, 0 <= k < 13 -> addr_of ip k = 0) -> file_at s ip [] 0 [].
Proof.
  intros HR Hl Ha. split; [done| |split; [constructor|constructor]|done]. split; try done; cbn [length]; try lia.
  - intros k Hk. rewrite Ha by lia. by rewrite nth_past by (cbn; lia).
  - apply Ha. lia.
Qed.

Lemma mk_ialloc_ok s t : blank_rest s -> 0 <= m_freeinode s < 208 -> 0 <= t < 2 ^ 15 ->
  exists s', mk_ialloc t s = Some (s', m_freeinode s) /\ entry s' (m_freeinode s) t [] [] 0 /\ m_freeinode s' = m_freeinode s + 1 /\ m_freeblock s' = m_freeblock s /\
    (forall j, 0 <= j < 208 -> j <> m_freeinode s -> din_at s' j = din_at s j) /\ (forall b, b < 32 \/ 45 <= b -> m_im s' b = m_im s b).
Proof.
  intros HR Hi Ht. unfold mk_ialloc. rewrite (xshort_id t) by lia. set (ip := set_i_size _ _). set (s1 := set_m_freeinode _ s).
  assert (blank_rest s1) as HR1 by (destruct HR as [R1 R2 R3]; by split).
  assert (fits ip) as Hfits.
  { unfold fits, ip. cbn [i_type i_major i_minor i_nlink i_size i_addrs set_i_size set_i_nlink set_i_type no_inode]. change (xint 0) with 0. change (xshort 1) with 1. repeat (split; [first [done | lia]|]).
    apply Forall_replicate. lia. }
  destruct (winode_ok s1 (m_freeinode s) ip HR1 Hi Hfits) as (s' & Hw & [W1 (S1 & S2 & S3 & S4 & S5 & S6) W3 W4 W5 W6]). rewrite Hw. exists s'. split; [done|].
  split; [|split; [exact W5|split; [exact W6|split; [exact W3|exact W4]]]].
  split; [exact S1|done|exact S2|exact S3|exact S4|exact S5|]. apply empty_file; [done|by rewrite S6|].
  intros k Hk. unfold addr_of. rewrite S6. apply (new_inode_addrs t k).
Qed.

Lemma snoc_lookup {A} (l : list A) x j y : (l ++ [x]) !! j = Some y -> (l !! j = Some y /\ (j < length l)%nat) \/ (j = length l /\ y = x).
Proof.
  intros H. destruct (decide (j < length l)%nat) as [Hl|Hl]; [rewrite lookup_app_l in H by done; by left|]. rewrite lookup_app_r in H by lia.
  apply list_lookup_singleton_Some in H as [H <-]. right. split; [lia|done].
Qed.

Lemma ialloc_image s cl L t : image s cl L -> (length cl < 207)%nat -> 0 <= t < 2 ^ 15 ->
  exists s', mk_ialloc t s = Some (s', 1 + Z.of_nat (length cl)) /\ image s' (cl ++ [(t, [])]) (L ++ [([], 0)]).
Proof.
  intros HI Hmany Ht. pose proof (im_next _ _ _ HI) as Hn. pose proof (im_len _ _ _ HI) as Hlen.
  destruct (mk_ialloc_ok s t (im_rest _ _ _ HI) ltac:(lia) Ht) as (s' & Hrun & He & Hfi & Hfb & Hother & Hfr). rewrite Hn in *. exists s'. split; [done|].
  pose proof (fa_rest _ _ _ _ _ (en_file _ _ _ _ _ _ He)) as HR'. split; rewrite ?length_app; cbn [length]; try done; try lia.
  - rewrite Hfb, blocks_of_app, (im_blocks _ _ _ HI). change (blocks_of [(t, [])]) with 0. lia.
  - intros k u c bl ind Hk HL. apply snoc_lookup in Hk as [[Hk Hlt]|[-> Hk]]; apply snoc_lookup in HL as [[HL Hlt']|[-> HL]]; try lia.
    + pose proof (im_entry _ _ _ HI _ _ _ _ _ Hk HL) as Hold. eapply entry_frame; [exact Hold|done|lia|apply Hother; lia|].
      intros b Hin. apply Hfr. pose proof (owned_high _ _ _ _ (fa_owns _ _ _ _ _ (en_file _ _ _ _ _ _ Hold)) Hin). lia.
    + injection Hk as -> ->. injection HL as -> ->. rewrite ?Hlen. exact He.
  - intros j k f g b Hj Hk Hbj Hbk. apply snoc_lookup in Hj as [[Hj _]|[-> ->]]; [|by apply elem_of_nil in Hbj]. apply snoc_lookup in Hk as [[Hk _]|[-> ->]]; [|by apply elem_of_nil in Hbk].
    by apply (im_disj _ _ _ HI j k f g b).
  - intros j Hj. rewrite Hother by lia. apply (im_free _ _ _ HI). lia.
  - rewrite Hother by lia. exact (im_zero _ _ _ HI).
  - rewrite Hfr by lia. exact (im_sb _ _ _ HI).
  - intros x. rewrite Hfr by lia. exact (im_log _ _ _ HI x).
Qed.
