(* ===== verification/MkfsFiles.v ===== *)
(** * The files that mkfs copies

    [main] of mkfs.c over its arguments: the root directory has an entry for each
    file, and each file has the bytes that were read. *)

From S2P Require Import Prelude Riscv Mem Cstring State Sched Uart Bio Cache Log Kalloc Vm Fs Mkfs MkfsSpec MkfsImage.

Definition bytes (l : list Z) : Prop := Forall (fun b => 0 <= b < 256) l.

Definition file_name (arg : list Z) : list Z := strip_underscore (short_name arg).

(** The entries of the directory and the contents of the files, from the inode
    number [i] on. *)
Fixpoint entries (i : Z) (files : list (list Z * list (list Z))) : list Z :=
  match files with [] => [] | (arg, _) :: l => dirent i (file_name arg) ++ entries (i + 1) l end.
Definition contents (files : list (list Z * list (list Z))) : list (Z * list Z) := map (fun f => (T_FILE, concat f.2)) files.

(** An argument that the program takes. *)
Definition good_file (f : list Z * list (list Z)) : Prop :=
  (47 ∉ short_name f.1) /\ (length (file_name f.1) <= 14)%nat /\ Forall (fun b => 0 < b < 256) f.1 /\ Forall bytes f.2 /\ Z.of_nat (length (concat f.2)) <= 268 * 1024.

Lemma dirent_length i name : (length name <= 14)%nat -> length (dirent i name) = 16%nat.
Proof. intros H. unfold dirent. cbn zeta. rewrite !length_app, length_replicate. cbn [length]. change (Z.to_nat DIRSIZ) with 14%nat. lia. Qed.

Lemma dirent_bytes i name : bytes name -> bytes (dirent i name).
Proof.
  intros H. unfold dirent, bytes. cbn zeta. apply Forall_app. split; [|apply Forall_app; split; [done|apply Forall_replicate; lia]].
  repeat constructor; unfold u8; lia.
Qed.

Lemma strip_suffix l : strip_underscore l = l \/ strip_underscore l = drop 1 l.
Proof. unfold strip_underscore. repeat case_match; solve [by left | by right]. Qed.

Lemma file_name_chars arg : Forall (fun b => 0 < b < 256) arg -> Forall (fun b => 0 < b < 256) (file_name arg).
Proof.
  intros H. assert (Forall (fun b => 0 < b < 256) (short_name arg)) as Hs by (unfold short_name; destruct (decide _); [by apply Forall_drop|done]).
  unfold file_name. destruct (strip_suffix (short_name arg)) as [-> | ->]; [done|by apply Forall_drop].
Qed.

Lemma chars_bytes l : Forall (fun b => 0 < b < 256) l -> bytes l.
Proof. intros H. eapply Forall_impl; [exact H|]. cbn. lia. Qed.

Lemma concat_bytes l : Forall bytes l -> bytes (concat l).
Proof. intros H. induction H; [constructor|]. cbn. apply Forall_app. by split. Qed.

Lemma blocks_grow cl k t c p : cl !! k = Some (t, c) -> blocks_of cl <= blocks_of (<[k := (t, c ++ p)]> cl).
Proof.
  intros Hk. rewrite (blocks_of_insert _ _ _ _ _ _ Hk). enough (used_blocks (data_blocks (length c)) <= used_blocks (data_blocks (length (c ++ p)))) by lia.
  apply used_mono. rewrite length_app. unfold data_blocks. lia.
Qed.

Lemma iappends_image l : forall s cl L k t c, image s cl L -> (length cl < 207)%nat -> cl !! k = Some (t, c) -> Forall bytes l ->
  Z.of_nat (length c + length (concat l)) <= 268 * 1024 -> blocks_of (<[k := (t, c ++ concat l)]> cl) <= nblocks ->
  exists s' L', iappends (1 + Z.of_nat k) l s = Some s' /\ image s' (<[k := (t, c ++ concat l)]> cl) L'.
Proof.
  induction l as [|p l IH]; intros s cl L k t c HI Hmany Hk Hb Hmax Hblocks.
  - exists s, L. split; [done|]. cbn [concat]. rewrite app_nil_r. by rewrite list_insert_id.
  - apply Forall_cons in Hb as [Hp Hb]. cbn [concat] in *. rewrite length_app in Hmax. rewrite app_assoc in *.
    pose proof (lookup_lt_Some _ _ _ Hk) as Hlt. set (cl1 := <[k := (t, c ++ p)]> cl).
    assert (cl1 !! k = Some (t, c ++ p)) as Hk1 by (by apply list_lookup_insert_eq).
    assert (<[k := (t, (c ++ p) ++ concat l)]> cl1 = <[k := (t, (c ++ p) ++ concat l)]> cl) as E by apply list_insert_insert_eq.
    pose proof (blocks_grow cl1 k t (c ++ p) (concat l) Hk1) as Hle. rewrite E in Hle.
    destruct (iappend_image s cl L k t c p HI Hmany Hk Hp ltac:(lia) (Z.le_trans _ _ _ Hle Hblocks)) as (s1 & L1 & Hrun & HI1). fold cl1 in HI1.
    destruct (IH s1 cl1 L1 k t (c ++ p) HI1) as (s2 & L2 & Hrun2 & HI2); [by unfold cl1; rewrite length_insert|done|done|rewrite length_app; lia|by rewrite E|].
    exists s2, L2. rewrite E in HI2. cbn [iappends]. rewrite Hrun. cbn [mbind option_bind]. done.
Qed.

(** One file: its entry goes to the end of the root directory, its contents to
    the next inode. *)
Lemma add_file_image s r cl L f : image s ((T_DIR, r) :: cl) L -> (length cl < 205)%nat -> good_file f -> Z.of_nat (length r + 16) <= 268 * 1024 ->
  blocks_of ((T_DIR, r ++ dirent (2 + Z.of_nat (length cl)) (file_name f.1)) :: cl ++ [(T_FILE, concat f.2)]) <= nblocks ->
  exists s' L', add_file 1 f.1 f.2 s = Some s' /\ image s' ((T_DIR, r ++ dirent (2 + Z.of_nat (length cl)) (file_name f.1)) :: cl ++ [(T_FILE, concat f.2)]) L'.
Proof.
  intros HI Hmany (G1 & G2 & G3 & G4 & G5) Hr Hblocks. unfold add_file. rewrite decide_False by done. fold (file_name f.1). rewrite (proj2 (Z.ltb_ge _ _)) by (unfold DIRSIZ; lia).
  destruct (ialloc_image s _ L T_FILE HI ltac:(cbn; lia) ltac:(done)) as (s1 & Hrun1 & HI1). rewrite Hrun1. cbn [mbind option_bind app length] in *.
  replace (1 + Z.of_nat (S (length cl))) with (2 + Z.of_nat (length cl)) by lia. set (de := dirent _ _) in *. assert (length de = 16%nat) as Hde by (by apply dirent_length).
  destruct (iappend_image s1 _ _ 0 T_DIR r de HI1) as (s2 & L2 & Hrun2 & HI2); [cbn [length]; rewrite length_app; cbn [length]; lia|done|by apply dirent_bytes, chars_bytes, file_name_chars|lia| |].
  { cbn [insert list_insert]. eapply Z.le_trans; [|exact Hblocks]. change (?x :: cl ++ ?y) with ([x] ++ cl ++ y). rewrite !blocks_of_app.
    enough (blocks_of [(T_FILE, [])] <= blocks_of [(T_FILE, concat f.2)]) by lia. change (blocks_of [(T_FILE, [])]) with 0. cbn [blocks_of foldr].
    pose proof (used_mono 0 (data_blocks (length (concat f.2))) ltac:(unfold data_blocks; lia)) as Hu. change (used_blocks 0) with 0 in Hu. lia. }
  change (1 + Z.of_nat 0) with 1 in Hrun2. rewrite Hrun2. cbn [insert list_insert mbind option_bind] in *. replace (2 + Z.of_nat (length cl)) with (1 + Z.of_nat (S (length cl))) by lia.
  assert (forall x, <[S (length cl) := x]> ((T_DIR, r ++ de) :: cl ++ [(T_FILE, [])]) = (T_DIR, r ++ de) :: cl ++ [x]) as E.
  { intros x. change ((T_DIR, r ++ de) :: <[length cl := x]> (cl ++ [(T_FILE, [])]) = (T_DIR, r ++ de) :: cl ++ [x]). f_equal. rewrite insert_app_r_alt by lia. by rewrite Nat.sub_diag. }
  destruct (iappends_image f.2 s2 _ L2 (S (length cl)) T_FILE [] HI2) as (s3 & L3 & Hrun3 & HI3).
  - cbn [length]. rewrite length_app. cbn [length]. lia.
  - change ((cl ++ [(T_FILE, [])]) !! length cl = Some (T_FILE, [])). by rewrite lookup_app_r, Nat.sub_diag by lia.
  - done.
  - cbn [length]. lia.
  - by rewrite E.
  - rewrite E in HI3. by exists s3, L3.
Qed.

Lemma entries_length i files : Forall good_file files -> length (entries i files) = (16 * length files)%nat.
Proof. revert i. induction files as [|[arg reads] l IH]; intros i H; [done|]. apply Forall_cons in H as [(_ & G & _) H]. cbn [entries length]. rewrite length_app, dirent_length, IH by done. lia. Qed.

Lemma blocks_cons x cl : blocks_of (x :: cl) = used_blocks (data_blocks (length x.2)) + blocks_of cl.
Proof. by destruct x. Qed.

Lemma blocks_nonneg cl : 0 <= blocks_of cl.
Proof.
  induction cl as [|[t c] cl IH]; [done|]. rewrite blocks_cons. pose proof (used_mono 0 (data_blocks (length c)) ltac:(unfold data_blocks; lia)) as Hu. change (used_blocks 0) with 0 in Hu. cbn [snd]. lia.
Qed.

Lemma add_files_image files : forall s r cl L, image s ((T_DIR, r) :: cl) L -> (length cl + length files < 206)%nat -> Forall good_file files ->
  Z.of_nat (length r + 16 * length files) <= 268 * 1024 ->
  blocks_of ((T_DIR, r ++ entries (2 + Z.of_nat (length cl)) files) :: cl ++ contents files) <= nblocks ->
  exists s' L', add_files 1 files s = Some s' /\ image s' ((T_DIR, r ++ entries (2 + Z.of_nat (length cl)) files) :: cl ++ contents files) L'.
Proof.
  induction files as [|[arg reads] files IH]; intros s r cl L HI Hmany Hg Hr Hblocks.
  - exists s, L. cbn [entries contents map]. by rewrite !app_nil_r.
  - apply Forall_cons in Hg as [Hf Hg]. cbn [entries contents map length] in *. fold (contents files) in *. set (de := dirent _ _) in *.
    assert (length de = 16%nat) as Hde by (apply dirent_length, Hf).
    assert (((T_FILE, concat reads) :: contents files) = [(T_FILE, concat reads)] ++ contents files) as E by done. cbn [snd] in *. rewrite E, !app_assoc in *.
    replace (2 + Z.of_nat (length cl) + 1) with (2 + Z.of_nat (length (cl ++ [(T_FILE, concat reads)]))) in * by (rewrite length_app; cbn [length]; lia).
    destruct (add_file_image s r cl L (arg, reads) HI ltac:(lia) Hf ltac:(lia)) as (s1 & L1 & Hrun & HI1); cbn [fst snd] in *.
    { fold de. eapply Z.le_trans; [|exact Hblocks]. rewrite !blocks_cons, !blocks_of_app. cbn [snd]. pose proof (blocks_nonneg (contents files)).
      pose proof (used_mono (data_blocks (length (r ++ de))) (data_blocks (length ((r ++ de) ++ entries (2 + Z.of_nat (length (cl ++ [(T_FILE, concat reads)]))) files))) ltac:(rewrite !length_app; unfold data_blocks; lia)). lia. }
    fold de in HI1. destruct (IH s1 (r ++ de) (cl ++ [(T_FILE, concat reads)]) L1 HI1) as (s2 & L2 & Hrun2 & HI2); [rewrite length_app; cbn [length]; lia|done|rewrite length_app; lia|done|].
    exists s2, L2. cbn [add_files]. rewrite Hrun. by cbn [mbind option_bind].
Qed.

(** ** [main] *)

(** The image that [main] starts from. *)
Lemma zero_image_ok n : forall i s, 0 <= i -> (forall b x, load8 (m_im s b) x = 0) ->
  let s' := zero_image n i s in (forall b x, load8 (m_im s' b) x = 0) /\ m_len s' = (if decide (n = 0%nat) then m_len s else Z.max (m_len s) (i + Z.of_nat n)) /\
  m_freeinode s' = m_freeinode s /\ m_freeblock s' = m_freeblock s.
Proof.
  induction n as [|n IH]; intros i s Hi Hz; [done|]. cbn [zero_image]. destruct (IH (i + 1) (wsect i (fun _ => 0) s) ltac:(lia)) as (H1 & H2 & H3 & H4).
  { intros b x. cbn [m_im wsect]. unfold upd. by destruct (b =? i). }
  cbv zeta. split; [exact H1|]. split; [|by split]. rewrite H2. cbn [m_len wsect]. destruct (decide (n = 0%nat)), (decide (S n = 0%nat)); lia.
Qed.

Definition blank_fs : mkst := wsect 1 (sb_block mkfs_sb) (zero_image (Z.to_nat FSSIZE) 0 (MkSt (fun _ _ => 0) 0 1 nmeta)).

Lemma zero_dinode s j : 0 <= j < 208 -> (forall b x, 32 <= b -> load8 (m_im s b) x = 0) -> i_type (din_at s j) = 0.
Proof.
  intros Hj Hz. unfold din_at, dinode_get. cbn [i_type set_i_addrs set_i_size set_i_nlink set_i_minor set_i_major set_i_type]. unfold di_type, load16.
  rewrite (loadn_ext 2 _ (fun _ => 0)); [done|]. intros x _. rewrite Hz; [done|]. rewrite iblock_val by done. lia.
Qed.

Lemma blank_image : image blank_fs [] [].
Proof.
  destruct (zero_image_ok (Z.to_nat FSSIZE) 0 (MkSt (fun _ _ => 0) 0 1 nmeta) ltac:(lia) ltac:(done)) as (H1 & H2 & H3 & H4). unfold blank_fs. set (s := zero_image _ _ _) in *.
  clearbody s. assert (forall b x, b <> 1 -> load8 (m_im (wsect 1 (sb_block mkfs_sb) s) b) x = 0) as Hz by (intros b x Hb; cbn [m_im wsect]; rewrite upd_other by done; apply H1).
  rewrite decide_False in H2 by done. cbn [m_len m_freeinode m_freeblock] in *. rewrite Z2Nat.id in H2 by done.
  assert (blank_rest (wsect 1 (sb_block mkfs_sb) s)) as HR.
  { split; cbn [m_len m_freeblock wsect]; [unfold FSSIZE in *; lia|rewrite H4, nmeta_val; unfold FSSIZE; lia|]. intros b x Hb. apply Hz. rewrite H4, nmeta_val in Hb. lia. }
  split; try done.
  - intros j Hj. apply zero_dinode; [cbn in Hj; lia|]. intros b x Hb. apply Hz. lia.
  - apply zero_dinode; [lia|]. intros b x Hb. apply Hz. lia.
  - intros x. apply Hz. lia.
Qed.

(** The root directory. *)
Definition root_bytes (files : list (list Z * list (list Z))) : list Z := (dirent 1 [46] ++ dirent 1 [46; 46]) ++ entries 2 files.

Lemma root_length files : Forall good_file files -> length (root_bytes files) = (32 + 16 * length files)%nat.
Proof. intros H. unfold root_bytes. rewrite !length_app, !dirent_length, entries_length by (done || (cbn; lia)). lia. Qed.

(** The image before the last steps. *)
Lemma main_files files : Forall good_file files -> (length files < 199)%nat -> blocks_of ((T_DIR, root_bytes files) :: contents files) <= nblocks ->
  exists s1 s2 s3 s4 L, mk_ialloc T_DIR blank_fs = Some (s1, 1) /\ iappend 1 (dirent 1 [46]) s1 = Some s2 /\ iappend 1 (dirent 1 [46; 46]) s2 = Some s3 /\
    add_files 1 files s3 = Some s4 /\ image s4 ((T_DIR, root_bytes files) :: contents files) L.
Proof.
  intros Hg Hn Hb. destruct (ialloc_image blank_fs [] [] T_DIR blank_image ltac:(cbn; lia) ltac:(done)) as (s1 & Hrun1 & HI1).
  assert (forall a, (length a <= 32)%nat -> blocks_of [(T_DIR, a)] <= nblocks) as Hsmall.
  { intros a Ha. rewrite blocks_cons. cbn [snd]. change (blocks_of []) with 0. pose proof (used_mono (data_blocks (length a)) 1 ltac:(unfold data_blocks; lia)) as Hu.
    change (used_blocks 1) with 1 in Hu. change nblocks with 1954. lia. }
  assert (length (dirent 1 [46]) = 16%nat /\ length (dirent 1 [46; 46]) = 16%nat) as [D1 D2] by (split; apply dirent_length; cbn; lia).
  assert (bytes [46] /\ bytes [46; 46]) as [B1 B2] by (split; repeat constructor; lia).
  destruct (iappend_image s1 _ _ 0 T_DIR [] (dirent 1 [46]) HI1 ltac:(cbn; lia) eq_refl (dirent_bytes 1 _ B1)) as (s2 & L2 & Hrun2 & HI2);
    [rewrite ?length_app, ?D1, ?D2; cbn [length]; lia|apply Hsmall; rewrite ?length_app, ?D1, ?D2; cbn [length]; lia|].
  destruct (iappend_image s2 _ _ 0 T_DIR _ (dirent 1 [46; 46]) HI2 ltac:(cbn; lia) eq_refl (dirent_bytes 1 _ B2)) as (s3 & L3 & Hrun3 & HI3);
    [rewrite ?length_app, ?D1, ?D2; cbn [length]; lia|apply Hsmall; rewrite ?length_app, ?D1, ?D2; cbn [length]; lia|].
  destruct (add_files_image files s3 _ [] L3 HI3) as (s4 & L4 & Hrun4 & HI4); [cbn [length]; lia|done|rewrite !length_app, D1, D2; cbn [length]; lia|exact Hb|].
  exists s1, s2, s3, s4, L4. exact (conj Hrun1 (conj Hrun2 (conj Hrun3 (conj Hrun4 HI4)))).
Qed.
