(* ===== verification/MkfsMain.v ===== *)
(** * The finished image

    The last steps of [main] of mkfs.c, the size of the root directory and the
    bitmap, and the whole program. *)

From S2P Require Import Prelude Riscv Mem Cstring State Sched SchedSpec Uart Bio Cache Session Log Txn Kalloc Vm Fs FsBlocks Mkfs MkfsSpec MkfsImage MkfsFiles.

(** Inode [inum] on the disk: its type, its size and the bytes in its blocks. *)
Record stored (s : mkst) (inum t size : Z) (c bl : list Z) (ind : Z) : Prop := {
  st_type : i_type (din_at s inum) = t;
  st_nlink : i_nlink (din_at s inum) = 1;
  st_size : i_size (din_at s inum) = size;
  st_frep : frep (m_im s) (din_at s inum) bl ind c;
  st_owns : owns s bl ind;
  st_len : Z.of_nat (length bl) = data_blocks (length c)
}.

(** The size that [main] gives the root directory. *)
Definition root_size (files : list (list Z * list (list Z))) : Z := (Z.of_nat (length (root_bytes files)) / 1024 + 1) * 1024.

(** A file system with the given files, in the blocks [L]. *)
Record formatted (s : mkst) (files : list (list Z * list (list Z))) (L : list (list Z * Z)) : Prop := {
  fm_len : m_len s = FSSIZE;
  fm_sb : sb_of_block (m_im s 1) = mkfs_sb;
  fm_log : forall x, load8 (m_im s 2) x = 0;
  fm_count : m_freeblock s = nmeta + blocks_of ((T_DIR, root_bytes files) :: contents files);
  fm_used : forall b, 0 <= b < FSSIZE -> used (m_im s) no_pins mkfs_sb b = (b <? m_freeblock s);
  fm_each : length L = S (length files);
  fm_root : forall bl ind, L !! 0%nat = Some (bl, ind) -> stored s 1 T_DIR (root_size files) (root_bytes files) bl ind;
  fm_file : forall k f bl ind, files !! k = Some f -> L !! S k = Some (bl, ind) -> stored s (2 + Z.of_nat k) T_FILE (Z.of_nat (length (concat f.2))) (concat f.2) bl ind;
  fm_disj : forall j k f g b, L !! j = Some f -> L !! k = Some g -> b ∈ owned f.1 f.2 -> b ∈ owned g.1 g.2 -> j = k;
  fm_free : forall j, 1 + Z.of_nat (length files) < j < 208 -> i_type (din_at s j) = 0;
  fm_zero : i_type (din_at s 0) = 0
}.

Lemma mark_bits_used n : forall i buf j, 0 <= i -> 0 <= j -> bit_used (mark_bits n i buf) j = bit_used buf j || ((i <=? j) && (j <? i + Z.of_nat n)).
Proof.
  induction n as [|n IH]; intros i buf j Hi Hj; cbn [mark_bits].
  - rewrite (proj2 (andb_false_iff _ _)); [by rewrite orb_false_r|]. destruct (Z.leb_spec i j); [right; apply Z.ltb_ge; lia|by left].
  - rewrite IH by lia. change (store8 buf (i / 8) (Z.lor (load8 buf (i / 8)) (Z.shiftl 1 (i mod 8)))) with (set_bit i buf). rewrite bit_used_set by done.
    destruct (bit_used buf j); [by rewrite orb_true_r|]. rewrite orb_false_r. cbn [orb].
    destruct (Z.eqb_spec j i), (Z.leb_spec (i + 1) j), (Z.ltb_spec j (i + 1 + Z.of_nat n)), (Z.leb_spec i j), (Z.ltb_spec j (i + Z.of_nat (S n))); try lia; done.
Qed.

Lemma bitmap_block b : 0 <= b < FSSIZE -> BBLOCK b mkfs_sb = 45 /\ b mod BPB = b.
Proof. unfold FSSIZE. intros H. unfold BBLOCK, u32. change BPB with 8192. change (sb_bmapstart mkfs_sb) with 45. split; [rewrite Z.mod_small; lia|apply Z.mod_small; lia]. Qed.

Lemma sb_block_get : sb_of_block (sb_block mkfs_sb) = mkfs_sb.
Proof. vm_compute. reflexivity. Qed.

Lemma stored_frame s s' inum t size c bl ind : stored s inum t size c bl ind -> m_freeblock s' = m_freeblock s -> din_at s' inum = din_at s inum ->
  (forall b, b ∈ owned bl ind -> m_im s' b = m_im s b) -> stored s' inum t size c bl ind.
Proof. intros [H1 H2 H3 H4 H5 H6] Hf Hd Hfr. unfold owns in *. split; rewrite ?Hd; try done; [by eapply frep_frame|unfold owns; by rewrite Hf]. Qed.

Lemma image_stored s cl L k t c bl ind : image s cl L -> cl !! k = Some (t, c) -> L !! k = Some (bl, ind) -> stored s (1 + Z.of_nat k) t (Z.of_nat (length c)) c bl ind.
Proof. intros HI Hk HL. destruct (im_entry _ _ _ HI _ _ _ _ _ Hk HL) as [E1 E2 E3 E4 E5 E6 [F1 F2 F3 F4]]. split; assumption. Qed.

(** The root directory gets its size. *)
Lemma fix_root s files L bl ind : Forall good_file files -> (length files < 199)%nat -> image s ((T_DIR, root_bytes files) :: contents files) L -> L !! 0%nat = Some (bl, ind) ->
  exists s', winode 1 (set_i_size (root_size files) (din_at s 1)) s = Some s' /\ wrote_inode s 1 (set_i_size (root_size files) (din_at s 1)) s' /\
    stored s' 1 T_DIR (root_size files) (root_bytes files) bl ind.
Proof.
  intros Hg Hn HI HL.
  destruct (im_entry _ _ _ HI 0%nat T_DIR (root_bytes files) bl ind eq_refl HL) as [E1 E2 E3 E4 E5 E6 E7]. change (1 + Z.of_nat 0) with 1 in *.
  pose proof (root_length files Hg) as Hrl. assert (0 <= root_size files < 2 ^ 32) as Hsz by (unfold root_size; rewrite Hrl; lia).
  assert (fits (set_i_size (root_size files) (din_at s 1))) as Hf.
  { unfold fits. cbn [i_type i_major i_minor i_nlink i_size i_addrs set_i_size]. rewrite E1, E3, E4, E5. pose proof (file_addrs_small _ _ _ _ _ E7). pose proof (fr_addrs _ _ _ _ _ (fa_frep _ _ _ _ _ E7)).
    repeat (split; [first [done | lia]|]). done. }
  destruct (winode_ok s 1 _ (im_rest _ _ _ HI) ltac:(lia) Hf) as (s' & Hw & W). exists s'. split; [done|]. split; [done|].
  destruct W as [W1 (S1 & S2 & S3 & S4 & S5 & S6) W3 W4 W5 W6]. cbn [i_type i_major i_minor i_nlink i_size i_addrs set_i_size] in *. destruct E7 as [F1 F2 F3 F4].
  split; [congruence|congruence|done| |unfold owns in *; by rewrite W6|done].
  eapply frep_addrs; [symmetry; exact S6|]. eapply frep_frame; [exact F2|]. intros b Hb. apply W4. pose proof (owned_high _ _ _ _ F3 Hb). lia.
Qed.

(** The bitmap. *)
Lemma balloc_ok s : blank_rest s -> exists s', mk_balloc (m_freeblock s) s = Some s' /\ m_len s' = FSSIZE /\ m_freeblock s' = m_freeblock s /\
  (forall b, b <> 45 -> m_im s' b = m_im s b) /\ (forall b, 0 <= b < FSSIZE -> used (m_im s') no_pins mkfs_sb b = (b <? m_freeblock s)).
Proof.
  intros HR. pose proof (fb_small s HR) as Hfb. unfold mk_balloc. change BPB with 8192. rewrite (proj2 (Z.leb_gt _ _)) by lia. change (sb_bmapstart mkfs_sb) with 45.
  eexists. split; [reflexivity|]. split; [cbn [m_len wsect]; rewrite (rm_len _ HR); reflexivity|]. split; [done|]. split; [intros b Hb; cbn [m_im wsect]; by apply upd_other|].
  intros b Hb. destruct (bitmap_block b Hb) as [E1 E2]. unfold used, view, no_pins. cbn [default m_im wsect]. rewrite E1, E2, upd_same, mark_bits_used by lia.
  rewrite bit_used_testbit by lia. change (load8 (fun _ => 0) (b / 8)) with 0. rewrite Z.bits_0, Z2Nat.id, Z.add_0_l by lia. by rewrite (proj2 (Z.leb_le _ _)) by lia.
Qed.

Lemma main_run files s1 s2 s3 s4 s5 s6 : mk_ialloc T_DIR blank_fs = Some (s1, 1) -> iappend 1 (dirent 1 [46]) s1 = Some s2 -> iappend 1 (dirent 1 [46; 46]) s2 = Some s3 ->
  add_files 1 files s3 = Some s4 -> rinode 1 s4 = Some (din_at s4 1) -> i_size (din_at s4 1) = Z.of_nat (length (root_bytes files)) ->
  0 <= root_size files < 2 ^ 32 -> winode 1 (set_i_size (root_size files) (din_at s4 1)) s4 = Some s5 -> mk_balloc (m_freeblock s5) s5 = Some s6 -> mkfs_main files = Some s6.
Proof.
  intros H1 H2 H3 H4 H5 H6 H7 H8 H9. unfold mkfs_main. fold blank_fs. rewrite H1. cbn [mbind option_bind]. change (negb (1 =? ROOTINO)) with false. cbv iota.
  rewrite H2. cbn [mbind option_bind]. rewrite H3. cbn [mbind option_bind]. rewrite H4. cbn [mbind option_bind]. rewrite H5. cbn [mbind option_bind].
  change BSIZE with 1024. rewrite H6. unfold root_size in H7, H8. rewrite (xint_id (Z.of_nat (length (root_bytes files)))) by lia. rewrite xint_id by exact H7. rewrite H8. exact H9.
Qed.

Lemma main_ok files : Forall good_file files -> (length files < 199)%nat -> blocks_of ((T_DIR, root_bytes files) :: contents files) <= nblocks ->
  exists s L, mkfs_main files = Some s /\ formatted s files L.
Proof.
  intros Hg Hn Hb. destruct (main_files files Hg Hn Hb) as (s1 & s2 & s3 & s4 & L & H1 & H2 & H3 & H4 & HI).
  assert (exists g, L !! 0%nat = Some g) as [[bl ind] HL] by (apply lookup_lt_is_Some; rewrite (im_len _ _ _ HI); cbn; lia).
  destruct (fix_root s4 files L bl ind Hg Hn HI HL) as (s5 & Hw & [W1 W2 W3 W4 W5 W6] & Hroot). destruct (balloc_ok s5 W1) as (s6 & Hrun & G1 & G2 & G3 & G4).
  pose proof (root_length files Hg) as Hrl. assert (length (contents files) = length files) as Hcl by apply length_map.
  assert (forall j, 0 <= j < 208 -> din_at s6 j = din_at s5 j) as Hd by (intros j Hj; unfold din_at; rewrite G3; [done|rewrite iblock_val by done; lia]).
  exists s6, L. split.
  { destruct (image_stored _ _ _ 0%nat T_DIR (root_bytes files) bl ind HI eq_refl HL) as [_ _ Hsz _ _ _].
    eapply main_run; try eassumption; [apply rinode_ok; [exact (im_rest _ _ _ HI)|lia]|unfold root_size; rewrite Hrl; lia]. }
  split; [done| | | | | | | | | |].
  - rewrite G3, W4, (im_sb _ _ _ HI) by lia. exact sb_block_get.
  - intros x. rewrite G3, W4 by lia. exact (im_log _ _ _ HI x).
  - rewrite G2, W6. exact (im_blocks _ _ _ HI).
  - rewrite G2. exact G4.
  - rewrite (im_len _ _ _ HI). cbn [length]. lia.
  - intros bl' ind' HL'. rewrite HL in HL'. injection HL' as <- <-. eapply stored_frame; [exact Hroot|done|apply Hd; lia|]. intros b Hin. apply G3. pose proof (owned_high _ _ _ _ (st_owns _ _ _ _ _ _ _ Hroot) Hin). lia.
  - intros k f bl' ind' Hk HL'. pose proof (lookup_lt_Some _ _ _ Hk) as Hlt.
    assert (((T_DIR, root_bytes files) :: contents files) !! S k = Some (T_FILE, concat f.2)) as Hk' by (change (contents files !! k = Some (T_FILE, concat f.2)); unfold contents; by rewrite list_lookup_fmap, Hk).
    pose proof (image_stored _ _ _ (S k) _ _ _ _ HI Hk' HL') as Hst. replace (1 + Z.of_nat (S k)) with (2 + Z.of_nat k) in Hst by lia.
    eapply stored_frame; [exact Hst|by rewrite G2, W6|rewrite Hd, W3 by lia; done|]. intros b Hin. pose proof (owned_high _ _ _ _ (st_owns _ _ _ _ _ _ _ Hst) Hin). rewrite G3, W4 by lia. done.
  - exact (im_disj _ _ _ HI).
  - intros j Hj. rewrite Hd, W3 by lia. apply (im_free _ _ _ HI). cbn [length]. lia.
  - rewrite Hd, W3 by lia. exact (im_zero _ _ _ HI).
Qed.

(** If the entries fill the blocks of the root directory, its size goes one block
    past them. *)
Lemma root_size_past files : Forall good_file files -> (2 + Z.of_nat (length files)) mod 64 = 0 ->
  root_size files = 1024 * data_blocks (length (root_bytes files)) + 1024.
Proof. intros Hg H. unfold root_size, data_blocks. rewrite (root_length files Hg). lia. Qed.
