(* ===== verification/MkfsClaims.v ===== *)
(** * The kernel on a disk that mkfs made

    What kernel/fs.c finds on the image of mkfs/mkfs.c: the files with the bytes
    that were copied, their names in the root directory, and the free map. *)

From S2P Require Import Prelude Riscv Mem Cstring State Sched SchedSpec Uart Bio BioLocks BioList Cache BioSpec Session Log LogSpec Txn Kalloc Vm Sample SampleFs Fs FsBlocks FsFiles FsClaims FsDir Mkfs MkfsSpec MkfsImage MkfsFiles MkfsMain.

(** ** Reading *)

Lemma frep_blkno im ip bl ind c bn : frep im ip bl ind c -> 0 <= bn < 268 -> blkno im no_pins ip bn = nth (Z.to_nat bn) bl 0.
Proof.
  intros [H1 H2 H3 H4 H5 H6 H7 H8] Hbn. unfold blkno, NDIRECT. destruct (Z.ltb_spec bn 12) as [Hlt|Hge]; [exact (H4 bn ltac:(lia))|]. change (iaddr ip 12) with (addr_of ip 12).
  destruct (decide (length bl <= 12)%nat) as [Hl|Hl]; [rewrite H5, H6, nth_past by lia; done|].
  destruct (H7 ltac:(lia)) as [Hne Hk]. rewrite H5, (proj2 (Z.eqb_neq _ _)) by done. unfold view, no_pins. cbn [default]. rewrite Hk by lia. f_equal. lia.
Qed.

Lemma frep_fbyte im ip bl ind c o : frep im ip bl ind c -> 0 <= o < 1024 * Z.of_nat (length bl) -> fbyte im no_pins ip o = nth (Z.to_nat o) c 0.
Proof.
  intros HF Ho. pose proof (fr_max _ _ _ _ _ HF). unfold fbyte. change BSIZE with 1024. rewrite (frep_blkno _ _ _ _ _ _ HF) by lia. unfold view, no_pins. cbn [default].
  rewrite <- (fr_bytes _ _ _ _ _ HF (Z.to_nat o)) by lia. rewrite Z2Nat.inj_div by lia. change (Z.to_nat 1024) with 1024%nat. f_equal. rewrite Nat2Z.inj_mod, Z2Nat.id by lia. done.
Qed.

Lemma frep_fbytes im ip bl ind c o n : frep im ip bl ind c -> 0 <= o -> 0 <= n -> o + n <= Z.of_nat (length c) ->
  fbytes im no_pins ip o n = take (Z.to_nat n) (drop (Z.to_nat o) c).
Proof.
  intros HF Ho Hn Hl. pose proof (fr_cov _ _ _ _ _ HF) as Hcov. unfold fbytes. apply list_eq. intros i. rewrite list_lookup_fmap. destruct (decide (i < Z.to_nat n)%nat) as [Hi|Hi].
  - rewrite lookup_seqZ_lt by lia. cbn [fmap option_fmap option_map]. rewrite (frep_fbyte _ _ _ _ _ _ HF) by lia. rewrite lookup_take_lt, lookup_drop by lia.
    symmetry. replace (Z.to_nat (o + Z.of_nat i)) with (Z.to_nat o + i)%nat by lia. destruct (lookup_lt_is_Some_2 c (Z.to_nat o + i)%nat) as [v Hv]; [lia|]. by rewrite Hv, (nth_lookup_Some _ _ _ _ Hv).
  - rewrite lookup_seqZ_ge by lia. by rewrite lookup_take_ge by lia.
Qed.

Lemma frep_file_ok im ip bl ind c s : frep im ip bl ind c -> owns s bl ind -> m_freeblock s <= FSSIZE -> file_ok im no_pins ip (Z.of_nat (length bl)).
Proof.
  unfold FSSIZE. intros HF HO HR. pose proof (fr_max _ _ _ _ _ HF) as Hmax.
  assert (forall bn, 0 <= bn < Z.of_nat (length bl) -> nth (Z.to_nat bn) bl 0 ∈ bl /\ 46 <= nth (Z.to_nat bn) bl 0 < 2000) as Hblk.
  { intros bn Hbn. assert (nth (Z.to_nat bn) bl 0 ∈ bl) as Hin by (apply list_elem_of_In, nth_In; lia). split; [done|]. pose proof (owned_high _ _ _ _ HO (owned_in _ ind _ Hin)). lia. }
  split.
  - change MAXFILE with 268. lia.
  - intros bn Hbn. rewrite (frep_blkno _ _ _ _ _ _ HF) by lia. destruct (Hblk bn Hbn). lia.
  - intros bn bn' Hbn Hbn'. rewrite !(frep_blkno _ _ _ _ _ _ HF) by lia. destruct HO as [_ Hd]. apply NoDup_app in Hd as [Hd _]. rewrite NoDup_ListNoDup, NoDup_nth in Hd.
    intros E. apply Hd in E; lia.
  - intros bn Hbn. rewrite (frep_blkno _ _ _ _ _ _ HF) by lia. change (iaddr ip NDIRECT) with (addr_of ip 12). rewrite (fr_single _ _ _ _ _ HF).
    destruct (Hblk bn Hbn) as [Hb Hs]. destruct (decide (ind = 0)) as [->|Hne]; [lia|]. destruct (owns_single _ _ _ HO Hne) as [_ Hin]. intros E. apply Hin. by rewrite <- E.
Qed.

(** The files of the image. *)
Lemma formatted_file st files L k f : formatted st files L -> files !! k = Some f ->
  exists bl ind, L !! S k = Some (bl, ind) /\ stored st (2 + Z.of_nat k) T_FILE (Z.of_nat (length (concat f.2))) (concat f.2) bl ind.
Proof.
  intros HF Hk. pose proof (lookup_lt_Some _ _ _ Hk). destruct (lookup_lt_is_Some_2 L (S k)) as [[bl ind] HL]; [rewrite (fm_each _ _ _ HF); lia|]. exists bl, ind. split; [done|]. by apply (fm_file _ _ _ HF).
Qed.

Lemma formatted_root st files L : formatted st files L -> exists bl ind, L !! 0%nat = Some (bl, ind) /\ stored st 1 T_DIR (root_size files) (root_bytes files) bl ind.
Proof.
  intros HF. destruct (lookup_lt_is_Some_2 L 0) as [[bl ind] HL]; [rewrite (fm_each _ _ _ HF); lia|]. exists bl, ind. split; [done|]. by apply (fm_root _ _ _ HF).
Qed.

(** Every inode in use. *)
Lemma formatted_any st files L j : formatted st files L -> 1 <= j < 2 + Z.of_nat (length files) ->
  exists c bl ind, L !! Z.to_nat (j - 1) = Some (bl, ind) /\ i_type (din_at st j) = (if j =? 1 then T_DIR else T_FILE) /\ frep (m_im st) (din_at st j) bl ind c /\ owns st bl ind.
Proof.
  intros HF Hj. destruct (decide (j = 1)) as [->|Hne].
  - destruct (formatted_root _ _ _ HF) as (bl & ind & HL & [T1 T2 T3 T4 T5 T6]). by exists (root_bytes files), bl, ind.
  - destruct (lookup_lt_is_Some_2 files (Z.to_nat (j - 2))) as [f Hf]; [lia|]. destruct (formatted_file _ _ _ _ f HF Hf) as (bl & ind & HL & [T1 T2 T3 T4 T5 T6]).
    replace (2 + Z.of_nat (Z.to_nat (j - 2))) with j in * by lia. replace (S (Z.to_nat (j - 2))) with (Z.to_nat (j - 1)) in HL by lia. exists (concat f.2), bl, ind.
    by rewrite (proj2 (Z.eqb_neq _ _)) by done.
Qed.

(** ** The names of the root directory *)

Definition name_char (b : Z) : Prop := 0 < b < 256.

Lemma at_list_char l i : Forall name_char l -> 0 <= i < Z.of_nat (length l) -> at_list l i = nth (Z.to_nat i) l 0 /\ at_list l i <> 0.
Proof.
  intros H Hi. unfold at_list. rewrite List.Forall_forall in H. assert (name_char (nth (Z.to_nat i) l 0)) as Hc by (apply H, nth_In; lia). unfold name_char in Hc. rewrite u8_small by lia. split; [done|lia].
Qed.

Lemma at_list_end l i : Z.of_nat (length l) <= i -> at_list l i = 0.
Proof. intros Hi. unfold at_list. by rewrite nth_past by lia. Qed.

Lemma at_list_pad l n i : 0 <= i -> at_list (l ++ replicate n 0) i = at_list l i.
Proof.
  intros Hi. unfold at_list. f_equal. destruct (decide (Z.to_nat i < length l)%nat) as [Hl|Hl]; [by apply app_nth1|]. rewrite app_nth2 by lia. rewrite (nth_past l) by lia. rewrite nth_lookup. destruct (replicate n 0 !! _) as [v|] eqn:E; [|done]. by apply lookup_replicate in E as [-> _].
Qed.

(** [namecmp] compares names as strings. *)
Lemma namecmp_names n1 n2 k : Forall name_char n1 -> Forall name_char n2 -> (length n1 <= 14)%nat -> (length n2 <= 14)%nat ->
  (namecmp (at_list n1) (at_list (n2 ++ replicate k 0)) =? 0) = bool_decide (n1 = n2).
Proof.
  intros H1 H2 L1 L2. apply eq_bool_prop_intro. rewrite Is_true_true, bool_decide_spec, Z.eqb_eq. unfold namecmp. change DIRSIZ with 14. rewrite strncmp_zero_iff. split.
  - intros H. assert (forall j, 0 <= j < 14 -> j <= Z.of_nat (length n1) -> at_list n1 j = at_list n2 j) as Hj.
    { intros j Hj Hl. rewrite <- (at_list_pad n2 k) by lia. apply H; [lia|]. intros l Hl'. apply at_list_char; [done|lia]. }
    assert (length n1 <= length n2)%nat as Hle.
    { destruct (decide (length n1 <= length n2)%nat); [done|]. specialize (Hj (Z.of_nat (length n2)) ltac:(lia) ltac:(lia)). rewrite (at_list_end n2) in Hj by lia.
      destruct (at_list_char n1 (Z.of_nat (length n2)) H1 ltac:(lia)). done. }
    assert (length n2 <= length n1)%nat as Hge.
    { destruct (decide (length n2 <= length n1)%nat); [done|]. specialize (Hj (Z.of_nat (length n1)) ltac:(lia) ltac:(lia)). rewrite (at_list_end n1) in Hj by lia.
      destruct (at_list_char n2 (Z.of_nat (length n1)) H2 ltac:(lia)). congruence. }
    apply (nth_ext _ _ 0 0); [lia|]. intros i Hi. specialize (Hj (Z.of_nat i) ltac:(lia) ltac:(lia)).
    destruct (at_list_char n1 (Z.of_nat i) H1 ltac:(lia)) as [E1 _], (at_list_char n2 (Z.of_nat i) H2 ltac:(lia)) as [E2 _]. rewrite Nat2Z.id in E1, E2. congruence.
  - intros -> j Hj _. by rewrite at_list_pad by lia.
Qed.

(** The entries one by one. *)
Definition root_name (files : list (list Z * list (list Z))) (j : nat) : list Z :=
  match j with O => [46] | 1%nat => [46; 46] | S (S i) => default [] (file_name ∘ fst <$> files !! i) end.
Definition root_inum (j : nat) : Z := match j with O | 1%nat => 1 | _ => Z.of_nat j end.

Lemma entries_at files : forall i j f, Forall good_file files -> files !! j = Some f -> take 16 (drop (16 * j) (entries i files)) = dirent (i + Z.of_nat j) (file_name f.1).
Proof.
  induction files as [|[arg reads] files IH]; intros i j f Hg Hj; [done|]. apply Forall_cons in Hg as [(_ & G & _) Hg]. cbn [entries]. pose proof (dirent_length i (file_name arg) G) as Hl. destruct j as [|j].
  - injection Hj as <-. rewrite Nat.mul_0_r, Z.add_0_r, drop_0. cbn [fst]. by rewrite take_app_le, take_ge by (cbn [fst] in Hl; lia).
  - rewrite drop_app_ge by (cbn [fst] in Hl; lia). replace (16 * S j - length (dirent i (file_name arg)))%nat with (16 * j)%nat by (cbn [fst] in Hl; lia).
    rewrite (IH (i + 1) j f Hg Hj). f_equal. lia.
Qed.

Lemma root_at files j : Forall good_file files -> (j < 2 + length files)%nat -> take 16 (drop (16 * j) (root_bytes files)) = dirent (root_inum j) (root_name files j).
Proof.
  intros Hg Hj. assert (length (dirent 1 [46]) = 16%nat /\ length (dirent 1 [46; 46]) = 16%nat) as [D1 D2] by (split; apply dirent_length; cbn; lia). unfold root_bytes. rewrite <- app_assoc.
  destruct j as [|[|j]]; cbn [root_inum root_name].
  - rewrite Nat.mul_0_r, drop_0. by rewrite take_app_le, take_ge by lia.
  - rewrite drop_app_ge by lia. rewrite D1. change (16 * 1 - 16)%nat with 0%nat. rewrite drop_0. by rewrite take_app_le, take_ge by lia.
  - destruct (lookup_lt_is_Some_2 files j ltac:(lia)) as [f Hf]. rewrite !drop_app_ge by lia. rewrite D1, D2. replace (16 * S (S j) - 16 - 16)%nat with (16 * j)%nat by lia.
    rewrite (entries_at files 2 j f Hg Hf), Hf. f_equal. lia.
Qed.

Lemma de_inum_dirent i n : 0 <= i < 65536 -> de_inum (dirent i n) = i.
Proof.
  intros Hi. unfold dirent, de_inum. cbn zeta. rewrite xshort_id by (change (2 ^ 16) with 65536; lia). cbn [app nth]. unfold u8. rewrite Z.shiftr_div_pow2 by lia. change (2 ^ 8) with 256. lia.
Qed.

Lemma de_name_dirent i n : de_name (dirent i n) = at_list (n ++ replicate (14 - length n) 0).
Proof. reflexivity. Qed.

Lemma root_name_good files j : Forall good_file files -> Forall name_char (root_name files j) /\ (length (root_name files j) <= 14)%nat.
Proof.
  intros Hg. destruct j as [|[|j]]; cbn [root_name]; [split; [repeat constructor|cbn; lia]..|].
  destruct (files !! j) as [f|] eqn:E; [|split; [constructor|cbn; lia]]. rewrite Forall_lookup in Hg. destruct (Hg j f E) as (_ & G2 & G3 & _). split; [by apply file_name_chars|done].
Qed.

Lemma dent_root im ip bl ind files j : Forall good_file files -> frep im ip bl ind (root_bytes files) -> (j < 2 + length files)%nat ->
  dent im no_pins ip (Z.of_nat j) = dirent (root_inum j) (root_name files j).
Proof.
  intros Hg HF Hlt. pose proof (root_length files Hg) as Hrl. unfold dent. rewrite (frep_fbytes _ _ _ _ _ _ _ HF) by lia. replace (Z.to_nat (16 * Z.of_nat j)) with (16 * j)%nat by lia.
  change (Z.to_nat 16) with 16%nat. by apply root_at.
Qed.

(** Which entries of the root directory are for a name. *)
Lemma hit_root im ip bl ind files name j : Forall good_file files -> (length files < 199)%nat -> frep im ip bl ind (root_bytes files) -> Forall name_char name -> (length name <= 14)%nat ->
  16 * Z.of_nat j + 16 <= 1024 * Z.of_nat (length bl) ->
  hit im no_pins ip (at_list name) (Z.of_nat j) = bool_decide (j < 2 + length files)%nat && bool_decide (name = root_name files j).
Proof.
  intros Hg Hn HF Hc Hl Hj. pose proof (root_length files Hg) as Hrl. unfold hit. destruct (decide (j < 2 + length files)%nat) as [Hlt|Hge].
  - rewrite bool_decide_eq_true_2 by done. rewrite (dent_root _ _ _ _ _ _ Hg HF) by done. destruct (root_name_good files j Hg) as [Hc' Hl']. rewrite de_name_dirent, namecmp_names by done.
    rewrite de_inum_dirent by (destruct j as [|[|j]]; cbn [root_inum]; lia). rewrite (proj2 (Z.eqb_neq _ _)) by (destruct j as [|[|j]]; cbn [root_inum]; lia). done.
  - rewrite bool_decide_eq_false_2 by done. cbn [andb]. apply andb_false_iff. left. apply negb_false_iff, Z.eqb_eq. unfold dent, fbytes, de_inum.
    assert (forall o, 16 * Z.of_nat j <= o < 16 * Z.of_nat j + 2 -> fbyte im no_pins ip o = 0) as Hz by (intros o Ho; rewrite (frep_fbyte _ _ _ _ _ _ HF) by lia; apply nth_past; lia).
    change (seqZ (16 * Z.of_nat j) 16) with (map (fun i => Z.of_nat i + 16 * Z.of_nat j) (seq 0 16)). cbn [seq map nth]. rewrite !Hz by lia. reflexivity.
Qed.

Section claims.
Context {EN : Env} {KI : KernelImage}.
Variable dev : Z.
Local Abbreviation txn := (txn (crep := crep dev) (chold := chold dev) (dev := dev)).

(** The arguments that mkfs takes: as many files as there are inodes for, and as
    many blocks as the disk has. *)
Definition mkfs_args (files : list (list Z * list (list Z))) : Prop :=
  Forall good_file files /\ (length files < 199)%nat /\ blocks_of ((T_DIR, root_bytes files) :: contents files) <= nblocks.

(** C12: what mkfs copies, the kernel reads.  mkfs makes an image of its arguments;
    on a disk with that image, with the inode of a file loaded from the disk, the
    kernel's [readi] returns the bytes of the file from any offset. *)
Theorem mkfs_kernel_reads files : mkfs_args files ->
  exists st, mkfs_main files = Some st /\ forall k f me pid start size ks w bs s i ip off n, files !! k = Some f -> let c := concat f.2 in
    txn me pid start size ks (m_im st) w no_pins bs [] s -> k_itable ks !! i = Some ip -> i_dev ip = dev -> (length bs < bhead)%nat ->
    same_dinode ip (din_at st (2 + Z.of_nat k)) -> 0 <= off <= Z.of_nat (length c) -> 0 <= n -> off + n < 2 ^ 32 ->
    i_type ip = T_FILE /\ i_size ip = Z.of_nat (length c) /\ exists s', readi i ToVar off n s = Ok (Z.min n (Z.of_nat (length c) - off), take (Z.to_nat n) (drop (Z.to_nat off) c)) s'.
Proof.
  intros (Hg & Hn & Hb). destruct (main_ok files Hg Hn Hb) as (st & L & Hrun & HF). exists st. split; [done|]. intros k f me pid start size ks w bs s i ip off n Hk c Ht Hi Hdev Hbs (S1 & _ & _ & _ & S5 & S6) Hoff Hn' Hmax.
  destruct (formatted_file _ _ _ k f HF Hk) as (bl & ind & _ & [T1 T2 T3 T4 T5 T6]). fold c in T3, T4, T6. apply (frep_addrs _ _ ip) in T4; [|done].
  assert (m_freeblock st <= FSSIZE) as Hfb by (rewrite (fm_count _ _ _ HF); unfold nblocks in Hb; lia).
  split; [congruence|]. assert (i_size ip = Z.of_nat (length c)) as Hsz by congruence. split; [done|].
  pose proof (readi_spec me pid start size ks (m_im st) w no_pins bs s i ip _ off n Ht Hi Hdev (frep_file_ok _ _ _ _ _ _ T4 T5 Hfb)) as Hrd. rewrite Hsz in Hrd.
  specialize (Hrd Hoff Hn' Hmax ltac:(change BSIZE with 1024; pose proof (fr_cov _ _ _ _ _ T4); lia) Hbs). apply wp_elim in Hrd as (r & s' & Hr & -> & _). exists s'. rewrite Hr. f_equal. f_equal.
  rewrite (frep_fbytes _ _ _ _ _ _ _ T4) by lia. destruct (decide (n <= Z.of_nat (length c) - off)); [by rewrite Z.min_l by lia|]. rewrite !take_ge; [done|rewrite length_drop; lia..].
Qed.

(** Names that can be told apart. *)
Definition distinct_names (files : list (list Z * list (list Z))) : Prop :=
  NoDup (map (file_name ∘ fst) files) /\ forall f, f ∈ files -> file_name f.1 <> [46] /\ file_name f.1 <> [46; 46].

Lemma root_name_inj files k f j : distinct_names files -> files !! k = Some f -> (j < 2 + length files)%nat -> file_name f.1 = root_name files j -> j = S (S k).
Proof.
  intros [Hnd Hdot] Hk Hj E. destruct (Hdot f (list_elem_of_lookup_2 _ _ _ Hk)) as [H1 H2]. destruct j as [|[|j]]; [done|done|]. cbn [root_name] in E.
  destruct (lookup_lt_is_Some_2 files j ltac:(lia)) as [g Hg]. rewrite Hg in E. do 2 f_equal.
  apply (proj1 (NoDup_alt (map (file_name ∘ fst) files)) Hnd j k (file_name f.1)); rewrite list_lookup_fmap; [by rewrite Hg, E|by rewrite Hk].
Qed.

(** C27: the kernel finds what mkfs names.  With names that differ, [dirlookup] in
    the root directory of the image finds the entry of each file, with a reference
    to the inode that has its contents.  (The number of entries is not a multiple
    of those of a block: otherwise the directory's size goes past its blocks.) *)
Theorem mkfs_kernel_finds files : mkfs_args files -> distinct_names files -> (2 + Z.of_nat (length files)) mod 64 <> 0 ->
  exists st, mkfs_main files = Some st /\ forall k f me pid start size ks w bs s dp ip, files !! k = Some f ->
    txn me pid start size ks (m_im st) w no_pins bs [] s -> k_itable ks !! dp = Some ip -> i_dev ip = dev -> (length bs < bhead)%nat ->
    same_dinode ip (din_at st 1) -> Litable ∉ k_held ks -> (exists i fp, k_itable ks !! i = Some fp /\ i_ref fp = 0) ->
    exists i t' s', dirlookup dp (at_list (file_name f.1)) s = Ok (Some (i, 16 * (2 + Z.of_nat k))) s' /\ iget_step dev (2 + Z.of_nat k) (k_itable ks) t' i /\
      txn me pid start size (set_k_itable t' ks) (m_im st) w no_pins bs [] s'.
Proof using EN KI.
  intros (Hg & Hn & Hb) Hdist H64. destruct (main_ok files Hg Hn Hb) as (st & L & Hrun & HF). exists st. split; [done|]. intros k f me pid start size ks w bs s dp ip Hk Ht Hi Hdev Hbs (S1 & _ & _ & _ & S5 & S6) Hl Hfree.
  destruct (formatted_root _ _ _ HF) as (bl & ind & _ & [T1 T2 T3 T4 T5 T6]). apply (frep_addrs _ _ ip) in T4; [|done]. pose proof (root_length files Hg) as Hrl.
  assert (m_freeblock st <= FSSIZE) as Hfb by (rewrite (fm_count _ _ _ HF); unfold nblocks in Hb; lia). unfold root_size in T3. unfold data_blocks in T6. rewrite Hrl in T3, T6.
  set (N := (Z.of_nat (32 + 16 * length files) / 1024 + 1) * 64). assert (N * 16 = 1024 * Z.of_nat (length bl)) as HN by (unfold N; lia).
  pose proof (dirlookup_spec dev me pid start size ks (m_im st) w no_pins bs s dp ip _ (at_list (file_name f.1)) N Ht Hi ltac:(congruence) Hdev (frep_file_ok _ _ _ _ _ _ T4 T5 Hfb) ltac:(lia) ltac:(lia)
    ltac:(change BSIZE with 1024; lia) Hbs Hl Hfree) as Hlk. apply wp_elim in Hlk as (r & s' & Hr & Hpost). pose proof (lookup_lt_Some _ _ _ Hk) as Hlt.
  assert (Forall name_char (file_name f.1) /\ (length (file_name f.1) <= 14)%nat) as [Hc Hlen].
  { pose proof (root_name_good files (S (S k)) Hg) as H. cbn [root_name] in H. by rewrite Hk in H. }
  assert (forall j, 0 <= j < N -> hit (m_im st) no_pins ip (at_list (file_name f.1)) j = true <-> j = 2 + Z.of_nat k) as Hhit.
  { intros j Hj. rewrite <- (Z2Nat.id j) by lia. rewrite (hit_root _ _ _ _ _ _ _ Hg Hn T4 Hc Hlen) by lia. rewrite andb_true_iff, !bool_decide_eq_true. split.
    - intros [Hj' E]. pose proof (root_name_inj files k f _ Hdist Hk Hj' E). lia.
    - intros E. replace (Z.to_nat j) with (S (S k)) by lia. split; [lia|]. cbn [root_name]. by rewrite Hk. }
  destruct r as [[i off]|].
  - destruct Hpost as (j & t' & -> & Hj & Hh & _ & Hstep & Ht'). apply Hhit in Hh as ->; [|done]. exists i, t', s'. split; [done|]. split; [|done].
    replace (de_inum _) with (2 + Z.of_nat k) in Hstep; [done|].
    replace (2 + Z.of_nat k) with (Z.of_nat (S (S k))) by lia. rewrite (dent_root _ _ _ _ _ _ Hg T4) by lia. symmetry. apply de_inum_dirent. cbn [root_inum]. lia.
  - destruct Hpost as [Hno _]. assert (0 <= 2 + Z.of_nat k < N) as Hin by lia. pose proof (proj2 (Hhit _ Hin) eq_refl) as Hh. by rewrite Hno in Hh.
Qed.

End claims.

Lemma nth_nonzero (l : list Z) i : nth i l 0 <> 0 -> (i < length l)%nat.
Proof. intros H. destruct (decide (i < length l)%nat) as [|Hge]; [done|]. destruct H. apply nth_past. lia. Qed.

Lemma nth_elem (l : list Z) i : (i < length l)%nat -> nth i l 0 ∈ l.
Proof. intros H. by apply list_elem_of_In, nth_In. Qed.

Lemma mkfs_geometry : geometry mkfs_sb.
Proof. split; vm_compute; intuition discriminate. Qed.


(** ** Instances *)

(** Two files, one of a build directory and read in two pieces. *)
Definition sample_files : list (list Z * list (list Z)) :=
  [(str_bytes "user/_cat", [[127; 69; 76]; [70]]); (str_bytes "README", [[120; 118; 54]])].

Lemma sample_args : mkfs_args sample_files.
Proof. unfold mkfs_args, good_file, bytes, sample_files. split; [|split; [cbn; lia|vm_compute; discriminate]]. by_dec. Qed.

Lemma sample_distinct : distinct_names sample_files.
Proof.
  split; [by_dec|]. assert (Forall (fun f => file_name f.1 <> [46] /\ file_name f.1 <> [46; 46]) sample_files) as H by by_dec. by rewrite Forall_forall in H.
Qed.

Lemma dev_dinode d ip : same_dinode (set_i_dev d ip) ip.
Proof. by repeat split. Qed.

Lemma mkfs_reads_witness : exists st s s', mkfs_main sample_files = Some st /\ readi 0 ToVar 1 10 s = Ok (3, [69; 76; 70]) s'.
Proof.
  destruct (mkfs_kernel_reads 1 sample_files sample_args) as (st & Hrun & H). set (ip := set_i_dev 1 (din_at st 2)). destruct (fs_of_txn (m_im st) ip) as (s & Ht).
  destruct (H 0%nat _ 0%nat 1 2 30 (fs_of (m_im st) ip) [] [] s 0%nat ip 1 10 eq_refl Ht eq_refl eq_refl ltac:(apply Nat.ltb_lt; reflexivity) (dev_dinode 1 _)) as (_ & _ & s' & Hr);
    [split; vm_compute; discriminate|vm_compute; discriminate|reflexivity|].
  exists st, s, s'. exact (conj Hrun Hr).
Defined.

Lemma mkfs_finds_witness : exists st s i s', mkfs_main sample_files = Some st /\ dirlookup 0 (at_list (str_bytes "README")) s = Ok (Some (i, 48)) s'.
Proof.
  destruct (mkfs_kernel_finds 1 sample_files sample_args sample_distinct) as (st & Hrun & H); [vm_compute; discriminate|]. set (ip := set_i_dev 1 (din_at st 1)).
  destruct (fs_of_txn (m_im st) ip) as (s & Ht).
  destruct (H 1%nat _ 0%nat 1 2 30 (fs_of (m_im st) ip) [] [] s 0%nat ip eq_refl Ht eq_refl eq_refl ltac:(apply Nat.ltb_lt; reflexivity) (dev_dinode 1 _)) as (i & t' & s' & Hr & _);
    [apply not_elem_of_nil|exists 1%nat, zero_inode; split; reflexivity|].
  exists st, s, i, s'. exact (conj Hrun Hr).
Defined.

