(* ===== verification/Console.v ===== *)
(** * kernel/console.c

    Line editing on input, and the [read] and [write] of the console device. *)

From S2P Require Import Prelude Riscv Mem Cstring State Sched Uart Bio Log Kalloc Vm Fs.

Definition INPUT_BUF_SIZE : Z := 128.
Definition CONSOLE : Z := 1.

(** [C(x)]: control characters. *)
Definition ctrl (x : Z) : Z := x - 64.

Definition cons_get {A} (f : consst -> A) : M kstate A := gets (fun s => f (k_cons s)).
Definition cons_mod (f : consst -> consst) : M kstate unit := modify (fun s => set_k_cons (f (k_cons s)) s).

(** [cons.buf[i % INPUT_BUF_SIZE]] *)
Definition cons_at (c : consst) (i : Z) : Z := nth (Z.to_nat (i mod INPUT_BUF_SIZE)) (c_buf c) 0.

(** ** procdump (proc.c) *)

Definition state_name (st : procstate) : string :=
  match st with
  | UNUSED => "unused" | USED => "used" | SLEEPING => "sleep " | RUNNABLE => "runble"
  | RUNNING => "run   " | ZOMBIE => "zombie"
  end.

(** The bytes of a C string in an array. *)
Fixpoint upto_nul (l : list Z) : list Z :=
  match l with c :: l' => if c =? 0 then [] else c :: upto_nul l' | [] => [] end.

Definition procdump : M kstate unit :=
  printf [10] [] ;;;
  mfor procs_idx (fun i =>
    let! p := proc_get i in
    if bool_decide (p_state p = UNUSED) then ret tt
    else
      printf (str_bytes "%d %s %s") [Num (p_pid p); Str (Some (str_bytes (state_name (p_state p))));
                                     Str (Some (upto_nul (p_name p)))] ;;;
      printf [10] []).

(** ** Input *)

(** One turn of the loop that erases a line. *)
Definition kill_line_body (_ : unit) : M kstate (unit + unit) :=
  let! c := cons_get (fun c => c) in
  if negb (c_e c =? c_w c) && negb (cons_at c (u32 (c_e c - 1)) =? 10) then
    cons_mod (set_c_e (u32 (c_e c - 1))) ;;;
    consputc BACKSPACE ;;;
    ret (inl tt)
  else ret (inr tt).

(** The default case: a character for the buffer. *)
Definition cons_store (c : Z) : M kstate unit :=
  let! cs := cons_get (fun c => c) in
  when (negb (c =? 0) && (u32 (c_e cs - c_r cs) <? INPUT_BUF_SIZE))
    (let c := if c =? 13 then 10 else c in
     consputc c ;;;
     cons_mod (fun cs => set_c_e (u32 (c_e cs + 1))
       (set_c_buf (<[Z.to_nat (c_e cs mod INPUT_BUF_SIZE) := u8 c]> (c_buf cs)) cs)) ;;;
     let! cs := cons_get (fun c => c) in
     when ((c =? 10) || (c =? ctrl 68) || (u32 (c_e cs - c_r cs) =? INPUT_BUF_SIZE))
       (cons_mod (set_c_w (c_e cs)) ;;; wakeup Cconsr)).

Definition consoleintr (c : Z) : M kstate unit :=
  acquire Lcons ;;;
  (if c =? ctrl 80 then procdump
   else if c =? ctrl 85 then
     (* at most INPUT_BUF_SIZE characters are being edited *)
     mloop (S (Z.to_nat INPUT_BUF_SIZE)) kill_line_body tt
   else if (c =? ctrl 72) || (c =? 127) then
     let! cs := cons_get (fun c => c) in
     when (negb (c_e cs =? c_w cs))
       (cons_mod (set_c_e (u32 (c_e cs - 1))) ;;; consputc BACKSPACE)
   else cons_store c) ;;;
  release Lcons.

(** uart.c: the interrupt handler *)
Definition uartintr : M kstate unit :=
  let! l := uart_get rx_in in
  mloop (S (length l)) (fun _ : unit =>
    let! c := uartgetc in
    if c =? -1 then ret (inr tt) else consoleintr c ;;; ret (inl tt)) tt ;;;
  acquire Luart ;;;
  uartstart ;;;
  release Luart.

Section console.
Context {EN : Env} {KI : KernelImage}.

(** ** The device *)

Definition consolewrite (a : src) (n : Z) : M kstate Z :=
  mloop (S (Z.to_nat n)) (fun i =>
    if i <? n then
      let! ' (r, bytes) := either_copyin (src_add a i) 1 in
      if r =? -1 then ret (inr i)
      else uartputc (nth 0 bytes 0) ;;; ret (inl (i + 1))
    else ret (inr i)) 0.

(** Wait for input: [false] if the process was killed. *)
Definition consoleread_wait : M kstate bool :=
  let! moves := gets k_sched in
  mloop (S (length moves)) (fun _ : unit =>
    let! c := cons_get (fun c => c) in
    if c_r c =? c_w c then
      let! p := curproc in
      let! k := killed p in
      if negb (k =? 0) then ret (inr false)
      else sleep Cconsr Lcons ;;; ret (inl tt)
    else ret (inr true)) tt.

(** The loop of [consoleread]; [inr None] is the return of -1. *)
Definition consoleread_body (target : Z) (t : dst * Z) : M kstate (dst * Z + option Z) :=
  let '(d, n) := t in
  if 0 <? n then
    let! go := consoleread_wait in
    if negb go then release Lcons ;;; ret (inr None)
    else
      let! cs := cons_get (fun c => c) in
      let c := cons_at cs (c_r cs) in
      cons_mod (set_c_r (u32 (c_r cs + 1))) ;;;
      if c =? ctrl 68 then
        when (n <? target) (cons_mod (fun cs => set_c_r (u32 (c_r cs - 1)) cs)) ;;;
        ret (inr (Some n))
      else
        let! ' (r, _) := either_copyout d (fun _ => c) 1 in
        if r =? -1 then ret (inr (Some n))
        else if c =? 10 then ret (inr (Some (n - 1)))
        else ret (inl (dst_add d 1, n - 1))
  else ret (inr (Some n)).

Definition consoleread (d : dst) (n : Z) : M kstate Z :=
  let target := u32 n in
  acquire Lcons ;;;
  let! r := mloop (S (Z.to_nat n)) (consoleread_body target) (d, n) in
  match r with
  | None => ret (-1)
  | Some n => release Lcons ;;; ret (s32 (target - n))
  end.

End console.
