(* ===== verification/Pipe.v ===== *)
(** * kernel/pipe.c

    A pipe is a ring of [PIPESIZE] bytes with two counters that wrap at 32
    bits.  The pipe at page [pi] is entry [pi] of [k_pipes]. *)

From S2P Require Import Prelude Riscv Mem Cstring State Sched Kalloc Vm.

Definition PIPESIZE : Z := 512.

Definition pipe_get (pi : Z) : M kstate pipe := fun s =>
  match k_pipes s !! pi with Some q => Ok q s | None => Fault "not a pipe" end.
Definition pipe_mod (pi : Z) (f : pipe -> pipe) : M kstate unit :=
  modify (fun s => set_k_pipes (alter f pi (k_pipes s)) s).

(** [pi->data[pi->nwrite++ % PIPESIZE] = ch;] *)
Definition pipe_put (ch : Z) (q : pipe) : pipe :=
  set_pi_nwrite (u32 (pi_nwrite q + 1))
    (set_pi_data (<[Z.to_nat (pi_nwrite q mod PIPESIZE) := u8 ch]> (pi_data q)) q).

(** [ch = pi->data[pi->nread++ % PIPESIZE];] *)
Definition pipe_next (q : pipe) : Z := nth (Z.to_nat (pi_nread q mod PIPESIZE)) (pi_data q) 0.
Definition pipe_advance (q : pipe) : pipe := set_pi_nread (u32 (pi_nread q + 1)) q.

Definition pipe_full (q : pipe) : bool := pi_nwrite q =? u32 (pi_nread q + PIPESIZE).
Definition pipe_empty (q : pipe) : bool := pi_nread q =? pi_nwrite q.

Section pipe.
Context {EN : Env} {KI : KernelImage}.

(** The page goes back to the allocator when both ends are closed. *)
Definition pipeclose (pi : Z) (writable : bool) : M kstate unit :=
  acquire (Lpipe pi) ;;;
  (if writable then pipe_mod pi (set_pi_writeopen false) ;;; wakeup (Cpiperead pi)
   else pipe_mod pi (set_pi_readopen false) ;;; wakeup (Cpipewrite pi)) ;;;
  let! q := pipe_get pi in
  if negb (pi_readopen q) && negb (pi_writeopen q) then
    release (Lpipe pi) ;;;
    modify (fun s => set_k_pipes (delete pi (k_pipes s)) s) ;;;
    kfree pi
  else release (Lpipe pi).

(** The loop of [pipewrite]: [inr None] is the return of -1. *)
Definition pipewrite_body (pi addr n : Z) (pr : nat) (i : Z) : M kstate (Z + option Z) :=
  if i <? n then
    let! q := pipe_get pi in
    let! k := (if negb (pi_readopen q) then ret 1 else killed pr) in
    if negb (k =? 0) then release (Lpipe pi) ;;; ret (inr None)
    else if pipe_full q then
      wakeup (Cpiperead pi) ;;;
      sleep (Cpipewrite pi) (Lpipe pi) ;;;
      ret (inl i)
    else
      let! p := proc_get pr in
      let! ' (r, bytes) := copyin (p_pagetable p) (u64 (addr + i)) 1 in
      if r =? -1 then ret (inr (Some i))
      else
        pipe_mod pi (pipe_put (nth 0 bytes 0)) ;;;
        ret (inl (i + 1))
  else ret (inr (Some i)).

Definition pipewrite (pi addr n : Z) : M kstate Z :=
  let! pr := curproc in
  acquire (Lpipe pi) ;;;
  let! moves := gets k_sched in
  let! r := mloop (S (Z.to_nat n + length moves)) (pipewrite_body pi addr n pr) 0 in
  match r with
  | None => ret (-1)
  | Some i => wakeup (Cpiperead pi) ;;; release (Lpipe pi) ;;; ret i
  end.

(** The wait of [piperead]: [false] if the process was killed. *)
Definition piperead_wait (pi : Z) (pr : nat) (_ : unit) : M kstate (unit + bool) :=
  let! q := pipe_get pi in
  if pipe_empty q && pi_writeopen q then
    let! k := killed pr in
    if negb (k =? 0) then release (Lpipe pi) ;;; ret (inr false)
    else sleep (Cpiperead pi) (Lpipe pi) ;;; ret (inl tt)
  else ret (inr true).

Definition piperead_body (pi addr n : Z) (pr : nat) (i : Z) : M kstate (Z + Z) :=
  if i <? n then
    let! q := pipe_get pi in
    if pipe_empty q then ret (inr i)
    else
      let ch := pipe_next q in
      pipe_mod pi pipe_advance ;;;
      let! p := proc_get pr in
      let! r := copyout (p_pagetable p) (u64 (addr + i)) (fun _ => ch) 1 in
      if r =? -1 then ret (inr i) else ret (inl (i + 1))
  else ret (inr i).

Definition piperead (pi addr n : Z) : M kstate Z :=
  let! pr := curproc in
  acquire (Lpipe pi) ;;;
  let! moves := gets k_sched in
  let! go := mloop (S (length moves)) (piperead_wait pi pr) tt in
  if negb go then ret (-1)
  else
    let! i := mloop (S (Z.to_nat n)) (piperead_body pi addr n pr) 0 in
    wakeup (Cpipewrite pi) ;;;
    release (Lpipe pi) ;;;
    ret i.

End pipe.
