(* ===== verification/PipeSpec.v ===== *)
(** * A pipe is a bounded queue

    [queue q l]: the ring of pipe [q] holds the bytes [l], the oldest first.
    [pipewrite] and [piperead] append to and take from that queue. *)

From S2P Require Import Prelude Riscv Mem Cstring State Sched SchedSpec Kalloc PageTable Vm VmSpec Uvm UvmGrow UvmIo BioLocks Pipe.

Record queue (q : pipe) (l : list Z) : Prop := {
  qu_len : length (pi_data q) = Z.to_nat PIPESIZE;
  qu_read : 0 <= pi_nread q < 2 ^ 32;
  qu_write : pi_nwrite q = u32 (pi_nread q + Z.of_nat (length l));
  qu_max : Z.of_nat (length l) <= PIPESIZE;
  qu_byte : forall i c, l !! i = Some c ->
    pi_data q !! Z.to_nat ((pi_nread q + Z.of_nat i) mod PIPESIZE) = Some c
}.

Lemma queue_full q l : queue q l -> pipe_full q = bool_decide (Z.of_nat (length l) = PIPESIZE).
Proof.
  intros [_ Hr Hw Hm _]. unfold pipe_full. rewrite Hw. unfold PIPESIZE, u32 in *.
  case_bool_decide as E; [apply Z.eqb_eq|apply Z.eqb_neq]; lia.
Qed.

Lemma queue_empty q l : queue q l -> pipe_empty q = bool_decide (l = []).
Proof.
  intros [_ Hr Hw Hm _]. unfold pipe_empty. rewrite Hw. unfold PIPESIZE, u32 in *.
  case_bool_decide as E; [apply Z.eqb_eq|apply Z.eqb_neq].
  - subst. cbn. lia.
  - destruct l; [done|]. cbn [length] in *. lia.
Qed.

(** The index of the byte [i] places after the oldest, for a ring of 512. *)
Lemma ring_index r n : 0 <= r < 2 ^ 32 -> 0 <= n -> u32 (r + n) mod PIPESIZE = (r + n) mod PIPESIZE.
Proof. intros Hr Hn. unfold u32, PIPESIZE. lia. Qed.

Lemma queue_put q l c :
  queue q l -> Z.of_nat (length l) < PIPESIZE -> 0 <= c < 256 -> queue (pipe_put c q) (l ++ [c]).
Proof.
  intros [H1 Hr Hw Hm Hb] Hlt Hc. unfold pipe_put. split; cbn.
  - by rewrite length_insert.
  - done.
  - rewrite Hw, length_app. cbn. unfold u32. lia.
  - rewrite length_app. cbn. lia.
  - intros i x [Hi|[Hle Hi]]%lookup_app_Some.
    + rewrite list_lookup_insert_ne; [by apply Hb|]. apply lookup_lt_Some in Hi.
      rewrite Hw, ring_index by lia. unfold PIPESIZE in *. lia.
    + apply list_lookup_singleton_Some in Hi as [Hz <-].
      assert (i = length l) as -> by lia. rewrite Hw, ring_index by lia.
      rewrite list_lookup_insert_eq; [by rewrite u8_small|]. rewrite H1. unfold PIPESIZE. lia.
Qed.

Lemma queue_get q c l :
  queue q (c :: l) -> pipe_next q = c /\ queue (pipe_advance q) l.
Proof.
  intros [H1 Hr Hw Hm Hb]. split.
  - unfold pipe_next. specialize (Hb 0%nat c eq_refl). rewrite Z.add_0_r in Hb. by apply nth_lookup_Some.
  - unfold pipe_advance. cbn [length] in *. split; cbn.
    + done.
    + unfold u32. lia.
    + rewrite Hw. unfold u32. lia.
    + lia.
    + intros i x Hi. rewrite <- (Hb (S i) x Hi). do 2 f_equal. unfold u32, PIPESIZE. lia.
Qed.

Section pipe.
Context {EN : Env} {KI : KernelImage}.

Lemma killed_run p pr s : k_procs s !! p = Some pr -> Lproc p ∉ k_held s -> killed p s = Ok (p_killed pr) s.
Proof.
  intros Hp Hl. unfold killed. run (acquire_ok _ _ Hl). set (s1 := set_k_held _ s).
  run (tab_get_ok k_procs p pr s1 Hp : proc_get p s1 = _). run (release_ok (Lproc p) s1 (k_held s) eq_refl Hl).
  by destruct s.
Qed.

Lemma pipe_get_ok pi q s : k_pipes s !! pi = Some q -> pipe_get pi s = Ok q s.
Proof. unfold pipe_get. by intros ->. Qed.

Lemma insert_alter_same {B} (f : B -> B) pi x (m : gmap Z B) : <[pi := x]> (alter f pi m) = <[pi := x]> m.
Proof.
  apply map_eq. intros k. destruct (decide (k = pi)) as [->|Hne].
  - by rewrite !lookup_insert_eq.
  - by rewrite !lookup_insert_ne, lookup_alter_ne.
Qed.

(** A process that uses a pipe: it runs, has not been killed and holds no process lock. *)
Record piping (s : kstate) (me : nat) (pr : proc) : Prop := {
  pp_cur : k_cur s = Some me;
  pp_proc : k_procs s !! me = Some pr;
  pp_killed : p_killed pr = 0;
  pp_plock : no_plock (k_held s)
}.

(** ** pipewrite *)

Lemma pipewrite_loop s pi addr n me pr :
  piping s me pr -> tree_ok (k_mem s) 2 (p_pagetable pr) -> 0 <= addr -> addr + n < 2 ^ 64 ->
  forall fuel i q l, k_pipes s !! pi = Some q -> queue q l -> pi_readopen q = true ->
    0 <= i <= n -> Z.of_nat (length l) + (n - i) <= PIPESIZE -> (Z.to_nat (n - i) < fuel)%nat ->
    exists j q', mloop fuel (pipewrite_body pi addr n me) i s =
        Ok (Some j) (set_k_pipes (<[pi := q']> (k_pipes s)) s) /\ i <= j <= n /\
      queue q' (l ++ ubytes (k_mem s) (p_pagetable pr) (addr + i) (j - i)) /\
      pi_readopen q' = true /\ pi_writeopen q' = pi_writeopen q /\
      (j < n -> ureadable (k_mem s) (p_pagetable pr) (addr + j) = false).
Proof.
  intros Hp Ht Ha Hn. induction fuel as [|fuel IH] in s, Hp, Ht |- *; intros i q l Hq Hqu Hro Hi Hroom Hf; [lia|].
  cbn [mloop]. unfold pipewrite_body at 1. destruct (Z.ltb_spec i n) as [Hlt|Hge].
  2:{ exists i, q. assert (i = n) as -> by lia. rewrite insert_id by done. split; [by destruct s|].
      rewrite Z.sub_diag. unfold ubytes. cbn. rewrite app_nil_r. split_and!; try done; try lia; intros; lia. }
  run (pipe_get_ok pi q s Hq). rewrite Hro. cbn [negb].
  run (killed_run me pr s (pp_proc _ _ _ Hp) (pp_plock _ _ _ Hp me)). rewrite (pp_killed _ _ _ Hp). cbn [Z.eqb negb].
  rewrite (queue_full q l Hqu), bool_decide_false by lia.
  run (tab_get_ok k_procs me pr s (pp_proc _ _ _ Hp) : proc_get me s = _).
  replace (u64 (addr + i)) with (addr + i) by (unfold u64; lia).
  destruct (copyin_run (p_pagetable pr) s (addr + i) 1 Ht) as (r & k & Hrun & Hk & _ & Hr); [lia|lia|]. run Hrun.
  destruct Hr as [[-> ->]|(-> & Hlt1 & Hbad)]; cbn [Z.eqb Pos.eqb].
  - assert (ubytes (k_mem s) (p_pagetable pr) (addr + i) 1 = [uread (k_mem s) (p_pagetable pr) (addr + i)]) as E1 by done.
    rewrite E1. unfold pipe_mod. ksimp. cbn [nth].
    set (c := uread (k_mem s) (p_pagetable pr) (addr + i)) in *.
    set (s1 := set_k_pipes _ s).
    destruct (IH s1) with (i := i + 1) (q := pipe_put c q) (l := l ++ [c]) as (j & q' & Hloop & Hj & Hq' & Hro' & Hwo' & Hst).
    + by destruct Hp; split.
    + done.
    + cbn. by rewrite lookup_alter_eq, Hq.
    + apply queue_put; [done|lia|apply load8_range].
    + done.
    + lia.
    + rewrite length_app. cbn. lia.
    + lia.
    + exists j, q'. split; [|split; [lia|split; [|split; [done|split; [done|exact Hst]]]]].
      * rewrite Hloop. unfold s1. cbn. rewrite insert_alter_same. done.
      * rewrite <- app_assoc in Hq'. replace (j - i) with (1 + (j - (i + 1))) by lia.
        rewrite ubytes_app, E1 by lia. replace (addr + i + 1) with (addr + (i + 1)) by lia. exact Hq'.
  - assert (k = 0) as -> by lia. rewrite Z.add_0_r in Hbad. exists i, q. rewrite insert_id by done.
    split; [by destruct s|]. rewrite Z.sub_diag. unfold ubytes. cbn. rewrite app_nil_r.
    split_and!; try done; lia.
Qed.

(** [pipewrite] of [n] bytes that fit: it appends the longest readable prefix. *)
Lemma pipewrite_run s pi addr n me pr q l :
  piping s me pr -> Lpipe pi ∉ k_held s -> length (k_procs s) = Z.to_nat NPROC ->
  tree_ok (k_mem s) 2 (p_pagetable pr) -> 0 <= addr -> addr + n < 2 ^ 64 -> 0 <= n ->
  k_pipes s !! pi = Some q -> queue q l -> pi_readopen q = true -> Z.of_nat (length l) + n <= PIPESIZE ->
  exists j q' ps, pipewrite pi addr n s = Ok j (set_k_procs ps (set_k_pipes (<[pi := q']> (k_pipes s)) s)) /\
    ps = wake_all (Some me) (Cpiperead pi) (k_procs s) /\ 0 <= j <= n /\
    queue q' (l ++ ubytes (k_mem s) (p_pagetable pr) addr j) /\
    pi_readopen q' = true /\ pi_writeopen q' = pi_writeopen q /\
    (j < n -> ureadable (k_mem s) (p_pagetable pr) (addr + j) = false).
Proof.
  intros Hp Hl Hnp Ht Ha Hb Hn Hq Hqu Hro Hroom. unfold pipewrite.
  assert (curproc s = Ok me s) as Hcur by (unfold curproc, myproc; rewrite bind_gets, (pp_cur _ _ _ Hp); done).
  run Hcur. run (acquire_ok _ _ Hl). set (s1 := set_k_held _ s).
  assert (no_plock (k_held s1)) as Hnl.
  { intros k [E|Hin]%elem_of_cons; [done|]. by apply (pp_plock _ _ _ Hp k). }
  destruct (pipewrite_loop s1 pi addr n me pr) with (fuel := S (Z.to_nat n + length (k_sched s1))) (i := 0) (q := q) (l := l)
    as (j & q' & Hloop & Hj & Hq' & Hro' & Hwo' & Hst); try done; try lia.
  { by destruct Hp; split. }
  run Hloop. exists j, q', (wake_all (Some me) (Cpiperead pi) (k_procs s)).
  set (s2 := set_k_pipes _ s1).
  run (wakeup_run (Cpiperead pi) s2 Hnl Hnp).
  set (s3 := set_k_procs _ s2).
  run (release_ok (Lpipe pi) s3 (k_held s) eq_refl Hl). rewrite Z.add_0_r, Z.sub_0_r in Hq'.
  split; [|done]. unfold ret, s3, s2, s1. cbn. rewrite (pp_cur _ _ _ Hp). by destruct s.
Qed.

Lemma uvm_inv_ext s s' fl root us :
  k_mem s' = k_mem s -> k_freelist s' = k_freelist s -> Lkmem ∉ k_held s' ->
  uvm_inv s fl root us -> uvm_inv s' fl root us.
Proof.
  intros E1 E2 Hl [[H1 [K1 K2 K3] H3 H4] Hin Hout Hnd]. split; rewrite ?E1; [|done|done|done].
  split; rewrite ?E1; [done| |done|done]. split; by rewrite ?E1, ?E2.
Qed.

Lemma alter_map_insert {B} (f : B -> B) pi x (m : gmap Z B) :
  m !! pi = Some x -> alter f pi m = <[pi := f x]> m.
Proof.
  intros H. apply map_eq. intros k. destruct (decide (k = pi)) as [->|Hne].
  - by rewrite lookup_insert_eq, lookup_alter_eq, H.
  - by rewrite lookup_insert_ne, lookup_alter_ne.
Qed.

(** ** piperead *)

(** What [k] bytes of [l], read to [va], leave in the memory of a process; when
    the copy of a byte fails that byte is gone from the pipe. *)
Record read_post (m m' : mem) (root : Z) (us : list Z) (va n : Z) (l rest : list Z) (k : Z) : Prop := {
  rp_k : 0 <= k <= n /\ k <= Z.of_nat (length l);
  rp_mem : forall x, x / 4096 ∈ us -> uread m' root x =
    if (va <=? x) && (x <? va + k) then nth (Z.to_nat (x - va)) l 0 else uread m root x;
  rp_write : forall x, va <= x < va + k -> uwritable m root x = true;
  rp_pte : forall x, pte_at m' 2 root x = pte_at m 2 root x;
  rp_rest : (rest = drop (Z.to_nat k) l /\ (k = n \/ k = Z.of_nat (length l))) \/
            (rest = drop (S (Z.to_nat k)) l /\ k < n /\ k < Z.of_nat (length l) /\ uwritable m root (va + k) = false)
}.

Lemma read_post_0 m root us va n l :
  0 <= n -> n = 0 \/ l = [] -> read_post m m root us va n l l 0.
Proof.
  intros Hn H. split; [lia| |lia|done|].
  - intros x Hx. replace ((va <=? x) && (x <? va + 0)) with false; [done|]. symmetry. zdec; try done; lia.
  - left. split; [done|]. destruct H as [->| ->]; [by left|by right].
Qed.

Lemma uwritable_pte m m' root va :
  (forall x, pte_at m' 2 root x = pte_at m 2 root x) -> uwritable m' root va = uwritable m root va.
Proof. intros H. unfold uwritable. by rewrite H. Qed.

(** One byte copied, then the rest. *)
Lemma read_post_S m m1 m2 root us va n c l rest k :
  va / 4096 ∈ us -> 0 <= c < 256 ->
  copyout_post m m1 root us (fun _ => c) va 0 1 0 1 ->
  read_post m1 m2 root us (va + 1) (n - 1) l rest k -> read_post m m2 root us va n (c :: l) rest (1 + k).
Proof.
  intros Hva Hc (_ & Hw & Hu & Hp & _) [H1 H2 Hw2 H3 H4]. split.
  - cbn [length]. lia.
  - intros x Hx. rewrite H2, Hu by done.
    destruct (Z.leb_spec va x), (Z.ltb_spec x (va + (1 + k))), (Z.leb_spec (va + 1) x),
      (Z.ltb_spec x (va + 1 + k)), (Z.ltb_spec x (va + 1)); cbn [andb]; try lia; try done.
    + replace (Z.to_nat (x - va)) with (S (Z.to_nat (x - (va + 1)))) by lia. done.
    + replace (Z.to_nat (x - va)) with 0%nat by lia. by apply u8_small.
  - intros x Hx. destruct (decide (x = va)) as [->|]; [apply Hw; lia|].
    rewrite <- (uwritable_pte m m1) by done. apply Hw2. lia.
  - intros x. by rewrite H3.
  - destruct H4 as [[-> H4]|(-> & H5 & H6 & H7)]; [left|right].
    + replace (Z.to_nat (1 + k)) with (S (Z.to_nat k)) by lia. cbn [length drop]. split; [done|lia].
    + replace (Z.to_nat (1 + k)) with (S (Z.to_nat k)) by lia. cbn [length drop].
      split; [done|]. split; [lia|]. split; [lia|]. rewrite <- H7. rewrite (uwritable_pte m m1) by done.
      f_equal. lia.
Qed.

Lemma piperead_loop pi addr n me pr us fl :
  0 <= addr -> addr + n < 2 ^ 64 -> forall fuel i s q l,
    piping s me pr -> uvm_inv s fl (p_pagetable pr) us -> high_ok (k_mem s) (p_pagetable pr) ->
    k_pipes s !! pi = Some q -> queue q l -> Forall (fun c => 0 <= c < 256) l ->
    0 <= i <= n -> (Z.to_nat (n - i) < fuel)%nat ->
    exists k rest q' m', mloop fuel (piperead_body pi addr n me) i s =
        Ok (i + k) (set_k_mem m' (set_k_pipes (<[pi := q']> (k_pipes s)) s)) /\
      queue q' rest /\ pi_writeopen q' = pi_writeopen q /\ pi_readopen q' = pi_readopen q /\
      read_post (k_mem s) m' (p_pagetable pr) us (addr + i) (n - i) l rest k.
Proof.
  intros Ha Hn. induction fuel as [|fuel IH]; intros i s q l Hp Hinv Hhigh Hq Hqu Hl Hi Hf; [lia|].
  cbn [mloop]. unfold piperead_body at 1. destruct (Z.ltb_spec i n) as [Hlt|Hge].
  2:{ exists 0, l, q, (k_mem s). rewrite Z.add_0_r, insert_id by done. split; [by destruct s|].
      split_and!; try done. apply read_post_0; [lia|left; lia]. }
  run (pipe_get_ok pi q s Hq). rewrite (queue_empty q l Hqu). case_bool_decide as E.
  { exists 0, l, q, (k_mem s). rewrite Z.add_0_r, insert_id by done. split; [by destruct s|].
    split_and!; try done. apply read_post_0; [lia|by right]. }
  destruct l as [|c l]; [done|]. destruct (queue_get q c l Hqu) as [-> Hqu']. apply Forall_cons in Hl as [Hc Hl].
  unfold pipe_mod. ksimp. set (s1 := set_k_pipes _ s).
  run (tab_get_ok k_procs me pr s1 (pp_proc _ _ _ Hp) : proc_get me s1 = _).
  replace (u64 (addr + i)) with (addr + i) by (unfold u64; lia).
  destruct (copyout_run (p_pagetable pr) fl us (fun _ => c) (addr + i) 1 s1) as (r & k & m1 & Hrun & Hinv1 & Hpost);
    [by apply (uvm_inv_ext s s1 fl); [| |apply Hinv|]|done|lia|lia|].
  run Hrun. pose proof Hpost as (Hk & Hw & Hu & Hpt & Hfr & [[-> ->]|(-> & Hk1 & Hbad)]); cbn [Z.eqb Pos.eqb]; ksimp.
  - assert (uwritable (k_mem s) (p_pagetable pr) (addr + i) = true) as Hwr by (apply Hw; lia).
    assert (0 <= addr + i) as Hai by lia. destruct (uwritable_in _ _ _ _ _ Hinv Hhigh Hai Hwr) as [Hus _].
    destruct (IH (i + 1) (set_k_mem m1 s1) (pipe_advance q) l) as (k & rest & q' & m' & Hloop & Hq' & Hwo & Hro & Hrp);
      [by destruct Hp; split|done| |by cbn; rewrite lookup_alter_eq, Hq|done|done|lia|lia|].
    { intros va Hva. cbn. rewrite Hpt. by apply Hhigh. }
    exists (1 + k), rest, q', m'. split; [|split_and!; try done].
    + rewrite Hloop. unfold s1. cbn. rewrite insert_alter_same. replace (i + (1 + k)) with (i + 1 + k) by lia. reflexivity.
    + eapply read_post_S; [done|done|exact Hpost|]. replace (addr + i + 1) with (addr + (i + 1)) by lia.
      replace (n - i - 1) with (n - (i + 1)) by lia. exact Hrp.
  - assert (k = 0) as -> by lia. rewrite Z.add_0_r in Hbad.
    exists 0, l, (pipe_advance q), m1. rewrite Z.add_0_r. split; [|split_and!; try done].
    + unfold s1. by rewrite (alter_map_insert _ _ _ _ Hq).
    + split; [cbn; lia| |lia|done|].
      * intros x Hx. rewrite Hu by done.
        destruct (Z.leb_spec (addr + i) x), (Z.ltb_spec x (addr + i + 0)); cbn [andb]; try done; lia.
      * right. cbn [length]. split; [done|]. split; [lia|]. split; [lia|]. by rewrite Z.add_0_r.
Qed.

(** [piperead] of a pipe that holds [l], or whose writers are gone. *)
Lemma piperead_run s pi addr n me pr us fl q l :
  piping s me pr -> Lpipe pi ∉ k_held s -> length (k_procs s) = Z.to_nat NPROC ->
  uvm_inv s fl (p_pagetable pr) us -> high_ok (k_mem s) (p_pagetable pr) ->
  0 <= addr -> addr + n < 2 ^ 64 -> 0 <= n ->
  k_pipes s !! pi = Some q -> queue q l -> Forall (fun c => 0 <= c < 256) l -> l <> [] \/ pi_writeopen q = false ->
  exists k rest q' m' ps,
    piperead pi addr n s = Ok k (set_k_procs ps (set_k_mem m' (set_k_pipes (<[pi := q']> (k_pipes s)) s))) /\
    ps = wake_all (Some me) (Cpipewrite pi) (k_procs s) /\
    queue q' rest /\ pi_writeopen q' = pi_writeopen q /\ pi_readopen q' = pi_readopen q /\
    read_post (k_mem s) m' (p_pagetable pr) us addr n l rest k.
Proof.
  intros Hp Hl Hnp Hinv Hhigh Ha Hb Hn Hq Hqu Hby Hne. unfold piperead.
  assert (curproc s = Ok me s) as Hcur by (unfold curproc, myproc; rewrite bind_gets, (pp_cur _ _ _ Hp); done).
  run Hcur. run (acquire_ok _ _ Hl). set (s1 := set_k_held _ s).
  assert (no_plock (k_held s1)) as Hnl.
  { intros k [E|Hin]%elem_of_cons; [done|]. by apply (pp_plock _ _ _ Hp k). }
  assert (piperead_wait pi me tt s1 = Ok (inr true) s1) as Hwait.
  { unfold piperead_wait. run (pipe_get_ok pi q s1 Hq). rewrite (queue_empty q l Hqu).
    destruct Hne as [Hne| ->]; [by rewrite bool_decide_false|by rewrite andb_false_r]. }
  run (mloop_exit _ _ _ _ _ _ Hwait). cbn [negb].
  destruct (piperead_loop pi addr n me pr us fl Ha Hb (S (Z.to_nat n)) 0 s1 q l)
    as (k & rest & q' & m' & Hloop & Hq' & Hwo & Hro & Hrp); try done; [by destruct Hp; split| |lia|].
  { apply (uvm_inv_ext s s1 fl); [done|done| |done]. intros [E|Hin]%elem_of_cons; [done|].
    by apply (vm_held _ _ _ _ (uvm_vm _ _ _ _ Hinv)). }
  run Hloop. rewrite Z.add_0_l. rewrite Z.add_0_r, Z.sub_0_r in Hrp.
  exists k, rest, q', m', (wake_all (Some me) (Cpipewrite pi) (k_procs s)).
  set (s2 := set_k_mem _ _). run (wakeup_run (Cpipewrite pi) s2 Hnl Hnp). set (s3 := set_k_procs _ s2).
  run (release_ok (Lpipe pi) s3 (k_held s) eq_refl Hl).
  split; [|done]. unfold ret, s3, s2, s1. cbn. rewrite (pp_cur _ _ _ Hp). by destruct s.
Qed.

End pipe.
