(* ===== verification/PipeClaims.v ===== *)
(** * The properties of pipes (kernel/pipe.c) *)

From S2P Require Import Prelude Riscv Mem Cstring State Sched SchedSpec Kalloc PageTable Vm VmSpec Uvm UvmGrow UvmIo BioLocks Pipe PipeSpec Sample SampleFs.

Section claims.
Context {EN : Env} {KI : KernelImage}.

(** [pipewrite] of bytes that fit appends them to the pipe's queue, in order,
    and wakes the readers.  It stops before the first byte of the source that
    user code could not read itself, and returns how many bytes it queued. *)
Theorem pipewrite_appends s pi addr n me pr q l :
  piping s me pr -> Lpipe pi ∉ k_held s -> length (k_procs s) = Z.to_nat NPROC ->
  tree_ok (k_mem s) 2 (p_pagetable pr) -> 0 <= addr -> addr + n < 2 ^ 64 -> 0 <= n ->
  k_pipes s !! pi = Some q -> queue q l -> pi_readopen q = true -> Z.of_nat (length l) + n <= PIPESIZE ->
  exists j q' ps, pipewrite pi addr n s = Ok j (set_k_procs ps (set_k_pipes (<[pi := q']> (k_pipes s)) s)) /\
    ps = wake_all (Some me) (Cpiperead pi) (k_procs s) /\ 0 <= j <= n /\
    queue q' (l ++ ubytes (k_mem s) (p_pagetable pr) addr j) /\
    pi_readopen q' = true /\ pi_writeopen q' = pi_writeopen q /\
    (j < n -> ureadable (k_mem s) (p_pagetable pr) (addr + j) = false).
Proof. apply pipewrite_run. Qed.

(** [piperead] of a pipe that holds bytes, or has no writer left, takes the
    oldest bytes off the queue, at most [n], stores them at [addr] in order,
    touches no other byte of the process and wakes the writers; with an empty
    queue and no writer it returns 0. *)
Theorem piperead_takes s pi addr n me pr us fl q l :
  piping s me pr -> Lpipe pi ∉ k_held s -> length (k_procs s) = Z.to_nat NPROC ->
  uvm_inv s fl (p_pagetable pr) us -> high_ok (k_mem s) (p_pagetable pr) ->
  0 <= addr -> addr + n < 2 ^ 64 -> 0 <= n ->
  k_pipes s !! pi = Some q -> queue q l -> Forall (fun c => 0 <= c < 256) l -> l <> [] \/ pi_writeopen q = false ->
  exists k rest q' m' ps,
    piperead pi addr n s = Ok k (set_k_procs ps (set_k_mem m' (set_k_pipes (<[pi := q']> (k_pipes s)) s))) /\
    ps = wake_all (Some me) (Cpipewrite pi) (k_procs s) /\
    queue q' rest /\ pi_writeopen q' = pi_writeopen q /\ pi_readopen q' = pi_readopen q /\
    read_post (k_mem s) m' (p_pagetable pr) us addr n l rest k.
Proof. apply piperead_run. Qed.

(** C38: a read from a pipe into memory the process cannot write returns 0, as at
    end of file, and the byte it could not deliver is gone from the pipe. *)
Theorem piperead_drops_byte s pi addr n me pr us fl q c l :
  piping s me pr -> Lpipe pi ∉ k_held s -> length (k_procs s) = Z.to_nat NPROC ->
  uvm_inv s fl (p_pagetable pr) us -> high_ok (k_mem s) (p_pagetable pr) ->
  0 <= addr -> addr + n < 2 ^ 64 -> 0 < n ->
  k_pipes s !! pi = Some q -> queue q (c :: l) -> Forall (fun c => 0 <= c < 256) (c :: l) ->
  uwritable (k_mem s) (p_pagetable pr) addr = false ->
  exists q' s', piperead pi addr n s = Ok 0 s' /\ k_pipes s' !! pi = Some q' /\ queue q' l.
Proof.
  intros Hp Hl Hnp Hinv Hhigh Ha Hb Hn Hq Hqu Hby Hbad.
  destruct (piperead_run s pi addr n me pr us fl q (c :: l)) as (k & rest & q' & m' & ps & Hrun & _ & Hq' & _ & _ & Hrp);
    try done; [lia|by left|].
  destruct Hrp as [Hk _ Hw _ Hrest].
  assert (k = 0) as ->.
  { destruct (decide (k = 0)) as [|Hne]; [done|]. rewrite Hw in Hbad by lia. done. }
  exists q'. eexists. split; [exact Hrun|]. split; [cbn; apply lookup_insert_eq|].
  destruct Hrest as [[_ [H|H]]|(-> & _)]; [lia|cbn in H; lia|done].
Qed.

(** C30: what goes in comes out.  [n] readable bytes at [src] written to an empty
    pipe and read back to writable memory at [dst] arrive there unchanged and in
    order, and the pipe is empty again. *)
Theorem pipe_roundtrip s pi src dst n me pr us fl q :
  piping s me pr -> Lpipe pi ∉ k_held s -> length (k_procs s) = Z.to_nat NPROC ->
  uvm_inv s fl (p_pagetable pr) us -> high_ok (k_mem s) (p_pagetable pr) ->
  0 <= src -> src + n < 2 ^ 64 -> 0 <= dst -> dst + n < 2 ^ 64 -> 0 < n <= PIPESIZE ->
  k_pipes s !! pi = Some q -> queue q [] -> pi_readopen q = true ->
  (forall x, src <= x < src + n -> ureadable (k_mem s) (p_pagetable pr) x = true) ->
  (forall x, dst <= x < dst + n -> uwritable (k_mem s) (p_pagetable pr) x = true) ->
  exists s1 s2 q2, pipewrite pi src n s = Ok n s1 /\ piperead pi dst n s1 = Ok n s2 /\
    k_pipes s2 !! pi = Some q2 /\ queue q2 [] /\
    forall i, 0 <= i < n -> uread (k_mem s2) (p_pagetable pr) (dst + i) = uread (k_mem s) (p_pagetable pr) (src + i).
Proof.
  intros Hp Hl Hnp Hinv Hhigh Hs1 Hs2 Hd1 Hd2 Hn Hq Hqu Hro Hr Hw. set (root := p_pagetable pr) in *.
  pose proof (vm_tree _ _ _ _ (uvm_vm _ _ _ _ Hinv)) as Ht.
  destruct (pipewrite_run s pi src n me pr q []) as (j & q1 & ps & Hrun1 & -> & Hj & Hq1 & Hro1 & Hwo1 & Hst);
    try done; [lia|cbn; lia|].
  assert (j = n) as -> by (destruct (decide (j = n)); [done|]; rewrite Hr in Hst by lia; by discriminate Hst; lia).
  set (s1 := set_k_procs _ _) in Hrun1. fold root in Hq1. cbn [app] in Hq1.
  set (l := ubytes (k_mem s) root src n) in *.
  assert (length l = Z.to_nat n) as Hlen by apply ubytes_length.
  destruct (piperead_run s1 pi dst n me pr us fl q1 l) as (k & rest & q2 & m' & ps & Hrun2 & _ & Hq2 & _ & _ & Hrp).
  - destruct Hp as [P1 P2 P3 P4]. split; try done. cbn.
    by rewrite (wk_me _ _ _ (wake_all_woken me (Cpiperead pi) (k_procs s))).
  - done.
  - cbn. by rewrite wake_all_length.
  - apply (uvm_inv_ext s s1 fl); [done|done|apply Hinv|done].
  - done.
  - done.
  - done.
  - lia.
  - cbn. apply lookup_insert_eq.
  - done.
  - apply List.Forall_forall. intros c (x & <- & _)%in_map_iff. apply load8_range.
  - left. intros E. rewrite E in Hlen. cbn in Hlen. lia.
  - destruct Hrp as [Hk Hmem _ _ Hrest].
    assert (k = n /\ rest = []) as [-> ->].
    { destruct Hrest as [[-> [->| ->]]|(_ & Hk1 & _ & Hbad)].
      - split; [done|]. apply drop_ge. lia.
      - split; [lia|]. apply drop_ge. lia.
      - exfalso. change (uwritable (k_mem s) root (dst + k) = false) in Hbad. rewrite Hw in Hbad by lia. done. }
    eexists s1, _, q2. split; [exact Hrun1|]. split; [exact Hrun2|]. split; [cbn; apply lookup_insert_eq|]. split; [done|].
    intros i Hi. cbn. fold root. rewrite Hmem.
    + replace ((dst <=? dst + i) && (dst + i <? dst + n)) with true by (symmetry; zdec; try done; lia).
      replace (dst + i - dst) with i by lia. unfold l, ubytes.
      rewrite (nth_lookup_Some _ _ _ (uread (k_mem s) root (src + i))); [done|].
      unfold ubytes. rewrite list_lookup_fmap, lookup_seqZ_lt by lia. cbn. do 2 f_equal. lia.
    + assert (uwritable (k_mem s) root (dst + i) = true) as Hwi by (apply Hw; lia).
      assert (0 <= dst + i) as Hpos by lia. by destruct (uwritable_in _ _ _ _ _ Hinv Hhigh Hpos Hwi).
Qed.

End claims.

(** A process with two pages of memory and an empty pipe. *)
Definition pipe_page : Z := 0x80040000.
Definition pipe_proc : proc := set_p_pagetable sample_root sample_proc.
Definition pipe0_q : pipe := mk_pipe (replicate 512 5) 0 0 true true.
Definition with_pipe (q : pipe) (s : kstate) : kstate :=
  set_k_pipes {[pipe_page := q]}
    (set_k_cur (Some 0%nat) (set_k_procs (<[0%nat := pipe_proc]> (replicate 64 zero_proc)) (set_k_held [] s))).

Lemma with_pipe_piping q s : piping (with_pipe q s) 0 pipe_proc.
Proof. split; try done. intros i H. by apply elem_of_nil in H. Qed.

Lemma with_pipe_mem q s : k_mem (with_pipe q s) = k_mem s.
Proof. reflexivity. Qed.
Lemma with_pipe_held q s l : l ∉ k_held (with_pipe q s).
Proof. apply not_elem_of_nil. Qed.
Lemma with_pipe_nproc q s : length (k_procs (with_pipe q s)) = Z.to_nat NPROC.
Proof. reflexivity. Qed.
Lemma with_pipe_pipe q s : k_pipes (with_pipe q s) !! pipe_page = Some q.
Proof. apply lookup_singleton_eq. Qed.

Lemma with_pipe_uvm q s l root us : uvm_inv s l root us -> uvm_inv (with_pipe q s) l root us.
Proof. apply uvm_inv_ext; [reflexivity|reflexivity|apply with_pipe_held]. Qed.

Definition pipe0 : kstate := with_pipe pipe0_q sample1.

Lemma new_pipe_queue : queue pipe0_q [].
Proof. by split. Qed.

Lemma sample1_readable x : x = 100 \/ x = 101 -> ureadable (k_mem sample1) sample_root x = true.
Proof. intros [-> | ->]; vm_compute; reflexivity. Qed.

Lemma sample1_writable x : x = 4095 \/ x = 4096 -> uwritable (k_mem sample1) sample_root x = true.
Proof. intros [-> | ->]; vm_compute; reflexivity. Qed.

Lemma pipe_witness : exists s1 s2 q2,
  pipewrite pipe_page 100 2 pipe0 = Ok 2 s1 /\ piperead pipe_page 4095 2 s1 = Ok 2 s2 /\
  k_pipes s2 !! pipe_page = Some q2 /\ queue q2 [] /\
  forall i, 0 <= i < 2 -> uread (k_mem s2) sample_root (4095 + i) = uread (k_mem pipe0) sample_root (100 + i).
Proof.
  destruct sample1_uvm as (l & m & f & _ & H & _).
  apply (pipe_roundtrip pipe0 pipe_page 100 4095 2 0 pipe_proc (seqZ 0 2) l pipe0_q).
  - exact (with_pipe_piping pipe0_q sample1).
  - exact (with_pipe_held pipe0_q sample1 _).
  - exact (with_pipe_nproc pipe0_q sample1).
  - exact (with_pipe_uvm pipe0_q sample1 l sample_root (seqZ 0 2) H).
  - unfold pipe0. rewrite with_pipe_mem. exact sample1_high.
  - lia.
  - lia.
  - lia.
  - lia.
  - unfold PIPESIZE. lia.
  - exact (with_pipe_pipe pipe0_q sample1).
  - exact new_pipe_queue.
  - reflexivity.
  - intros x Hx. unfold pipe0. rewrite with_pipe_mem. apply sample1_readable. lia.
  - intros x Hx. unfold pipe0. rewrite with_pipe_mem. apply sample1_writable. lia.
Defined.

Lemma pipewrite_witness : exists j q' ps,
  pipewrite pipe_page 100 2 pipe0 = Ok j (set_k_procs ps (set_k_pipes (<[pipe_page := q']> (k_pipes pipe0)) pipe0)) /\
  0 <= j <= 2 /\ queue q' ([] ++ ubytes (k_mem pipe0) sample_root 100 j).
Proof.
  destruct sample1_uvm as (l & m & f & _ & H & _).
  destruct (pipewrite_appends pipe0 pipe_page 100 2 0 pipe_proc pipe0_q [])
    as (j & q' & ps & Hrun & _ & Hj & Hq & _).
  - exact (with_pipe_piping pipe0_q sample1).
  - exact (with_pipe_held pipe0_q sample1 _).
  - exact (with_pipe_nproc pipe0_q sample1).
  - exact (vm_tree _ _ _ _ (uvm_vm _ _ _ _ (with_pipe_uvm pipe0_q sample1 l sample_root (seqZ 0 2) H))).
  - lia.
  - lia.
  - lia.
  - exact (with_pipe_pipe pipe0_q sample1).
  - exact new_pipe_queue.
  - reflexivity.
  - unfold PIPESIZE. cbn. lia.
  - exists j, q', ps. split; [exact Hrun|]. split; [exact Hj|exact Hq].
Defined.

(** The same pipe with one byte in it. *)
Definition pipe1_q : pipe := pipe_put 65 pipe0_q.
Definition pipe1 : kstate := with_pipe pipe1_q sample1.

Lemma pipe1_queue : queue pipe1_q [65].
Proof. apply (queue_put _ [] 65); [exact new_pipe_queue|reflexivity|lia]. Qed.

Lemma piperead_witness : exists k rest q' m' ps,
  piperead pipe_page 4095 2 pipe1 =
    Ok k (set_k_procs ps (set_k_mem m' (set_k_pipes (<[pipe_page := q']> (k_pipes pipe1)) pipe1))) /\
  queue q' rest /\ read_post (k_mem pipe1) m' sample_root (seqZ 0 2) 4095 2 [65] rest k.
Proof.
  destruct sample1_uvm as (l & m & f & _ & H & _).
  destruct (piperead_takes pipe1 pipe_page 4095 2 0 pipe_proc (seqZ 0 2) l pipe1_q [65])
    as (k & rest & q' & m' & ps & Hrun & _ & Hq & _ & _ & Hp).
  - exact (with_pipe_piping pipe1_q sample1).
  - exact (with_pipe_held pipe1_q sample1 _).
  - exact (with_pipe_nproc pipe1_q sample1).
  - exact (with_pipe_uvm pipe1_q sample1 l sample_root (seqZ 0 2) H).
  - unfold pipe1. rewrite with_pipe_mem. exact sample1_high.
  - lia.
  - lia.
  - lia.
  - exact (with_pipe_pipe pipe1_q sample1).
  - exact pipe1_queue.
  - constructor; [lia|constructor].
  - left. discriminate.
  - exists k, rest, q', m', ps. split; [exact Hrun|]. split; [exact Hq|exact Hp].
Defined.

Lemma piperead_drops_witness : exists q' s',
  piperead pipe_page 0x3fffffe000 1 pipe1 = Ok 0 s' /\ k_pipes s' !! pipe_page = Some q' /\ queue q' [].
Proof.
  destruct sample1_uvm as (l & m & f & _ & H & _).
  apply (piperead_drops_byte pipe1 pipe_page 0x3fffffe000 1 0 pipe_proc (seqZ 0 2) l pipe1_q 65 []).
  - exact (with_pipe_piping pipe1_q sample1).
  - exact (with_pipe_held pipe1_q sample1 _).
  - exact (with_pipe_nproc pipe1_q sample1).
  - exact (with_pipe_uvm pipe1_q sample1 l sample_root (seqZ 0 2) H).
  - unfold pipe1. rewrite with_pipe_mem. exact sample1_high.
  - lia.
  - lia.
  - lia.
  - exact (with_pipe_pipe pipe1_q sample1).
  - exact pipe1_queue.
  - constructor; [lia|constructor].
  - unfold pipe1. rewrite with_pipe_mem. vm_compute. reflexivity.
Defined.
