(* ===== verification/File.v ===== *)
(** * kernel/file.c, and [pipealloc] of kernel/pipe.c

    A pointer to an open file is an index into [k_ftable]. *)

From S2P Require Import Prelude Riscv Mem Cstring State Sched Uart Bio Log Kalloc Vm Fs Console Pipe.

Definition file_get (f : nat) : M kstate file := tab_get k_ftable f.
Definition file_mod (f : nat) (g : file -> file) : M kstate unit :=
  modify (fun s => set_k_ftable (alter g f (k_ftable s)) s).

Definition filealloc : M kstate (option nat) :=
  acquire Lftable ;;;
  let! t := gets k_ftable in
  match list_find (fun f => f_ref f = 0) t with
  | Some (i, _) =>
      file_mod i (set_f_ref 1) ;;;
      release Lftable ;;;
      ret (Some i)
  | None => release Lftable ;;; ret None
  end.

Definition filedup (f : nat) : M kstate nat :=
  acquire Lftable ;;;
  let! x := file_get f in
  panic_if (f_ref x <? 1) "filedup" ;;;
  file_mod f (set_f_ref (f_ref x + 1)) ;;;
  release Lftable ;;;
  ret f.

(** [struct stat] as [copyout] sees it: [dev] at 0, [ino] at 4, [type] at 8,
    [nlink] at 10, [size] at 16; the four bytes of padding at 12 are whatever
    the stack held. *)
Definition stat_bytes (st : stat) (pad : cptr) : cptr := fun i =>
  if i <? 4 then load8 (store32 (fun _ => 0) 0 (u32 (st_dev st))) i
  else if i <? 8 then load8 (store32 (fun _ => 0) 4 (st_ino st)) i
  else if i <? 10 then load8 (store16 (fun _ => 0) 8 (u16 (st_type st))) i
  else if i <? 12 then load8 (store16 (fun _ => 0) 10 (u16 (st_nlink st))) i
  else if i <? 16 then pad i
  else load8 (store64 (fun _ => 0) 16 (st_size st)) i.

Section file.
Context {EN : Env} {KI : KernelImage}.

Definition fileclose (f : nat) : M kstate unit :=
  acquire Lftable ;;;
  let! x := file_get f in
  panic_if (f_ref x <? 1) "fileclose" ;;;
  file_mod f (set_f_ref (f_ref x - 1)) ;;;
  if 0 <? f_ref x - 1 then release Lftable
  else
    file_mod f (set_f_ref 0) ;;;
    file_mod f (set_f_type FD_NONE) ;;;
    release Lftable ;;;
    match f_type x with
    | FD_PIPE => pipeclose (f_pipe x) (f_writable x)
    | FD_INODE | FD_DEVICE =>
        begin_op ;;;
        match f_ip x with Some ip => iput ip | None => fault "ip is null" end ;;;
        end_op
    | FD_NONE => ret tt
    end.

(** The part of [pipealloc] behind the label [bad]. *)
Definition pipealloc_bad (f0 f1 : option nat) : M kstate (option (nat * nat)) :=
  match f0 with Some f => fileclose f | None => ret tt end ;;;
  match f1 with Some f => fileclose f | None => ret tt end ;;;
  ret None.

Definition new_pipe : pipe := mk_pipe (replicate (Z.to_nat PIPESIZE) 5) 0 0 true true.

(** The two files, [None] for a return of -1. *)
Definition pipealloc : M kstate (option (nat * nat)) :=
  let! f0 := filealloc in
  match f0 with
  | None => pipealloc_bad None None
  | Some a =>
      let! f1 := filealloc in
      match f1 with
      | None => pipealloc_bad (Some a) None
      | Some b =>
          let! pi := kalloc in
          if pi =? 0 then pipealloc_bad (Some a) (Some b)
          else
            modify (fun s => set_k_pipes (<[pi := new_pipe]> (k_pipes s)) s) ;;;
            file_mod a (fun f => set_f_pipe pi (set_f_writable false (set_f_readable true (set_f_type FD_PIPE f)))) ;;;
            file_mod b (fun f => set_f_pipe pi (set_f_writable true (set_f_readable false (set_f_type FD_PIPE f)))) ;;;
            ret (Some (a, b))
      end
  end.

Definition filestat (f : nat) (addr : Z) (pad : cptr) : M kstate Z :=
  let! p := curproc in
  let! pr := proc_get p in
  let! x := file_get f in
  match f_type x with
  | FD_INODE | FD_DEVICE =>
      ilock (f_ip x) ;;;
      match f_ip x with
      | None => fault "ip is null"
      | Some ip =>
          let! st := stati ip in
          iunlock (Some ip) ;;;
          let! r := copyout (p_pagetable pr) addr (stat_bytes st pad) 24 in
          if r <? 0 then ret (-1) else ret 0
      end
  | _ => ret (-1)
  end.

(** [devsw] has one device with [read] and [write], the console. *)
Definition has_device (major : Z) : bool := (0 <=? major) && (major <? NDEV) && (major =? CONSOLE).

Definition fileread (f : nat) (addr n : Z) : M kstate Z :=
  let! x := file_get f in
  if negb (f_readable x) then ret (-1)
  else
    match f_type x with
    | FD_PIPE => piperead (f_pipe x) addr n
    | FD_DEVICE =>
        if negb (has_device (f_major x)) then ret (-1)
        else consoleread (ToUser addr) n
    | FD_INODE =>
        ilock (f_ip x) ;;;
        match f_ip x with
        | None => fault "ip is null"
        | Some ip =>
            let! ' (r, _) := readi ip (ToUser addr) (f_off x) (u32 n) in
            let r := s32 r in
            when (0 <? r) (file_mod f (fun x => set_f_off (u32 (f_off x + r)) x)) ;;;
            iunlock (Some ip) ;;;
            ret r
        end
    | FD_NONE => panic "fileread"
    end.

(** [((MAXOPBLOCKS-1-1-2) / 2) * BSIZE] *)
Definition FILEWRITE_MAX : Z := (MAXOPBLOCKS - 1 - 1 - 2) / 2 * BSIZE.

Definition filewrite_body (f ip : nat) (addr n : Z) (i : Z) : M kstate (Z + Z) :=
  if i <? n then
    let n1 := Z.min (n - i) FILEWRITE_MAX in
    begin_op ;;;
    ilock (Some ip) ;;;
    let! x := file_get f in
    let! r := writei ip (FromUser (u64 (addr + i))) (f_off x) n1 in
    when (0 <? r) (file_mod f (fun x => set_f_off (u32 (f_off x + r)) x)) ;;;
    iunlock (Some ip) ;;;
    end_op ;;;
    if negb (r =? n1) then ret (inr i) else ret (inl (i + r))
  else ret (inr i).

Definition filewrite (f : nat) (addr n : Z) : M kstate Z :=
  let! x := file_get f in
  if negb (f_writable x) then ret (-1)
  else
    match f_type x with
    | FD_PIPE => pipewrite (f_pipe x) addr n
    | FD_DEVICE =>
        if negb (has_device (f_major x)) then ret (-1)
        else consolewrite (FromUser addr) n
    | FD_INODE =>
        match f_ip x with
        | None => fault "ip is null"
        | Some ip =>
            let! i := mloop (S (Z.to_nat (n / FILEWRITE_MAX + 1))) (filewrite_body f ip addr n) 0 in
            ret (if i =? n then n else -1)
        end
    | FD_NONE => panic "filewrite"
    end.

End file.
