(* ===== verification/Proc.v ===== *)
(** * kernel/proc.c: the life of a process

    Allocation, [fork], [exit], [wait] and the sizes of user memory.  The
    trapframe of a process is a page of physical memory; its fields are at the
    offsets of [struct trapframe]. *)

From S2P Require Import Prelude Riscv Mem Cstring State Sched Uart Bio Log Kalloc Vm Fs Console Pipe File.

(** ** The trapframe (proc.h) *)

Definition tf_kernel_satp : Z := 0.
Definition tf_kernel_sp : Z := 8.
Definition tf_kernel_trap : Z := 16.
Definition tf_epc : Z := 24.
Definition tf_kernel_hartid : Z := 32.
Definition tf_sp : Z := 48.
Definition tf_a0 : Z := 112.
Definition tf_a1 : Z := 120.
Definition tf_a7 : Z := 168.
Definition TRAPFRAME_SIZE : Z := 288.

(** [p->trapframe->field] *)
Definition tf_get (p : nat) (field : Z) : M kstate Z :=
  let! pr := proc_get p in
  nonnull (p_trapframe pr) ;;;
  let! m := mem_get in
  ret (load64 m (p_trapframe pr + field)).

Definition tf_set (p : nat) (field v : Z) : M kstate unit :=
  let! pr := proc_get p in
  nonnull (p_trapframe pr) ;;;
  mem_mod (fun m => store64 m (p_trapframe pr + field) v).

Definition procinit : M kstate unit :=
  mfor procs_idx (fun i =>
    proc_mod i (set_p_state UNUSED) ;;;
    proc_mod i (set_p_kstack (KSTACK (Z.of_nat i)))).

Definition allocpid : M kstate Z :=
  acquire Lpid ;;;
  let! pid := gets k_nextpid in
  modify (set_k_nextpid (s32 (pid + 1))) ;;;
  release Lpid ;;;
  ret pid.

Section proc.
Context {EN : Env} {KI : KernelImage}.

Definition proc_pagetable (p : nat) : M kstate Z :=
  let! pagetable := uvmcreate in
  if pagetable =? 0 then ret 0
  else
    let! r := mappages pagetable TRAMPOLINE PGSIZE trampoline (Z.lor PTE_R PTE_X) in
    if r <? 0 then uvmfree pagetable 0 ;;; ret 0
    else
      let! pr := proc_get p in
      let! r := mappages pagetable TRAPFRAME PGSIZE (p_trapframe pr) (Z.lor PTE_R PTE_W) in
      if r <? 0 then
        uvmunmap pagetable TRAMPOLINE 1 false ;;;
        uvmfree pagetable 0 ;;;
        ret 0
      else ret pagetable.

Definition proc_freepagetable (pagetable sz : Z) : M kstate unit :=
  uvmunmap pagetable TRAMPOLINE 1 false ;;;
  uvmunmap pagetable TRAPFRAME 1 false ;;;
  uvmfree pagetable sz.

Definition freeproc (p : nat) : M kstate unit :=
  let! pr := proc_get p in
  when (negb (p_trapframe pr =? 0)) (kfree (p_trapframe pr)) ;;;
  proc_mod p (set_p_trapframe 0) ;;;
  when (negb (p_pagetable pr =? 0)) (proc_freepagetable (p_pagetable pr) (p_sz pr)) ;;;
  proc_mod p (set_p_pagetable 0) ;;;
  proc_mod p (set_p_sz 0) ;;;
  proc_mod p (set_p_pid 0) ;;;
  proc_mod p (set_p_parent None) ;;;
  proc_mod p (fun pr => set_p_name (<[0%nat := 0]> (p_name pr)) pr) ;;;
  proc_mod p (set_p_chan Cnull) ;;;
  proc_mod p (set_p_killed 0) ;;;
  proc_mod p (set_p_xstate 0) ;;;
  proc_mod p (set_p_state UNUSED).

(** The first unused entry of the table, with its lock held. *)
Definition find_unused : M kstate (option nat) :=
  mfind procs_idx (fun p =>
    acquire (Lproc p) ;;;
    let! pr := proc_get p in
    if bool_decide (p_state pr = UNUSED) then ret (Some p)
    else release (Lproc p) ;;; ret None).

Definition zero_context : context := mk_context 0 0 (replicate 12 0).

Definition allocproc : M kstate (option nat) :=
  let! r := find_unused in
  match r with
  | None => ret None
  | Some p =>
      let! pid := allocpid in
      proc_mod p (set_p_pid pid) ;;;
      proc_mod p (set_p_state USED) ;;;
      let! tf := kalloc in
      proc_mod p (set_p_trapframe tf) ;;;
      if tf =? 0 then
        freeproc p ;;; release (Lproc p) ;;; ret None
      else
        let! pt := proc_pagetable p in
        proc_mod p (set_p_pagetable pt) ;;;
        if pt =? 0 then
          freeproc p ;;; release (Lproc p) ;;; ret None
        else
          proc_mod p (fun pr => set_p_context (set_ctx_sp (p_kstack pr + PGSIZE)
                                  (set_ctx_ra sym_forkret zero_context)) pr) ;;;
          ret (Some p)
  end.

Definition initcode : list Z :=
  [0x17; 0x05; 0x00; 0x00; 0x13; 0x05; 0x45; 0x02;
   0x97; 0x05; 0x00; 0x00; 0x93; 0x85; 0x35; 0x02;
   0x93; 0x08; 0x70; 0x00; 0x73; 0x00; 0x00; 0x00;
   0x93; 0x08; 0x20; 0x00; 0x73; 0x00; 0x00; 0x00;
   0xef; 0xf0; 0x9f; 0xff; 0x2f; 0x69; 0x6e; 0x69;
   0x74; 0x00; 0x00; 0x24; 0x00; 0x00; 0x00; 0x00;
   0x00; 0x00; 0x00; 0x00].

(** [safestrcpy(p->name, src, sizeof(p->name))] *)
Definition name_copy (old : list Z) (src : cptr) : list Z :=
  load_bytes (safestrcpy (at_list old) 0 src 16) 0 16.

Definition userinit : M kstate unit :=
  let! r := allocproc in
  modify (set_k_initproc r) ;;;
  match r with
  | None => fault "p is null"
  | Some p =>
      let! pr := proc_get p in
      uvmfirst (p_pagetable pr) initcode 52 ;;;
      proc_mod p (set_p_sz PGSIZE) ;;;
      tf_set p tf_epc 0 ;;;
      tf_set p tf_sp PGSIZE ;;;
      proc_mod p (fun pr => set_p_name (name_copy (p_name pr) (at_list (str_bytes "initcode"))) pr) ;;;
      let! cwd := namei [slash] in
      proc_mod p (set_p_cwd cwd) ;;;
      proc_mod p (set_p_state RUNNABLE) ;;;
      release (Lproc p)
  end.

Definition growproc (n : Z) : M kstate Z :=
  let! p := curproc in
  let! pr := proc_get p in
  let sz := p_sz pr in
  if 0 <? n then
    let! sz := uvmalloc (p_pagetable pr) sz (u64 (sz + n)) PTE_W in
    if sz =? 0 then ret (-1)
    else proc_mod p (set_p_sz sz) ;;; ret 0
  else if n <? 0 then
    let! sz := uvmdealloc (p_pagetable pr) sz (u64 (sz + n)) in
    proc_mod p (set_p_sz sz) ;;; ret 0
  else proc_mod p (set_p_sz sz) ;;; ret 0.

(** [np->ofile[i] = filedup(p->ofile[i])] for the descriptors in use. *)
Definition fork_files (p np : nat) : M kstate unit :=
  mfor (seq 0 (Z.to_nat NOFILE)) (fun i =>
    let! pr := proc_get p in
    match nth i (p_ofile pr) None with
    | None => ret tt
    | Some f =>
        let! f := filedup f in
        proc_mod np (fun n => set_p_ofile (<[i := Some f]> (p_ofile n)) n)
    end).

Definition fork : M kstate Z :=
  let! p := curproc in
  let! r := allocproc in
  match r with
  | None => ret (-1)
  | Some np =>
      let! pr := proc_get p in
      let! n := proc_get np in
      let! r := uvmcopy (p_pagetable pr) (p_pagetable n) (p_sz pr) in
      if r <? 0 then
        freeproc np ;;; release (Lproc np) ;;; ret (-1)
      else
        proc_mod np (set_p_sz (p_sz pr)) ;;;
        mem_mod (fun m => memmove m (p_trapframe n) (p_trapframe pr) TRAPFRAME_SIZE) ;;;
        tf_set np tf_a0 0 ;;;
        fork_files p np ;;;
        let! cwd := match p_cwd pr with Some i => idup i | None => fault "cwd is null" end in
        proc_mod np (set_p_cwd (Some cwd)) ;;;
        proc_mod np (fun n => set_p_name (name_copy (p_name n) (at_list (p_name pr))) n) ;;;
        let! n := proc_get np in
        let pid := p_pid n in
        release (Lproc np) ;;;
        acquire Lwait ;;;
        proc_mod np (set_p_parent (Some p)) ;;;
        release Lwait ;;;
        acquire (Lproc np) ;;;
        proc_mod np (set_p_state RUNNABLE) ;;;
        release (Lproc np) ;;;
        ret pid
  end.

Definition reparent (p : nat) : M kstate unit :=
  mfor procs_idx (fun pp =>
    let! c := proc_get pp in
    when (bool_decide (p_parent c = Some p))
      (let! init := gets k_initproc in
       proc_mod pp (set_p_parent init) ;;;
       wakeup (chan_of init))).

Definition exit_files (p : nat) : M kstate unit :=
  mfor (seq 0 (Z.to_nat NOFILE)) (fun fd =>
    let! pr := proc_get p in
    match nth fd (p_ofile pr) None with
    | None => ret tt
    | Some f =>
        fileclose f ;;;
        proc_mod p (fun pr => set_p_ofile (<[fd := None]> (p_ofile pr)) pr)
    end).

Definition exit (status : Z) : M kstate unit :=
  let! p := curproc in
  let! init := gets k_initproc in
  panic_if (bool_decide (Some p = init)) "init exiting" ;;;
  exit_files p ;;;
  begin_op ;;;
  let! pr := proc_get p in
  match p_cwd pr with Some i => iput i | None => fault "cwd is null" end ;;;
  end_op ;;;
  proc_mod p (set_p_cwd None) ;;;
  acquire Lwait ;;;
  reparent p ;;;
  let! pr := proc_get p in
  wakeup (chan_of (p_parent pr)) ;;;
  acquire (Lproc p) ;;;
  proc_mod p (set_p_xstate status) ;;;
  proc_mod p (set_p_state ZOMBIE) ;;;
  release Lwait ;;;
  sched ;;;
  panic "zombie exit".

(** The scan of [wait]: whether there are children, and the result once a
    zombie has been dealt with. *)
Fixpoint wait_scan (p : nat) (addr : Z) (l : list nat) (havekids : bool) : M kstate (bool * option Z) :=
  match l with
  | [] => ret (havekids, None)
  | pp :: l' =>
      let! c := proc_get pp in
      if bool_decide (p_parent c = Some p) then
        acquire (Lproc pp) ;;;
        let! c := proc_get pp in
        if bool_decide (p_state c = ZOMBIE) then
          let! pr := proc_get p in
          let! r := (if addr =? 0 then ret 0
                     else copyout (p_pagetable pr) addr
                            (at_mem (store32 (fun _ => 0) 0 (u32 (p_xstate c))) 0) 4) in
          if r <? 0 then
            release (Lproc pp) ;;; release Lwait ;;; ret (true, Some (-1))
          else
            freeproc pp ;;; release (Lproc pp) ;;; release Lwait ;;; ret (true, Some (p_pid c))
        else release (Lproc pp) ;;; wait_scan p addr l' true
      else wait_scan p addr l' havekids
  end.

Definition wait_body (p : nat) (addr : Z) (_ : unit) : M kstate (unit + Z) :=
  let! ' (havekids, r) := wait_scan p addr procs_idx false in
  match r with
  | Some r => ret (inr r)
  | None =>
      let! k := (if havekids : bool then killed p else ret 1) in
      if negb (k =? 0) then release Lwait ;;; ret (inr (-1))
      else sleep (Cproc p) Lwait ;;; ret (inl tt)
  end.

Definition wait (addr : Z) : M kstate Z :=
  let! p := curproc in
  acquire Lwait ;;;
  let! moves := gets k_sched in
  mloop (S (length moves)) (wait_body p addr) tt.

End proc.
