(* ===== verification/CoreClaims.v ===== *)
(** * The properties of the buffer cache and of wakeup and kill *)

From S2P Require Import Prelude Riscv Mem State Spinlock Sched SchedSpec Kalloc Vm Bio BioLocks BioList Cache BioSpec Session Log LogSpec Uart Fs Console Pipe File Proc Sample SampleFs.


(** [binit] links the [NBUF] buffers into one circular list and leaves a
    cache in which every block of the disk reads as it is on the disk. *)
Theorem binit_correct dev s :
  length (k_bufs s) = S bhead -> unused_bufs dev (k_bufs s) ->
  exists bs, binit s = Ok tt (set_k_bufs bs s) /\ crep dev (set_k_bufs bs s) (fun b => idle (k_disk s b)).
Proof. apply binit_spec. Qed.

Lemma binit_witness : exists bs, binit fs0 = Ok tt (set_k_bufs bs fs0) /\
  crep 1 (set_k_bufs bs fs0) (fun b => idle (k_disk fs0 b)).
Proof. apply (binit_correct 1 fs0); [reflexivity|apply Forall_replicate; done]. Defined.

Lemma smp0_rel : lock_rel 0 true smp0 (k_held fs0).
Proof.
  split; [|intros l|constructor].
  - exists (mk_cpu 0 false true). repeat split.
  - split; [intros H; by apply elem_of_nil in H|done].
Qed.

(** Taking [ticks.lock] with no lock held. *)
Lemma spin_refines_witness :
  (exists m', spin_acquire 0 Lticks smp0 = Ok tt m' /\ lock_rel 0 true m' [Lticks]) /\
  spin_release 0 Lticks smp0 = Panic "release".
Proof. apply (spin_refines_sets 0 true smp0 fs0 Lticks smp0_rel). by left. Defined.

(** [wakeup] makes runnable exactly the processes that sleep on the channel,
    other than the caller, and changes nothing else of the state. *)
Theorem wakeup_exact c s :
  no_plock (k_held s) -> length (k_procs s) = Z.to_nat NPROC ->
  exists ps, wakeup c s = Ok tt (set_k_procs ps s) /\ length ps = length (k_procs s) /\
    forall i p, k_procs s !! i = Some p ->
      ps !! i = Some (if bool_decide (Some i <> k_cur s /\ p_state p = SLEEPING /\ p_chan p = c)
                      then set_p_state RUNNABLE p else p).
Proof.
  intros Hl Hn. exists (wake_all (k_cur s) c (k_procs s)). split; [by apply wakeup_run|].
  split; [apply wake_all_length|]. intros i p Hp. rewrite wake_all_lookup, Hp. cbn. f_equal. unfold wake.
  repeat case_bool_decide; try done; try tauto; naive_solver.
Qed.

Lemma wakeup_witness : exists ps, wakeup Cticks fs0 = Ok tt (set_k_procs ps fs0) /\ length ps = 64%nat /\
  forall i p, k_procs fs0 !! i = Some p ->
    ps !! i = Some (if bool_decide (Some i <> k_cur fs0 /\ p_state p = SLEEPING /\ p_chan p = Cticks)
                    then set_p_state RUNNABLE p else p).
Proof.
  apply (wakeup_exact Cticks fs0); [|reflexivity]. intros i H. by apply elem_of_nil in H.
Defined.

(** [kill] marks the first process with the given pid, wakes it if it
    sleeps and returns 0; with no such process it returns -1 and changes
    nothing. *)
Theorem kill_correct pid s :
  no_plock (k_held s) -> length (k_procs s) = Z.to_nat NPROC ->
  kill pid s =
    match list_find (fun p => p_pid p = pid) (k_procs s) with
    | Some (i, p) => Ok 0 (set_k_procs (<[i := kill_proc p]> (k_procs s)) s)
    | None => Ok (-1) s
    end.
Proof. apply kill_run. Qed.

Lemma kill_witness : kill 1 fs0 = Ok 0 (set_k_procs (<[0%nat := kill_proc sample_proc]> (k_procs fs0)) fs0).
Proof.
  apply (kill_correct 1 fs0); [|reflexivity]. intros i H. by apply elem_of_nil in H.
Defined.

(** One process, and free pages for another. *)
Definition proc0 : kstate :=
  set_k_nextpid 2 (set_k_cur (Some 0%nat) (set_k_procs (<[0%nat := sample_proc]> (replicate 64 zero_proc)) sample0)).


(** The 16 bytes of [printint]'s buffer are too few for the decimal numbers of
    [%ld] and [%lu]: a number of 17 digits is written past its end. *)
Lemma printint_overflows s : printint (10 ^ 16) 10 true s = Fault "printint: buf overflow".
Proof. reflexivity. Qed.
