(* ===== verification/Exec.v ===== *)
(** * kernel/exec.c *)

From S2P Require Import Prelude Riscv Mem Cstring State Sched Uart Bio Log Kalloc Vm Fs Console Pipe File Proc.

(** ** elf.h *)

Definition ELF_MAGIC : Z := 0x464C457F.
Definition ELF_PROG_LOAD : Z := 1.
Definition ELFHDR_SIZE : Z := 64.
Definition PROGHDR_SIZE : Z := 56.

Definition elf_magic (h : list Z) : Z := load32 (at_list h) 0.
Definition elf_entry (h : list Z) : Z := load64 (at_list h) 24.
Definition elf_phoff (h : list Z) : Z := load64 (at_list h) 32.
Definition elf_phnum (h : list Z) : Z := load16 (at_list h) 56.

Definition ph_type (h : list Z) : Z := load32 (at_list h) 0.
Definition ph_flags (h : list Z) : Z := load32 (at_list h) 4.
Definition ph_off (h : list Z) : Z := load64 (at_list h) 8.
Definition ph_vaddr (h : list Z) : Z := load64 (at_list h) 16.
Definition ph_filesz (h : list Z) : Z := load64 (at_list h) 32.
Definition ph_memsz (h : list Z) : Z := load64 (at_list h) 40.

Definition flags2perm (flags : Z) : Z :=
  let perm := if has flags 0x1 then PTE_X else 0 in
  if has flags 0x2 then Z.lor perm PTE_W else perm.

Section exec.
Context {EN : Env} {KI : KernelImage}.

Definition loadseg_body (pagetable va : Z) (ip : nat) (offset sz : Z) (i : Z) : M kstate (Z + Z) :=
  if i <? sz then
    let! pa := walkaddr pagetable (u64 (va + i)) in
    panic_if (pa =? 0) "loadseg: address should exist" ;;;
    let n := if sz - i <? PGSIZE then sz - i else PGSIZE in
    let! ' (r, _) := readi ip (ToMem pa) (u32 (offset + i)) n in
    if negb (r =? n) then ret (inr (-1)) else ret (inl (u32 (i + PGSIZE)))
  else ret (inr 0).

(** [i] is a [uint]: a segment whose last page wraps it would not end. *)
Definition loadseg (pagetable va : Z) (ip : nat) (offset sz : Z) : M kstate Z :=
  mloop (S (Z.to_nat (sz / PGSIZE + 1))) (loadseg_body pagetable va ip offset sz) 0.

(** One program header: the next [i], [off] and [sz], or [None] for [goto bad]. *)
Definition exec_segment (pagetable : Z) (ip : nat) (phnum : Z) (t : Z * Z * Z)
    : M kstate (Z * Z * Z + Z * bool) :=
  let '(i, off, sz) := t in
  let next := (i + 1, s32 (off + PROGHDR_SIZE)) in
  if i <? phnum then
    let! ' (r, ph) := readi ip ToVar (u32 off) PROGHDR_SIZE in
    if negb (r =? PROGHDR_SIZE) then ret (inr (sz, false))
    else if negb (ph_type ph =? ELF_PROG_LOAD) then ret (inl (next, sz))
    else if ph_memsz ph <? ph_filesz ph then ret (inr (sz, false))
    else if u64 (ph_vaddr ph + ph_memsz ph) <? ph_vaddr ph then ret (inr (sz, false))
    else if negb (ph_vaddr ph mod PGSIZE =? 0) then ret (inr (sz, false))
    else
      let! sz1 := uvmalloc pagetable sz (u64 (ph_vaddr ph + ph_memsz ph)) (flags2perm (ph_flags ph)) in
      if sz1 =? 0 then ret (inr (sz, false))
      else
        let! r := loadseg pagetable (ph_vaddr ph) ip (u32 (ph_off ph)) (u32 (ph_filesz ph)) in
        if r <? 0 then ret (inr (sz1, false)) else ret (inl (next, sz1))
  else ret (inr (sz, true)).

(** The strings are pages of the caller: at most [PGSIZE] bytes each. *)
Definition arg_strlen (a : Z) : M kstate Z :=
  let! m := mem_get in
  match strlen (Z.to_nat PGSIZE) (at_mem m a) with Some n => ret n | None => fault "strlen" end.

(** Push the strings; [argc], [sp] and [ustack] so far.  [None] is [goto bad]. *)
Fixpoint exec_args (pagetable stackbase : Z) (argv : list Z) (argc sp : Z) (ustack : list Z)
    : M kstate (option (Z * Z * list Z)) :=
  match argv with
  | [] => ret (Some (argc, sp, ustack))
  | a :: argv' =>
      if MAXARG <=? argc then ret None
      else
        let! n := arg_strlen a in
        let sp := u64 (sp - (n + 1)) in
        let sp := u64 (sp - sp mod 16) in
        if sp <? stackbase then ret None
        else
          let! m := mem_get in
          let! r := copyout pagetable sp (at_mem m a) (n + 1) in
          if r <? 0 then ret None
          else exec_args pagetable stackbase argv' (argc + 1) sp (ustack ++ [sp])
  end.

(** The bytes of an array of 64-bit words. *)
Definition words_at (ws : list Z) : cptr := fun i =>
  load8 (store64 (fun _ => 0) 0 (nth (Z.to_nat (i / 8)) ws 0)) (i mod 8).

(** What follows the last slash of [path]. *)
Fixpoint last_elem (path last : list Z) : list Z :=
  match path with
  | [] => last
  | c :: p' => last_elem p' (if c =? slash then p' else last)
  end.

(** The stack of the new image: [None] for [goto bad] once [ip] is 0. *)
Definition exec_stack (pagetable sz : Z) (argv : list Z) : M kstate (Z * option (Z * Z)) :=
  let sz := PGROUNDUP sz in
  let! sz1 := uvmalloc pagetable sz (u64 (sz + (USERSTACK + 1) * PGSIZE)) PTE_W in
  if sz1 =? 0 then ret (sz, None)
  else
    uvmclear pagetable (u64 (sz1 - (USERSTACK + 1) * PGSIZE)) ;;;
    let stackbase := u64 (sz1 - USERSTACK * PGSIZE) in
    let! r := exec_args pagetable stackbase argv 0 sz1 [] in
    match r with
    | None => ret (sz1, None)
    | Some (argc, sp, ustack) =>
        if MAXARG <=? argc then fault "ustack overflow"
        else
          let sp := u64 (sp - (argc + 1) * 8) in
          let sp := u64 (sp - sp mod 16) in
          if sp <? stackbase then ret (sz1, None)
          else
            let! r := copyout pagetable sp (words_at (ustack ++ [0])) ((argc + 1) * 8) in
            if r <? 0 then ret (sz1, None) else ret (sz1, Some (argc, sp))
    end.

Definition exec (path : list Z) (argv : list Z) : M kstate Z :=
  let! p := curproc in
  begin_op ;;;
  let! r := namei path in
  match r with
  | None => end_op ;;; ret (-1)
  | Some ip =>
      ilock (Some ip) ;;;
      let! ' (r, elf) := readi ip ToVar 0 ELFHDR_SIZE in
      let bad_ip := (iunlockput ip ;;; end_op ;;; ret (-1)) in
      if negb (r =? ELFHDR_SIZE) then bad_ip
      else if negb (elf_magic elf =? ELF_MAGIC) then bad_ip
      else
        let! pagetable := proc_pagetable p in
        if pagetable =? 0 then bad_ip
        else
          let! ' (sz, ok) := mloop (S (Z.to_nat (elf_phnum elf)))
                               (exec_segment pagetable ip (elf_phnum elf)) (0, s32 (elf_phoff elf), 0) in
          if negb ok then proc_freepagetable pagetable sz ;;; bad_ip
          else
            iunlockput ip ;;;
            end_op ;;;
            let! pr := proc_get p in
            let oldsz := p_sz pr in
            let! ' (sz, r) := exec_stack pagetable sz argv in
            match r with
            | None => proc_freepagetable pagetable sz ;;; ret (-1)
            | Some (argc, sp) =>
                tf_set p tf_a1 sp ;;;
                proc_mod p (fun pr => set_p_name (name_copy (p_name pr) (at_list (last_elem path path))) pr) ;;;
                let! pr := proc_get p in
                let oldpagetable := p_pagetable pr in
                proc_mod p (set_p_pagetable pagetable) ;;;
                proc_mod p (set_p_sz sz) ;;;
                tf_set p tf_epc (elf_entry elf) ;;;
                tf_set p tf_sp sp ;;;
                proc_freepagetable oldpagetable oldsz ;;;
                ret argc
            end
  end.

End exec.
