(* ===== verification/Syscall.v ===== *)
(** * System call arguments (kernel/syscall.c) and kernel/sysproc.c *)

From S2P Require Import Prelude Riscv Mem Cstring State Sched Uart Bio Log Kalloc Vm Fs Console Pipe File Proc Exec.

Section syscall.
Context {EN : Env} {KI : KernelImage}.

(** ** syscall.c: fetching arguments *)

(** The result and what is in [ip]. *)
Definition fetchaddr (addr : Z) : M kstate (Z * Z) :=
  let! p := curproc in
  let! pr := proc_get p in
  if (p_sz pr <=? addr) || (p_sz pr <? u64 (addr + 8)) then ret (-1, 0)
  else
    let! ' (r, bs) := copyin (p_pagetable pr) addr 8 in
    if negb (r =? 0) then ret (-1, 0) else ret (0, load64 (at_list bs) 0).

(** The result and the bytes that reached [buf]. *)
Definition fetchstr (addr max : Z) : M kstate (Z * list Z) :=
  let! p := curproc in
  let! pr := proc_get p in
  let! ' (r, bs) := copyinstr (p_pagetable pr) addr max in
  if r <? 0 then ret (-1, bs)
  else
    match strlen (S (length bs)) (at_list bs) with
    | Some n => ret (n, bs)
    | None => fault "strlen"
    end.

Definition argraw (n : Z) : M kstate Z :=
  let! p := curproc in
  if (0 <=? n) && (n <=? 5) then tf_get p (tf_a0 + 8 * n) else panic "argraw".

Definition argint (n : Z) : M kstate Z := let! v := argraw n in ret (s32 v).
Definition argaddr (n : Z) : M kstate Z := argraw n.
Definition argstr (n max : Z) : M kstate (Z * list Z) :=
  let! addr := argaddr n in fetchstr addr max.

(** An [int] result as the [uint64] a handler returns. *)
Definition ret_int (m : M kstate Z) : M kstate Z := let! r := m in ret (u64 r).

(** ** sysproc.c *)

Definition sys_exit : M kstate Z := let! n := argint 0 in exit n ;;; ret 0.

Definition sys_getpid : M kstate Z := ret_int mypid.

Definition sys_fork : M kstate Z := ret_int fork.

Definition sys_wait : M kstate Z := let! p := argaddr 0 in ret_int (wait p).

Definition sys_sbrk : M kstate Z :=
  let! n := argint 0 in
  let! p := curproc in
  let! pr := proc_get p in
  let! r := growproc n in
  if r <? 0 then ret (u64 (-1)) else ret (p_sz pr).

(** [ticks - ticks0 < n] compares as [uint]. *)
Definition sys_sleep_body (ticks0 n : Z) (_ : unit) : M kstate (unit + Z) :=
  let! ticks := gets k_ticks in
  if u32 (ticks - ticks0) <? n then
    let! p := curproc in
    let! k := killed p in
    if negb (k =? 0) then release Lticks ;;; ret (inr (u64 (-1)))
    else sleep Cticks Lticks ;;; ret (inl tt)
  else release Lticks ;;; ret (inr 0).

Definition sys_sleep : M kstate Z :=
  let! n := argint 0 in
  let n := if n <? 0 then 0 else n in
  acquire Lticks ;;;
  let! ticks0 := gets k_ticks in
  let! moves := gets k_sched in
  mloop (S (length moves)) (sys_sleep_body ticks0 n) tt.

Definition sys_kill : M kstate Z := let! pid := argint 0 in ret_int (kill pid).

Definition sys_uptime : M kstate Z :=
  acquire Lticks ;;;
  let! xticks := gets k_ticks in
  release Lticks ;;;
  ret xticks.

End syscall.
