(* ===== verification/Sysfile.v ===== *)
(** * kernel/sysfile.c, and the dispatch of kernel/syscall.c *)

From S2P Require Import Prelude Riscv Mem Cstring State Sched Uart Bio Log Kalloc Vm Fs Console Pipe File Proc Exec Syscall.

(** ** fcntl.h *)

Definition O_RDONLY : Z := 0x000.
Definition O_WRONLY : Z := 0x001.
Definition O_RDWR : Z := 0x002.
Definition O_CREATE : Z := 0x200.
Definition O_TRUNC : Z := 0x400.

Definition dot : list Z := [46].
Definition dotdot : list Z := [46; 46].

Section sysfile.
Context {EN : Env} {KI : KernelImage}.

(** The descriptor and the file, or [None] for -1. *)
Definition argfd (n : Z) : M kstate (option (Z * nat)) :=
  let! fd := argint n in
  if (fd <? 0) || (NOFILE <=? fd) then ret None
  else
    let! p := curproc in
    let! pr := proc_get p in
    match nth (Z.to_nat fd) (p_ofile pr) None with
    | None => ret None
    | Some f => ret (Some (fd, f))
    end.

(** [p->ofile[fd] = f] *)
Definition ofile_put (p : nat) (fd : Z) (f : option nat) : M kstate unit :=
  proc_mod p (fun pr => set_p_ofile (<[Z.to_nat fd := f]> (p_ofile pr)) pr).

Definition fdalloc (f : nat) : M kstate Z :=
  let! p := curproc in
  let! r := mfind (seqZ 0 NOFILE) (fun fd =>
    let! pr := proc_get p in
    match nth (Z.to_nat fd) (p_ofile pr) None with
    | None => ofile_put p fd (Some f) ;;; ret (Some fd)
    | Some _ => ret None
    end) in
  ret (default (-1) r).

Definition err : M kstate Z := ret (u64 (-1)).

Definition sys_dup : M kstate Z :=
  let! r := argfd 0 in
  match r with
  | None => err
  | Some (_, f) =>
      let! fd := fdalloc f in
      if fd <? 0 then err else filedup f ;;; ret fd
  end.

Definition sys_read : M kstate Z :=
  let! p := argaddr 1 in
  let! n := argint 2 in
  let! r := argfd 0 in
  match r with
  | None => err
  | Some (_, f) => ret_int (fileread f p n)
  end.

Definition sys_write : M kstate Z :=
  let! p := argaddr 1 in
  let! n := argint 2 in
  let! r := argfd 0 in
  match r with
  | None => err
  | Some (_, f) => ret_int (filewrite f p n)
  end.

Definition sys_close : M kstate Z :=
  let! r := argfd 0 in
  match r with
  | None => err
  | Some (fd, f) =>
      let! p := curproc in
      ofile_put p fd None ;;;
      fileclose f ;;;
      ret 0
  end.

(** [pad] is what the padding of the [struct stat] on the stack holds. *)
Definition sys_fstat (pad : cptr) : M kstate Z :=
  let! st := argaddr 1 in
  let! r := argfd 0 in
  match r with
  | None => err
  | Some (_, f) => ret_int (filestat f st pad)
  end.

(** [ip->nlink += d; iupdate(ip)] *)
Definition nlink_add (ip : nat) (d : Z) : M kstate unit :=
  inode_mod ip (fun i => set_i_nlink (s16 (i_nlink i + d)) i) ;;;
  iupdate ip.

(** [bad:] of [sys_link]. *)
Definition link_bad (ip : nat) : M kstate Z :=
  ilock (Some ip) ;;;
  nlink_add ip (-1) ;;;
  iunlockput ip ;;;
  end_op ;;;
  err.

Definition sys_link : M kstate Z :=
  let! ' (r, old) := argstr 0 MAXPATH in
  if r <? 0 then err
  else
    let! ' (r, new) := argstr 1 MAXPATH in
    if r <? 0 then err
    else
      begin_op ;;;
      let! r := namei (upto_nul old) in
      match r with
      | None => end_op ;;; err
      | Some ip =>
          ilock (Some ip) ;;;
          let! i := inode_get ip in
          if i_type i =? T_DIR then iunlockput ip ;;; end_op ;;; err
          else
            nlink_add ip 1 ;;;
            iunlock (Some ip) ;;;
            let! ' (r, name) := nameiparent (upto_nul new) in
            match r with
            | None => link_bad ip
            | Some dp =>
                ilock (Some dp) ;;;
                let! d := inode_get dp in
                let! i := inode_get ip in
                let! r := (if negb (i_dev d =? i_dev i) then ret (-1)
                           else dirlink dp (at_list name) (i_inum i)) in
                if r <? 0 then iunlockput dp ;;; link_bad ip
                else iunlockput dp ;;; iput ip ;;; end_op ;;; ret 0
            end
      end.

Definition isdirempty_body (dp : nat) (off : Z) : M kstate (Z + bool) :=
  let! d := inode_get dp in
  if off <? i_size d then
    let! ' (r, de) := readi dp ToVar off DIRENT_SIZE in
    panic_if (negb (r =? DIRENT_SIZE)) "isdirempty: readi" ;;;
    if negb (de_inum de =? 0) then ret (inr false) else ret (inl (off + DIRENT_SIZE))
  else ret (inr true).

Definition isdirempty (dp : nat) : M kstate bool :=
  let! d := inode_get dp in
  mloop (S (Z.to_nat (i_size d / DIRENT_SIZE + 1))) (isdirempty_body dp) (2 * DIRENT_SIZE).

(** [bad:] of [sys_unlink]. *)
Definition unlink_bad (dp : nat) : M kstate Z := iunlockput dp ;;; end_op ;;; err.

Definition sys_unlink : M kstate Z :=
  let! ' (r, path) := argstr 0 MAXPATH in
  if r <? 0 then err
  else
    begin_op ;;;
    let! ' (r, name) := nameiparent (upto_nul path) in
    match r with
    | None => end_op ;;; err
    | Some dp =>
        ilock (Some dp) ;;;
        if (namecmp (at_list name) (at_list dot) =? 0) || (namecmp (at_list name) (at_list dotdot) =? 0)
        then unlink_bad dp
        else
          let! r := dirlookup dp (at_list name) in
          match r with
          | None => unlink_bad dp
          | Some (ip, off) =>
              ilock (Some ip) ;;;
              let! i := inode_get ip in
              panic_if (i_nlink i <? 1) "unlink: nlink < 1" ;;;
              let! empty := (if i_type i =? T_DIR then isdirempty ip else ret true) in
              if negb empty then iunlockput ip ;;; unlink_bad dp
              else
                let! r := writei dp (FromKern (fun _ => 0)) off DIRENT_SIZE in
                panic_if (negb (r =? DIRENT_SIZE)) "unlink: writei" ;;;
                let! i := inode_get ip in
                when (i_type i =? T_DIR) (nlink_add dp (-1)) ;;;
                iunlockput dp ;;;
                nlink_add ip (-1) ;;;
                iunlockput ip ;;;
                end_op ;;;
                ret 0
          end
    end.

(** [fail:] of [create]. *)
Definition create_fail (ip dp : nat) : M kstate (option nat) :=
  inode_mod ip (set_i_nlink 0) ;;;
  iupdate ip ;;;
  iunlockput ip ;;;
  iunlockput dp ;;;
  ret None.

(** The entries of a new inode: its own [.] and [..], and its name in [dp]. *)
Definition create_links (ip dp : nat) (name : list Z) (type : Z) : M kstate (option nat) :=
  let! i := inode_get ip in
  let! d := inode_get dp in
  let! r := (if type =? T_DIR then
               let! r := dirlink ip (at_list dot) (i_inum i) in
               if r <? 0 then ret r else dirlink ip (at_list dotdot) (i_inum d)
             else ret 0) in
  if r <? 0 then create_fail ip dp
  else
    let! r := dirlink dp (at_list name) (i_inum i) in
    if r <? 0 then create_fail ip dp
    else
      when (type =? T_DIR) (nlink_add dp 1) ;;;
      iunlockput dp ;;;
      ret (Some ip).

Definition create (path : list Z) (type major minor : Z) : M kstate (option nat) :=
  let! ' (r, name) := nameiparent path in
  match r with
  | None => ret None
  | Some dp =>
      ilock (Some dp) ;;;
      let! r := dirlookup dp (at_list name) in
      match r with
      | Some (ip, _) =>
          iunlockput dp ;;;
          ilock (Some ip) ;;;
          let! i := inode_get ip in
          if (type =? T_FILE) && ((i_type i =? T_FILE) || (i_type i =? T_DEVICE)) then ret (Some ip)
          else iunlockput ip ;;; ret None
      | None =>
          let! d := inode_get dp in
          let! r := ialloc (i_dev d) type in
          match r with
          | None => iunlockput dp ;;; ret None
          | Some ip =>
              ilock (Some ip) ;;;
              inode_mod ip (fun i => set_i_nlink 1 (set_i_minor minor (set_i_major major i))) ;;;
              iupdate ip ;;;
              create_links ip dp name type
          end
      end
  end.

(** The inode [sys_open] opens, locked; [None] after [end_op] on an error. *)
Definition open_inode (path : list Z) (omode : Z) : M kstate (option nat) :=
  if has omode O_CREATE then
    let! r := create path T_FILE 0 0 in
    match r with
    | None => end_op ;;; ret None
    | Some ip => ret (Some ip)
    end
  else
    let! r := namei path in
    match r with
    | None => end_op ;;; ret None
    | Some ip =>
        ilock (Some ip) ;;;
        let! i := inode_get ip in
        if (i_type i =? T_DIR) && negb (omode =? O_RDONLY) then iunlockput ip ;;; end_op ;;; ret None
        else ret (Some ip)
    end.

(** The file and descriptor for it; the file is closed when there is no descriptor. *)
Definition open_fd : M kstate (option (nat * Z)) :=
  let! r := filealloc in
  match r with
  | None => ret None
  | Some f =>
      let! fd := fdalloc f in
      if fd <? 0 then fileclose f ;;; ret None else ret (Some (f, fd))
  end.

(** What [sys_open] puts into the new file. *)
Definition open_file (ip : nat) (i : inode) (omode : Z) (f : file) : file :=
  let f := if i_type i =? T_DEVICE then set_f_major (i_major i) (set_f_type FD_DEVICE f)
           else set_f_off 0 (set_f_type FD_INODE f) in
  set_f_writable (has omode O_WRONLY || has omode O_RDWR)
    (set_f_readable (negb (has omode O_WRONLY)) (set_f_ip (Some ip) f)).

Definition sys_open : M kstate Z :=
  let! omode := argint 1 in
  let! ' (r, path) := argstr 0 MAXPATH in
  if r <? 0 then err
  else
    begin_op ;;;
    let! r := open_inode (upto_nul path) omode in
    match r with
    | None => err
    | Some ip =>
        let! i := inode_get ip in
        if (i_type i =? T_DEVICE) && ((i_major i <? 0) || (NDEV <=? i_major i)) then
          iunlockput ip ;;; end_op ;;; err
        else
          let! r := open_fd in
          match r with
          | None => iunlockput ip ;;; end_op ;;; err
          | Some (f, fd) =>
              file_mod f (open_file ip i omode) ;;;
              when (has omode O_TRUNC && (i_type i =? T_FILE)) (itrunc ip) ;;;
              iunlock (Some ip) ;;;
              end_op ;;;
              ret fd
          end
    end.

Definition sys_mkdir : M kstate Z :=
  begin_op ;;;
  let! ' (r, path) := argstr 0 MAXPATH in
  let! r := (if r <? 0 then ret None else create (upto_nul path) T_DIR 0 0) in
  match r with
  | None => end_op ;;; err
  | Some ip => iunlockput ip ;;; end_op ;;; ret 0
  end.

Definition sys_mknod : M kstate Z :=
  begin_op ;;;
  let! major := argint 1 in
  let! minor := argint 2 in
  let! ' (r, path) := argstr 0 MAXPATH in
  let! r := (if r <? 0 then ret None
             else create (upto_nul path) T_DEVICE (s16 major) (s16 minor)) in
  match r with
  | None => end_op ;;; err
  | Some ip => iunlockput ip ;;; end_op ;;; ret 0
  end.

Definition sys_chdir : M kstate Z :=
  let! p := curproc in
  begin_op ;;;
  let! ' (r, path) := argstr 0 MAXPATH in
  let! r := (if r <? 0 then ret None else namei (upto_nul path)) in
  match r with
  | None => end_op ;;; err
  | Some ip =>
      ilock (Some ip) ;;;
      let! i := inode_get ip in
      if negb (i_type i =? T_DIR) then iunlockput ip ;;; end_op ;;; err
      else
        iunlock (Some ip) ;;;
        let! pr := proc_get p in
        match p_cwd pr with Some c => iput c | None => fault "cwd is null" end ;;;
        end_op ;;;
        proc_mod p (set_p_cwd (Some ip)) ;;;
        ret 0
  end.

(** The loop of [sys_exec]: the pages filled so far and whether to go on to
    [exec]; [fetchstr] copies straight into the page. *)
Definition exec_argv_body (uargv : Z) (argv : list Z) : M kstate (list Z + list Z * bool) :=
  let i := Z.of_nat (length argv) in
  if MAXARG <=? i then ret (inr (argv, false))
  else
    let! ' (r, uarg) := fetchaddr (u64 (uargv + 8 * i)) in
    if r <? 0 then ret (inr (argv, false))
    else if uarg =? 0 then ret (inr (argv, true))
    else
      let! a := kalloc in
      if a =? 0 then ret (inr (argv, false))
      else
        let! ' (r, bs) := fetchstr uarg PGSIZE in
        mem_mod (fun m => store_from m a (at_list bs) (Z.of_nat (length bs))) ;;;
        if r <? 0 then ret (inr (argv ++ [a], false)) else ret (inl (argv ++ [a])).

Definition sys_exec : M kstate Z :=
  let! uargv := argaddr 1 in
  let! ' (r, path) := argstr 0 MAXPATH in
  if r <? 0 then err
  else
    let! ' (argv, ok) := mloop (S (S (Z.to_nat MAXARG))) (exec_argv_body uargv) [] in
    if negb ok then mfor argv kfree ;;; err
    else
      let! r := exec (upto_nul path) argv in
      mfor argv kfree ;;;
      ret (u64 r).

(** The bytes of an [int]. *)
Definition int_at (v : Z) : cptr := at_mem (store32 (fun _ => 0) 0 (u32 v)) 0.

Definition sys_pipe : M kstate Z :=
  let! p := curproc in
  let! fdarray := argaddr 0 in
  let! r := pipealloc in
  match r with
  | None => err
  | Some (rf, wf) =>
      let! fd0 := fdalloc rf in
      let! fd1 := (if fd0 <? 0 then ret (-1) else fdalloc wf) in
      if fd1 <? 0 then
        when (0 <=? fd0) (ofile_put p fd0 None) ;;;
        fileclose rf ;;; fileclose wf ;;; err
      else
        let! pr := proc_get p in
        let! r := copyout (p_pagetable pr) fdarray (int_at fd0) 4 in
        let! r := (if r <? 0 then ret r
                   else copyout (p_pagetable pr) (u64 (fdarray + 4)) (int_at fd1) 4) in
        if r <? 0 then
          ofile_put p fd0 None ;;; ofile_put p fd1 None ;;;
          fileclose rf ;;; fileclose wf ;;; err
        else ret 0
  end.

(** ** syscall.c: the dispatch *)

(** The table [syscalls]; [pad] is for [sys_fstat]. *)
Definition syscalls (pad : cptr) (num : Z) : option (M kstate Z) :=
  match num with
  | 1 => Some sys_fork
  | 2 => Some sys_exit
  | 3 => Some sys_wait
  | 4 => Some sys_pipe
  | 5 => Some sys_read
  | 6 => Some sys_kill
  | 7 => Some sys_exec
  | 8 => Some (sys_fstat pad)
  | 9 => Some sys_chdir
  | 10 => Some sys_dup
  | 11 => Some sys_getpid
  | 12 => Some sys_sbrk
  | 13 => Some sys_sleep
  | 14 => Some sys_uptime
  | 15 => Some sys_open
  | 16 => Some sys_write
  | 17 => Some sys_mknod
  | 18 => Some sys_unlink
  | 19 => Some sys_link
  | 20 => Some sys_mkdir
  | 21 => Some sys_close
  | _ => None
  end.

Definition syscall (pad : cptr) : M kstate unit :=
  let! p := curproc in
  let! a7 := tf_get p tf_a7 in
  let num := s32 a7 in
  match syscalls pad num with
  | Some f => let! r := f in tf_set p tf_a0 r
  | None =>
      let! pr := proc_get p in
      printf (str_bytes "%d %s: unknown sys call %d" ++ [10])
        [Num (p_pid pr); Str (Some (upto_nul (p_name pr))); Num num] ;;;
      tf_set p tf_a0 (u64 (-1))
  end.

End sysfile.
