(* ===== verification/Trap.v ===== *)
(** * kernel/trap.c, kernel/plic.c, kernel/start.c and the boot of kernel/main.c

    These routines also use the registers of the hart they run on; the state
    is a [hart] and a [kstate]. *)

From S2P Require Import Prelude Riscv Mem Cstring State Sched Uart Bio Log Kalloc Vm Fs Console Pipe File Proc Exec Syscall Sysfile.

(** ** riscv.h, memlayout.h *)

Definition SSTATUS_SPP : Z := Z.shiftl 1 8.
Definition SSTATUS_SPIE : Z := Z.shiftl 1 5.
Definition SSTATUS_SIE : Z := Z.shiftl 1 1.
Definition MSTATUS_MPP_MASK : Z := Z.shiftl 3 11.
Definition MSTATUS_MPP_S : Z := Z.shiftl 1 11.
Definition SIE_SEIE : Z := Z.shiftl 1 9.
Definition SIE_STIE : Z := Z.shiftl 1 5.
Definition SIE_SSIE : Z := Z.shiftl 1 1.
Definition MIE_STIE : Z := Z.shiftl 1 5.

Definition PLIC_SENABLE (hart : Z) : Z := PLIC + 0x2080 + hart * 0x100.
Definition PLIC_SPRIORITY (hart : Z) : Z := PLIC + 0x201000 + hart * 0x2000.
Definition PLIC_SCLAIM (hart : Z) : Z := PLIC + 0x201004 + hart * 0x2000.

(** The control registers the code reads or writes, [tp], the value the PLIC
    gives to the next claim, and the 32-bit device writes, the latest first. *)
Record hart : Type := mk_hart {
  h_tp : Z; h_sstatus : Z; h_sepc : Z; h_scause : Z; h_stval : Z; h_stvec : Z; h_satp : Z;
  h_time : Z; h_stimecmp : Z; h_claim : Z; h_mmio : list (Z * Z)
}.

Definition set_sstatus (v : Z) (h : hart) : hart :=
  mk_hart (h_tp h) v (h_sepc h) (h_scause h) (h_stval h) (h_stvec h) (h_satp h) (h_time h)
    (h_stimecmp h) (h_claim h) (h_mmio h).
Definition set_sepc (v : Z) (h : hart) : hart :=
  mk_hart (h_tp h) (h_sstatus h) v (h_scause h) (h_stval h) (h_stvec h) (h_satp h) (h_time h)
    (h_stimecmp h) (h_claim h) (h_mmio h).
Definition set_stvec (v : Z) (h : hart) : hart :=
  mk_hart (h_tp h) (h_sstatus h) (h_sepc h) (h_scause h) (h_stval h) v (h_satp h) (h_time h)
    (h_stimecmp h) (h_claim h) (h_mmio h).
Definition set_satp (v : Z) (h : hart) : hart :=
  mk_hart (h_tp h) (h_sstatus h) (h_sepc h) (h_scause h) (h_stval h) (h_stvec h) v (h_time h)
    (h_stimecmp h) (h_claim h) (h_mmio h).
Definition set_stimecmp (v : Z) (h : hart) : hart :=
  mk_hart (h_tp h) (h_sstatus h) (h_sepc h) (h_scause h) (h_stval h) (h_stvec h) (h_satp h) (h_time h)
    v (h_claim h) (h_mmio h).
Definition set_mmio (v : list (Z * Z)) (h : hart) : hart :=
  mk_hart (h_tp h) (h_sstatus h) (h_sepc h) (h_scause h) (h_stval h) (h_stvec h) (h_satp h) (h_time h)
    (h_stimecmp h) (h_claim h) v.

Definition HM (A : Type) : Type := M (hart * kstate) A.

Definition hget {A} (f : hart -> A) : HM A := gets (fun s => f s.1).
Definition hmod (f : hart -> hart) : HM unit := modify (fun s => (f s.1, s.2)).

(** Kernel code that does not touch these registers. *)
Definition kern {A} (m : M kstate A) : HM A := fun s =>
  match m s.2 with
  | Ok a s' => Ok a (s.1, s')
  | Panic msg => Panic msg
  | Fault msg => Fault msg
  | Block s' => Block (s.1, s')
  | Hang => Hang
  end.

Definition intr_on : HM unit := hmod (fun h => set_sstatus (Z.lor (h_sstatus h) SSTATUS_SIE) h).
Definition intr_off : HM unit := hmod (fun h => set_sstatus (Z.ldiff (h_sstatus h) SSTATUS_SIE) h).
Definition intr_get : HM bool := hget (fun h => has (h_sstatus h) SSTATUS_SIE).
Definition cpuid : HM Z := hget (fun h => s32 (h_tp h)).
Definition mmio_write (a v : Z) : HM unit := hmod (fun h => set_mmio ((a, u32 v) :: h_mmio h) h).

(** ** plic.c *)

Definition plicinit : HM unit :=
  mmio_write (PLIC + UART0_IRQ * 4) 1 ;;; mmio_write (PLIC + VIRTIO0_IRQ * 4) 1.

Definition plicinithart : HM unit :=
  let! hart := cpuid in
  mmio_write (PLIC_SENABLE hart) (Z.lor (Z.shiftl 1 UART0_IRQ) (Z.shiftl 1 VIRTIO0_IRQ)) ;;;
  mmio_write (PLIC_SPRIORITY hart) 0.

Definition plic_claim : HM Z := hget (fun h => s32 (h_claim h)).

Definition plic_complete (irq : Z) : HM unit :=
  let! hart := cpuid in mmio_write (PLIC_SCLAIM hart) irq.

Section trap.
Context {EN : Env} {KI : KernelImage}.

(** What the traps taken while the thread is switched out, or while
    interrupts are on, leave in the registers. *)
Variable clobber : hart -> hart.
(** The handler of the disk's interrupt, virtio_disk.c. *)
Variable virtio_disk_intr : M kstate unit.

(** ** trap.c *)

Definition trapinithart : HM unit := hmod (set_stvec sym_kernelvec).

Definition clockintr : HM unit :=
  let! id := cpuid in
  (if id =? 0 then
     kern (acquire Lticks ;;;
           modify (fun s => set_k_ticks (u32 (k_ticks s + 1)) s) ;;;
           wakeup Cticks ;;;
           release Lticks)
   else ret tt) ;;;
  let! t := hget h_time in
  hmod (set_stimecmp (u64 (t + 1000000))).

Definition devintr : HM Z :=
  let! scause := hget h_scause in
  if scause =? 0x8000000000000009 then
    let! irq := plic_claim in
    (if irq =? UART0_IRQ then kern uartintr
     else if irq =? VIRTIO0_IRQ then kern virtio_disk_intr
     else if negb (irq =? 0) then kern (printf (str_bytes "unexpected interrupt irq=%d" ++ [10]) [Num irq])
     else ret tt) ;;;
    (if negb (irq =? 0) then plic_complete irq else ret tt) ;;;
    ret 1
  else if scause =? 0x8000000000000005 then clockintr ;;; ret 2
  else ret 0.

(** The address [usertrapret] jumps to and its argument, the user [satp]. *)
Definition usertrapret : HM (Z * Z) :=
  let! p := kern curproc in
  intr_off ;;;
  hmod (set_stvec (u64 (TRAMPOLINE + (sym_uservec - trampoline)))) ;;;
  let! satp := hget h_satp in
  let! tp := hget h_tp in
  let! pr := kern (proc_get p) in
  kern (tf_set p tf_kernel_satp satp) ;;;
  kern (tf_set p tf_kernel_sp (u64 (p_kstack pr + PGSIZE))) ;;;
  kern (tf_set p tf_kernel_trap sym_usertrap) ;;;
  kern (tf_set p tf_kernel_hartid tp) ;;;
  let! x := hget h_sstatus in
  hmod (set_sstatus (Z.lor (Z.ldiff x SSTATUS_SPP) SSTATUS_SPIE)) ;;;
  let! epc := kern (tf_get p tf_epc) in
  hmod (set_sepc epc) ;;;
  ret (u64 (TRAMPOLINE + (sym_userret - trampoline)), MAKE_SATP (p_pagetable pr)).

Definition usertrap (pad : cptr) : HM (Z * Z) :=
  let! x := hget h_sstatus in
  panic_if (has x SSTATUS_SPP) "usertrap: not from user mode" ;;;
  hmod (set_stvec sym_kernelvec) ;;;
  let! p := kern curproc in
  let! epc := hget h_sepc in
  kern (tf_set p tf_epc epc) ;;;
  let! scause := hget h_scause in
  let! which_dev :=
    (if scause =? 8 then
       let! k := kern (killed p) in
       (if negb (k =? 0) then kern (exit (-1)) else ret tt) ;;;
       let! epc := kern (tf_get p tf_epc) in
       kern (tf_set p tf_epc (u64 (epc + 4))) ;;;
       intr_on ;;;
       kern (syscall pad) ;;;
       hmod clobber ;;;
       ret 0
     else
       let! d := devintr in
       (if d =? 0 then
          let! pr := kern (proc_get p) in
          let! stval := hget h_stval in
          kern (printf (str_bytes "usertrap(): unexpected scause 0x%lx pid=%d" ++ [10])
                  [Num scause; Num (p_pid pr)]) ;;;
          kern (printf (str_bytes "            sepc=0x%lx stval=0x%lx" ++ [10]) [Num epc; Num stval]) ;;;
          kern (setkilled p)
        else ret tt) ;;;
       ret d) in
  let! k := kern (killed p) in
  (if negb (k =? 0) then kern (exit (-1)) else ret tt) ;;;
  (if which_dev =? 2 then kern yield ;;; hmod clobber else ret tt) ;;;
  usertrapret.

Definition kerneltrap : HM unit :=
  let! sepc := hget h_sepc in
  let! sstatus := hget h_sstatus in
  let! scause := hget h_scause in
  panic_if (negb (has sstatus SSTATUS_SPP)) "kerneltrap: not from supervisor mode" ;;;
  let! on := intr_get in
  panic_if on "kerneltrap: interrupts enabled" ;;;
  let! which_dev := devintr in
  (if which_dev =? 0 then
     let! stval := hget h_stval in
     kern (printf (str_bytes "scause=0x%lx sepc=0x%lx stval=0x%lx" ++ [10])
             [Num scause; Num sepc; Num stval]) ;;;
     panic "kerneltrap"
   else ret tt) ;;;
  let! p := kern myproc in
  (if (which_dev =? 2) && bool_decide (p <> None) then kern yield ;;; hmod clobber else ret tt) ;;;
  hmod (set_sepc sepc) ;;;
  hmod (set_sstatus sstatus).

(** ** proc.c: forkret *)

(** The first return of a new process: [first] is the static variable of
    [forkret], which is returned as it is afterwards. *)
Definition forkret (first : bool) : HM (bool * (Z * Z)) :=
  let! p := kern curproc in
  kern (release (Lproc p)) ;;;
  (if first then kern (fsinit ROOTDEV) else ret tt) ;;;
  let! r := usertrapret in
  ret (false, r).

(** ** main.c: what hart 0 does before [scheduler] *)

Definition kvminithart : HM unit :=
  let! k := kern (gets k_kpgtbl) in hmod (set_satp (MAKE_SATP k)).

Definition main : HM unit :=
  kern (printf [10] []) ;;;
  kern (kputs "xv6 kernel is booting") ;;;
  kern (printf [10] []) ;;;
  kern kinit ;;;
  kern kvminit ;;;
  kvminithart ;;;
  kern procinit ;;;
  trapinithart ;;;
  plicinit ;;;
  plicinithart ;;;
  kern binit ;;;
  kern iinit ;;;
  kern userinit.

End trap.

(** ** start.c: the machine-mode registers *)

Record mregs : Type := mk_mregs {
  m_mstatus : Z; m_mepc : Z; m_satp : Z; m_medeleg : Z; m_mideleg : Z; m_sie : Z;
  m_pmpaddr0 : Z; m_pmpcfg0 : Z; m_mie : Z; m_menvcfg : Z; m_mcounteren : Z; m_stimecmp : Z;
  m_mhartid : Z; m_tp : Z
}.

(** [timerinit] on [mie], [menvcfg], [mcounteren] and [stimecmp]. *)
Definition timerinit (time mie menvcfg mcounteren : Z) : Z * Z * Z * Z :=
  (Z.lor mie MIE_STIE, Z.lor menvcfg (Z.shiftl 1 63), Z.lor mcounteren 2, u64 (time + 1000000)).

Definition start (main_addr time : Z) (m : mregs) : mregs :=
  let '(mie, menvcfg, mcounteren, stimecmp) := timerinit time (m_mie m) (m_menvcfg m) (m_mcounteren m) in
  {| m_mstatus := Z.lor (Z.ldiff (m_mstatus m) MSTATUS_MPP_MASK) MSTATUS_MPP_S;
     m_mepc := main_addr;
     m_satp := 0;
     m_medeleg := 0xffff;
     m_mideleg := 0xffff;
     m_sie := Z.lor (Z.lor (Z.lor (m_sie m) SIE_SEIE) SIE_STIE) SIE_SSIE;
     m_pmpaddr0 := 0x3fffffffffffff;
     m_pmpcfg0 := 0xf;
     m_mie := mie; m_menvcfg := menvcfg; m_mcounteren := mcounteren; m_stimecmp := stimecmp;
     m_mhartid := m_mhartid m;
     m_tp := s32 (m_mhartid m) |}.
