(* ===== verification/TrapClaims.v ===== *)
(** * Entering and leaving the kernel

    The assembly of [Asm.v] together with the C code of [Trap.v]: what a trap
    saves and what the return restores. *)

From S2P Require Import Prelude Riscv Mem State Spinlock Sched SchedSpec Kalloc PageTable Vm VmSpec Asm Uvm UvmGrow UvmCopy UvmIo Sample Proc Trap.

(** ** Status bits *)

Lemma has_bit x k : 0 <= k -> has x (Z.shiftl 1 k) = Z.testbit x k.
Proof.
  intros Hk. unfold has. rewrite Z.shiftl_1_l. destruct (Z.testbit x k) eqn:E.
  - apply negb_true_iff, Z.eqb_neq. intros H. apply (f_equal (fun z => Z.testbit z k)) in H.
    rewrite Z.land_spec, E, Z.pow2_bits_true, Z.bits_0 in H by done. done.
  - apply negb_false_iff, Z.eqb_eq. apply Z.bits_inj'. intros i Hi. rewrite Z.land_spec, Z.bits_0, Z.pow2_bits_eqb by done.
    destruct (Z.eqb_spec k i) as [->|]; [by rewrite E|by rewrite andb_false_r].
Qed.

(** Bits of a word built from bits set and cleared. *)
Ltac status_bits :=
  unfold SSTATUS_SPP, SSTATUS_SPIE, SSTATUS_SIE;
  rewrite ?has_bit by done;
  rewrite ?Z.lor_spec, ?Z.ldiff_spec, ?Z.shiftl_1_l, ?Z.pow2_bits_eqb by done; cbn;
  rewrite ?orb_true_r, ?orb_false_r, ?andb_true_r, ?andb_false_r.

(** ** usertrapret *)

Section usertrapret.
Context {KI : KernelImage}.

Lemma kern_ok {A} (m : M kstate A) h s a s' : m s = Ok a s' -> kern m (h, s) = Ok a (h, s').
Proof. intros H. unfold kern. cbn. by rewrite H. Qed.

Lemma tf_set_run p field v s pr :
  k_procs s !! p = Some pr -> p_trapframe pr <> 0 ->
  tf_set p field v s = Ok tt (set_k_mem (store64 (k_mem s) (p_trapframe pr + field) v) s).
Proof.
  intros H Ht. unfold tf_set, proc_get, tab_get, bind, nonnull. rewrite H.
  destruct (Z.eqb_spec (p_trapframe pr) 0); [done|]. done.
Qed.

Lemma tf_get_run p field s pr :
  k_procs s !! p = Some pr -> p_trapframe pr <> 0 -> tf_get p field s = Ok (load64 (k_mem s) (p_trapframe pr + field)) s.
Proof.
  intros H Ht. unfold tf_get, proc_get, tab_get, bind, nonnull. rewrite H.
  destruct (Z.eqb_spec (p_trapframe pr) 0); [done|]. done.
Qed.

(** The memory after [usertrapret] has set the kernel's fields. *)
Definition tf_kernel (h : hart) (pr : proc) (m : mem) : mem :=
  let tf := p_trapframe pr in
  store64 (store64 (store64 (store64 m (tf + tf_kernel_satp) (h_satp h))
    (tf + tf_kernel_sp) (u64 (p_kstack pr + PGSIZE))) (tf + tf_kernel_trap) sym_usertrap) (tf + tf_kernel_hartid) (h_tp h).

Lemma usertrapret_run h s p pr :
  k_cur s = Some p -> k_procs s !! p = Some pr -> p_trapframe pr <> 0 ->
  exists h', usertrapret (h, s) =
      Ok (u64 (TRAMPOLINE + (sym_userret - trampoline)), MAKE_SATP (p_pagetable pr))
         (h', set_k_mem (tf_kernel h pr (k_mem s)) s) /\
    h_stvec h' = u64 (TRAMPOLINE + (sym_uservec - trampoline)) /\
    h_sstatus h' = Z.lor (Z.ldiff (Z.ldiff (h_sstatus h) SSTATUS_SIE) SSTATUS_SPP) SSTATUS_SPIE /\
    h_sepc h' = load64 (tf_kernel h pr (k_mem s)) (p_trapframe pr + tf_epc).
Proof.
  intros Hc Hp Ht. unfold usertrapret.
  assert (kern curproc (h, s) = Ok p (h, s)) as H1.
  { apply kern_ok. unfold curproc, myproc. ksimp. by rewrite Hc. }
  run H1. unfold intr_off, hmod, hget. ksimp. cbn [fst snd].
  assert (forall h0, kern (proc_get p) (h0, s) = Ok pr (h0, s)) as H2.
  { intros h0. apply kern_ok. unfold proc_get, tab_get. by rewrite Hp. }
  run (H2 _). unfold tf_kernel.
  do 4 (erewrite bind_ok by (apply kern_ok; by apply tf_set_run); cbn [k_mem set_k_mem]).
  ksimp. erewrite bind_ok by (apply kern_ok; by apply tf_get_run). ksimp. eexists. split; [reflexivity|]. done.
Qed.

End usertrapret.

Lemma kv_saves_ok : slots 256 kv_saves.
Proof. by_dec. Qed.

(** The body of [clockintr] on hart 0. *)
Lemma tick_run {EN : Env} s :
  k_cur s = None -> Lticks ∉ k_held s -> no_plock (k_held s) -> length (k_procs s) = Z.to_nat NPROC ->
  (acquire Lticks ;;; modify (fun s => set_k_ticks (u32 (k_ticks s + 1)) s) ;;; wakeup Cticks ;;; release Lticks) s =
    Ok tt (set_k_procs (wake_all None Cticks (k_procs s)) (set_k_ticks (u32 (k_ticks s + 1)) s)).
Proof.
  intros Hc Hl Hp Hn. run (acquire_ok Lticks s Hl). cbn [k_ticks set_k_held].
  erewrite bind_ok.
  2:{ apply wakeup_run; [|done]. intros i Hi. cbn in Hi. apply elem_of_cons in Hi as [[=]|Hi]. by apply (Hp i). }
  cbn [k_cur k_procs set_k_ticks set_k_held]. rewrite Hc.
  rewrite (release_ok Lticks _ (k_held s)) by done. by destruct s.
Qed.

(** ** Properties *)

Section claims.
Context {KI : KernelImage}.

(** C15: a trap is invisible to the user program.  [uservec] saves every register
    in its field of [struct trapframe] and writes nothing else; when the
    kernel later runs [userret] with the process's page table and the fields as
    they were, every register has the value it had at the trap. *)
Theorem trampoline_restores st tf :
  window (x_mem st) (x_satp st) TRAPFRAME tf 288 -> (forall r, 0 <= x_reg st r < 2 ^ 64) ->
  exists st1, steps uservec st = Ok tt st1 /\
    (forall r, load64 (x_mem st1) (tf + tf_slot r) = x_reg st r) /\
    (forall y, y < tf + 40 \/ tf + 288 <= y -> load8 (x_mem st1) y = load8 (x_mem st) y) /\
    forall st2, x_reg st2 A0 = x_satp st -> window (x_mem st2) (x_satp st) TRAPFRAME tf 288 ->
      (forall r, load64 (x_mem st2) (tf + tf_slot r) = load64 (x_mem st1) (tf + tf_slot r)) ->
      exists st3, steps userret st2 = Ok tt st3 /\ x_satp st3 = x_satp st /\ forall r, x_reg st3 r = x_reg st r.
Proof.
  intros Hw Hx. destruct (uservec_run st tf Hw) as (st1 & Hrun & Hm & _). exists st1. split; [done|].
  assert (forall r, load64 (x_mem st1) (tf + tf_slot r) = x_reg st r) as Hs.
  { intros r. rewrite Hm. apply (saved_in _ _ _ 288); [apply tf_slots_ok|apply tf_slot_in|apply Hx]. }
  split; [done|]. split.
  - intros y Hy. rewrite Hm. apply saved_out. intros o Ho.
    assert (Forall (fun o => 40 <= o <= 280) tf_slots.*2) as Hf by by_dec.
    rewrite Forall_forall in Hf. specialize (Hf o Ho). lia.
  - intros st2 Ha Hw2 Hk. rewrite <- Ha in Hw2. destruct (userret_run st2 tf Hw2) as (st3 & Hrun3 & _ & Hsa & Hr).
    exists st3. split; [done|]. split; [by rewrite Hsa|]. intros r. rewrite (Hr r (tf_slot r)) by apply tf_slot_in.
    by rewrite Hk.
Qed.

(** C33: [usertrapret] prepares the next trap.  It goes to user mode with
    interrupts enabled only there, at the saved [epc]; and the next trap,
    through [uservec], finds the kernel's page table, the top of the process's
    kernel stack, the hart's id and [usertrap] where [usertrapret] left them. *)
Theorem usertrapret_reenters h s p pr :
  k_cur s = Some p -> k_procs s !! p = Some pr -> p_trapframe pr <> 0 ->
  0 <= h_satp h < 2 ^ 64 -> 0 <= h_tp h < 2 ^ 64 -> 0 <= sym_usertrap < 2 ^ 64 ->
  exists h' m', usertrapret (h, s) =
      Ok (u64 (TRAMPOLINE + (sym_userret - trampoline)), MAKE_SATP (p_pagetable pr)) (h', set_k_mem m' s) /\
    h_stvec h' = u64 (TRAMPOLINE + (sym_uservec - trampoline)) /\
    h_sepc h' = load64 (k_mem s) (p_trapframe pr + tf_epc) /\
    has (h_sstatus h') SSTATUS_SIE = false /\ has (h_sstatus h') SSTATUS_SPP = false /\
    has (h_sstatus h') SSTATUS_SPIE = true /\
    (forall y, y < p_trapframe pr \/ p_trapframe pr + 40 <= y -> load8 m' y = load8 (k_mem s) y) /\
    forall st, window (x_mem st) (x_satp st) TRAPFRAME (p_trapframe pr) 288 ->
      (forall y, p_trapframe pr <= y < p_trapframe pr + 40 -> load8 (x_mem st) y = load8 m' y) ->
      exists st1, steps uservec st = Ok tt st1 /\ x_satp st1 = h_satp h /\
        x_reg st1 SP = u64 (p_kstack pr + PGSIZE) /\ x_reg st1 TP = h_tp h /\ x_reg st1 T0 = sym_usertrap.
Proof.
  intros Hc Hp Ht Hsatp Htp Hut. destruct (usertrapret_run h s p pr Hc Hp Ht) as (h' & Hrun & Hv & Hst & He).
  exists h', (tf_kernel h pr (k_mem s)). split; [done|]. split; [done|].
  set (tf := p_trapframe pr) in *. pose proof (Z.mod_pos_bound (p_kstack pr + PGSIZE) (2 ^ 64) eq_refl) as Hks.
  split.
  { rewrite He. unfold tf_kernel. fold tf. unfold tf_kernel_satp, tf_kernel_sp, tf_kernel_trap, tf_kernel_hartid, tf_epc.
    by rewrite !load64_store64_out by lia. }
  rewrite Hst. split; [by status_bits|]. split; [by status_bits|]. split; [by status_bits|]. split.
  { intros y Hy. unfold tf_kernel. fold tf. unfold tf_kernel_satp, tf_kernel_sp, tf_kernel_trap, tf_kernel_hartid.
    by rewrite !load8_store64_out by lia. }
  intros st Hw Hsame. destruct (uservec_run st tf Hw) as (st1 & Hrun1 & Hm & E0 & E8 & E16 & E32). exists st1.
  split; [done|].
  assert (forall o, 0 <= o -> o + 8 <= 40 -> load64 (x_mem st1) (tf + o) = load64 (tf_kernel h pr (k_mem s)) (tf + o)) as Hld.
  { intros o H0 H1. apply loadn_ext. intros y Hy. rewrite Hm, saved_out; [apply Hsame; lia|]. intros o' Ho'.
    assert (Forall (fun o => 40 <= o <= 280) tf_slots.*2) as Hf by by_dec. rewrite Forall_forall in Hf. specialize (Hf o' Ho'). lia. }
  rewrite E0, E8, E16, E32, !Hld by lia. unfold tf_kernel. fold tf. unfold tf_kernel_satp, tf_kernel_sp, tf_kernel_trap, tf_kernel_hartid.
  unfold u64 in *.
  repeat split; repeat first [rewrite load64_store64_same by lia; done | rewrite load64_store64_out by lia].
Qed.

(** [kernelvec] leaves the interrupted kernel code as it found it.  If
    [kerneltrap] keeps the registers that a C function keeps and the frame
    above its stack pointer, then afterwards every register but [tp] is as it
    was at the interrupt. *)
Theorem kernelvec_restores st pa :
  window (x_mem st) (x_satp st) (x_reg st SP - 256) pa 256 -> (forall r, 0 <= x_reg st r < 2 ^ 64) ->
  exists st1, steps kernelvec_save st = Ok tt st1 /\
    forall st2, (forall r, r ∈ callee_saved -> x_reg st2 r = x_reg st1 r) ->
      window (x_mem st2) (x_satp st2) (x_reg st1 SP) pa 256 ->
      (forall y, pa <= y < pa + 256 -> load8 (x_mem st2) y = load8 (x_mem st1) y) ->
      exists st3, steps kernelvec_restore st2 = Ok tt st3 /\ x_mem st3 = x_mem st2 /\
        forall r, r <> TP -> x_reg st3 r = x_reg st r.
Proof.
  intros Hw Hx. pose proof (wi_va _ _ _ _ _ Hw) as Hva. rewrite MAXVA_eq in Hva.
  assert (u64 (x_reg st SP + -256) = x_reg st SP - 256) as Esp by (unfold u64; rewrite Z.mod_small; lia).
  pose proof (kernelvec_save_run st pa) as Hrun. rewrite Esp in Hrun. specialize (Hrun Hw). cbv zeta in Hrun.
  set (st0 := setr SP (x_reg st SP - 256) st) in *. eexists. split; [exact Hrun|].
  intros st2 Hcs Hw2 Hfr. cbn [x_reg x_mem set_mem] in *.
  assert (x_reg st0 SP = x_reg st SP - 256) as E0 by done.
  assert (x_reg st2 SP = x_reg st0 SP) as E2 by (apply Hcs; by_dec).
  assert (forall r, 0 <= x_reg st0 r < 2 ^ 64) as Hx0.
  { intros r. unfold st0, setr. cbn [x_reg]. destruct (decide (r = SP)); [lia|apply Hx]. }
  assert (forall r o, (r, o) ∈ kv_saves -> load64 (x_mem st2) (pa + o) = x_reg st0 r) as Hsv.
  { intros r o Hin. rewrite <- (saved_in pa (x_reg st0) kv_saves 256 (x_mem st) r o kv_saves_ok Hin (Hx0 r)).
    apply loadn_ext. intros y Hy. apply Hfr.
    assert (Forall (fun o => 0 <= o /\ o + 8 <= 256) kv_saves.*2) as Hf by by_dec. rewrite Forall_forall in Hf.
    specialize (Hf o). apply (list_elem_of_fmap_2 snd) in Hin. specialize (Hf Hin). lia. }
  destruct (kernelvec_restore_run st2 pa) as (st3 & Hrun3 & Hm3 & _ & Hsp3 & Hin3 & Hout3).
  { by rewrite E2. }
  { rewrite E2. apply Hsv. by_dec. }
  exists st3. split; [done|]. split; [done|]. intros r Hr. destruct (decide (r = SP)) as [->|Hsp].
  { rewrite Hsp3, E2, E0. unfold u64. rewrite Z.mod_small; lia. }
  assert (x_reg st0 r = x_reg st r) as <- by (unfold st0, setr; cbn; by rewrite decide_False).
  destruct (decide (r ∈ kv_slots.*1)) as [Hin|Hn].
  - apply list_elem_of_fmap_1 in Hin as ([q o] & -> & Hin). cbn [fst] in *. rewrite (Hin3 q o Hsp Hin). apply Hsv.
    unfold kv_saves. rewrite <- (take_drop 3 kv_slots) in Hin. apply elem_of_app in Hin as [?|?]; apply elem_of_app; [by left|].
    right. apply elem_of_cons. by right.
  - rewrite Hout3 by done. apply Hcs. destruct r; try done; first [by_dec | exfalso; apply Hn; by_dec].
Qed.

(** C34: [swtch] is a coroutine switch.  It saves [ra], [sp] and [s0]-[s11] in the
    old context and takes them from the new one; a later [swtch] back to that
    context, from any thread that has left it alone, resumes with them. *)
Theorem swtch_resumes st old new :
  window (x_mem st) (x_satp st) (x_reg st A0) old 112 -> window (x_mem st) (x_satp st) (x_reg st A1) new 112 ->
  (forall r, 0 <= x_reg st r < 2 ^ 64) -> old + 112 <= new \/ new + 112 <= old ->
  exists st1, steps swtch_code st = Ok tt st1 /\
    (forall r o, (r, o) ∈ ctx_slots -> x_reg st1 r = load64 (x_mem st) (new + o)) /\
    (forall y, y < old \/ old + 112 <= y -> load8 (x_mem st1) y = load8 (x_mem st) y) /\
    forall st2 cur, x_satp st2 = x_satp st -> window (x_mem st2) (x_satp st2) (x_reg st2 A0) cur 112 ->
      window (x_mem st2) (x_satp st2) (x_reg st2 A1) old 112 -> cur + 112 <= old \/ old + 112 <= cur ->
      (forall y, old <= y < old + 112 -> load8 (x_mem st2) y = load8 (x_mem st1) y) ->
      exists st3, steps swtch_code st2 = Ok tt st3 /\ forall r, r ∈ ctx_slots.*1 -> x_reg st3 r = x_reg st r.
Proof.
  assert (Forall (fun o => 0 <= o /\ o + 8 <= 112) ctx_slots.*2) as Hf by by_dec. rewrite Forall_forall in Hf.
  assert (forall m pa x y, y < pa \/ pa + 112 <= y -> load8 (saved m pa x ctx_slots) y = load8 m y) as Hout.
  { intros m pa x y Hy. apply saved_out. intros o Ho. specialize (Hf o Ho). lia. }
  assert (forall m pa q x o, pa + 112 <= q \/ q + 112 <= pa -> o ∈ ctx_slots.*2 ->
    load64 (saved m pa x ctx_slots) (q + o) = load64 m (q + o)) as Hld.
  { intros m pa q x o Hd Ho. specialize (Hf o Ho). apply loadn_ext. intros y Hy. apply Hout. lia. }
  intros Ho Hn Hx Hd. destruct (swtch_run st old new Ho Hn) as (st1 & Hrun & _ & Hm & Hr & _).
  exists st1. split; [done|]. split.
  { intros r o Hin. rewrite (Hr r o Hin), Hm. apply Hld; [lia|]. by apply (list_elem_of_fmap_2 snd) in Hin. }
  split; [intros y Hy; rewrite Hm; by apply Hout|].
  intros st2 cur Hsa Hw1 Hw2 Hd2 Hk. destruct (swtch_run st2 cur old Hw1 Hw2) as (st3 & Hrun3 & _ & Hm3 & Hr3 & _).
  exists st3. split; [done|]. intros r Hin. apply list_elem_of_fmap_1 in Hin as ([q o] & -> & Hin). cbn [fst].
  rewrite (Hr3 q o Hin), Hm3. pose proof Hin as Ho'. apply (list_elem_of_fmap_2 snd) in Ho'. cbn in Ho'.
  rewrite Hld by (first [done|lia]). transitivity (load64 (x_mem st1) (old + o)).
  - apply loadn_ext. intros y Hy. apply Hk. specialize (Hf o Ho'). lia.
  - rewrite Hm. apply (saved_in _ _ _ 112); [by_dec|done|apply Hx].
Qed.

(** A clock interrupt in the kernel, on hart 0 with no process running, counts
    one tick, wakes exactly the processes that sleep on the ticks, arms the
    next interrupt a tenth of a second on, and returns with [sepc] and
    [sstatus] as they were; and whatever the interrupt was, [kerneltrap] does
    not return with these two changed. *)
Theorem kerneltrap_keeps {EN : Env} clobber vdisk h s :
  has (h_sstatus h) SSTATUS_SPP = true -> has (h_sstatus h) SSTATUS_SIE = false ->
  (forall u h' s', kerneltrap clobber vdisk (h, s) = Ok u (h', s') -> h_sepc h' = h_sepc h /\ h_sstatus h' = h_sstatus h) /\
  (h_scause h = 0x8000000000000005 -> h_tp h = 0 -> k_cur s = None -> Lticks ∉ k_held s -> no_plock (k_held s) ->
   length (k_procs s) = Z.to_nat NPROC ->
   exists h', kerneltrap clobber vdisk (h, s) =
       Ok tt (h', set_k_procs (wake_all None Cticks (k_procs s)) (set_k_ticks (u32 (k_ticks s + 1)) s)) /\
     h_sepc h' = h_sepc h /\ h_sstatus h' = h_sstatus h /\ h_stimecmp h' = u64 (h_time h + 1000000)).
Proof.
  intros Hspp Hsie. unfold kerneltrap, hget, hmod, intr_get. split.
  - intros u h' s'. ksimp. cbn [fst]. rewrite Hspp. cbn [negb]. ksimp. unfold hget. ksimp. cbn [fst]. rewrite Hsie. ksimp.
    intros (d & [h1 s1] & _ & H)%bind_inv. apply bind_inv in H as (v & [h2 s2] & _ & H).
    apply bind_inv in H as (q & [h3 s3] & _ & H). apply bind_inv in H as (w & [h4 s4] & _ & H).
    unfold modify, bind in H. cbn in H. by injection H as <- <-.
  - intros Hc Htp Hcur Hl Hpl Hn. ksimp. cbn [fst]. rewrite Hspp. cbn [negb]. ksimp. unfold hget. ksimp. cbn [fst]. rewrite Hsie. ksimp.
    assert (devintr vdisk (h, s) = Ok 2 (set_stimecmp (u64 (h_time h + 1000000)) h,
      set_k_procs (wake_all None Cticks (k_procs s)) (set_k_ticks (u32 (k_ticks s + 1)) s))) as Hd.
    { unfold devintr, hget. ksimp. cbn [fst]. rewrite Hc. change (_ =? 0x8000000000000009) with false.
      change (_ =? 0x8000000000000005) with true. cbv iota. unfold clockintr, cpuid, hget. ksimp. cbn [fst]. rewrite Htp.
      change (s32 0 =? 0) with true. cbv iota. erewrite bind_ok by (apply kern_ok; by apply tick_run).
      ksimp. unfold hmod. ksimp. done. }
    run Hd. change (2 =? 0) with false. cbv iota. ksimp.
    erewrite bind_ok by (apply kern_ok; reflexivity). cbn [k_cur set_k_procs set_k_ticks]. rewrite Hcur.
    rewrite bool_decide_false by tauto. rewrite andb_false_r. ksimp. eexists. split; [reflexivity|]. done.
Qed.

End claims.

(** ** Instances *)

(** A page table that maps one page at [TRAPFRAME]. *)
Definition tramp0 : kstate :=
  match mappages sample_root TRAPFRAME 4096 sample_root2 (Z.lor PTE_R PTE_W) sample0 with Ok _ s => s | _ => sample0 end.

Lemma tramp0_result :
  match mappages sample_root TRAPFRAME 4096 sample_root2 (Z.lor PTE_R PTE_W) sample0 with Ok r _ => r | _ => -1 end = 0.
Proof. vm_compute. reflexivity. Qed.

Lemma tramp0_window : window (k_mem tramp0) (MAKE_SATP sample_root) TRAPFRAME sample_root2 4096.
Proof.
  pose proof tramp0_result as Hr. unfold tramp0.
  destruct (mappages_run sample_root TRAPFRAME 4096 sample_root2 (Z.lor PTE_R PTE_W) sample0 sample_pages)
    as (r & m' & f' & new & l' & k & Hrun & Hl & Hinv & Hp & _ & Hm & Hres);
    [apply (uvm_vm _ _ _ _ (sample_empty sample_root ltac:(elems)))|by split|done..| |].
  { intros a _. change (k_mem sample0) with sample_mem. rewrite pte_at_zero; [done|]. intros i Hi. by apply sample_zero. }
  rewrite Hrun in Hr |- *. destruct Hres as [[_ Hk]|[-> _]]; [|discriminate Hr]. cbn [k_mem vm_upd set_k_mem].
  assert (satp_root (MAKE_SATP sample_root) = sample_root) as Er by (vm_compute; reflexivity).
  split; rewrite ?Er.
  - vm_compute. discriminate.
  - apply (vm_tree _ _ _ _ Hinv).
  - vm_compute. intuition discriminate.
  - vm_compute. reflexivity.
  - intros o w H0 H1 H8. rewrite TRAPFRAME_eq in *. unfold translate. rewrite Er, MAXVA_eq.
    change (MAKE_SATP sample_root =? 0) with false. cbv iota. zdec; try lia.
    rewrite (Hm (2 ^ 38 - 8192 + o)) by lia. subst k. zdec; try lia.
    replace (sample_root2 + _) with sample_root2 by lia.
    assert (has (leaf_entry sample_root2 (Z.lor PTE_R PTE_W)) (if w then PTE_W else PTE_R) = true) as -> by (by destruct w).
    cbn [andb]. change (has (leaf_entry _ _) PTE_V) with true. cbv iota. f_equal.
    change (PTE2PA (leaf_entry sample_root2 (Z.lor PTE_R PTE_W))) with sample_root2. lia.
  - intros o H0 H1 _. replace ((sample_root2 + o) / 4096 * 4096) with sample_root2 by (unfold sample_root2; lia).
    rewrite Hp. change (k_mem sample0) with sample_mem.
    rewrite (pt_pages_zero sample_mem 2 sample_root) by (intros i; by apply sample_zero).
    assert (sample_root2 ∉ sample_pages ++ [sample_root]) as Hn by by_dec. rewrite Hl in Hn.
    intros [Hi|Hi]%elem_of_app; apply Hn; apply elem_of_app; [left; apply elem_of_app; by left|by right].
Qed.

#[global] Opaque tramp0.

(** Registers that hold small numbers, but for those given. *)
Definition regs0 (sp a0 a1 : Z) (r : reg) : Z :=
  match r with SP => sp | A0 => a0 | A1 => a1 | _ => tf_slot r end.

Lemma regs0_range sp a0 a1 r :
  0 <= sp < 2 ^ 64 -> 0 <= a0 < 2 ^ 64 -> 0 <= a1 < 2 ^ 64 -> 0 <= regs0 sp a0 a1 r < 2 ^ 64.
Proof. intros. destruct r; cbn; lia. Qed.

Definition machine0 (sp a0 a1 : Z) : machine :=
  mk_machine (regs0 sp a0 a1) (k_mem tramp0) 0 (MAKE_SATP sample_root) 0.

Lemma tramp0_sub d k : 0 <= d -> d mod 8 = 0 -> 0 <= k -> d + k <= 4096 ->
  window (k_mem tramp0) (MAKE_SATP sample_root) (TRAPFRAME + d) (sample_root2 + d) k.
Proof. intros. by apply (window_sub _ _ _ _ 4096); first apply tramp0_window. Qed.

Lemma tramp0_tf : window (k_mem tramp0) (MAKE_SATP sample_root) TRAPFRAME sample_root2 288.
Proof. rewrite <- (Z.add_0_r TRAPFRAME), <- (Z.add_0_r sample_root2). by apply tramp0_sub. Qed.

Lemma trampoline_witness : exists st1, steps uservec (machine0 16384 1 2) = Ok tt st1 /\
  load64 (x_mem st1) (sample_root2 + 48) = 16384.
Proof.
  destruct (trampoline_restores (machine0 16384 1 2) sample_root2) as (st1 & H1 & H2 & _).
  - exact tramp0_tf.
  - intros r. by apply regs0_range.
  - exists st1. split; [exact H1|exact (H2 SP)].
Defined.

Definition hart0 : hart := mk_hart 0 (Z.lor SSTATUS_SPP SSTATUS_SIE) 0 8 0 0 (MAKE_SATP sample_root2) 0 0 0 [].
Definition trap_proc : proc := set_p_trapframe sample_root2 (set_p_pagetable sample_root zero_proc).

Lemma usertrapret_witness : exists h' m',
  usertrapret (hart0, set_k_cur (Some 0%nat) (set_k_procs [trap_proc] tramp0)) =
    Ok (u64 (TRAMPOLINE + (sym_userret - trampoline)), MAKE_SATP sample_root)
       (h', set_k_mem m' (set_k_cur (Some 0%nat) (set_k_procs [trap_proc] tramp0))) /\
  has (h_sstatus h') SSTATUS_SPP = false.
Proof.
  destruct (usertrapret_reenters hart0 (set_k_cur (Some 0%nat) (set_k_procs [trap_proc] tramp0)) 0 trap_proc)
    as (h' & m' & H1 & _ & _ & _ & H2 & _); [reflexivity|reflexivity|done|by split|by split|by split|].
  exists h', m'. split; [exact H1|exact H2].
Defined.

Lemma kerneltrap_witness : exists h',
  kerneltrap (EN := fun _ s => s) id (ret tt) (mk_hart 0 SSTATUS_SPP 77 0x8000000000000005 0 0 0 5 0 0 [], zero_state) =
    Ok tt (h', set_k_procs (wake_all None Cticks (k_procs zero_state)) (set_k_ticks 1 zero_state)) /\
  h_sepc h' = 77 /\ h_sstatus h' = SSTATUS_SPP /\ h_stimecmp h' = 1000005.
Proof.
  apply (kerneltrap_keeps (EN := fun _ s => s) id (ret tt) (mk_hart 0 SSTATUS_SPP 77 0x8000000000000005 0 0 0 5 0 0 []) zero_state);
    try reflexivity; [|intros i]; apply not_elem_of_nil.
Defined.

Lemma kernelvec_witness : exists st1, steps kernelvec_save (machine0 (TRAPFRAME + 2048) 1 2) = Ok tt st1.
Proof.
  destruct (kernelvec_restores (machine0 (TRAPFRAME + 2048) 1 2) (sample_root2 + 1792)) as (st1 & H1 & _).
  - change (x_reg (machine0 (TRAPFRAME + 2048) 1 2) SP - 256) with (TRAPFRAME + 2048 - 256).
    replace (TRAPFRAME + 2048 - 256) with (TRAPFRAME + 1792) by lia. by apply tramp0_sub.
  - intros r. by apply regs0_range.
  - exists st1. exact H1.
Defined.

Lemma swtch_witness : exists st1, steps swtch_code (machine0 4096 (TRAPFRAME + 0) (TRAPFRAME + 512)) = Ok tt st1 /\
  x_reg st1 SP = load64 (k_mem tramp0) (sample_root2 + 512 + 8).
Proof.
  destruct (swtch_resumes (machine0 4096 (TRAPFRAME + 0) (TRAPFRAME + 512)) (sample_root2 + 0) (sample_root2 + 512))
    as (st1 & H1 & H2 & _).
  - by apply tramp0_sub.
  - by apply tramp0_sub.
  - intros r. by apply regs0_range.
  - lia.
  - exists st1. split; [exact H1|]. apply (H2 SP 8). by_dec.
Defined.
