(* ===== verification/Uprog.v ===== *)
(** * User programs

    A user program is a tree of system calls: what it asks of the kernel and,
    for each answer, how it goes on.  Its own memory is modelled by the values
    it computes with.  [user/usys.pl] makes each stub of [user/user.h] one
    [ecall]; here a stub is one node of the tree. *)

From S2P Require Import Prelude Mem Cstring.

(** The system calls, with the bytes that are passed in by pointer. *)
Inductive call : Type :=
| Cfork | Cwait | Cpipe | Cgetpid | Cuptime
| Cread (fd n : Z) | Cwrite (fd : Z) (bs : list Z) | Cclose (fd : Z) | Cdup (fd : Z)
| Ckill (pid : Z) | Csleep (n : Z) | Csbrk (n : Z)
| Cexec (path : list Z) (argv : list (list Z))
| Copen (path : list Z) (flags : Z) | Cmknod (path : list Z) (major minor : Z)
| Cunlink (path : list Z) | Cfstat (fd : Z) | Clink (old new : list Z)
| Cmkdir (path : list Z) | Cchdir (path : list Z).

(** The value returned, and what the kernel wrote through a pointer: the bytes
    of [read], the descriptors of [pipe], the status of [wait], the fields of
    [struct stat] in their order. *)
Record reply : Type := mk_reply { r_val : Z; r_data : list Z }.

Inductive U (A : Type) : Type :=
| Done (a : A)
| Sys (c : call) (k : reply -> U A)
| Exit (status : Z)
| Crash (why : string)
| NoFuel.
Arguments Done {A} a.
Arguments Sys {A} c k.
Arguments Exit {A} status.
Arguments Crash {A} why.
Arguments NoFuel {A}.

Fixpoint ubind {A B} (m : U A) (f : A -> U B) : U B :=
  match m with
  | Done a => f a
  | Sys c k => Sys c (fun r => ubind (k r) f)
  | Exit status => Exit status
  | Crash why => Crash why
  | NoFuel => NoFuel
  end.

Declare Scope user_scope.
Delimit Scope user_scope with user.
Notation "'let?' x ':=' m 'in' k" := (ubind m (fun x => k))
  (at level 10, x name, m at level 100, k at level 200) : user_scope.
Notation "'let?' ' x ':=' m 'in' k" := (ubind m (fun p => match p with x => k end))
  (at level 10, x pattern, m at level 100, k at level 200) : user_scope.
Notation "m ;; k" := (ubind m (fun _ => k)) (at level 100, k at level 200, right associativity) : user_scope.
Open Scope user_scope.

Definition sys (c : call) : U reply := Sys c Done.
Definition sysv (c : call) : U Z := Sys c (fun r => Done (r_val r)).

(** A loop with a state of its own, as [mloop]. *)
Fixpoint uloop {T R} (fuel : nat) (body : T -> U (T + R)) (t : T) : U R :=
  match fuel with
  | O => NoFuel
  | S n => let? r := body t in match r with inl t' => uloop n body t' | inr r => Done r end
  end.

Fixpoint ufor {A} (l : list A) (f : A -> U unit) : U unit :=
  match l with [] => Done tt | x :: l' => f x ;; ufor l' f end.

(** ** user.h: the stubs *)

Definition fork : U Z := sysv Cfork.
Definition exit {A} (status : Z) : U A := Exit (s32 status).
(** The pid and the status that [wait] stores through its pointer. *)
Definition wait : U (Z * Z) := Sys Cwait (fun r => Done (r_val r, nth 0 (r_data r) 0)).
(** The result and the two descriptors. *)
Definition pipe : U (Z * (Z * Z)) :=
  Sys Cpipe (fun r => Done (r_val r, (nth 0 (r_data r) 0, nth 1 (r_data r) 0))).
Definition write (fd : Z) (bs : list Z) : U Z := sysv (Cwrite fd bs).
(** The result and the bytes read. *)
Definition read (fd n : Z) : U (Z * list Z) := Sys (Cread fd n) (fun r => Done (r_val r, r_data r)).
Definition close (fd : Z) : U Z := sysv (Cclose fd).
Definition dup (fd : Z) : U Z := sysv (Cdup fd).
Definition kill (pid : Z) : U Z := sysv (Ckill pid).
Definition exec (path : list Z) (argv : list (list Z)) : U Z := sysv (Cexec path argv).
Definition open (path : list Z) (flags : Z) : U Z := sysv (Copen path flags).
Definition mknod (path : list Z) (major minor : Z) : U Z := sysv (Cmknod path major minor).
Definition unlink (path : list Z) : U Z := sysv (Cunlink path).
Definition fstat (fd : Z) : U (Z * list Z) := Sys (Cfstat fd) (fun r => Done (r_val r, r_data r)).
Definition link (old new : list Z) : U Z := sysv (Clink old new).
Definition mkdir (path : list Z) : U Z := sysv (Cmkdir path).
Definition chdir (path : list Z) : U Z := sysv (Cchdir path).
Definition getpid : U Z := sysv Cgetpid.
Definition sbrk (n : Z) : U Z := sysv (Csbrk n).
Definition sleep (n : Z) : U Z := sysv (Csleep n).
Definition uptime : U Z := sysv Cuptime.

(** ** A program between an input and an output

    The handler of a program that reads from one descriptor and writes to
    standard output.  A [read] returns a nonempty piece of what is left of the
    input, of a size that [ch] chooses, or nothing at the end; a [write] writes
    all its bytes. *)

Definition piece (n : Z) (ch : list nat) (inp : list Z) : list Z :=
  take (Nat.min (Nat.max 1 (hd (Z.to_nat n) ch)) (Z.to_nat n)) inp.

Record io_result (A : Type) : Type := mk_io { io_out : list Z; io_end : option (A + Z); io_ch : list nat; io_left : list Z }.
Arguments mk_io {A} _ _ _ _.
Arguments io_out {A} _.
Arguments io_end {A} _.
Arguments io_ch {A} _.
Arguments io_left {A} _.

Definition io_write {A} (bs : list Z) (r : io_result A) : io_result A :=
  mk_io (bs ++ io_out r) (io_end r) (io_ch r) (io_left r).

Fixpoint run_io {A} (fdin : Z) (p : U A) (ch : list nat) (inp : list Z) : io_result A :=
  match p with
  | Done a => mk_io [] (Some (inl a)) ch inp
  | Exit status => mk_io [] (Some (inr status)) ch inp
  | Sys (Cread fd n) k =>
      if fd =? fdin then
        let d := piece n ch inp in
        run_io fdin (k (mk_reply (Z.of_nat (length d)) d)) (tl ch) (drop (length d) inp)
      else mk_io [] None ch inp
  | Sys (Cwrite fd bs) k =>
      if fd =? 1 then io_write bs (run_io fdin (k (mk_reply (Z.of_nat (length bs)) [])) ch inp)
      else mk_io [] None ch inp
  | _ => mk_io [] None ch inp
  end.

Lemma io_write_app {A} bs bs' (r : io_result A) : io_write bs (io_write bs' r) = io_write (bs ++ bs') r.
Proof. unfold io_write. cbn. by rewrite app_assoc. Qed.

Lemma io_write_nil {A} (r : io_result A) : io_write [] r = r.
Proof. by destruct r. Qed.

Lemma run_io_bind {A B} fdin (p : U A) (f : A -> U B) : forall ch inp o a ch' inp',
  run_io fdin p ch inp = mk_io o (Some (inl a)) ch' inp' ->
  run_io fdin (ubind p f) ch inp = io_write o (run_io fdin (f a) ch' inp').
Proof.
  induction p as [a|c k IH|st|why|]; intros ch inp o a' ch' inp' H; cbn in H |- *; try discriminate H.
  - injection H as <- <- <- <-. by rewrite io_write_nil.
  - destruct c; try discriminate H; (destruct (_ =? _); [|discriminate H]).
    + by apply IH.
    + destruct (run_io fdin (k _) ch inp) as [o1 e1 c1 l1] eqn:E. unfold io_write in H. cbn in H. injection H as <- -> -> ->.
      by rewrite (IH _ _ _ _ _ _ _ E), io_write_app.
Qed.
