(* ===== verification/Ulib.v ===== *)
(** * user/ulib.c and user/printf.c

    The user library.  Routines on strings work on memory, with fuel for the
    loops that end at a NUL; [str_at] relates a string in memory to the list of
    its bytes, which is how the programs' models pass strings around. *)

From Stdlib Require Import FunctionalExtensionality.
From S2P Require Import Prelude Mem Cstring Uprog.

(** ** ulib.c *)

(** [start]: run [main], then exit. *)
Definition start (main : U Z) : U Z := main ;; exit 0.

(** Byte by byte, up to and including the NUL. *)
Fixpoint strcpy (fuel : nat) (m : mem) (s t : Z) : option mem :=
  match fuel with
  | O => None
  | S f => let m' := store8 m s (load8 m t) in
           if load8 m t =? 0 then Some m' else strcpy f m' (s + 1) (t + 1)
  end.

(** Skip equal bytes up to the NUL, then compare. *)
Fixpoint strcmp_mem (fuel : nat) (p q : cptr) (i : Z) : option Z :=
  match fuel with
  | O => None
  | S f => if negb (p i =? 0) && (p i =? q i) then strcmp_mem f p q (i + 1) else Some (p i - q i)
  end.

(** The same on the bytes before the NULs. *)
Fixpoint strcmp (p q : list Z) : Z :=
  match p with
  | [] => - hd 0 q
  | a :: p' => if a =? hd 0 q then strcmp p' (tl q) else a - hd 0 q
  end.

(** The index of [c] in the string, or a null pointer. *)
Fixpoint strchr_loop (fuel : nat) (s : cptr) (c i : Z) : option (option Z) :=
  match fuel with
  | O => None
  | S f => if s i =? 0 then Some None
           else if s i =? c then Some (Some i) else strchr_loop f s c (i + 1)
  end.

(** The same on the bytes before the NUL. *)
Fixpoint strchr (s : list Z) (c : Z) : option nat :=
  match s with
  | [] => None
  | a :: s' => if a =? c then Some 0%nat else S <$> strchr s' c
  end.

(** [gets]: at most [max - 1] bytes of standard input, to the end of a line. *)
Definition gets (max : Z) : U (list Z) :=
  uloop (S (Z.to_nat max)) (fun buf : list Z =>
    if Z.of_nat (length buf) + 1 <? max then
      let? ' (cc, d) := read 0 1 in
      if cc <? 1 then Done (inr buf)
      else
        let c := u8 (nth 0 d 0) in
        let buf := buf ++ [c] in
        if (c =? 10) || (c =? 13) then Done (inr buf) else Done (inl buf)
    else Done (inr buf)) [].

Definition O_RDONLY : Z := 0x000.
Definition O_WRONLY : Z := 0x001.
Definition O_RDWR : Z := 0x002.
Definition O_CREATE : Z := 0x200.
Definition O_TRUNC : Z := 0x400.

Definition stat (n : list Z) : U (Z * list Z) :=
  let? fd := open n O_RDONLY in
  if fd <? 0 then Done (-1, [])
  else
    let? r := fstat fd in
    close fd ;;
    Done r.

(** [n = n*10 + *s++ - '0'], in 32 bits. *)
Fixpoint atoi_loop (s : list Z) (n : Z) : Z :=
  match s with
  | a :: s' => if (48 <=? a) && (a <=? 57) then atoi_loop s' (s32 (n * 10 + a - 48)) else n
  | [] => n
  end.
Definition atoi (s : list Z) : Z := atoi_loop s 0.

(** Unlike the kernel's, the direction is chosen by the addresses alone. *)
Definition umemmove (m : mem) (dst src n : Z) : mem :=
  if dst <? src then copy_up (Z.to_nat n) m dst src
  else copy_down (Z.to_nat n) m (dst + n) (src + n).

(** ** printf.c *)

Definition putc (fd c : Z) : U unit := write fd [u8 c] ;; Done tt.

(** [digits[d]], upper case *)
Definition udigit (d : Z) : Z := if d <? 10 then 48 + d else 55 + d.

Fixpoint uprintint_digits (fuel : nat) (x base : Z) : list Z :=
  match fuel with
  | O => []
  | S f => udigit (x mod base) :: (if x / base =? 0 then [] else uprintint_digits f (x / base) base)
  end.

(** What ends up in [buf], in order; 32 turns are enough for 32 bits. *)
Definition uprintint_buf (xx base : Z) (sgn : bool) : list Z :=
  let neg := sgn && (xx <? 0) in
  let x := if neg then u32 (- xx) else u32 xx in
  uprintint_digits 32 x base ++ (if neg then [45] else []).

Definition uprintint (fd xx base : Z) (sgn : bool) : U unit :=
  let buf := uprintint_buf xx base sgn in
  if 16 <? Z.of_nat (length buf) then Crash "printint: buf overflow"
  else ufor (rev buf) (putc fd).

Definition uprintptr (fd x : Z) : U unit :=
  putc fd 48 ;; putc fd 120 ;;
  ufor (seqZ 0 16) (fun i => putc fd (udigit (Z.shiftr (u64 (Z.shiftl x (4 * i))) 60))).

Definition uva_num (args : list parg) : U (Z * list parg) :=
  match args with Num z :: a => Done (z, a) | _ => Crash "va_arg" end.
Definition uva_str (args : list parg) : U (option (list Z) * list parg) :=
  match args with Str s :: a => Done (s, a) | _ => Crash "va_arg" end.

(** [printint] takes an [int]: the 64-bit conversions are cut to 32 bits. *)
Definition uconv (fd : Z) (args : list parg) (base : Z) (sgn : bool) : U (list parg) :=
  let? ' (z, a) := uva_num args in uprintint fd (s32 z) base sgn ;; Done a.

(** One [%] sequence, [fmt] being what follows the [%]. *)
Definition vprintf_conv (fd : Z) (fmt : list Z) (args : list parg) : U (nat * list parg) :=
  let c0 := nth 0 fmt 0 in
  let c1 := if c0 =? 0 then 0 else nth 1 fmt 0 in
  let c2 := if c1 =? 0 then 0 else nth 2 fmt 0 in
  let ok n m := (let? a := m in Done (n, a)) in
  if c0 =? 100 then ok 1%nat (uconv fd args 10 true)
  else if (c0 =? 108) && (c1 =? 100) then ok 2%nat (uconv fd args 10 true)
  else if (c0 =? 108) && (c1 =? 108) && (c2 =? 100) then ok 3%nat (uconv fd args 10 true)
  else if c0 =? 117 then ok 1%nat (uconv fd args 10 false)
  else if (c0 =? 108) && (c1 =? 117) then ok 2%nat (uconv fd args 10 false)
  else if (c0 =? 108) && (c1 =? 108) && (c2 =? 117) then ok 3%nat (uconv fd args 10 false)
  else if c0 =? 120 then ok 1%nat (uconv fd args 16 false)
  else if (c0 =? 108) && (c1 =? 120) then ok 2%nat (uconv fd args 16 false)
  else if (c0 =? 108) && (c1 =? 108) && (c2 =? 120) then ok 3%nat (uconv fd args 16 false)
  else if c0 =? 112 then ok 1%nat (let? ' (z, a) := uva_num args in uprintptr fd (u64 z) ;; Done a)
  else if c0 =? 115 then
    ok 1%nat (let? ' (s, a) := uva_str args in ufor (default null_str s) (putc fd) ;; Done a)
  else if c0 =? 37 then ok 1%nat (putc fd 37 ;; Done args)
  else ok 1%nat (putc fd 37 ;; putc fd c0 ;; Done args).

(** A [%] at the end of the format prints nothing. *)
Fixpoint vprintf (fuel : nat) (fd : Z) (fmt : list Z) (args : list parg) : U unit :=
  match fuel, fmt with
  | S f, c :: fmt' =>
      if negb (c =? 37) then putc fd c ;; vprintf f fd fmt' args
      else match fmt' with
           | [] => Done tt
           | _ => let? ' (n, a) := vprintf_conv fd fmt' args in vprintf f fd (drop n fmt') a
           end
  | _, _ => Done tt
  end.

Definition fprintf (fd : Z) (fmt : list Z) (args : list parg) : U unit := vprintf (S (length fmt)) fd fmt args.
Definition printf (fmt : list Z) (args : list parg) : U unit := fprintf 1 fmt args.

(** A format without conversions but for strings is what the programs use most. *)
Definition err (fmt : string) (args : list parg) : U unit := fprintf 2 (str_bytes fmt ++ [10]) args.
Definition say (fmt : string) (args : list parg) : U unit := printf (str_bytes fmt ++ [10]) args.

(** ** Strings in memory and lists of bytes *)

(** The bytes of the string at [a], at most [k] of them. *)
Fixpoint cstr (k : nat) (m : mem) (a : Z) : list Z :=
  match k with
  | O => []
  | S k' => if load8 m a =? 0 then [] else load8 m a :: cstr k' m (a + 1)
  end.

(** The string [l], with its NUL, from index [i] on. *)
Fixpoint str_at (p : cptr) (i : Z) (l : list Z) : Prop :=
  match l with
  | [] => p i = 0
  | a :: l' => p i = a /\ a <> 0 /\ str_at p (i + 1) l'
  end.

Lemma str_at_ext p q i j l : (forall k, 0 <= k <= Z.of_nat (length l) -> p (i + k) = q (j + k)) -> str_at p i l -> str_at q j l.
Proof.
  revert i j. induction l as [|a l IH]; intros i j H; cbn.
  - specialize (H 0 ltac:(cbn; lia)). rewrite !Z.add_0_r in H. congruence.
  - intros (H1 & H2 & H3). pose proof (H 0 ltac:(cbn; lia)) as E. rewrite !Z.add_0_r in E.
    split; [congruence|]. split; [done|]. eapply IH; [|exact H3].
    intros k Hk. specialize (H (k + 1) ltac:(cbn [length]; lia)).
    replace (i + 1 + k) with (i + (k + 1)) by lia. by replace (j + 1 + k) with (j + (k + 1)) by lia.
Qed.

Lemma str_at_app p l l' i : str_at p i (l ++ l') -> str_at p (i + Z.of_nat (length l)) l'.
Proof.
  revert i. induction l as [|a l IH]; intros i; cbn [app length]; [by rewrite Z.add_0_r|].
  intros (_ & _ & H). replace (i + Z.of_nat (S (length l))) with (i + 1 + Z.of_nat (length l)) by lia. by apply IH.
Qed.

Lemma str_at_lookup p l i k c : str_at p i l -> l !! k = Some c -> p (i + Z.of_nat k) = c /\ c <> 0.
Proof.
  revert i k. induction l as [|a l IH]; intros i [|k] H E; cbn in E; try done.
  - injection E as ->. rewrite Z.add_0_r. by destruct H as (-> & ? & _).
  - destruct H as (_ & _ & H). destruct (IH _ _ H E) as [<- ?]. split; [f_equal; lia|done].
Qed.

Lemma str_at_end p l i : str_at p i l -> p (i + Z.of_nat (length l)) = 0.
Proof. intros H. rewrite <- (app_nil_r l) in H. exact (str_at_app p l [] i H). Qed.

(** [p + i] as a start: the string at a pointer into memory. *)
Lemma str_at_shift m p i l : str_at (at_mem m p) i l <-> str_at (at_mem m (p + i)) 0 l.
Proof. split; apply str_at_ext; intros k Hk; unfold at_mem; f_equal; lia. Qed.

Lemma str_at_0 m p i l : str_at (at_mem m p) i l -> str_at (at_mem m (p + i)) 0 l.
Proof. apply str_at_shift. Qed.

(** A string, given what its bytes are. *)
Lemma str_at_intro m p l : Forall (fun c => 0 < c) l ->
  (forall k c, l !! k = Some c -> load8 m (p + Z.of_nat k) = c) -> load8 m (p + Z.of_nat (length l)) = 0 -> str_at (at_mem m p) 0 l.
Proof.
  revert p. induction l as [|a l IH]; intros p Hl H H0; cbn.
  - unfold at_mem. cbn in H0. by rewrite Z.add_0_r in *.
  - apply Forall_cons in Hl as [Ha Hl]. split; [exact (H 0%nat a eq_refl)|]. split; [lia|]. apply str_at_shift. apply IH; [done| |].
    + intros k c Hk. rewrite <- (H (S k) c Hk). f_equal. lia.
    + etransitivity; [|exact H0]. f_equal. cbn [length]. lia.
Qed.

(** The string [w] is at [a]. *)
Definition text_at (m : mem) (a : Z) (w : list Z) : Prop := str_at (at_mem m a) 0 w.

(** What is before [p] stays. *)
Lemma text_below m m' p a w : (forall x, x < p -> load8 m' x = load8 m x) -> text_at m a w -> a + Z.of_nat (length w) < p -> text_at m' a w.
Proof. intros H Hs Ha. eapply str_at_ext; [|exact Hs]. intros j Hj. unfold at_mem. rewrite H by lia. done. Qed.

(** A text put into memory. *)
Definition buffer_of (text : string) : mem := store_bytes (fun _ => 0) 1000 (str_bytes text).

Lemma text_at_buffer text : Forall (fun c => 0 < c < 256) (str_bytes text) -> text_at (buffer_of text) 1000 (str_bytes text).
Proof.
  intros H. unfold buffer_of. apply str_at_intro.
  - eapply Forall_impl; [exact H|]. intros c [? ?]. cbv beta. lia.
  - intros k c Hk. pose proof (lookup_lt_Some _ _ _ Hk). rewrite load8_store_bytes. zdec; try lia.
    replace (Z.to_nat (1000 + Z.of_nat k - 1000)) with k by lia. rewrite (nth_lookup_Some _ _ _ _ Hk). apply u8_small.
    pose proof (proj1 (Forall_lookup _ _) H _ _ Hk). cbv beta in *. lia.
  - rewrite load8_store_bytes. zdec; try lia. done.
Qed.

Lemma cstr_at k m a l : str_at (at_mem m a) 0 l -> (length l <= k)%nat -> cstr k m a = l.
Proof.
  revert m a l. induction k as [|k IH]; intros m a [|b l] H Hl; cbn in Hl |- *; try done; try lia.
  - cbn in H. unfold at_mem in H. rewrite Z.add_0_r in H. by rewrite H.
  - destruct H as (H1 & H2 & H3). unfold at_mem in H1. rewrite Z.add_0_r in H1. rewrite H1.
    destruct (Z.eqb_spec b 0); [done|]. f_equal. apply IH; [|lia].
    eapply str_at_ext; [|exact H3]. intros j Hj. unfold at_mem. f_equal. lia.
Qed.

Lemma strcmp_refines p q l : forall fuel i l', str_at p i l -> str_at q i l' -> (length l < fuel)%nat ->
  strcmp_mem fuel p q i = Some (strcmp l l').
Proof.
  induction l as [|a l IH]; intros [|fuel] i l' Hp Hq Hf; cbn in Hf |- *; try lia.
  - rewrite Hp. change (0 =? 0) with true. cbn [negb andb]. f_equal. destruct l'; cbn [str_at hd] in *; destruct_and?; lia.
  - destruct Hp as (-> & Hne & Hp). destruct (Z.eqb_spec a 0); [done|]. cbn [negb andb].
    assert (q i = hd 0 l') as -> by (destruct l'; cbn in Hq |- *; tauto).
    destruct (Z.eqb_spec a (hd 0 l')) as [E|]; [|done].
    destruct l' as [|b l']; [done|]. apply IH; [done|apply Hq|lia].
Qed.

Lemma strchr_refines p c l : forall fuel i, c <> 0 -> str_at p i l -> (length l < fuel)%nat ->
  strchr_loop fuel p c i = Some ((fun k : nat => i + Z.of_nat k) <$> strchr l c).
Proof.
  induction l as [|a l IH]; intros [|fuel] i Hc Hp Hf; cbn in Hf |- *; try lia.
  - by rewrite Hp.
  - destruct Hp as (-> & Hne & Hp). destruct (Z.eqb_spec a 0); [done|]. destruct (Z.eqb_spec a c).
    + cbn. do 2 f_equal. lia.
    + rewrite IH by (first [done|lia]). f_equal. destruct (strchr l c); cbn; [|done]. f_equal. lia.
Qed.

(** The destination holds the string, and nothing else changes. *)
Lemma strcpy_spec l : forall fuel m s t, str_at (at_mem m t) 0 l -> (length l < fuel)%nat ->
  s + Z.of_nat (length l) < t \/ t + Z.of_nat (length l) < s ->
  exists m', strcpy fuel m s t = Some m' /\ str_at (at_mem m' s) 0 l /\
    forall x, x < s \/ s + Z.of_nat (length l) < x -> load8 m' x = load8 m x.
Proof.
  induction l as [|a l IH]; intros [|fuel] m s t Hp Hf Hd; cbn in Hf; try lia.
  - cbn in Hp. unfold at_mem in Hp. rewrite Z.add_0_r in Hp. cbn [strcpy]. rewrite Hp. cbn. eexists. split; [done|].
    split; [|intros x Hx; rewrite load8_store8; zdec; cbn in Hx; lia].
    unfold at_mem. rewrite load8_store8. zdec; [done|lia].
  - destruct Hp as (Ha & Hne & Hp). unfold at_mem in Ha. rewrite Z.add_0_r in Ha. cbn [length] in Hd. cbn [strcpy].
    rewrite Ha. destruct (Z.eqb_spec a 0); [done|].
    destruct (IH fuel (store8 m s a) (s + 1) (t + 1)) as (m' & Hrun & Hs & Ho); [|lia|lia|].
    { eapply str_at_ext; [|exact Hp]. intros k Hk. unfold at_mem. rewrite load8_store8. zdec; [lia|]. f_equal. lia. }
    exists m'. split; [done|]. split.
    + cbn. split; [|split; [done|]].
      * unfold at_mem. rewrite Ho by lia. rewrite load8_store8. zdec; [|lia]. pose proof (load8_range m t). apply u8_small. lia.
      * eapply str_at_ext; [|exact Hs]. intros k Hk. unfold at_mem. f_equal. lia.
    + intros x Hx. cbn [length] in Hx. rewrite Ho by lia. rewrite load8_store8. zdec; [lia|done].
Qed.

Lemma strcmp_eq p q : Forall (fun a => 0 < a) p -> Forall (fun a => 0 < a) q -> strcmp p q = 0 <-> p = q.
Proof.
  revert q. induction p as [|a p IH]; intros q Hp Hq; cbn.
  - destruct q as [|b q]; cbn; [done|]. apply Forall_cons in Hq as [Hb _]. split; [lia|done].
  - apply Forall_cons in Hp as [Ha Hp]. destruct q as [|b q]; cbn.
    + destruct (Z.eqb_spec a 0); [lia|]. split; [lia|done].
    + apply Forall_cons in Hq as [Hb Hq]. destruct (Z.eqb_spec a b) as [->|].
      * rewrite IH by done. split; [by intros ->|by intros [=]].
      * split; [lia|]. intros [=]. done.
Qed.

Lemma load8_umemmove m dst src n x : 0 <= n ->
  load8 (umemmove m dst src n) x = load8 (memmove m dst src n) x.
Proof.
  intros Hn. rewrite load8_memmove by done. unfold umemmove. destruct (Z.ltb_spec dst src).
  - rewrite load8_copy_up by lia. zdec; try lia; done.
  - rewrite load8_copy_down by lia. zdec; try lia; f_equal; lia.
Qed.

(** ** Printing and reading numbers *)

Definition is_digit (a : Z) : Prop := 48 <= a <= 57.

Lemma atoi_loop_snoc l a n : Forall is_digit l -> is_digit a -> atoi_loop (l ++ [a]) n = s32 (atoi_loop l n * 10 + a - 48).
Proof.
  intros Hl Ha. revert n. induction Hl as [|b l Hb Hl IH]; intros n; cbn.
  - unfold is_digit in Ha. zdec; first [lia|done].
  - unfold is_digit in Hb. zdec; first [lia|apply IH].
Qed.

Lemma udigit_dec x : is_digit (udigit (x mod 10)).
Proof. unfold udigit, is_digit. zcase; lia. Qed.

Lemma uprintint_digits_dec f x : Forall is_digit (uprintint_digits f x 10).
Proof.
  revert x. induction f as [|f IH]; intros x; cbn [uprintint_digits]; constructor; [apply udigit_dec|].
  zcase; [constructor|apply IH].
Qed.

Lemma atoi_digits f : forall x, 0 <= x < 2 ^ 31 -> x < 10 ^ Z.of_nat f -> atoi (rev (uprintint_digits f x 10)) = x.
Proof.
  induction f as [|f IH]; intros x Hx Hf; [change (0 = x); cbn in Hf; lia|]. cbn [uprintint_digits rev].
  rewrite Nat2Z.inj_succ, Z.pow_succ_r in Hf by lia.
  assert (forall l n, l = atoi_loop (rev (if x / 10 =? 0 then [] else uprintint_digits f (x / 10) 10)) 0 ->
    l = x / 10 -> n = x mod 10 -> s32 (l * 10 + udigit n - 48) = x) as Hs.
  { intros l n _ -> ->. unfold udigit. zcase; [|lia]. unfold s32, u32. rewrite Z.mod_small by lia. zcase; lia. }
  unfold atoi. rewrite atoi_loop_snoc; [|apply Forall_rev; zcase; [constructor|apply uprintint_digits_dec]|apply udigit_dec].
  apply Hs; [done| |done]. zcase; [cbn; lia|]. apply IH; lia.
Qed.

(** ** What printf prints *)

(** The C string that an array of bytes holds. *)
Fixpoint before_nul (l : list Z) : list Z :=
  match l with [] => [] | a :: l' => if a =? 0 then [] else a :: before_nul l' end.

Lemma ubind_assoc {A B D} (m : U A) (f : A -> U B) (g : B -> U D) : ubind (ubind m f) g = ubind m (fun x => ubind (f x) g).
Proof. induction m as [a|c k IH|st|why|]; cbn; try done. f_equal. apply functional_extensionality. intros r. apply IH. Qed.

Lemma ubind_ext {A B} (m : U A) (f g : A -> U B) : (forall a, f a = g a) -> ubind m f = ubind m g.
Proof. intros H. f_equal. by apply functional_extensionality. Qed.

Lemma ufor_app {A} (l l' : list A) f : ufor (l ++ l') f = (ufor l f ;; ufor l' f).
Proof. induction l as [|x l IH]; cbn; [done|]. rewrite IH. by rewrite ubind_assoc. Qed.

Lemma ubind_tt (m : U unit) : (m ;; Done tt) = m.
Proof. induction m as [[]|c k IH|st|why|]; cbn; try done. f_equal. apply functional_extensionality. intros r. apply IH. Qed.

(** A decimal number, as [%d] prints it. *)
Definition dec (x : Z) : list Z := rev (uprintint_buf (s32 x) 10 true).

Lemma uprintint_digits_length f : forall k x, 0 <= x < 10 ^ Z.of_nat k -> (0 < k)%nat -> (length (uprintint_digits f x 10) <= k)%nat.
Proof.
  induction f as [|f IH]; intros k x Hx Hk; cbn; [lia|]. zcase; cbn; [lia|].
  destruct k as [|k]; [lia|]. rewrite Nat2Z.inj_succ, Z.pow_succ_r in Hx by lia.
  destruct k as [|k]; [cbn in Hx; lia|]. specialize (IH (S k) (x / 10) ltac:(lia) ltac:(lia)). lia.
Qed.

Lemma s32_range x : - 2 ^ 31 <= s32 x < 2 ^ 31.
Proof. unfold s32, u32. zcase; lia. Qed.

(** [printint] never overruns its buffer in base ten. *)
Lemma uprintint_dec fd x : uprintint fd (s32 x) 10 true = ufor (dec x) (putc fd).
Proof.
  unfold uprintint, dec. zcase; [|done]. exfalso. pose proof (s32_range x) as Hx.
  match goal with H : 16 < _ |- _ => revert H end. unfold uprintint_buf. rewrite length_app.
  match goal with |- context [uprintint_digits 32 ?y 10] => pose proof (uprintint_digits_length 32 10 y) as Hl end.
  assert (length (if true && (s32 x <? 0)%Z then [45%Z] else []) <= 1)%nat by (destruct (true && _); cbn; lia).
  assert (0 <= (if true && (s32 x <? 0) then u32 (- s32 x) else u32 (s32 x)) < 10 ^ Z.of_nat 10) as Hb.
  { unfold u32. change (10 ^ Z.of_nat 10) with 10000000000. destruct (true && _); lia. }
  specialize (Hl Hb ltac:(lia)). intros. lia.
Qed.

(** The text of one conversion, how much of the format it takes and the
    arguments that are left; [None] for a missing argument. *)
Definition render_conv (fmt : list Z) (args : list parg) : option (list Z * nat * list parg) :=
  let c0 := nth 0 fmt 0 in
  let c1 := nth 1 fmt 0 in
  if c0 =? 100 then match args with Num z :: a => Some (dec z, 1%nat, a) | _ => None end
  else if (c0 =? 108) || (c0 =? 117) || (c0 =? 120) || (c0 =? 112) then None
  else if c0 =? 115 then match args with Str w :: a => Some (default null_str w, 1%nat, a) | _ => None end
  else if c0 =? 37 then Some ([37], 1%nat, args)
  else Some ([37; c0], 1%nat, args).

(** The text of a format with [%d], [%s] and [%%]. *)
Fixpoint render (fuel : nat) (fmt : list Z) (args : list parg) : option (list Z) :=
  match fuel, fmt with
  | S f, c :: fmt' =>
      if negb (c =? 37) then (c ::.) <$> render f fmt' args
      else match fmt' with
           | [] => Some []
           | _ => ' (l, n, a) ← render_conv fmt' args; (l ++.) <$> render f (drop n fmt') a
           end
  | _, _ => Some []
  end.

Lemma vprintf_conv_render fd fmt args l n a : render_conv fmt args = Some (l, n, a) ->
  vprintf_conv fd fmt args = (ufor l (putc fd) ;; Done (n, a)).
Proof.
  unfold render_conv, vprintf_conv. zcase.
  - destruct args as [|[z|w] args]; intros [= <- <- <-]. cbn [uconv uva_num ubind]. by rewrite uprintint_dec, ubind_assoc.
  - destruct (Z.eqb_spec (nth 0 fmt 0) 108); [done|]. destruct (Z.eqb_spec (nth 0 fmt 0) 117); [done|].
    destruct (Z.eqb_spec (nth 0 fmt 0) 120); [done|]. destruct (Z.eqb_spec (nth 0 fmt 0) 112); [done|]. cbn [orb andb].
    destruct (Z.eqb_spec (nth 0 fmt 0) 115).
    { destruct args as [|[z|w] args]; intros [= <- <- <-]. cbn [uva_str ubind]. by rewrite !ubind_assoc. }
    destruct (Z.eqb_spec (nth 0 fmt 0) 37); by intros [= <- <- <-].
Qed.

(** [vprintf] writes the text of its format, one byte at a time. *)
Lemma vprintf_render fd : forall fuel fmt args l, render fuel fmt args = Some l -> vprintf fuel fd fmt args = ufor l (putc fd).
Proof.
  induction fuel as [|f IH]; intros fmt args l H; [by injection H as <-|]. destruct fmt as [|c fmt]; [by injection H as <-|].
  cbn [render vprintf] in *. destruct (negb (c =? 37)).
  - destruct (render f fmt args) as [l'|] eqn:E; [|done]. injection H as <-. by rewrite (IH _ _ _ E).
  - destruct fmt as [|c0 fmt]; [by injection H as <-|].
    destruct (render_conv (c0 :: fmt) args) as [[[l1 n] a]|] eqn:E1; [|done]. cbn in H.
    destruct (render f (drop n (c0 :: fmt)) a) as [l'|] eqn:E; [|done]. injection H as <-.
    rewrite (vprintf_conv_render fd _ _ _ _ _ E1), ubind_assoc. cbn [ubind]. by rewrite (IH _ _ _ E), ufor_app.
Qed.

Lemma render_plain f c fmt args : c <> 37 -> render (S f) (c :: fmt) args = (c ::.) <$> render f fmt args.
Proof. intros H. cbn. by destruct (Z.eqb_spec c 37). Qed.
Lemma render_d f fmt z args : render (S f) (37 :: 100 :: fmt) (Num z :: args) = (dec z ++.) <$> render f fmt args.
Proof. reflexivity. Qed.
Lemma render_s f fmt w args : render (S f) (37 :: 115 :: fmt) (Str (Some w) :: args) = (w ++.) <$> render f fmt args.
Proof. reflexivity. Qed.
Lemma render_nil f : render f [] [] = Some [].
Proof. by destruct f. Qed.

(** Evaluate the bytes of the strings of a goal, and the text of a format. *)
Ltac str_eval := repeat match goal with |- context [str_bytes ?x] =>
  let y := eval vm_compute in (str_bytes x) in assert (str_bytes x = y) as -> by (vm_compute; reflexivity) end.
Ltac rendering := apply vprintf_render; str_eval; cbn [app length];
  repeat first [rewrite render_d | rewrite render_s | rewrite render_plain by discriminate | rewrite render_nil];
  cbn [fmap option_fmap option_map]; rewrite <- ?app_assoc; cbn [app]; reflexivity.
