(* ===== verification/Uos.v ===== *)
(** * The system that user programs see

    The contract of the system calls, stated on processes as trees of calls:
    descriptors that share offsets after [fork] and [dup], pipes as queues of
    bounded size, files as byte strings, zombies and [wait].  It abstracts from
    the kernel's tables, locks and caches, whose models are the other files; a
    pipe is the queue that [PipeSpec] shows [pipe.c] to implement.  One step is
    one system call of one process, or the part of a [write] to a pipe that fits;
    which process moves is left open. *)

From stdpp Require Import gmap.
From S2P Require Import Prelude Mem Cstring Uprog Ulib.

Inductive okind : Type :=
| KCons
| KPipeR (p : nat)
| KPipeW (p : nat)
| KFile (path : list Z) (rd wr : bool).

(** An open file, shared by the descriptors that refer to it. *)
Record ofile : Type := mk_ofile { of_kind : okind; of_off : nat }.

(** [done] counts the bytes of a pending [write] that are in the pipe. *)
Inductive pstatus : Type :=
| Running (prog : U Z) (done : nat)
| Zombie (status : Z)
| Gone.

Record uproc : Type := mk_uproc { up_pid : Z; up_parent : nat; up_fds : list (option nat); up_run : pstatus }.

Record os : Type := mk_os {
  os_procs : list uproc;
  os_ofiles : list ofile;
  os_pipes : list (list Z);
  os_files : gmap (list Z) (list Z);
  os_in : list Z;
  os_out : list Z;
  os_nextpid : Z }.

Definition set_procs (ps : list uproc) (s : os) : os :=
  mk_os ps (os_ofiles s) (os_pipes s) (os_files s) (os_in s) (os_out s) (os_nextpid s).
Definition set_ofiles (l : list ofile) (s : os) : os :=
  mk_os (os_procs s) l (os_pipes s) (os_files s) (os_in s) (os_out s) (os_nextpid s).
Definition set_pipes (l : list (list Z)) (s : os) : os :=
  mk_os (os_procs s) (os_ofiles s) l (os_files s) (os_in s) (os_out s) (os_nextpid s).
Definition set_files (l : gmap (list Z) (list Z)) (s : os) : os :=
  mk_os (os_procs s) (os_ofiles s) (os_pipes s) l (os_in s) (os_out s) (os_nextpid s).
Definition set_in (l : list Z) (s : os) : os :=
  mk_os (os_procs s) (os_ofiles s) (os_pipes s) (os_files s) l (os_out s) (os_nextpid s).
Definition set_out (l : list Z) (s : os) : os :=
  mk_os (os_procs s) (os_ofiles s) (os_pipes s) (os_files s) (os_in s) l (os_nextpid s).
Definition set_nextpid (n : Z) (s : os) : os :=
  mk_os (os_procs s) (os_ofiles s) (os_pipes s) (os_files s) (os_in s) (os_out s) n.

Definition set_run (r : pstatus) (p : uproc) : uproc := mk_uproc (up_pid p) (up_parent p) (up_fds p) r.
Definition set_fds (l : list (option nat)) (p : uproc) : uproc := mk_uproc (up_pid p) (up_parent p) l (up_run p).
Definition set_parent (q : nat) (p : uproc) : uproc := mk_uproc (up_pid p) q (up_fds p) (up_run p).

Definition on_proc (i : nat) (f : uproc -> uproc) (s : os) : os := set_procs (alter f i (os_procs s)) s.
Definition on_ofile (o : nat) (f : ofile -> ofile) (s : os) : os := set_ofiles (alter f o (os_ofiles s)) s.
Definition on_pipe (p : nat) (f : list Z -> list Z) (s : os) : os := set_pipes (alter f p (os_pipes s)) s.

(** ** Files *)

Definition file_at (fs : gmap (list Z) (list Z)) (path : list Z) : option (list Z) := fs !! path.
Definition file_set (path l : list Z) (fs : gmap (list Z) (list Z)) : gmap (list Z) (list Z) := <[path := l]> fs.

Lemma file_at_set fs path l : file_at (file_set path l fs) path = Some l.
Proof. unfold file_at, file_set. by rewrite lookup_insert_eq. Qed.
Lemma file_set_set fs path l l' : file_set path l (file_set path l' fs) = file_set path l fs.
Proof. unfold file_set. by rewrite insert_insert_eq. Qed.

(** ** Descriptors *)

Definition fd_get (p : uproc) (fd : Z) : option nat :=
  if fd <? 0 then None else mjoin (up_fds p !! Z.to_nat fd).
Definition fd_put (fd : nat) (v : option nat) (p : uproc) : uproc := set_fds (<[fd := v]> (up_fds p)) p.

(** The lowest descriptor that is free. *)
Definition fd_free (l : list (option nat)) : option nat := fst <$> list_find (fun o => o = None) l.

Definition kind_of (s : os) (p : uproc) (fd : Z) : option (nat * ofile) :=
  o ← fd_get p fd; f ← os_ofiles s !! o; Some (o, f).

Definition is_read_end (q : nat) (k : okind) : bool := match k with KPipeR q' => (q =? q')%nat | _ => false end.
Definition is_write_end (q : nat) (k : okind) : bool := match k with KPipeW q' => (q =? q')%nat | _ => false end.

(** Some process has a descriptor of that kind. *)
Definition has_end (k : okind -> bool) (s : os) : bool :=
  existsb (fun p => existsb (fun o => match o with
    | Some o => match os_ofiles s !! o with Some f => k (of_kind f) | None => false end
    | None => false end) (up_fds p)) (os_procs s).

(** Descriptors 0, 1 and 2 on the console, open file 0. *)
Definition console_fds : list (option nat) := Some 0%nat :: Some 0%nat :: Some 0%nat :: replicate 13 None.

(** ** The calls *)

Definition PIPE_ROOM : nat := 512.

(** Go on with the answer to a call. *)
Definition answer (i : nat) (k : reply -> U Z) (v : Z) (d : list Z) (s : os) : os :=
  on_proc i (set_run (Running (k (mk_reply v d)) 0)) s.

Definition do_exit (i : nat) (status : Z) (s : os) : os :=
  let ps := map (fun p => if (up_parent p =? i)%nat then set_parent 0 p else p) (os_procs s) in
  on_proc i (fun p => set_run (Zombie status) (set_fds [] p)) (set_procs ps s).

Definition do_fork (i : nat) (p : uproc) (k : reply -> U Z) (s : os) : os :=
  let pid := os_nextpid s in
  let c := mk_uproc pid i (up_fds p) (Running (k (mk_reply 0 [])) 0) in
  let s := answer i k pid [] s in
  set_nextpid (pid + 1) (set_procs (os_procs s ++ [c]) s).

Definition is_child (i : nat) (p : uproc) : bool :=
  (up_parent p =? i)%nat && match up_run p with Gone => false | _ => true end.
Definition is_zombie_child (i : nat) (p : uproc) : Prop :=
  up_parent p = i /\ match up_run p with Zombie _ => True | _ => False end.
#[export] Instance is_zombie_child_dec i p : Decision (is_zombie_child i p).
Proof. unfold is_zombie_child. destruct (up_run p); apply _. Defined.

Definition do_wait (i : nat) (k : reply -> U Z) (s : os) : option os :=
  match list_find (is_zombie_child i) (os_procs s) with
  | Some (j, c) =>
      let st := match up_run c with Zombie st => st | _ => 0 end in
      Some (answer i k (up_pid c) [st] (on_proc j (set_run Gone) s))
  | None => if existsb (is_child i) (os_procs s) then None else Some (answer i k (-1) [] s)
  end.

Definition do_pipe (i : nat) (p : uproc) (k : reply -> U Z) (s : os) : os :=
  let n := length (os_ofiles s) in
  match fd_free (up_fds p) with
  | Some a =>
      match fd_free (<[a := Some n]> (up_fds p)) with
      | Some b =>
          let q := length (os_pipes s) in
          let s := set_ofiles (os_ofiles s ++ [mk_ofile (KPipeR q) 0; mk_ofile (KPipeW q) 0]) s in
          let s := set_pipes (os_pipes s ++ [[]]) s in
          let s := on_proc i (fun p => fd_put b (Some (S n)) (fd_put a (Some n) p)) s in
          answer i k 0 [Z.of_nat a; Z.of_nat b] s
      | None => answer i k (-1) [] s
      end
  | None => answer i k (-1) [] s
  end.

(** A line of the console, or as much of it as was asked for. *)
Fixpoint cons_line (n : nat) (l : list Z) : list Z :=
  match n, l with
  | S n', c :: l' => c :: (if c =? 10 then [] else cons_line n' l')
  | _, _ => []
  end.

Definition do_read (i : nat) (p : uproc) (k : reply -> U Z) (fd n : Z) (s : os) : option os :=
  match kind_of s p fd with
  | Some (o, mk_ofile KCons _) =>
      match os_in s with
      | [] => None
      | l => let d := cons_line (Z.to_nat n) l in
             Some (answer i k (Z.of_nat (length d)) d (set_in (drop (length d) l) s))
      end
  | Some (o, mk_ofile (KPipeR q) _) =>
      match default [] (os_pipes s !! q) with
      | [] => if has_end (is_write_end q) s then None else Some (answer i k 0 [] s)
      | l => let d := take (Z.to_nat n) l in
             Some (answer i k (Z.of_nat (length d)) d (on_pipe q (drop (length d)) s))
      end
  | Some (o, mk_ofile (KFile path true _) off) =>
      let d := take (Z.to_nat n) (drop off (default [] (file_at (os_files s) path))) in
      Some (answer i k (Z.of_nat (length d)) d (on_ofile o (fun f => mk_ofile (of_kind f) (off + length d)) s))
  | _ => Some (answer i k (-1) [] s)
  end.

Definition overwrite (off : nat) (bs l : list Z) : list Z := take off l ++ bs ++ drop (off + length bs) l.

Definition do_write (i : nat) (p : uproc) (k : reply -> U Z) (fd : Z) (bs : list Z) (done : nat) (s : os) : option os :=
  match kind_of s p fd with
  | Some (_, mk_ofile KCons _) => Some (answer i k (Z.of_nat (length bs)) [] (set_out (os_out s ++ bs) s))
  | Some (_, mk_ofile (KPipeW q) _) =>
      if negb (has_end (is_read_end q) s) then Some (answer i k (-1) [] s)
      else
        let left := drop done bs in
        let room := (PIPE_ROOM - length (default [] (os_pipes s !! q)))%nat in
        if (length left <=? room)%nat
        then Some (answer i k (Z.of_nat (length bs)) [] (on_pipe q (fun l => l ++ left) s))
        else if (room =? 0)%nat then None
        else Some (on_proc i (set_run (Running (Sys (Cwrite fd bs) k) (done + room)))
                     (on_pipe q (fun l => l ++ take room left) s))
  | Some (o, mk_ofile (KFile path _ true) off) =>
      let l := default [] (file_at (os_files s) path) in
      if (length l <? off)%nat then Some (answer i k (-1) [] s)
      else Some (answer i k (Z.of_nat (length bs)) []
             (on_ofile o (fun f => mk_ofile (of_kind f) (off + length bs))
               (set_files (file_set path (overwrite off bs l) (os_files s)) s)))
  | _ => Some (answer i k (-1) [] s)
  end.

Definition has_flag (flags bit : Z) : bool := negb (Z.land flags bit =? 0).

Definition do_open (i : nat) (p : uproc) (k : reply -> U Z) (path : list Z) (flags : Z) (s : os) : os :=
  match file_at (os_files s) path, has_flag flags O_CREATE, fd_free (up_fds p) with
  | None, false, _ | _, _, None => answer i k (-1) [] s
  | cur, _, Some fd =>
      let l := if has_flag flags O_TRUNC then [] else default [] cur in
      let kind := KFile path (negb (has_flag flags O_WRONLY)) (has_flag flags O_WRONLY || has_flag flags O_RDWR) in
      let o := length (os_ofiles s) in
      let s := set_ofiles (os_ofiles s ++ [mk_ofile kind 0]) (set_files (file_set path l (os_files s)) s) in
      answer i k (Z.of_nat fd) [] (on_proc i (fd_put fd (Some o)) s)
  end.

Definition do_close (i : nat) (p : uproc) (k : reply -> U Z) (fd : Z) (s : os) : os :=
  match fd_get p fd with
  | Some _ => answer i k 0 [] (on_proc i (fd_put (Z.to_nat fd) None) s)
  | None => answer i k (-1) [] s
  end.

Definition do_dup (i : nat) (p : uproc) (k : reply -> U Z) (fd : Z) (s : os) : os :=
  match fd_get p fd, fd_free (up_fds p) with
  | Some o, Some fd' => answer i k (Z.of_nat fd') [] (on_proc i (fd_put fd' (Some o)) s)
  | _, _ => answer i k (-1) [] s
  end.

Section os.

(** What the programs on the disk do, and what the calls that are outside of
    this contract answer. *)
Variable progs : list Z -> option (list (list Z) -> U Z).
Variable others : call -> reply.

Definition do_exec (i : nat) (k : reply -> U Z) (path : list Z) (argv : list (list Z)) (s : os) : os :=
  match progs path with
  | Some main => on_proc i (set_run (Running (main argv) 0)) s
  | None => answer i k (-1) [] s
  end.

(** The next call of process [i]; [None] when it sleeps or has ended. *)
Definition os_step (i : nat) (s : os) : option os :=
  match os_procs s !! i with
  | None => None
  | Some p =>
      match up_run p with
      | Running (Exit status) _ => Some (do_exit i status s)
      | Running (Crash _) _ => Some (do_exit i (-1) s)
      | Running (Sys c k) done =>
          match c with
          | Cfork => Some (do_fork i p k s)
          | Cwait => do_wait i k s
          | Cpipe => Some (do_pipe i p k s)
          | Cgetpid => Some (answer i k (up_pid p) [] s)
          | Cread fd n => do_read i p k fd n s
          | Cwrite fd bs => do_write i p k fd bs done s
          | Cclose fd => Some (do_close i p k fd s)
          | Cdup fd => Some (do_dup i p k fd s)
          | Cexec path argv => Some (do_exec i k path argv s)
          | Copen path flags => Some (do_open i p k path flags s)
          | c => let r := others c in Some (answer i k (r_val r) (r_data r) s)
          end
      | _ => None
      end
  end.

Definition ostep (s s' : os) : Prop := exists i, os_step i s = Some s'.

(** Every run from [s], however the processes are interleaved, comes to a state
    with [P]: it does not stop before, and it does not go on for ever. *)
Inductive inevitably (P : os -> Prop) : os -> Prop :=
| now s : P s -> inevitably P s
| later s : (exists s', ostep s s') -> (forall s', ostep s s' -> inevitably P s') -> inevitably P s.

(** A step of a system in which only one process can move. *)
Lemma inevitably_only (P : os -> Prop) i s s1 : os_step i s = Some s1 -> (forall j, j <> i -> os_step j s = None) ->
  inevitably P s1 -> inevitably P s.
Proof.
  intros Hi Hj Hs. apply later; [by exists s1, i|]. intros s' [j H]. destruct (decide (j = i)) as [->|Hne]; [congruence|].
  by rewrite Hj in H.
Qed.

Lemma os_step_out i s : (length (os_procs s) <= i)%nat -> os_step i s = None.
Proof. intros H. unfold os_step. by rewrite lookup_ge_None_2. Qed.

(** A run that picks the processes in the order [l]. *)
Fixpoint os_run (l : list nat) (s : os) : option os :=
  match l with [] => Some s | i :: l' => s' ← os_step i s; os_run l' s' end.

End os.

(** ** Printing while other processes run *)

Section beside.
Variable progs : list Z -> option (list (list Z) -> U Z).
Variable others : call -> reply.

(** The state [s] with process [i] at [r] and the console's output [o]. *)
Definition at_out (i : nat) (r : pstatus) (o : list Z) (s : os) : os := set_out o (on_proc i (set_run r) s).

Definition on_console (i : nat) (s : os) : Prop :=
  exists p o off, os_procs s !! i = Some p /\ kind_of s p 1 = Some (o, mk_ofile KCons off).

(** A family of states that the other processes keep within and can move in
    only so often, whatever process [i] has printed. *)
Variable i : nat.
Variable F : nat -> os -> Prop.
Hypothesis F_console : forall n s, F n s -> on_console i s.
Hypothesis F_closed : forall n s j p d o s', F n s -> j <> i ->
  os_step progs others j (at_out i (Running p d) o s) = Some s' ->
  exists m s1, (m < n)%nat /\ F m s1 /\ s' = at_out i (Running p d) o s1.

Lemma at_out_putc s c r o k : on_console i s ->
  os_step progs others i (at_out i (Running (putc 1 c ;; k) r) o s) = Some (at_out i (Running k 0) (o ++ [u8 c]) s).
Proof.
  intros (p & q & off & Hp & Hk). unfold os_step, at_out at 1. cbn [os_procs set_out on_proc set_procs].
  rewrite list_lookup_alter_eq, Hp. cbn [fmap option_fmap option_map up_run set_run putc write sysv ubind].
  unfold do_write. match goal with |- context [kind_of ?a ?b 1] => change (kind_of a b 1) with (kind_of s p 1) end. rewrite Hk.
  cbn [r_val ubind]. f_equal. unfold answer, at_out, on_proc, set_out, set_procs. cbn. f_equal. by rewrite alter_alter.
Qed.

Lemma print_beside P k : forall l n s o, F n s ->
  (forall m s1, F m s1 -> inevitably progs others P (at_out i (Running k 0) (o ++ map u8 l) s1)) ->
  inevitably progs others P (at_out i (Running (ufor l (putc 1) ;; k) 0) o s).
Proof using F_closed F_console.
  induction l as [|c l IH]; intros n s o Hs Hend.
  - specialize (Hend n s Hs). cbn in Hend |- *. by rewrite app_nil_r in Hend.
  - revert s Hs. induction (lt_wf n) as [n _ IHn]. intros s Hs. cbn [ufor]. rewrite ubind_assoc. apply later.
    + eexists. exists i. apply at_out_putc. by eapply F_console.
    + intros s' [j Hj]. destruct (decide (j = i)) as [->|Hne].
      * rewrite (at_out_putc s) in Hj by (by eapply F_console). injection Hj as <-. apply (IH n); [done|].
        intros m s1 Hs1. specialize (Hend m s1 Hs1). cbn in Hend. by rewrite <- app_assoc.
      * destruct (F_closed n s j _ _ _ _ Hs Hne Hj) as (m & s1 & Hm & Hs1 & ->). rewrite <- ubind_assoc. by apply (IHn m).
Qed.

End beside.
