(* ===== verification/Usmall.v ===== *)
(** * The small user programs

    [cat.c], [echo.c], [wc.c], [kill.c], [ln.c], [ls.c], [mkdir.c], [rm.c],
    [init.c], [zombie.c], [sleep.c], [uptime.c], [hw.c], [forktest.c] and
    [stressfs.c]: each [main] takes the strings of its [argv].  Loops that read to
    the end of a file, and the loops of [init], take fuel. *)

From S2P Require Import Prelude Mem Cstring Uprog Ulib.

(** ** cat.c *)

Definition cat_body (fd : Z) (_ : unit) : U (unit + Z) :=
  let? ' (n, d) := read fd 512 in
  if 0 <? n then
    let? w := write 1 (take (Z.to_nat n) d) in
    if negb (w =? n) then err "cat: write error" [] ;; exit 1 else Done (inl tt)
  else Done (inr n).

Definition cat (fuel : nat) (fd : Z) : U unit :=
  let? n := uloop fuel (cat_body fd) tt in
  if n <? 0 then err "cat: read error" [] ;; exit 1 else Done tt.

Definition cat_main (fuel : nat) (argv : list (list Z)) : U unit :=
  match tl argv with
  | [] => cat fuel 0 ;; exit 0
  | files =>
      ufor files (fun f =>
        let? fd := open f O_RDONLY in
        if fd <? 0 then err "cat: cannot open %s" [Str (Some f)] ;; exit 1
        else cat fuel fd ;; close fd ;; Done tt) ;;
      exit 0
  end.

(** ** echo.c *)

Fixpoint echo_args (args : list (list Z)) : U unit :=
  match args with
  | [] => Done tt
  | a :: args' =>
      write 1 a ;;
      (if bool_decide (args' = []) then write 1 [10] else write 1 [32]) ;;
      echo_args args'
  end.
Definition echo_main (argv : list (list Z)) : U unit := echo_args (tl argv) ;; exit 0.

(** ** wc.c *)

Record counts : Type := mk_counts { wc_l : Z; wc_w : Z; wc_c : Z; wc_inword : bool }.

Definition wc_seps : list Z := [32; 13; 9; 10; 11].

Definition wc_char (k : counts) (ch : Z) : counts :=
  let c := s32 (wc_c k + 1) in
  let l := if ch =? 10 then s32 (wc_l k + 1) else wc_l k in
  match strchr wc_seps ch with
  | Some _ => mk_counts l (wc_w k) c false
  | None => if wc_inword k then mk_counts l (wc_w k) c true else mk_counts l (s32 (wc_w k + 1)) c true
  end.

Definition wc_body (fd : Z) (k : counts) : U (counts + Z * counts) :=
  let? ' (n, d) := read fd 512 in
  if 0 <? n then Done (inl (fold_left wc_char (take (Z.to_nat n) d) k)) else Done (inr (n, k)).

Definition wc (fuel : nat) (fd : Z) (name : list Z) : U unit :=
  let? ' (n, k) := uloop fuel (wc_body fd) (mk_counts 0 0 0 false) in
  if n <? 0 then say "wc: read error" [] ;; exit 1
  else say "%d %d %d %s" [Num (wc_l k); Num (wc_w k); Num (wc_c k); Str (Some name)].

Definition wc_main (fuel : nat) (argv : list (list Z)) : U unit :=
  match tl argv with
  | [] => wc fuel 0 [] ;; exit 0
  | files =>
      ufor files (fun f =>
        let? fd := open f O_RDONLY in
        if fd <? 0 then say "wc: cannot open %s" [Str (Some f)] ;; exit 1
        else wc fuel fd f ;; close fd ;; Done tt) ;;
      exit 0
  end.

(** ** kill.c, ln.c, mkdir.c, rm.c *)

Definition kill_main (argv : list (list Z)) : U unit :=
  match tl argv with
  | [] => err "usage: kill pid..." [] ;; exit 1
  | pids => ufor pids (fun p => kill (atoi p) ;; Done tt) ;; exit 0
  end.

Definition ln_main (argv : list (list Z)) : U unit :=
  match argv with
  | [_; old; new] =>
      let? r := link old new in
      (if r <? 0 then err "link %s %s: failed" [Str (Some old); Str (Some new)] else Done tt) ;;
      exit 0
  | _ => err "Usage: ln old new" [] ;; exit 1
  end.

(** The loops that [break] at the first failure. *)
Fixpoint until_failure (f : list Z -> U Z) (msg : string) (args : list (list Z)) : U unit :=
  match args with
  | [] => Done tt
  | a :: args' =>
      let? r := f a in
      if r <? 0 then err msg [Str (Some a)] else until_failure f msg args'
  end.

Definition mkdir_main (argv : list (list Z)) : U unit :=
  match tl argv with
  | [] => err "Usage: mkdir files..." [] ;; exit 1
  | dirs => until_failure mkdir "mkdir: %s failed to create" dirs ;; exit 0
  end.

Definition rm_main (argv : list (list Z)) : U unit :=
  match tl argv with
  | [] => err "Usage: rm files..." [] ;; exit 1
  | files => until_failure unlink "rm: %s failed to delete" files ;; exit 0
  end.

(** ** ls.c *)

Definition T_DIR : Z := 1.
Definition T_FILE : Z := 2.
Definition T_DEVICE : Z := 3.
Definition DIRSIZ : nat := 14.

(** What follows the last slash. *)
Fixpoint after_slash (path : list Z) : list Z :=
  match path with
  | [] => []
  | c :: path' => if bool_decide (47 ∈ path') then after_slash path' else if c =? 47 then path' else path
  end.

(** Padded with blanks to [DIRSIZ] bytes. *)
Definition fmtname (path : list Z) : list Z :=
  let p := after_slash path in
  if (DIRSIZ <=? length p)%nat then p else p ++ replicate (DIRSIZ - length p) 32.

(** The fields of [struct stat]. *)
Definition st_ino (st : list Z) : Z := nth 1 st 0.
Definition st_type (st : list Z) : Z := nth 2 st 0.
Definition st_size (st : list Z) : Z := nth 4 st 0.

Definition ls_entry (path : list Z) (st : list Z) : U unit :=
  say "%s %d %d %d" [Str (Some (fmtname path)); Num (st_type st); Num (st_ino st); Num (s32 (st_size st))].

(** One turn of the loop over a directory; [path] ends in a slash. *)
Definition ls_body (fd : Z) (path : list Z) (_ : unit) : U (unit + unit) :=
  let? ' (n, de) := read fd 16 in
  if negb (n =? 16) then Done (inr tt)
  else if nth 0 de 0 + 256 * nth 1 de 0 =? 0 then Done (inl tt)
  else
    let buf := path ++ before_nul (take DIRSIZ (drop 2 de)) in
    let? ' (r, st) := stat buf in
    if r <? 0 then say "ls: cannot stat %s" [Str (Some buf)] ;; Done (inl tt)
    else ls_entry buf st ;; Done (inl tt).

Definition ls (fuel : nat) (path : list Z) : U unit :=
  let? fd := open path O_RDONLY in
  if fd <? 0 then err "ls: cannot open %s" [Str (Some path)]
  else
    let? ' (r, st) := fstat fd in
    if r <? 0 then err "ls: cannot stat %s" [Str (Some path)] ;; close fd ;; Done tt
    else
      (if (st_type st =? T_DEVICE) || (st_type st =? T_FILE) then ls_entry path st
       else if st_type st =? T_DIR then
         if (512 <? length path + 1 + DIRSIZ + 1)%nat then say "ls: path too long" []
         else uloop fuel (ls_body fd (path ++ [47])) tt
       else Done tt) ;;
      close fd ;;
      Done tt.

Definition ls_main (fuel : nat) (argv : list (list Z)) : U unit :=
  match tl argv with
  | [] => ls fuel (str_bytes ".") ;; exit 0
  | paths => ufor paths (ls fuel) ;; exit 0
  end.

(** ** init.c *)

Definition CONSOLE : Z := 1.

(** Wait for the shell; other processes that end are orphans. *)
Definition init_wait (pid : Z) (_ : unit) : U (unit + unit) :=
  let? ' (wpid, _) := wait in
  if wpid =? pid then Done (inr tt)
  else if wpid <? 0 then say "init: wait returned an error" [] ;; exit 1
  else Done (inl tt).

Definition init_body (fuel : nat) (_ : unit) : U (unit + unit) :=
  say "init: starting sh" [] ;;
  let? pid := fork in
  if pid <? 0 then say "init: fork failed" [] ;; exit 1
  else if pid =? 0 then
    exec (str_bytes "sh") [str_bytes "sh"] ;;
    say "init: exec sh failed" [] ;;
    exit 1
  else
    uloop fuel (init_wait pid) tt ;;
    Done (inl tt).

Definition init_main (fuel : nat) : U unit :=
  let? fd := open (str_bytes "console") O_RDWR in
  (if fd <? 0 then
     mknod (str_bytes "console") CONSOLE 0 ;;
     open (str_bytes "console") O_RDWR
   else Done 0) ;;
  dup 0 ;;
  dup 0 ;;
  uloop fuel (init_body fuel) tt.

(** ** zombie.c, sleep.c, uptime.c, hw.c *)

Definition zombie_main : U unit :=
  let? pid := fork in
  (if 0 <? pid then sleep 5 else Done 0) ;;
  exit 0.

Definition sleep_main (argv : list (list Z)) : U unit :=
  match argv with
  | [_; a] =>
      let ticks := atoi a in
      if ticks <=? 0 then say "Invalid number of ticks. Must be a positive integer." [] ;; exit 1
      else sleep ticks ;; exit 0
  | _ => say "Usage: sleep <number of ticks>" [] ;; exit 1
  end.

Definition uptime_main : U unit :=
  let? ticks := uptime in
  say "The uptime in ticks is %d" [Num ticks] ;;
  exit 0.

Definition hw_main : U unit := say "Hello World" [] ;; exit 0.

(** ** forktest.c *)

Definition forktest_print (s : string) : U unit := write 1 (str_bytes s ++ [10]) ;; Done tt.

Definition fork_body (n : nat) : U (nat + nat) :=
  if (n <? 1000)%nat then
    let? pid := fork in
    if pid <? 0 then Done (inr n)
    else if pid =? 0 then exit 0
    else Done (inl (S n))
  else Done (inr n).

Definition forktest : U unit :=
  forktest_print "fork test" ;;
  let? n := uloop 1001 fork_body 0%nat in
  if (n =? 1000)%nat then forktest_print "fork claimed to work N times!" ;; exit 1
  else
    ufor (replicate n tt) (fun _ =>
      let? ' (w, _) := wait in
      if w <? 0 then forktest_print "wait stopped early" ;; exit 1 else Done tt) ;;
    let? ' (w, _) := wait in
    if negb (w =? -1) then forktest_print "wait got too many" ;; exit 1
    else forktest_print "fork test OK".
Definition forktest_main : U unit := forktest ;; exit 0.

(** ** stressfs.c *)

(** [for(i = 0; i < 4; i++) if(fork() > 0) break;] *)
Definition stress_fork (i : nat) : U (nat + nat) :=
  if (i <? 4)%nat then let? pid := fork in if 0 <? pid then Done (inr i) else Done (inl (S i))
  else Done (inr i).

Definition stressfs_main : U unit :=
  say "stressfs starting" [] ;;
  let data := replicate 512 97 in
  let? i := uloop 5 stress_fork 0%nat in
  say "write %d" [Num (Z.of_nat i)] ;;
  let path := str_bytes "stressfs" ++ [48 + Z.of_nat i] in
  let? fd := open path (Z.lor O_CREATE O_RDWR) in
  ufor (seq 0 20) (fun _ => write fd data ;; Done tt) ;;
  close fd ;;
  say "read" [] ;;
  let? fd := open path O_RDONLY in
  ufor (seq 0 20) (fun _ => read fd 512 ;; Done tt) ;;
  close fd ;;
  wait ;;
  exit 0.
