(* ===== verification/UsmallSpec.v ===== *)
(** * What cat, echo and wc print

    Their output as a function of their input, however the kernel cuts the input
    into the pieces that [read] returns. *)

From S2P Require Import Prelude Mem Cstring Uprog Ulib Usmall.

Lemma run_io_puts fd l : forall ch inp, run_io fd (ufor l (putc 1)) ch inp = mk_io (map u8 l) (Some (inl tt)) ch inp.
Proof.
  induction l as [|c l IH]; intros ch inp; [done|]. cbn [ufor].
  erewrite run_io_bind by reflexivity. by rewrite IH.
Qed.

Lemma piece_cons n ch c inp : 0 < n -> exists l, piece n ch (c :: inp) = c :: l /\ (length l < S (length inp))%nat /\ c :: inp = (c :: l) ++ drop (length (c :: l)) (c :: inp).
Proof.
  intros Hn. unfold piece. destruct (Nat.min _ _) as [|k] eqn:E; [lia|]. exists (take k inp). cbn [take].
  split; [done|]. split; [rewrite length_take; lia|]. cbn [app length drop]. f_equal. rewrite length_take.
  destruct (decide (k <= length inp)%nat); [by rewrite Nat.min_l, take_drop|].
  by rewrite Nat.min_r, take_ge, drop_ge, app_nil_r by lia.
Qed.

Lemma piece_nil n ch : piece n ch [] = [].
Proof. unfold piece. by rewrite take_nil. Qed.

(** ** cat *)

Lemma run_io_read {A} fd n (k : reply -> U A) ch inp :
  run_io fd (Sys (Cread fd n) k) ch inp =
  run_io fd (k (mk_reply (Z.of_nat (length (piece n ch inp))) (piece n ch inp))) (tl ch) (drop (length (piece n ch inp)) inp).
Proof. cbn [run_io]. by rewrite Z.eqb_refl. Qed.

(** One turn of [cat]: at the end, or with a piece [d] of the input. *)
Lemma cat_turn_end fd ch : run_io fd (cat_body fd tt) ch [] = mk_io [] (Some (inl (inr 0))) (tl ch) [].
Proof. unfold cat_body, read. cbn [ubind]. rewrite run_io_read, piece_nil. reflexivity. Qed.

Lemma cat_turn fd ch inp : piece 512 ch inp <> [] ->
  run_io fd (cat_body fd tt) ch inp = mk_io (piece 512 ch inp) (Some (inl (inl tt))) (tl ch) (drop (length (piece 512 ch inp)) inp).
Proof.
  intros Hd. unfold cat_body, read. cbn [ubind]. rewrite run_io_read. set (d := piece 512 ch inp) in *. cbn [r_val r_data ubind].
  rewrite (proj2 (Z.ltb_lt 0 (Z.of_nat (length d)))) by (destruct d; cbn; [done|lia]). rewrite Nat2Z.id, take_ge by lia.
  unfold write, sysv. cbn [ubind run_io r_val]. rewrite !Z.eqb_refl. cbn [negb run_io]. unfold io_write. cbn [io_out io_end io_ch io_left].
  by rewrite app_nil_r.
Qed.

Lemma cat_loop fd : forall fuel inp ch, (length inp < fuel)%nat ->
  exists ch', run_io fd (uloop fuel (cat_body fd) tt) ch inp = mk_io inp (Some (inl 0)) ch' [].
Proof.
  induction fuel as [|fuel IH]; intros inp ch Hf; [lia|]. cbn [uloop]. destruct inp as [|c inp].
  - exists (tl ch). by rewrite (run_io_bind _ _ _ _ _ _ _ _ _ (cat_turn_end fd ch)).
  - destruct (piece_cons 512 ch c inp ltac:(lia)) as (l & Hl & Hlen & E). pose proof (cat_turn fd ch (c :: inp)) as Ht. rewrite Hl in Ht.
    rewrite (run_io_bind _ _ _ _ _ _ _ _ _ (Ht ltac:(done))).
    destruct (IH (drop (length (c :: l)) (c :: inp)) (tl ch)) as (ch' & Hrun); [rewrite length_drop; cbn [length] in *; lia|].
    exists ch'. rewrite Hrun. unfold io_write. cbn [io_out io_end io_ch io_left]. by rewrite <- E.
Qed.

(** [cat] copies its input to its output, byte by byte, to the end and
    however the reads cut it, and returns. *)
Theorem cat_copies fd fuel inp ch : (length inp < fuel)%nat ->
  exists ch', run_io fd (cat fuel fd) ch inp = mk_io inp (Some (inl tt)) ch' [].
Proof.
  intros Hf. destruct (cat_loop fd fuel inp ch Hf) as (ch' & Hrun). exists ch'. unfold cat. rewrite (run_io_bind _ _ _ _ _ _ _ _ _ Hrun).
  unfold io_write. cbn. by rewrite app_nil_r.
Qed.

Lemma cat_witness : exists ch', run_io 0 (cat 10 0) [2%nat; 1%nat] [104; 105; 10; 0; 255] = mk_io [104; 105; 10; 0; 255] (Some (inl tt)) ch' [].
Proof. apply (cat_copies 0 10 [104; 105; 10; 0; 255] [2%nat; 1%nat]). cbn. lia. Defined.

(** ** wc *)

Definition is_sep (ch : Z) : bool := bool_decide (ch ∈ wc_seps).

Definition lines_of (l : list Z) : Z := Z.of_nat (length (filter (fun c => c = 10) l)).
(** A word starts at each byte that is no separator and follows one, or comes
    first. *)
Fixpoint words_from (inword : bool) (l : list Z) : Z :=
  match l with
  | [] => 0
  | c :: l' => (if negb (is_sep c) && negb inword then 1 else 0) + words_from (negb (is_sep c)) l'
  end.

Lemma lines_cons c l : lines_of (c :: l) = (if c =? 10 then 1 else 0) + lines_of l.
Proof. unfold lines_of. rewrite filter_cons. destruct (Z.eqb_spec c 10); case_decide; try done; cbn [length]; lia. Qed.

Lemma strchr_sep ch : is_sep ch = match strchr wc_seps ch with Some _ => true | None => false end.
Proof.
  unfold is_sep. assert (forall l, bool_decide (ch ∈ l) = match strchr l ch with Some _ => true | None => false end) as H; [|apply H].
  induction l as [|a l IH]; cbn; [done|]. destruct (Z.eqb_spec a ch) as [->|Hne].
  - apply bool_decide_eq_true. by left.
  - assert (bool_decide (ch ∈ a :: l) = bool_decide (ch ∈ l)) as ->.
    { apply bool_decide_ext. rewrite elem_of_cons. naive_solver. }
    rewrite IH. by destruct (strchr l ch).
Qed.

Lemma words_from_range b l : 0 <= words_from b l <= Z.of_nat (length l).
Proof. revert b. induction l as [|c l IH]; intros b; cbn; [lia|]. specialize (IH (negb (is_sep c))). destruct (negb (is_sep c) && negb b); lia. Qed.

Lemma s32_small x : - 2 ^ 31 <= x < 2 ^ 31 -> s32 x = x.
Proof. intros H. unfold s32, u32. zcase; lia. Qed.

(** Nothing wraps around in less than 2^31 bytes. *)
Lemma wc_fold : forall l k, 0 <= wc_l k -> 0 <= wc_w k -> 0 <= wc_c k ->
  wc_l k + Z.of_nat (length l) < 2 ^ 31 -> wc_w k + Z.of_nat (length l) < 2 ^ 31 -> wc_c k + Z.of_nat (length l) < 2 ^ 31 ->
  exists b, fold_left wc_char l k =
    mk_counts (wc_l k + lines_of l) (wc_w k + words_from (wc_inword k) l) (wc_c k + Z.of_nat (length l)) b.
Proof.
  induction l as [|c l IH]; intros k Hl Hw Hc Ml Mw Mc; cbn [fold_left].
  - exists (wc_inword k). destruct k. unfold lines_of. cbn. f_equal; lia.
  - cbn [length] in *. set (k' := wc_char k c).
    assert (k' = mk_counts (wc_l k + (if c =? 10 then 1 else 0)) (wc_w k + (if negb (is_sep c) && negb (wc_inword k) then 1 else 0))
      (wc_c k + 1) (negb (is_sep c))) as Hk'.
    { unfold k', wc_char. rewrite (strchr_sep c). rewrite !s32_small by lia. destruct (strchr wc_seps c); cbn [negb andb].
      - f_equal; [destruct (c =? 10); lia|lia].
      - destruct (wc_inword k); cbn [negb]; f_equal; try lia; destruct (c =? 10); lia. }
    assert (0 <= (if c =? 10 then 1 else 0) <= 1) by (destruct (c =? 10); lia).
    assert (0 <= (if negb (is_sep c) && negb (wc_inword k) then 1 else 0) <= 1) by (destruct (_ && _); lia).
    destruct (IH k') as (b & ->); rewrite ?Hk'; cbn [wc_l wc_w wc_c wc_inword]; try lia.
    exists b. rewrite lines_cons. cbn [words_from]. f_equal; lia.
Qed.

Lemma wc_turn_end fd ch k : run_io fd (wc_body fd k) ch [] = mk_io [] (Some (inl (inr (0, k)))) (tl ch) [].
Proof. unfold wc_body, read. cbn [ubind]. rewrite run_io_read, piece_nil. reflexivity. Qed.

Lemma wc_turn fd ch inp k : piece 512 ch inp <> [] ->
  run_io fd (wc_body fd k) ch inp =
  mk_io [] (Some (inl (inl (fold_left wc_char (piece 512 ch inp) k)))) (tl ch) (drop (length (piece 512 ch inp)) inp).
Proof.
  intros Hd. unfold wc_body, read. cbn [ubind]. rewrite run_io_read. set (d := piece 512 ch inp) in *. cbn [r_val r_data ubind].
  rewrite (proj2 (Z.ltb_lt 0 (Z.of_nat (length d)))) by (destruct d; cbn; [done|lia]). by rewrite Nat2Z.id, take_ge by lia.
Qed.

Lemma wc_loop fd : forall fuel inp ch k, (length inp < fuel)%nat ->
  exists ch', run_io fd (uloop fuel (wc_body fd) k) ch inp = mk_io [] (Some (inl (0, fold_left wc_char inp k))) ch' [].
Proof.
  induction fuel as [|fuel IH]; intros inp ch k Hf; [lia|]. cbn [uloop]. destruct inp as [|c inp].
  - exists (tl ch). by rewrite (run_io_bind _ _ _ _ _ _ _ _ _ (wc_turn_end fd ch k)).
  - destruct (piece_cons 512 ch c inp ltac:(lia)) as (l & Hl & Hlen & E). pose proof (wc_turn fd ch (c :: inp) k) as Ht. rewrite Hl in Ht.
    rewrite (run_io_bind _ _ _ _ _ _ _ _ _ (Ht ltac:(done))).
    destruct (IH (drop (length (c :: l)) (c :: inp)) (tl ch) (fold_left wc_char (c :: l) k)) as (ch' & Hrun); [rewrite length_drop; cbn [length] in *; lia|].
    exists ch'. rewrite Hrun. rewrite <- fold_left_app, <- E. done.
Qed.

(** The line that [wc] prints. *)
Definition wc_line (l w c : Z) (name : list Z) : list Z := dec l ++ 32 :: dec w ++ 32 :: dec c ++ 32 :: name ++ [10].

Lemma say_counts l w c name : say "%d %d %d %s" [Num l; Num w; Num c; Str (Some name)] = ufor (wc_line l w c name) (putc 1).
Proof. unfold wc_line. rendering. Qed.

(** [wc] counts: for every input of less than 2^31 bytes, however the reads
    cut it, it prints the number of its newlines, of its words, of its bytes, and
    the name.  A word starts at a byte that is no separator and comes first or
    after a separator, also where two reads meet. *)
Theorem wc_counts fd fuel inp ch name : (length inp < fuel)%nat -> Z.of_nat (length inp) < 2 ^ 31 ->
  exists ch', run_io fd (wc fuel fd name) ch inp =
    mk_io (map u8 (wc_line (lines_of inp) (words_from false inp) (Z.of_nat (length inp)) name)) (Some (inl tt)) ch' [].
Proof.
  intros Hf Hn. destruct (wc_loop fd fuel inp ch (mk_counts 0 0 0 false) Hf) as (ch' & Hrun). exists ch'. unfold wc.
  rewrite (run_io_bind _ _ _ _ _ _ _ _ _ Hrun).
  destruct (wc_fold inp (mk_counts 0 0 0 false)) as (b & Hfold); [cbn; lia..|]. rewrite Hfold. cbn [wc_l wc_w wc_c wc_inword Z.ltb Z.compare].
  rewrite say_counts, run_io_puts. by rewrite io_write_nil, !Z.add_0_l.
Qed.

Lemma wc_witness : exists ch', run_io 0 (wc 20 0 (str_bytes "f")) [3%nat] (str_bytes "two words" ++ [10]) =
  mk_io (str_bytes "1 2 10 f" ++ [10]) (Some (inl tt)) ch' [].
Proof.
  destruct (wc_counts 0 20 (str_bytes "two words" ++ [10]) [3%nat] (str_bytes "f")) as (ch' & H); [apply Nat.ltb_lt; reflexivity|apply Z.ltb_lt; reflexivity|].
  exists ch'. rewrite H. reflexivity.
Defined.

(** ** echo *)

Fixpoint join (args : list (list Z)) : list Z :=
  match args with [] => [] | [a] => a ++ [10] | a :: args' => a ++ 32 :: join args' end.

Lemma echo_args_out args : forall ch inp, run_io 0 (echo_args args) ch inp = mk_io (join args) (Some (inl tt)) ch inp.
Proof.
  induction args as [|a args IH]; intros ch inp; [done|]. cbn [echo_args]. unfold write, sysv. cbn [ubind].
  destruct args as [|b args]; [by cbn; unfold io_write; cbn; rewrite ?app_nil_r|].
  rewrite bool_decide_eq_false_2 by done. cbn [ubind run_io]. change (1 =? 1) with true. cbn [ubind]. rewrite IH. unfold io_write. cbn. done.
Qed.
