(* ===== verification/MyShell.v ===== *)
(** * user/my_shell.c

    The shell: the line read into [buf], its split at the first [|] or [;], the
    words and redirections of a command, and the calls that run it.  The shell's
    memory is a [mem]; a child gets a copy of it, as after [fork]. *)

From S2P Require Import Prelude Mem Cstring Uprog Ulib.

Definition MAX : Z := 10.

(** The answer of a loop that had enough fuel. *)
Definition fueled {A} (o : option A) : U A := match o with Some a => Done a | None => NoFuel end.

Definition getcmd (m : mem) (buf nbuf : Z) : U (option mem) :=
  fprintf 1 (str_bytes ">>> ") [] ;;
  let m := memset m buf 0 nbuf in
  let? ' (r, d) := read 0 nbuf in
  if r <=? 0 then Done None
  else Done (Some (store8 (store_bytes m buf d) (buf + (r - 1)) 0)).

(** The first [|] or [;] of the string at [p], and which of them it is. *)
Fixpoint find_op (n : nat) (m : mem) (p : Z) : option (Z * bool) :=
  match n with
  | O => None
  | S n' =>
      let c := load8 m p in
      if c =? 0 then None
      else if c =? 124 then Some (p, true)
      else if c =? 59 then Some (p, false)
      else find_op n' m (p + 1)
  end.

(** Past blanks and tabs. *)
Fixpoint skip_blanks (fuel : nat) (m : mem) (p : Z) : option Z :=
  match fuel with
  | O => None
  | S f => if (load8 m p =? 32) || (load8 m p =? 9) then skip_blanks f m (p + 1) else Some p
  end.

(** Up to a blank or the end. *)
Fixpoint skip_word (fuel : nat) (m : mem) (p : Z) : option Z :=
  match fuel with
  | O => None
  | S f => if negb (load8 m p =? 32) && negb (load8 m p =? 0) then skip_word f m (p + 1) else Some p
  end.

(** The words, as pointers: at most [left] more. *)
Fixpoint tokenize (fuel left : nat) (m : mem) (p : Z) : option (mem * list Z) :=
  match left with
  | O => Some (m, [])
  | S left' =>
      if load8 m p =? 0 then Some (m, [])
      else
        a ← skip_blanks fuel m p;
        e ← skip_word fuel m a;
        let '(m, p) := if load8 m e =? 0 then (m, e) else (store8 m e 0, e + 1) in
        ' (m, args) ← tokenize fuel left' m p;
        Some (m, a :: args)
  end.

(** The array [arguments]: a slot that has not been written holds [None]. *)
Abbreviation slots := (list (option Z)).
Definition no_slots : slots := replicate (Z.to_nat MAX) None.

Definition slot_get (l : slots) (i : nat) : U (option Z) :=
  match l !! i with Some v => Done v | None => Crash "arguments: out of bounds" end.
(** A slot whose value the code looks at. *)
Definition slot_ptr (l : slots) (i : nat) : U Z :=
  let? v := slot_get l i in
  match v with Some p => Done p | None => Crash "arguments: not initialised" end.
Definition slot_put (l : slots) (i : nat) (v : option Z) : U slots :=
  if (i <? length l)%nat then Done (<[i := v]> l) else Crash "arguments: out of bounds".

(** [for (int j = i; arguments[j] != 0; j++) arguments[j] = arguments[j + 2]] *)
Definition shift_body (t : slots * nat) : U (slots * nat + slots) :=
  let '(l, j) := t in
  let? p := slot_ptr l j in
  if p =? 0 then Done (inr l)
  else
    let? v := slot_get l (j + 2) in
    let? l := slot_put l j v in
    Done (inl (l, S j)).
Definition shift (l : slots) (i : nat) : U slots := uloop (S (Z.to_nat MAX)) shift_body (l, i).

(** [strcmp(arguments[i], op) == 0]; a literal of at most two characters ends
    the comparison. *)
Definition is_op (m : mem) (p : Z) (op : string) : U bool :=
  let? c := fueled (strcmp_mem 4 (at_mem m p) (at_list (str_bytes op)) 0) in
  Done (c =? 0).

Record redir : Type := mk_redir { rd_left : option Z; rd_right : option Z; rd_append : bool }.
Definition no_redir : redir := mk_redir None None false.

(** The file name after [op] at index [i], if they are there. *)
Definition file_after (m : mem) (l : slots) (i : nat) (op : string) : U (option Z) :=
  let? p := slot_ptr l i in
  let? b := is_op m p op in
  if b : bool then
    let? q := slot_ptr l (i + 1) in
    Done (if q =? 0 then None else Some q)
  else Done None.

(** The redirection at index [i], if there is one. *)
Definition redir_at (m : mem) (l : slots) (i : nat) (r : redir) : U (option redir) :=
  let? q := file_after m l i ">>" in
  match q with
  | Some f => Done (Some (mk_redir (rd_left r) (Some f) true))
  | None =>
      let? q := file_after m l i ">" in
      match q with
      | Some f => Done (Some (mk_redir (rd_left r) (Some f) false))
      | None =>
          let? q := file_after m l i "<" in
          match q with
          | Some f => Done (Some (mk_redir (Some f) (rd_right r) (rd_append r)))
          | None => Done None
          end
      end
  end.

(** The loop over [i < numargs]; after a redirection it looks at [i] again. *)
Definition redir_body (m : mem) (t : slots * nat * nat * redir) : U (slots * nat * nat * redir + slots * nat * redir) :=
  let '(l, i, n, r) := t in
  if negb (i <? n)%nat then Done (inr (l, n, r))
  else
    let? o := redir_at m l i r in
    match o with
    | Some r' => let? l := shift l i in Done (inl (l, i, (n - 2)%nat, r'))
    | None => Done (inl (l, S i, n, r))
    end.
Definition redirections (m : mem) (l : slots) (n : nat) : U (slots * nat * redir) :=
  uloop (S (Z.to_nat MAX)) (redir_body m) (l, 0%nat, n, no_redir).

(** The arguments in place, and the NULL after them. *)
Fixpoint put_args (l : slots) (i : nat) (args : list Z) : U slots :=
  match args with
  | [] => slot_put l i (Some 0)
  | a :: args' => let? l := slot_put l i (Some a) in put_args l (S i) args'
  end.

(** The strings of a pointer: for [%s], and for a path. *)
Definition STR : nat := Z.to_nat 4096.
Definition pstr (m : mem) (p : Z) : parg := Str (if p =? 0 then None else Some (cstr STR m p)).

(** The NULL-terminated array that [exec] is given. *)
Fixpoint argv_of (fuel : nat) (m : mem) (l : slots) (i : nat) : U (list (list Z)) :=
  match fuel with
  | O => NoFuel
  | S f =>
      let? p := slot_ptr l i in
      if p =? 0 then Done []
      else let? rest := argv_of f m l (S i) in Done (cstr STR m p :: rest)
  end.

(** [while (read(descriptor_out, buffer, 1) > 0);] *)
Definition read_to_end (fuel : nat) (fd : Z) : U unit :=
  uloop fuel (fun _ : unit => let? ' (n, _) := read fd 1 in if 0 <? n then Done (inl tt) else Done (inr tt)) tt.

Definition redirect_in (m : mem) (o : option Z) : U unit :=
  match o with
  | None => Done tt
  | Some f =>
      let? fd := open (cstr STR m f) O_RDONLY in
      if fd <? 0 then
        err "Error: cannot open input file %s" [pstr m f] ;;
        exit 1
      else close 0 ;; dup fd ;; close fd ;; Done tt
  end.

Definition redirect_out (fuel : nat) (m : mem) (o : option Z) (append : bool) : U unit :=
  match o with
  | None => Done tt
  | Some f =>
      let? fd := open (cstr STR m f) (Z.lor O_WRONLY O_CREATE) in
      if fd <? 0 then
        err "Error: cannot open output file %s" [pstr m f] ;;
        exit 1
      else
        let? fd :=
          (if append then read_to_end fuel fd ;; Done fd
           else
             close fd ;;
             let? fd := open (cstr STR m f) (Z.lor (Z.lor O_WRONLY O_CREATE) O_TRUNC) in
             if fd <? 0 then
               err "Error: cannot open output file %s" [pstr m f] ;;
               exit 1
             else Done fd) in
        close 1 ;; dup fd ;; close fd ;; Done tt
  end.

(** From the [cd] of a command line to the end of [run_command]. *)
Definition run_simple (fuel : nat) (m : mem) (l : slots) (numargs : nat) (r : redir) : U unit :=
  let? p0 := slot_ptr l 0 in
  let? cd := is_op m p0 "cd" in
  if cd : bool then
    if (numargs <? 2)%nat then err "cd: Path argument is required" [] ;; exit 0
    else
      let? p1 := slot_ptr l 1 in
      let? c := chdir (cstr STR m p1) in
      (if c <? 0 then err "cd error: failed to change directory to %s" [pstr m p1] else Done tt) ;;
      exit 0
  else
    redirect_in m (rd_left r) ;;
    redirect_out fuel m (rd_right r) (rd_append r) ;;
    let? process_id := fork in
    if process_id <? 0 then err "Error: Failure with fork" [] ;; exit 1
    else if process_id =? 0 then
      let? argv := argv_of (S (Z.to_nat MAX)) m l 0 in
      exec (cstr STR m p0) argv ;;
      err "Error: command not found: %s" [pstr m p0] ;;
      exit 1
    else wait ;; exit 0.

(** [fuel] bounds the operators of the line; [rfuel] the bytes that the append
    loop reads. *)
Fixpoint run_command (fuel rfuel : nat) (m : mem) (buf nbuf : Z) : U unit :=
  match fuel with
  | O => NoFuel
  | S f =>
      match find_op (Z.to_nat nbuf) m buf with
      | Some (p, true) =>
          let m := store8 m p 0 in
          let? ' (_, fds) := pipe in
          let? pid := fork in
          (if pid =? 0 then
             close 1 ;; dup (snd fds) ;; close (fst fds) ;; close (snd fds) ;;
             run_command f rfuel m buf nbuf
           else Done tt) ;;
          let? pid := fork in
          (if pid =? 0 then
             close 0 ;; dup (fst fds) ;; close (snd fds) ;; close (fst fds) ;;
             run_command f rfuel m (p + 1) nbuf
           else Done tt) ;;
          close (fst fds) ;; close (snd fds) ;; wait ;; wait ;; exit 0
      | Some (p, false) =>
          let m := store8 m p 0 in
          let? pid := fork in
          (if pid =? 0 then run_command f rfuel m buf nbuf else Done tt) ;;
          wait ;;
          run_command f rfuel m (p + 1) nbuf ;;
          exit 0
      | None =>
          let? ' (m, args) := fueled (tokenize (S (Z.to_nat nbuf)) (Z.to_nat (MAX - 1)) m buf) in
          let? l := put_args no_slots 0 args in
          let? ' (l, n, r) := redirections m l (length args) in
          run_simple rfuel m l n r
      end
  end.

(** The status of a child that [wait] did not report is whatever the variable
    held: [junk]. *)
Definition my_shell_body (fuel rfuel : nat) (buf junk : Z) (pcp : Z * Z) (m : mem) : U (mem + unit) :=
  let? r := getcmd m buf 100 in
  match r with
  | None => Done (inr tt)
  | Some m =>
      if (load8 m buf =? 99) && (load8 m (buf + 1) =? 100) && (load8 m (buf + 2) =? 32) then
        let? c := chdir (cstr STR m (buf + 3)) in
        (if c <? 0 then err "cd error: failed to change directory to %s" [pstr m (buf + 3)] else Done tt) ;;
        Done (inl m)
      else
        let? pid := fork in
        (if pid =? 0 then run_command fuel rfuel m buf 100 else Done tt) ;;
        let? ' (w, st) := wait in
        let child_status := if w <? 0 then junk else st in
        if child_status =? 2 then
          let? ' (n, name) := read (fst pcp) 100 in
          if 0 <? n then
            let? c := chdir (before_nul name) in
            (if c <? 0 then err "cd error: failed to change directory to %s" [Str (Some (before_nul name))] else Done tt) ;;
            Done (inl m)
          else Done (inl m)
        else Done (inl m)
  end.

Definition my_shell_main (turns fuel rfuel : nat) (buf junk : Z) (m : mem) : U unit :=
  let? ' (_, pcp) := pipe in
  uloop turns (my_shell_body fuel rfuel buf junk pcp) m ;;
  exit 0.
