(* ===== verification/MyShellSpec.v ===== *)
(** * What my_shell makes of a line

    The words of a command, its redirections and the operators between commands,
    on lists of bytes, and the proof that [run_command] runs what the line in its
    buffer says. *)

From Stdlib Require Import FunctionalExtensionality.
From S2P Require Import Prelude Mem Cstring Uprog Ulib MyShell.

(** ** Words *)

Definition words (text : list Z) : list (list Z) := pieces 32 text.

(** No tab, no NUL, no blank line, and at most one blank after the last word. *)
Definition tidy (text : list Z) : Prop :=
  Forall (fun c => 0 < c < 256 /\ c <> 9) text /\
  exists body trail, text = body ++ trail /\ (trail = [] \/ trail = [32]) /\ exists c, last body = Some c /\ c <> 32.

(** A tidy text is blanks, a word, and nothing, a blank or a blank and the rest. *)
Lemma tidy_word text : tidy text -> exists k w rest, text = replicate k 32 ++ w ++ rest /\ w <> [] /\ (32 ∉ w) /\
  (rest = [] \/ exists t, rest = 32 :: t /\ (t = [] \/ tidy t)).
Proof.
  intros (Hb & body & trail & -> & Ht & c & Hc & Hne). revert Hb Hc. induction body as [|x body IH]; [done|]. intros Hb Hc.
  destruct (decide (x = 32)) as [->|Hx].
  - destruct body as [|y body]; [cbn in Hc; congruence|].
    destruct IH as (k & w & rest & E & H); [by apply Forall_cons in Hb as [_ Hb]|done|].
    exists (S k), w, rest. split; [|done]. cbn [app replicate] in E |- *. by rewrite E.
  - destruct body as [|y body].
    { exists 0%nat, [x], trail. split; [done|]. split; [done|]. split; [by rewrite list_elem_of_singleton|].
      destruct Ht as [-> | ->]; [by left|right]. exists []. split; [done|by left]. }
    destruct (decide (y = 32)) as [->|Hy].
    + exists 0%nat, [x], (32 :: body ++ trail). split; [done|]. split; [done|]. split; [by rewrite list_elem_of_singleton|].
      right. exists (body ++ trail). split; [done|]. right. split; [by do 2 apply Forall_cons in Hb as [_ Hb]|].
      exists body, trail. split; [done|]. split; [done|]. destruct body as [|z body]; [cbn in Hc; congruence|]. by exists c.
    + destruct IH as (k & w & rest & E & Hw & Hn & Hr); [by apply Forall_cons in Hb as [_ Hb]|done|].
      destruct k as [|k]; [|cbn in E; congruence]. exists 0%nat, (x :: w), rest. cbn [app replicate] in *. rewrite E.
      split; [done|]. split; [done|]. split; [|done]. apply not_elem_of_cons. split; [congruence|done].
Qed.

Lemma words_blanks k text : words (replicate k 32 ++ text) = words text.
Proof. induction k as [|k IH]; [done|]. cbn [replicate app]. unfold words. rewrite pieces_sep. exact IH. Qed.

(** ** The words of the buffer *)

Lemma skip_blanks_run m k : forall fuel p, (forall j, 0 <= j < Z.of_nat k -> load8 m (p + j) = 32) ->
  load8 m (p + Z.of_nat k) <> 32 -> load8 m (p + Z.of_nat k) <> 9 -> (k < fuel)%nat ->
  skip_blanks fuel m p = Some (p + Z.of_nat k).
Proof.
  induction k as [|k IH]; intros [|fuel] p Hb H1 H2 Hf; try lia; cbn [skip_blanks].
  - rewrite Z.add_0_r in *. destruct (Z.eqb_spec (load8 m p) 32); [done|]. by destruct (Z.eqb_spec (load8 m p) 9).
  - pose proof (Hb 0 ltac:(lia)) as H. rewrite Z.add_0_r in H. rewrite H. cbn [Z.eqb orb].
    replace (p + Z.of_nat (S k)) with (p + 1 + Z.of_nat k) in * by lia.
    apply IH; [|done|done|lia]. intros j Hj. rewrite <- (Hb (j + 1)) by lia. f_equal. lia.
Qed.

Lemma skip_word_run m n : forall fuel p, (forall j, 0 <= j < Z.of_nat n -> load8 m (p + j) <> 32 /\ load8 m (p + j) <> 0) ->
  load8 m (p + Z.of_nat n) = 32 \/ load8 m (p + Z.of_nat n) = 0 -> (n < fuel)%nat ->
  skip_word fuel m p = Some (p + Z.of_nat n).
Proof.
  induction n as [|n IH]; intros [|fuel] p Hb He Hf; try lia; cbn [skip_word].
  - rewrite Z.add_0_r in *. by destruct He as [-> | ->].
  - pose proof (Hb 0 ltac:(lia)) as [H1 H2]. rewrite Z.add_0_r in H1, H2.
    destruct (Z.eqb_spec (load8 m p) 32); [done|]. destruct (Z.eqb_spec (load8 m p) 0); [done|]. cbn [negb andb].
    replace (p + Z.of_nat (S n)) with (p + 1 + Z.of_nat n) in * by lia.
    apply IH; [|done|lia]. intros j Hj. replace (p + 1 + j) with (p + (j + 1)) by lia. apply Hb. lia.
Qed.

(** The next word: where it is and where it ends. *)
Lemma next_word m p fuel k w rest : str_at (at_mem m p) 0 (replicate k 32 ++ w ++ rest) -> w <> [] -> 32 ∉ w ->
  Forall (fun c => c <> 9) w -> (rest = [] \/ exists t, rest = 32 :: t) -> (k + length w < fuel)%nat ->
  load8 m p <> 0 /\ skip_blanks fuel m p = Some (p + Z.of_nat k) /\
  skip_word fuel m (p + Z.of_nat k) = Some (p + Z.of_nat k + Z.of_nat (length w)).
Proof.
  intros Hs Hne Hw Ht Hrest Hf. split_and!.
  - destruct k as [|k]; [destruct w as [|c w]; [done|]|]; destruct Hs as (H & ? & _); unfold at_mem in H; rewrite Z.add_0_r in H; congruence.
  - assert (exists c, load8 m (p + Z.of_nat k) = c /\ c <> 32 /\ c <> 9) as (c & Hc & H1 & H2).
    { destruct w as [|c w]; [done|]. apply not_elem_of_cons in Hw as [Hw1 _]. apply Forall_cons in Ht as [Ht1 _].
      apply str_at_app in Hs. rewrite length_replicate in Hs. destruct Hs as (H & _). exists c. by split_and!; [exact H|congruence|]. }
    apply skip_blanks_run; try congruence; [|lia]. intros j Hj.
    destruct (str_at_lookup _ _ _ (Z.to_nat j) 32 Hs) as [H _].
    { rewrite lookup_app_l by (rewrite length_replicate; lia). apply lookup_replicate_2. lia. }
    unfold at_mem in H. rewrite <- H. f_equal. lia.
  - apply str_at_app in Hs. rewrite length_replicate, Z.add_0_l in Hs. apply str_at_0 in Hs. apply skip_word_run; [|..|lia].
    + intros j Hj. destruct (lookup_lt_is_Some_2 w (Z.to_nat j) ltac:(lia)) as [c Hc].
      destruct (str_at_lookup _ _ _ (Z.to_nat j) c Hs) as [H H0]; [by rewrite lookup_app_l by lia|].
      unfold at_mem in H. rewrite Z.add_0_l, Z2Nat.id in H by lia. rewrite H. split; [|done].
      intros ->. apply Hw. by eapply list_elem_of_lookup_2.
    + apply str_at_app in Hs. destruct Hrest as [-> | [t ->]]; [right|left].
      * cbn in Hs. unfold at_mem in Hs. by rewrite Z.add_0_l in Hs.
      * destruct Hs as (H & _). unfold at_mem in H. by rewrite Z.add_0_l in H.
Qed.

Lemma tidy_no_tab k w rest : tidy (replicate k 32 ++ w ++ rest) -> Forall (fun c => c <> 9) w.
Proof. intros [H _]. rewrite !Forall_app in H. destruct H as (_ & H & _). eapply Forall_impl; [exact H|]. by intros c [_ ?]. Qed.

Lemma tokenize_words : forall left text m p fuel, text_at m p text -> text = [] \/ tidy text ->
  (length (words text) <= left)%nat -> (length text < fuel)%nat ->
  exists m' args, tokenize fuel left m p = Some (m', args) /\
    Forall2 (fun a w => text_at m' a w /\ p <= a) args (words text) /\ (forall x, x < p -> load8 m' x = load8 m x).
Proof.
  induction left as [|left IH]; intros text m p fuel Hs Ht Hl Hf.
  - exists m, []. split; [done|]. destruct (words text); [by split; [constructor|]|cbn in Hl; lia].
  - destruct Ht as [->|Ht].
    { exists m, []. cbn in Hs |- *. unfold at_mem in Hs. rewrite Z.add_0_r in Hs. rewrite Hs. split; [done|]. by split; [constructor|]. }
    destruct (tidy_word text Ht) as (k & w & rest & -> & Hne & Hw & Hrest). pose proof (tidy_no_tab _ _ _ Ht) as Htab.
    rewrite !length_app, length_replicate in Hf.
    destruct (next_word m p fuel k w rest) as (H0 & H1 & H2); try done; [destruct Hrest as [|(t & ? & _)]; eauto|lia|].
    cbn [tokenize]. destruct (Z.eqb_spec (load8 m p) 0); [done|]. rewrite H1. cbn [mbind option_bind]. rewrite H2. cbn [mbind option_bind].
    set (a := p + Z.of_nat k) in *. set (e := a + Z.of_nat (length w)) in *.
    assert (text_at m a (w ++ rest)) as Ha.
    { apply str_at_app in Hs. rewrite length_replicate, Z.add_0_l in Hs. by apply str_at_0. }
    assert (text_at m e rest) as He by (apply str_at_app in Ha; rewrite Z.add_0_l in Ha; by apply str_at_0).
    rewrite words_blanks in *. destruct Hrest as [-> | (t & -> & Ht')].
    + rewrite app_nil_r in *. unfold words in *. rewrite pieces_last in * by done.
      cbn in He. unfold at_mem in He. rewrite Z.add_0_r in He. rewrite He. cbn [Z.eqb].
      destruct left as [|left']; cbn [tokenize mbind option_bind]; [|rewrite He; cbn [Z.eqb mbind option_bind]];
        (exists m, [a]; split; [done|]; split; [constructor; [|constructor]; split; [done|lia]|done]).
    + unfold words in *. rewrite pieces_word in * by done. cbn [length] in Hl, Hf.
      destruct He as (He & _ & Het). unfold at_mem in He. rewrite Z.add_0_r in He. rewrite He. cbn [Z.eqb].
      destruct (IH t (store8 m e 0) (e + 1) fuel) as (m' & args & Hrun & Hargs & Hout); [|done|unfold words; lia|lia|].
      { apply str_at_0 in Het. eapply str_at_ext; [|exact Het]. intros j Hj. unfold at_mem. rewrite load8_store8. zdec; [lia|done]. }
      rewrite Hrun. cbn [mbind option_bind]. exists m', (a :: args). split; [done|].
      assert (forall x, x < e -> load8 m' x = load8 m x) as Hx by (intros x Hx; rewrite Hout by lia; rewrite load8_store8; zdec; [lia|done]).
      split; [constructor|intros x ?; apply Hx; lia].
      * split; [|lia]. apply str_at_intro.
        -- destruct Ht as [Hb _]. rewrite !Forall_app in Hb. destruct Hb as (_ & Hb & _). eapply Forall_impl; [exact Hb|]. intros c [? _]. cbv beta. lia.
        -- intros j c Hj. pose proof (lookup_lt_Some _ _ _ Hj). rewrite Hx by lia.
           destruct (str_at_lookup _ _ _ j c Ha) as [<- _]; [by rewrite lookup_app_l by lia|]. done.
        -- fold e. rewrite Hout, load8_store8 by lia. by zdec.
      * eapply Forall2_impl; [exact Hargs|]. intros x y [? ?]. split; [done|lia].
Qed.

(** ** Redirections *)

Record sredir : Type := mk_sredir { s_in : option (list Z); s_out : option (list Z); s_append : bool }.
Definition no_sredir : sredir := mk_sredir None None false.

(** What the operator [w] with the file [f] after it does to [r]. *)
Definition redir_of (w f : list Z) (r : sredir) : option sredir :=
  if decide (w = str_bytes ">>") then Some (mk_sredir (s_in r) (Some f) true)
  else if decide (w = str_bytes ">") then Some (mk_sredir (s_in r) (Some f) false)
  else if decide (w = str_bytes "<") then Some (mk_sredir (Some f) (s_out r) (s_append r))
  else None.

(** The arguments and the redirections of a command; the last one of a kind
    counts, and an operator at the end is an argument. *)
Fixpoint redirs (ws : list (list Z)) (r : sredir) : list (list Z) * sredir :=
  match ws with
  | [] => ([], r)
  | w :: ws' =>
      match ws' with
      | [] => ([w], r)
      | f :: ws'' =>
          match redir_of w f r with
          | Some r' => redirs ws'' r'
          | None => let '(args, r') := redirs ws' r in (w :: args, r')
          end
      end
  end.

Lemma redirs_cons w f ws r : redirs (w :: f :: ws) r =
  match redir_of w f r with
  | Some r' => redirs ws r'
  | None => let '(args, r') := redirs (f :: ws) r in (w :: args, r')
  end.
Proof. reflexivity. Qed.

(** The comparison ends at the end of the shorter of the two. *)
Lemma strcmp_short p q l' : forall l fuel i, str_at p i l -> str_at q i l' -> (length l' < fuel)%nat ->
  strcmp_mem fuel p q i = Some (strcmp l l').
Proof.
  induction l' as [|b l' IH]; intros l [|fuel] i Hp Hq Hf; cbn in Hf; try lia; cbn [strcmp_mem].
  - cbn in Hq. rewrite Hq. destruct l as [|a l]; cbn in Hp |- *.
    + by rewrite Hp.
    + destruct Hp as (-> & Hne & _). by destruct (Z.eqb_spec a 0).
  - destruct Hq as (-> & Hb & Hq). destruct l as [|a l]; cbn in Hp |- *.
    + by rewrite Hp.
    + destruct Hp as (-> & Hne & Hp). destruct (Z.eqb_spec a 0); [done|]. cbn [negb andb]. destruct (Z.eqb_spec a b); [|done].
      apply IH; [done|done|lia].
Qed.

Lemma str_at_list l : Forall (fun c => 0 < c < 256) l -> str_at (at_list l) 0 l.
Proof.
  intros Hl. assert (forall pre, str_at (at_list (pre ++ l)) (Z.of_nat (length pre)) l) as H; [|exact (H [])].
  induction Hl as [|c l Hc Hl IH]; intros pre; cbn [str_at]; unfold at_list at 1.
  - by rewrite Nat2Z.id, app_nil_r, nth_overflow by lia.
  - rewrite Nat2Z.id, app_nth2, Nat.sub_diag by lia. cbn [nth]. split; [by apply u8_small; lia|]. split; [lia|].
    specialize (IH (pre ++ [c])). rewrite <- app_assoc, length_app, Nat2Z.inj_add in IH. exact IH.
Qed.

Lemma is_op_spec m p w op : text_at m p w -> Forall (fun c => 0 < c) w -> Forall (fun c => 0 < c < 256) (str_bytes op) ->
  (length (str_bytes op) < 4)%nat -> is_op m p op = Done (bool_decide (w = str_bytes op)).
Proof.
  intros Hp Hw Hop Hl. unfold is_op. rewrite (strcmp_short _ _ (str_bytes op) w) by (try done; by apply str_at_list). cbn.
  f_equal. pose proof (strcmp_eq w (str_bytes op) Hw) as H. specialize (H ltac:(eapply Forall_impl; [exact Hop|]; intros c [? ?]; cbv beta; lia)).
  destruct (Z.eqb_spec (strcmp w (str_bytes op)) 0); case_bool_decide; tauto.
Qed.

(** The array holds the pointers [ps], then NULL. *)
Definition layout (l : slots) (ps : list Z) : Prop :=
  length l = 10%nat /\ (forall k q, ps !! k = Some q -> l !! k = Some (Some q)) /\ l !! length ps = Some (Some 0).

Lemma put_args_layout : forall args l i pre, length l = 10%nat -> length pre = i -> (forall k q, pre !! k = Some q -> l !! k = Some (Some q)) ->
  (i + length args < 10)%nat -> exists l', put_args l i args = Done l' /\ layout l' (pre ++ args).
Proof.
  induction args as [|a args IH]; intros l i pre Hl Hi Hpre Hn; cbn [put_args length] in *; unfold slot_put;
    rewrite (proj2 (Nat.ltb_lt i (length l))) by lia; cbn [ubind].
  - eexists. split; [done|]. rewrite app_nil_r. split; [by rewrite length_insert|]. split.
    + intros k q Hk. pose proof (lookup_lt_Some _ _ _ Hk). rewrite list_lookup_insert_ne by lia. by apply Hpre.
    + by rewrite Hi, list_lookup_insert_eq by lia.
  - destruct (IH (<[i:=Some a]> l) (S i) (pre ++ [a])) as (l' & Hrun & Hlay); [by rewrite length_insert|rewrite length_app; cbn; lia| |lia|].
    + intros k q Hk. apply lookup_app_Some in Hk as [Hk|[Hge Hk]].
      * pose proof (lookup_lt_Some _ _ _ Hk). rewrite list_lookup_insert_ne by lia. by apply Hpre.
      * destruct (k - length pre)%nat as [|d] eqn:E; [|done]. injection Hk as ->. replace k with i by lia. by rewrite list_lookup_insert_eq by lia.
    + exists l'. rewrite <- app_assoc in Hlay. done.
Qed.

Lemma layout_ptr l ps i q : layout l ps -> ps !! i = Some q -> slot_ptr l i = Done q.
Proof. intros (_ & H & _) Hq. unfold slot_ptr, slot_get. by rewrite (H _ _ Hq). Qed.
Lemma layout_null l ps : layout l ps -> slot_ptr l (length ps) = Done 0.
Proof. intros (_ & _ & H). unfold slot_ptr, slot_get. by rewrite H. Qed.

(** [shift] from [j] on: the slots before [j] are done. *)
Lemma shift_loop l ps i : layout l ps -> (length ps <= 8)%nat -> Forall (fun q => q <> 0) ps ->
  forall n j lj, (j + n = length ps)%nat -> (i <= j)%nat -> length lj = 10%nat ->
  (forall k, lj !! k = if decide (i <= k < j)%nat then l !! (k + 2)%nat else l !! k) -> forall fuel, (n < fuel)%nat ->
  exists l', uloop fuel shift_body (lj, j) = Done l' /\ length l' = 10%nat /\
    forall k, l' !! k = if decide (i <= k < length ps)%nat then l !! (k + 2)%nat else l !! k.
Proof.
  intros (Hlen & Hps & Hnull) Hmax Hnz. induction n as [|n IH]; intros j lj Hj Hij Hlj Hk [|fuel] Hf; try lia; cbn [uloop shift_body].
  - replace j with (length ps) in * by lia. unfold slot_ptr, slot_get. rewrite Hk. case_decide; [lia|]. rewrite Hnull. cbn. by exists lj.
  - destruct (lookup_lt_is_Some_2 ps j ltac:(lia)) as [q Hq]. unfold slot_ptr, slot_get. rewrite !Hk.
    case_decide; [lia|]. rewrite (Hps _ _ Hq). cbn [ubind]. pose proof (proj1 (Forall_lookup _ _) Hnz _ _ Hq).
    destruct (Z.eqb_spec q 0); [done|]. case_decide; [lia|].
    destruct (lookup_lt_is_Some_2 l (j + 2)%nat ltac:(lia)) as [v Hv]. rewrite Hv. cbn [ubind]. unfold slot_put.
    rewrite (proj2 (Nat.ltb_lt j (length lj))) by lia. cbn [ubind].
    apply (IH (S j)); [lia|lia|by rewrite length_insert| |lia]. intros k. destruct (decide (k = j)) as [->|Hne].
    + rewrite list_lookup_insert_eq by lia. case_decide; [done|lia].
    + rewrite list_lookup_insert_ne by done. rewrite Hk. do 2 case_decide; try done; lia.
Qed.

Lemma shift_spec l ps i : layout l ps -> (length ps <= 8)%nat -> Forall (fun q => q <> 0) ps -> (i + 2 <= length ps)%nat ->
  exists l', shift l i = Done l' /\ layout l' (take i ps ++ drop (i + 2) ps).
Proof.
  intros Hlay Hmax Hnz Hi. destruct (shift_loop l ps i Hlay Hmax Hnz (length ps - i) i l) with (fuel := S (Z.to_nat MAX)) as (l' & Hrun & Hlen & Hk);
    [lia|lia|apply Hlay|intros k; case_decide; [lia|done]|change (Z.to_nat MAX) with 10%nat; lia|].
  exists l'. split; [exact Hrun|]. destruct Hlay as (_ & Hps & Hnull). split; [done|].
  assert (length (take i ps) = i) as Htake by (rewrite length_take; lia). split.
  - intros k q Hq. rewrite Hk. apply lookup_app_Some in Hq as [Hq|[Hge Hq]].
    + pose proof (lookup_lt_Some _ _ _ Hq). rewrite lookup_take_lt in Hq by lia. case_decide; [lia|]. by apply Hps.
    + rewrite lookup_drop in Hq. pose proof (lookup_lt_Some _ _ _ Hq). case_decide; [|lia]. apply Hps. rewrite <- Hq. f_equal. lia.
  - rewrite Hk, length_app, length_drop, Htake. case_decide; [|lia].
    by replace (i + (length ps - (i + 2)) + 2)%nat with (length ps) by lia.
Qed.

(** A pointer of the array and the word that it points to. *)
Definition points (m : mem) (a : Z) (w : list Z) : Prop :=
  text_at m a w /\ a <> 0 /\ Forall (fun c => 0 < c) w /\ (length w <= STR)%nat.

Definition points_opt (m : mem) (o : option Z) (w : option (list Z)) : Prop :=
  match o, w with None, None => True | Some a, Some w => points m a w | _, _ => False end.
Definition redir_rel (m : mem) (r : redir) (sr : sredir) : Prop :=
  points_opt m (rd_left r) (s_in sr) /\ points_opt m (rd_right r) (s_out sr) /\ rd_append r = s_append sr.

Lemma file_after_spec m l pre p ps w ws op : layout l (pre ++ p :: ps) -> points m p w -> Forall2 (points m) ps ws ->
  Forall (fun c => 0 < c < 256) (str_bytes op) -> (length (str_bytes op) < 4)%nat ->
  file_after m l (length pre) op = Done (if decide (w = str_bytes op) then head ps else None).
Proof.
  intros Hlay (Hp & Hp0 & Hpw & _) Hps Ho1 Ho2. unfold file_after.
  rewrite (layout_ptr _ _ _ p Hlay) by (by rewrite lookup_app_r, Nat.sub_diag by lia). cbn [ubind].
  rewrite (is_op_spec m p w op) by done. cbn [ubind]. rewrite decide_bool_decide. destruct (bool_decide (w = str_bytes op)); [|done].
  destruct Hps as [|q f ps ws (Hq & Hq0 & _) Hps].
  - pose proof (layout_null _ _ Hlay) as H. rewrite length_app in H. cbn [length] in H. rewrite H. done.
  - rewrite (layout_ptr _ _ _ q Hlay) by (by rewrite lookup_app_r by lia; replace (length pre + 1 - length pre)%nat with 1%nat by lia).
    cbn. by destruct (Z.eqb_spec q 0).
Qed.

(** The redirection at the head of the words that are left. *)
Lemma redir_at_spec m l pre p ps w ws r sr : layout l (pre ++ p :: ps) -> points m p w -> Forall2 (points m) ps ws -> redir_rel m r sr ->
  exists o, redir_at m l (length pre) r = Done o /\
    match ws with
    | [] => o = None
    | f :: _ => match redir_of w f sr with
                | Some sr' => exists r', o = Some r' /\ redir_rel m r' sr'
                | None => o = None
                end
    end.
Proof.
  intros Hlay Hp Hps (Hr1 & Hr2 & Hr3). unfold redir_at, redir_of.
  rewrite !(file_after_spec m l pre p ps w ws) by (try done; cbn; try lia; by repeat constructor).
  destruct Hps as [|q f ps ws Hq Hps]; cbn [head].
  - exists None. by repeat case_decide.
  - destruct (decide (w = str_bytes ">>")); cbn [ubind]; [eexists; split; [done|]; eexists; by split|].
    destruct (decide (w = str_bytes ">")); cbn [ubind]; [eexists; split; [done|]; eexists; by split|].
    destruct (decide (w = str_bytes "<")); cbn [ubind]; [eexists; split; [done|]; eexists; by split|]. by exists None.
Qed.

Lemma points_nonzero m ps ws : Forall2 (points m) ps ws -> Forall (fun q => q <> 0) ps.
Proof. induction 1 as [|p w ps ws (_ & Hp & _) _ IH]; by constructor. Qed.

Lemma redir_loop m : forall n ws, (length ws <= n)%nat -> forall pre ps l r sr fuel, layout l (pre ++ ps) -> Forall2 (points m) ps ws ->
  Forall (fun q => q <> 0) pre -> redir_rel m r sr -> (length (pre ++ ps) <= 8)%nat -> (length ws < fuel)%nat ->
  exists l' ps' r', uloop fuel (redir_body m) (l, length pre, length (pre ++ ps), r) = Done (l', length (pre ++ ps'), r') /\
    layout l' (pre ++ ps') /\ Forall2 (points m) ps' (fst (redirs ws sr)) /\ redir_rel m r' (snd (redirs ws sr)).
Proof.
  induction n as [|n IH]; intros ws Hn pre ps l r sr [|fuel] Hlay Hps Hpre Hr Hmax Hf; try lia; cbn [uloop redir_body].
  all: destruct Hps as [|p w ps ws Hp Hps]; [rewrite app_nil_r in *; rewrite Nat.ltb_irrefl; cbn [negb ubind];
    exists l, [], r; rewrite app_nil_r; (split; [done|split; [done|split; [constructor|done]]])|cbn [length] in Hn; try lia].
  rewrite (proj2 (Nat.ltb_lt (length pre) (length (pre ++ p :: ps)))) by (rewrite length_app; cbn; lia). cbn [negb].
  destruct (redir_at_spec m l pre p ps w ws r sr Hlay Hp Hps Hr) as (o & Ho & Hcase). rewrite Ho. cbn [ubind].
  pose proof (points_nonzero _ _ _ Hps) as Hnz.
  assert (redir_next : o = None -> exists l' ps' r', uloop fuel (redir_body m) (l, S (length pre), length (pre ++ p :: ps), r) =
      Done (l', length (pre ++ ps'), r') /\ layout l' (pre ++ ps') /\ Forall2 (points m) ps' (w :: fst (redirs ws sr)) /\
      redir_rel m r' (snd (redirs ws sr))).
  { intros _. destruct (IH ws ltac:(lia) (pre ++ [p]) ps l r sr fuel) as (l' & ps' & r' & H1 & H2 & H3 & H4);
      [by rewrite <- app_assoc|done|apply Forall_app; split; [done|constructor; [apply Hp|constructor]]|done|by rewrite <- app_assoc|cbn in Hf; lia|].
    rewrite <- app_assoc, length_app, Nat.add_1_r in H1. exists l', (p :: ps'), r'. rewrite <- app_assoc in H1, H2.
    split; [exact H1|]. split; [exact H2|]. split; [by constructor|done]. }
  destruct ws as [|f ws]; [subst o; exact (redir_next eq_refl)|]. rewrite redirs_cons.
  destruct (redir_of w f sr) as [sr'|]; cycle 1.
  - subst o. cbn [ubind]. specialize (redir_next eq_refl). by destruct (redirs (f :: ws) sr).
  - destruct Hcase as (r1 & -> & Hr1). inversion Hps as [|q f' ps2 ws' Hq Hps2]; subst.
    destruct (shift_spec l (pre ++ p :: q :: ps2) (length pre)) as (l1 & Hsh & Hlay1); [done|done| |rewrite length_app; cbn; lia|].
    { apply Forall_app. split; [done|]. constructor; [apply Hp|done]. }
    rewrite Hsh. cbn [ubind]. rewrite take_app_length, drop_app_ge in Hlay1 by lia.
    replace (length pre + 2 - length pre)%nat with 2%nat in Hlay1 by lia. cbn [drop] in Hlay1.
    destruct (IH ws ltac:(cbn in Hn; lia) pre ps2 l1 r1 sr' fuel) as (l' & ps' & r' & H); try done;
      [rewrite length_app in Hmax |- *; cbn in Hmax; lia|cbn in Hf; lia|].
    exists l', ps', r'. rewrite <- (proj1 H). split; [|exact (proj2 H)]. do 3 f_equal. rewrite !length_app. cbn. lia.
Qed.

(** ** A command *)

Lemma STR_eq : Z.of_nat STR = 4096.
Proof. apply Z2Nat.id. lia. Qed.
#[local] Opaque STR.

Definition spec_in (o : option (list Z)) : U unit :=
  match o with
  | None => Done tt
  | Some f =>
      let? fd := open f O_RDONLY in
      if fd <? 0 then err "Error: cannot open input file %s" [Str (Some f)] ;; exit 1
      else close 0 ;; dup fd ;; close fd ;; Done tt
  end.

Definition spec_out (rfuel : nat) (o : option (list Z)) (append : bool) : U unit :=
  match o with
  | None => Done tt
  | Some f =>
      let? fd := open f (Z.lor O_WRONLY O_CREATE) in
      if fd <? 0 then err "Error: cannot open output file %s" [Str (Some f)] ;; exit 1
      else
        let? fd :=
          (if append then read_to_end rfuel fd ;; Done fd
           else
             close fd ;;
             let? fd := open f (Z.lor (Z.lor O_WRONLY O_CREATE) O_TRUNC) in
             if fd <? 0 then err "Error: cannot open output file %s" [Str (Some f)] ;; exit 1
             else Done fd) in
        close 1 ;; dup fd ;; close fd ;; Done tt
  end.

(** The calls for a program [prog] with its arguments, or for [cd]. *)
Definition spec_simple (rfuel : nat) (prog : list Z) (args : list (list Z)) (r : sredir) : U unit :=
  if decide (prog = str_bytes "cd") then
    match args with
    | [] => err "cd: Path argument is required" [] ;; exit 0
    | d :: _ =>
        let? c := chdir d in
        (if c <? 0 then err "cd error: failed to change directory to %s" [Str (Some d)] else Done tt) ;;
        exit 0
    end
  else
    spec_in (s_in r) ;;
    spec_out rfuel (s_out r) (s_append r) ;;
    let? pid := fork in
    if pid <? 0 then err "Error: Failure with fork" [] ;; exit 1
    else if pid =? 0 then
      exec prog (prog :: args) ;;
      err "Error: command not found: %s" [Str (Some prog)] ;;
      exit 1
    else wait ;; exit 0.

Lemma points_cstr m a w : points m a w -> cstr STR m a = w.
Proof. intros (H & _ & _ & Hl). by apply cstr_at. Qed.
Lemma points_pstr m a w : points m a w -> pstr m a = Str (Some w).
Proof. intros H. unfold pstr. rewrite (points_cstr _ _ _ H). destruct H as (_ & H & _). by destruct (Z.eqb_spec a 0). Qed.

Lemma redirect_in_spec m o w : points_opt m o w -> redirect_in m o = spec_in w.
Proof.
  intros H. destruct o as [a|], w as [w|]; cbn [points_opt] in H; try contradiction; [|reflexivity].
  cbn [redirect_in redirect_out spec_in spec_out]. by rewrite (points_cstr _ _ _ H), (points_pstr _ _ _ H).
Qed.
Lemma redirect_out_spec rf m o w b : points_opt m o w -> redirect_out rf m o b = spec_out rf w b.
Proof.
  intros H. destruct o as [a|], w as [w|]; cbn [points_opt] in H; try contradiction; [|reflexivity].
  cbn [redirect_in redirect_out spec_in spec_out]. by rewrite (points_cstr _ _ _ H), (points_pstr _ _ _ H).
Qed.

Lemma argv_of_spec m l : forall ps ws pre fuel, layout l (pre ++ ps) -> Forall2 (points m) ps ws -> (length ps < fuel)%nat ->
  argv_of fuel m l (length pre) = Done ws.
Proof.
  intros ps ws pre fuel Hlay Hps. revert pre fuel Hlay.
  induction Hps as [|p w ps ws Hp Hps IH]; intros pre [|fuel] Hlay Hf; cbn in Hf; try lia; cbn [argv_of].
  - rewrite app_nil_r in Hlay. by rewrite (layout_null _ _ Hlay).
  - rewrite (layout_ptr _ _ _ p Hlay) by (by rewrite lookup_app_r, Nat.sub_diag by lia). cbn [ubind].
    pose proof Hp as (_ & Hp0 & _). destruct (Z.eqb_spec p 0); [done|]. specialize (IH (pre ++ [p]) fuel).
    rewrite length_app, Nat.add_1_r, <- app_assoc in IH. rewrite IH by (try done; lia). cbn [ubind]. by rewrite (points_cstr _ _ _ Hp).
Qed.

Lemma run_simple_spec rf m l ps prog args r sr : layout l ps -> Forall2 (points m) ps (prog :: args) -> redir_rel m r sr ->
  run_simple rf m l (length ps) r = spec_simple rf prog args sr.
Proof.
  intros Hlay Hps (Hr1 & Hr2 & Hr3). pose proof (argv_of_spec m l ps _ [] (S (Z.to_nat MAX)) Hlay Hps) as Hargv.
  assert (length ps < 11)%nat as Hlen. { destruct Hlay as (Hl & _ & Hn). apply lookup_lt_Some in Hn. lia. }
  specialize (Hargv Hlen). pose proof (Forall2_length _ _ _ Hps) as Hn. destruct (Forall2_cons_inv_r _ _ _ _ Hps) as (p0 & ps' & Hp0 & Hps' & ->).
  unfold run_simple. rewrite (layout_ptr _ _ 0 p0 Hlay) by done. cbn [ubind]. pose proof Hp0 as (Hh & _ & Hpos & _).
  rewrite (is_op_spec m p0 prog "cd") by (try done; cbn; try lia; by repeat constructor). cbn [ubind]. unfold spec_simple.
  rewrite decide_bool_decide. destruct (bool_decide (prog = str_bytes "cd")).
  - destruct Hps' as [|p1 d ps' args Hp1 Hps']; cbn [length Nat.ltb Nat.leb]; [done|].
    rewrite (layout_ptr _ _ 1 p1 Hlay) by done. cbn [ubind]. by rewrite (points_cstr _ _ _ Hp1), (points_pstr _ _ _ Hp1).
  - rewrite (redirect_in_spec _ _ _ Hr1), (redirect_out_spec _ _ _ _ _ Hr2), Hr3. cbn [length] in Hargv. rewrite Hargv.
    by rewrite (points_cstr _ _ _ Hp0), (points_pstr _ _ _ Hp0).
Qed.

(** ** Lines *)

(** The text of a command, alone or before a [|] or a [;] and the rest. *)
Inductive line : Type :=
| Cmd (text : list Z)
| Piped (text : list Z) (rest : line)
| Then (text : list Z) (rest : line).

Fixpoint show (l : line) : list Z :=
  match l with
  | Cmd t => t
  | Piped t r => t ++ 124 :: show r
  | Then t r => t ++ 59 :: show r
  end.

Fixpoint ops (l : line) : nat := match l with Cmd _ => 0 | Piped _ r | Then _ r => S (ops r) end.

(** A command: tidy, of at most eight words, not only redirections. *)
Definition cmd_ok (text : list Z) : Prop :=
  tidy text /\ Forall (fun c => c <> 124 /\ c <> 59) text /\ (length (words text) <= 8)%nat /\
  exists prog args r, redirs (words text) no_sredir = (prog :: args, r).

Fixpoint line_ok (l : line) : Prop :=
  match l with Cmd t => cmd_ok t | Piped t r | Then t r => cmd_ok t /\ line_ok r end.

Definition spec_cmd (rfuel : nat) (text : list Z) : U unit :=
  match redirs (words text) no_sredir with
  | (prog :: args, r) => spec_simple rfuel prog args r
  | ([], _) => Done tt
  end.

(** The calls of a line: both sides of a pipe in children of their own, the
    commands of a sequence one after the other. *)
Fixpoint spec_line (rfuel : nat) (l : line) : U unit :=
  match l with
  | Cmd t => spec_cmd rfuel t
  | Piped t r =>
      let? ' (_, fds) := pipe in
      let? pid := fork in
      (if pid =? 0 then
         close 1 ;; dup (snd fds) ;; close (fst fds) ;; close (snd fds) ;; spec_cmd rfuel t
       else Done tt) ;;
      let? pid := fork in
      (if pid =? 0 then
         close 0 ;; dup (fst fds) ;; close (snd fds) ;; close (fst fds) ;; spec_line rfuel r
       else Done tt) ;;
      close (fst fds) ;; close (snd fds) ;; wait ;; wait ;; exit 0
  | Then t r =>
      let? pid := fork in
      (if pid =? 0 then spec_cmd rfuel t else Done tt) ;;
      wait ;;
      spec_line rfuel r ;;
      exit 0
  end.

Lemma find_op_none m : forall t n p, text_at m p t -> Forall (fun c => c <> 124 /\ c <> 59) t -> find_op n m p = None.
Proof.
  induction t as [|c t IH]; intros [|n] p Hs Ht; try done; cbn [find_op].
  - cbn in Hs. unfold at_mem in Hs. rewrite Z.add_0_r in Hs. by rewrite Hs.
  - destruct Hs as (H & Hc & Hs). unfold at_mem in H. rewrite Z.add_0_r in H. rewrite H. apply Forall_cons in Ht as [[H1 H2] Ht].
    destruct (Z.eqb_spec c 0); [done|]. destruct (Z.eqb_spec c 124); [done|]. destruct (Z.eqb_spec c 59); [done|].
    apply IH; [by apply str_at_0 in Hs|done].
Qed.

Lemma find_op_some m : forall t n p c rest, text_at m p (t ++ c :: rest) -> Forall (fun c => c <> 124 /\ c <> 59) t -> c = 124 \/ c = 59 ->
  (length t < n)%nat -> find_op n m p = Some (p + Z.of_nat (length t), c =? 124).
Proof.
  induction t as [|x t IH]; intros [|n] p c rest Hs Ht Hc Hn; cbn in Hn; try lia; cbn [find_op].
  - destruct Hs as (H & _). unfold at_mem in H. rewrite Z.add_0_r in H. rewrite H. cbn. rewrite Z.add_0_r. by destruct Hc as [-> | ->].
  - destruct Hs as (H & Hx & Hs). unfold at_mem in H. rewrite Z.add_0_r in H. rewrite H. apply Forall_cons in Ht as [[H1 H2] Ht].
    destruct (Z.eqb_spec x 0); [done|]. destruct (Z.eqb_spec x 124); [done|]. destruct (Z.eqb_spec x 59); [done|].
    rewrite (IH n (p + 1) c rest) by first [done | by apply str_at_0 in Hs | lia]. do 2 f_equal. cbn. lia.
Qed.

Lemma words_sub text : Forall (fun c => 0 < c) text -> Forall (fun w => Forall (fun c => 0 < c) w /\ (length w <= length text)%nat) (words text).
Proof.
  intros H. unfold words, pieces. apply Forall_forall. intros w Hw. apply list_elem_of_filter in Hw as [_ Hw]. revert w Hw.
  apply Forall_forall. induction H as [|c text Hc H IH]; cbn; [by repeat constructor|]. destruct (c =? 32).
  - constructor; [split; [constructor|cbn; lia]|]. eapply Forall_impl; [exact IH|]. intros w [? ?]. split; [done|lia].
  - destruct (split_on 32 text) as [|w ws]; [by constructor; [split; [by constructor|cbn; lia]|constructor]|]. apply Forall_cons in IH as [[H1 H2] IH]. constructor.
    + split; [by constructor|cbn; lia].
    + eapply Forall_impl; [exact IH|]. intros v [? ?]. split; [done|lia].
Qed.

Lemma Forall2_and_r {A B} (P : A -> B -> Prop) (Q : B -> Prop) l k :
  Forall2 P l k -> Forall Q k -> Forall2 (fun a b => P a b /\ Q b) l k.
Proof. induction 1 as [|a b l k Hab _ IH]; intros H; constructor; apply Forall_cons in H as [? ?]; auto. Qed.

(** A command with no operator in it. *)
Lemma run_cmd fuel rf m buf nbuf t : text_at m buf t -> cmd_ok t -> 0 < buf -> Z.of_nat (length t) < nbuf <= 4096 ->
  run_command (S fuel) rf m buf nbuf = spec_cmd rf t.
Proof.
  intros Hs (Ht & Hop & Hn & prog & args & r & Hr) Hbuf Hl. cbn [run_command]. rewrite (find_op_none m t) by done.
  destruct (tokenize_words (Z.to_nat (MAX - 1)) t m buf (S (Z.to_nat nbuf)) Hs (or_intror Ht)) as (m' & ps & Htok & Hps & _);
    [change (Z.to_nat (MAX - 1)) with 9%nat; lia|lia|].
  rewrite Htok. cbn [fueled ubind]. pose proof (Forall2_length _ _ _ Hps) as Hlen.
  destruct (put_args_layout ps no_slots 0 []) as (l & Hput & Hlay); [done|done|done|lia|]. rewrite Hput. cbn [ubind app] in *.
  assert (Forall2 (points m') ps (words t)) as Hpts.
  { pose proof (words_sub t) as Hsub. destruct Ht as [Hb _]. specialize (Hsub ltac:(eapply Forall_impl; [exact Hb|]; intros c [? _]; cbv beta; lia)).
    eapply Forall2_impl; [exact (Forall2_and_r _ _ _ _ Hps Hsub)|]. intros a w [[Ha Hge] [Hw1 Hw2]].
    split_and!; [done|lia|done|]. pose proof STR_eq. lia. }
  destruct (redir_loop m' (length (words t)) (words t) ltac:(lia) [] ps l no_redir no_sredir (S (Z.to_nat MAX))) as (l' & ps' & r' & Hrun & Hlay' & Hps' & Hr');
    [done|done|constructor|by repeat split|cbn; lia|change (Z.to_nat MAX) with 10%nat; lia|].
  unfold redirections. cbn [length app] in Hrun. rewrite Hrun. cbn [ubind app] in *. rewrite Hr in Hps', Hr'. unfold spec_cmd. rewrite Hr.
  by apply (run_simple_spec rf m' l' ps' prog args r' r).
Qed.

(** The line split at its operator: the command before it and the rest. *)
Lemma split_line m buf t c rest : text_at m buf (t ++ c :: rest) -> tidy t ->
  let p := buf + Z.of_nat (length t) in text_at (store8 m p 0) buf t /\ text_at (store8 m p 0) (p + 1) rest.
Proof.
  intros Hs [Ht _] p. split.
  - apply str_at_intro.
    + eapply Forall_impl; [exact Ht|]. intros x [? _]. cbv beta. lia.
    + intros k x Hk. pose proof (lookup_lt_Some _ _ _ Hk). rewrite load8_store8. zdec; [lia|].
      destruct (str_at_lookup _ _ _ k x Hs) as [<- _]; [by rewrite lookup_app_l by lia|]. done.
    + rewrite load8_store8. by zdec.
  - apply str_at_app in Hs. destruct Hs as (_ & _ & Hs). apply str_at_0 in Hs. eapply str_at_ext; [|exact Hs].
    intros k Hk. unfold at_mem. rewrite load8_store8. zdec; [lia|]. f_equal. lia.
Qed.

(** C10: [run_command] runs the line that is in its buffer.  For every line of
    commands separated by [|] and [;], each a tidy text of at most eight words
    that is not only redirections, the system calls of the shell, on every answer
    of the kernel, are those that the line stands for: the words of a command are
    what the blanks separate, [<], [>] and [>>] take the word after them out of
    the arguments, the sides of a pipe run in two children joined by it, and the
    commands of a sequence one after the other. *)
Theorem run_command_runs_line rf : forall l fuel m buf nbuf, line_ok l -> text_at m buf (show l) -> (ops l < fuel)%nat ->
  0 < buf -> Z.of_nat (length (show l)) < nbuf <= 4096 -> run_command fuel rf m buf nbuf = spec_line rf l.
Proof.
  induction l as [t|t r IH|t r IH]; intros [|fuel] m buf nbuf Hok Hs Hf Hbuf Hl; cbn [ops line_ok show] in *; try lia.
  - by apply run_cmd.
  - destruct Hok as [Ht Hr]. rewrite length_app in Hl. cbn [length] in Hl. cbn [run_command].
    rewrite (find_op_some m t _ _ 124 (show r)) by (first [done|apply Ht|by left|lia]). cbn [Z.eqb Pos.eqb].
    destruct (split_line _ _ _ _ _ Hs (proj1 Ht)) as [H1 H2]. destruct fuel as [|fuel]; [lia|].
    rewrite (run_cmd _ _ _ _ _ t) by (try done; lia). by rewrite (IH (S fuel)) by (try done; lia).
  - destruct Hok as [Ht Hr]. rewrite length_app in Hl. cbn [length] in Hl. cbn [run_command].
    rewrite (find_op_some m t _ _ 59 (show r)) by (first [done|apply Ht|by right|lia]). cbn [Z.eqb Pos.eqb].
    destruct (split_line _ _ _ _ _ Hs (proj1 Ht)) as [H1 H2]. destruct fuel as [|fuel]; [lia|].
    rewrite (run_cmd _ _ _ _ _ t) by (try done; lia). by rewrite (IH (S fuel)) by (try done; lia).
Qed.
