(* ===== verification/MyShellClaims.v ===== *)
(** * What my_shell's commands do

    The ends of [run_command], and its redirections run on the system of [Uos]. *)

From stdpp Require Import gmap.
From S2P Require Import Prelude Mem Cstring Uprog Ulib Uos MyShell MyShellSpec.

(** ** How a program can end *)

(** On every answer of the kernel, a program that ends exits with a status in
    [P]; it never returns. *)
Fixpoint only_exits {A} (P : Z -> Prop) (p : U A) : Prop :=
  match p with
  | Done _ => False
  | Sys _ k => forall r, only_exits P (k r)
  | Exit st => P st
  | Crash _ | NoFuel => True
  end.

(** The same of a program that may return. *)
Fixpoint may_exit {A} (P : Z -> Prop) (p : U A) : Prop :=
  match p with
  | Sys _ k => forall r, may_exit P (k r)
  | Exit st => P st
  | _ => True
  end.

Lemma only_exits_bind {A B} P (p : U A) (f : A -> U B) : may_exit P p -> (forall a, only_exits P (f a)) -> only_exits P (ubind p f).
Proof. intros Hp Hf. induction p as [a|c k IH|st|why|]; cbn in *; auto. Qed.
Lemma may_exit_bind {A B} P (p : U A) (f : A -> U B) : may_exit P p -> (forall a, may_exit P (f a)) -> may_exit P (ubind p f).
Proof. intros Hp Hf. induction p as [a|c k IH|st|why|]; cbn in *; auto. Qed.
Lemma only_may {A} P (p : U A) : only_exits P p -> may_exit P p.
Proof. induction p as [a|c k IH|st|why|]; cbn; auto; done. Qed.
Lemma only_exits_stop {A B} P (p : U A) (f : A -> U B) : only_exits P p -> only_exits P (ubind p f).
Proof. induction p as [a|c k IH|st|why|]; cbn; auto; done. Qed.

Lemma may_exit_uloop {T R} P (body : T -> U (T + R)) : (forall t, may_exit P (body t)) -> forall fuel t, may_exit P (uloop fuel body t).
Proof. intros Hb fuel. induction fuel as [|f IH]; intros t; cbn; [done|]. apply may_exit_bind; [apply Hb|]. by intros [t'|r]. Qed.

Lemma may_exit_ufor {A} P (l : list A) f : (forall a, may_exit P (f a)) -> may_exit P (ufor l f).
Proof. intros Hf. induction l as [|x l IH]; cbn; [done|]. by apply may_exit_bind. Qed.

Create HintDb exits.
#[export] Hint Resolve may_exit_ufor may_exit_uloop : exits.

(** Through the binds and the cases of a program. *)
Ltac exits := repeat first
  [ progress intros
  | match goal with
    | |- may_exit _ (ubind _ _) => apply may_exit_bind
    | |- only_exits _ (ubind _ (fun _ => exit _)) => apply only_exits_bind
    | |- only_exits _ (ubind _ _) => apply only_exits_bind
    | |- may_exit _ (if ?b then _ else _) => destruct b
    | |- only_exits _ (if ?b then _ else _) => destruct b
    | |- may_exit _ (match ?b with _ => _ end) => destruct b
    | |- only_exits _ (match ?b with _ => _ end) => destruct b
    end
  | progress auto with exits ].

Lemma may_exit_vprintf P fd : forall fuel fmt args, may_exit P (vprintf fuel fd fmt args).
Proof.
  assert (forall c, may_exit P (putc fd c)) as Hputc by (by intros c r).
  assert (forall x b sg, may_exit P (uprintint fd x b sg)) as Hint by (intros; unfold uprintint; exits; done).
  assert (forall fmt args, may_exit P (vprintf_conv fd fmt args)) as Hconv.
  { intros fmt args. unfold vprintf_conv, uconv, uva_num, uva_str, uprintptr. exits; done. }
  induction fuel as [|f IH]; intros fmt args; cbn [vprintf]; [done|]. destruct fmt; exits; done.
Qed.
Lemma may_exit_err P fmt args : may_exit P (err fmt args).
Proof. apply may_exit_vprintf. Qed.
#[export] Hint Resolve may_exit_err : exits.

Definition ok_status (st : Z) : Prop := st = 0 \/ st = 1.

Lemma may_exit_0 {A} : may_exit ok_status (@exit A 0).
Proof. by left. Qed.
Lemma may_exit_1 {A} : may_exit ok_status (@exit A 1).
Proof. by right. Qed.
Lemma only_exits_0 {A} : only_exits ok_status (@exit A 0).
Proof. by left. Qed.
Lemma only_exits_1 {A} : only_exits ok_status (@exit A 1).
Proof. by right. Qed.
#[export] Hint Resolve may_exit_0 may_exit_1 only_exits_0 only_exits_1 : exits.

Lemma may_exit_redirect_in m o : may_exit ok_status (redirect_in m o).
Proof. unfold redirect_in. destruct o; [|done]. exits; done. Qed.
Lemma may_exit_redirect_out rf m o b : may_exit ok_status (redirect_out rf m o b).
Proof. unfold redirect_out. destruct o; [|done]. exits; try done. apply may_exit_uloop. intros []. exits; done. Qed.

Lemma may_exit_slot l i : may_exit ok_status (slot_ptr l i).
Proof. unfold slot_ptr, slot_get. exits; done. Qed.
Lemma may_exit_is_op m p op : may_exit ok_status (is_op m p op).
Proof. unfold is_op, fueled. exits; done. Qed.
Lemma may_exit_argv fuel m l i : may_exit ok_status (argv_of fuel m l i).
Proof. revert i. induction fuel as [|f IH]; intros i; cbn [argv_of]; [done|]. pose proof may_exit_slot. exits; done. Qed.
Lemma may_exit_put l i args : may_exit ok_status (put_args l i args).
Proof. revert l i. induction args as [|a args IH]; intros l i; cbn [put_args]; unfold slot_put; exits; done. Qed.
Lemma may_exit_redirections m l n : may_exit ok_status (redirections m l n).
Proof.
  apply may_exit_uloop. intros [[[l' i] k] r]. unfold redir_body, redir_at, file_after. pose proof may_exit_slot. pose proof may_exit_is_op.
  exits; try done. apply may_exit_uloop. intros [l1 j]. unfold shift_body, slot_get, slot_put. exits; done.
Qed.
#[export] Hint Resolve may_exit_redirect_in may_exit_redirect_out may_exit_slot may_exit_is_op may_exit_argv may_exit_put may_exit_redirections : exits.

Lemma only_exits_simple rf m l n r : only_exits ok_status (run_simple rf m l n r).
Proof. unfold run_simple. exits; done. Qed.
#[export] Hint Resolve only_exits_simple : exits.


(** ** Redirections at work *)

(** A program that writes [bss] to its standard output, one [write] for each,
    and exits. *)
Definition prints (bss : list (list Z)) : U Z := ufor bss (fun b => write 1 b ;; Done tt) ;; exit 0.

Lemma overwrite_app off a b l : (off <= length l)%nat ->
  overwrite (off + length a) b (overwrite off a l) = overwrite off (a ++ b) l.
Proof.
  intros H. assert (length (take off l ++ a) = (off + length a)%nat) as Hl by (rewrite length_app, length_take; lia).
  assert (overwrite off a l = (take off l ++ a) ++ drop (off + length a) l) as -> by (unfold overwrite; by rewrite <- app_assoc).
  unfold overwrite. rewrite take_app_length' by done. rewrite drop_app_ge by lia. rewrite drop_drop, length_app, <- !app_assoc.
  rewrite length_app in Hl. do 3 f_equal. rewrite (length_app a b). f_equal. lia.
Qed.
Lemma overwrite_length off a l : (off <= length l)%nat -> (off + length a <= length (overwrite off a l))%nat.
Proof. intros H. unfold overwrite. rewrite !length_app, length_take. lia. Qed.
Lemma overwrite_fresh bs : overwrite 0 bs [] = bs.
Proof. unfold overwrite. by rewrite drop_nil, app_nil_r. Qed.
Lemma overwrite_nil off l : (off <= length l)%nat -> overwrite off [] l = l.
Proof. intros H. unfold overwrite. cbn. rewrite Nat.add_0_r. apply take_drop. Qed.

Section redirections.
Variable progs : list Z -> option (list (list Z) -> U Z).
Variable others : call -> reply.
Variables sh_pid pid : Z.
Variable child : positive.
Variable sh_next : reply -> U Z.
Variables inp out : list Z.
Variable files : gmap (list Z) (list Z).

(** The shell that waits, and the process that it made for the line. *)
Definition line_state (p : U Z) : os :=
  mk_os [mk_uproc sh_pid 0 console_fds (Running (Sys Cwait sh_next) 0); mk_uproc pid 0 console_fds (Running p 0)]
    [mk_ofile KCons 0] [] files inp out (Z.pos child).

(** The line is over: its process has exited with status 0, and of the files only
    [f] has changed; it holds [l]. *)
Definition wrote (f l : list Z) (s : os) : Prop :=
  os_procs s !! 1%nat = Some (mk_uproc pid 0 [] (Zombie 0)) /\ os_files s !! f = Some l /\
  (forall g, g <> f -> os_files s !! g = files !! g) /\ os_out s = out.

Abbreviation inev f l := (inevitably progs others (wrote f l)).

(** The command runs with the file [f] as its standard output; [n] is the
    number of times that the shell opened it. *)
Definition out_fds : list (option nat) -> nat -> list (option nat) := fun l n => <[1%nat := Some n]> l.
Definition running (f : list Z) (n off : nat) (l : list Z) (fs : gmap (list Z) (list Z)) (p : U Z) : os :=
  mk_os [mk_uproc sh_pid 0 console_fds (Running (Sys Cwait sh_next) 0);
         mk_uproc pid 0 (out_fds console_fds n) (Running (Sys Cwait (fun _ => exit 0)) 0);
         mk_uproc (Z.pos child) 1 (out_fds console_fds n) (Running p 0)]
    (mk_ofile KCons 0 :: replicate (n - 1) (mk_ofile (KFile f false true) 0) ++ [mk_ofile (KFile f false true) off])
    [] (file_set f l fs) inp out (Z.pos child + 1).

Lemma prints_cons b bss : prints (b :: bss) = Sys (Cwrite 1 b) (fun _ => prints bss).
Proof. reflexivity. Qed.

Ltac calc := lazy -[file_at file_set overwrite length Z.of_nat Z.add Nat.add Nat.ltb prints err].
Ltac alone_by c k := eapply (inevitably_only progs others) with (i := k);
  [c | let j := fresh in let Hj := fresh in intros j Hj; destruct j as [|[|[|j]]]; first [done | reflexivity] | ].

Ltac alone k := alone_by calc k.
(** The same, computing the descriptors. *)
Ltac opens := alone_by ltac:(lazy -[file_at file_set overwrite Z.add prints err]) 1%nat; [rewrite ?file_at_set; reflexivity|].

Lemma set_others (f l : list Z) (fs : gmap (list Z) (list Z)) : (forall g, g <> f -> fs !! g = files !! g) ->
  forall g, g <> f -> file_set f l fs !! g = files !! g.
Proof. intros H g Hg. unfold file_set. rewrite lookup_insert_ne by done. by apply H. Qed.

Lemma command_writes f n : n = 1%nat \/ n = 2%nat -> forall bss off l fs,
  (forall g, g <> f -> fs !! g = files !! g) -> (off <= length l)%nat ->
  inev f (overwrite off (concat bss) l) (running f n off l fs (prints bss)).
Proof.
  intros Hn. induction bss as [|b bss IH]; intros off l fs Hfs Hoff.
  - cbn [concat]. rewrite overwrite_nil by done.
    destruct Hn as [-> | ->]; (alone 2%nat; [reflexivity|]; do 2 (alone 1%nat; [reflexivity|]); apply now;
      (split; [done|split; [apply file_at_set|split; [by apply set_others|done]]])).
  - rewrite prints_cons. cbn [concat]. rewrite <- overwrite_app by done.
    destruct Hn as [-> | ->];
      (alone 2%nat; [rewrite file_at_set; rewrite (proj2 (Nat.ltb_ge (length l) off) Hoff); reflexivity|];
       apply IH; [by apply set_others|by apply overwrite_length]).
Qed.

(** The end of [run_simple], once the standard output is the file. *)
Lemma command_runs f n prog args bss off l fs : n = 1%nat \/ n = 2%nat -> progs prog = Some (fun _ => prints bss) ->
  (forall g, g <> f -> fs !! g = files !! g) -> (off <= length l)%nat ->
  inev f (overwrite off (concat bss) l)
    (mk_os [mk_uproc sh_pid 0 console_fds (Running (Sys Cwait sh_next) 0);
       mk_uproc pid 0 (out_fds console_fds n) (Running ((let? pid := fork in
         if pid <? 0 then err "Error: Failure with fork" [] ;; exit 1
         else if pid =? 0 then exec prog (prog :: args) ;; err "Error: command not found: %s" [Str (Some prog)] ;; exit 1
         else wait ;; exit 0 : U unit) ;; exit 0) 0)]
      (mk_ofile KCons 0 :: replicate (n - 1) (mk_ofile (KFile f false true) 0) ++ [mk_ofile (KFile f false true) off])
      [] (file_set f l fs) inp out (Z.pos child)).
Proof.
  intros Hn Hprog Hfs Hoff. destruct Hn as [-> | ->]; (alone 1%nat; [reflexivity|]; alone 2%nat; [rewrite Hprog; reflexivity|];
    by apply command_writes; [auto|..]).
Qed.

(** The two ways to open the file of an output redirection. *)
Lemma line_truncates rf f prog args bss : prog <> str_bytes "cd" -> progs prog = Some (fun _ => prints bss) ->
  inev f (concat bss) (line_state (spec_simple rf prog args (mk_sredir None (Some f) false) ;; exit 0)).
Proof.
  intros Hcd Hprog. unfold spec_simple. rewrite decide_False by done. cbn [s_in s_out s_append].
  rewrite <- (overwrite_fresh (concat bss)).
  pose proof (fun fs => command_runs f 2 prog args bss 0 [] fs (or_intror eq_refl) Hprog) as H.
  destruct (file_at files f) as [l|] eqn:E; unfold line_state.
  - alone_by ltac:(lazy -[file_at file_set overwrite Z.add prints err]) 1%nat; [rewrite E; reflexivity|]. do 5 opens.
    apply H; [by apply set_others|done].
  - alone_by ltac:(lazy -[file_at file_set overwrite Z.add prints err]) 1%nat; [rewrite E; reflexivity|]. do 5 opens.
    apply H; [by apply set_others|done].
Qed.

Lemma line_appends rf f prog args bss : prog <> str_bytes "cd" -> progs prog = Some (fun _ => prints bss) ->
  inev f (overwrite 0 (concat bss) (default [] (file_at files f)))
    (line_state (spec_simple (S rf) prog args (mk_sredir None (Some f) true) ;; exit 0)).
Proof.
  intros Hcd Hprog. unfold spec_simple. rewrite decide_False by done. cbn [s_in s_out s_append].
  pose proof (fun l => command_runs f 1 prog args bss 0 l files (or_introl eq_refl) Hprog (fun _ _ => eq_refl) (le_0_n _)) as H.
  destruct (file_at files f) as [l|] eqn:E; unfold line_state.
  - alone_by ltac:(lazy -[file_at file_set overwrite Z.add prints err]) 1%nat; [rewrite E; reflexivity|]. do 4 opens. apply H.
  - alone_by ltac:(lazy -[file_at file_set overwrite Z.add prints err]) 1%nat; [rewrite E; reflexivity|]. do 4 opens. apply H.
Qed.
End redirections.

(** Output redirection.  When the line in the buffer is a program with its
    arguments and a [> f], and the program prints [bss], every run of the line
    ends with the program's output, and nothing else, in [f], whatever [f] held
    before and whether or not it existed; nothing is printed on the console, no
    other file changes, and the shell's process exits with status 0. *)
Theorem redirection_truncates progs others sh_pid sh_next pid child inp out files fuel rf m buf t prog args f bss :
  text_at m buf t -> cmd_ok t -> 0 < buf -> Z.of_nat (length t) < 100 ->
  redirs (words t) no_sredir = (prog :: args, mk_sredir None (Some f) false) ->
  prog <> str_bytes "cd" -> progs prog = Some (fun _ => prints bss) ->
  inevitably progs others (wrote pid out files f (concat bss))
    (line_state sh_pid pid child sh_next inp out files (run_command (S fuel) rf m buf 100 ;; exit 0)).
Proof.
  intros Hm Ht Hbuf Hl Hr Hcd Hprog. rewrite (run_cmd fuel rf m buf 100 t) by (try done; lia). unfold spec_cmd. rewrite Hr.
  by apply line_truncates.
Qed.

(** C36: appending does not append.  [>>] opens the file for writing only and then
    reads it to move to its end; the reads fail, so the offset stays 0 and the
    output of the program is written over the beginning of what [f] held. *)
Theorem append_overwrites progs others sh_pid sh_next pid child inp out files fuel rf m buf t prog args f bss :
  text_at m buf t -> cmd_ok t -> 0 < buf -> Z.of_nat (length t) < 100 ->
  redirs (words t) no_sredir = (prog :: args, mk_sredir None (Some f) true) ->
  prog <> str_bytes "cd" -> progs prog = Some (fun _ => prints bss) ->
  inevitably progs others
    (wrote pid out files f (concat bss ++ drop (length (concat bss)) (default [] (files !! f))))
    (line_state sh_pid pid child sh_next inp out files (run_command (S fuel) (S rf) m buf 100 ;; exit 0)).
Proof.
  intros Hm Ht Hbuf Hl Hr Hcd Hprog. rewrite (run_cmd fuel (S rf) m buf 100 t) by (try done; lia). unfold spec_cmd. rewrite Hr.
  exact (line_appends progs others sh_pid pid child sh_next inp out files rf f prog args bss Hcd Hprog).
Qed.

(** ** Examples *)

(** Decidable facts about concrete lines. *)
Lemma tidy_word_end body c : Forall (fun c => 0 < c < 256 /\ c <> 9) body -> last body = Some c -> c <> 32 -> tidy body.
Proof. intros H Hc Hne. split; [done|]. exists body, []. rewrite app_nil_r. split; [done|]. split; [by left|]. by exists c. Qed.
Lemma tidy_blank_end body c : Forall (fun c => 0 < c < 256 /\ c <> 9) body -> last body = Some c -> c <> 32 -> tidy (body ++ [32]).
Proof.
  intros H Hc Hne. split; [apply Forall_app; split; [done|by repeat constructor]|]. exists body, [32].
  split; [done|]. split; [by right|]. by exists c.
Qed.

Definition example_progs (path : list Z) : option (list (list Z) -> U Z) :=
  if decide (path = str_bytes "echo") then Some (fun _ => prints [str_bytes "hi"; [10]]) else None.
Definition old_files : gmap (list Z) (list Z) := {[ str_bytes "log" := str_bytes "0123456789" ]}.

(** ** Lines at the limits *)

(** With nine words, taking a redirection out of [arguments] reads past its end. *)
Lemma nine_words_overrun :
  run_command 1 1 (buffer_of "a b c d e f g > h") 1000 100 = Crash "arguments: out of bounds".
Proof. vm_compute. reflexivity. Qed.

(** Two blanks at the end of a command give it an empty argument. *)
Lemma trailing_blanks_add_argument :
  (fun '(m, args) => map (cstr STR m) args) <$> tokenize 101 9 (buffer_of "ls  ") 1000 = Some [str_bytes "ls"; []].
Proof. vm_compute. reflexivity. Qed.

Definition first_cmd : list Z := str_bytes "cat < in ".
Definition second_cmd : list Z := str_bytes " wc -l ".
Definition third_cmd : list Z := str_bytes " echo hi > out".
Definition example_line : line := Piped first_cmd (Then second_cmd (Cmd third_cmd)).

Lemma run_line_witness : run_command 3 7 (buffer_of "cat < in | wc -l ; echo hi > out") 1000 100 = spec_line 7 example_line.
Proof.
  apply (run_command_runs_line 7 example_line 3 (buffer_of "cat < in | wc -l ; echo hi > out") 1000 100).
  - cbn [line_ok example_line]. unfold cmd_ok. split_and!; try by_dec.
    + change first_cmd with (str_bytes "cat < in" ++ [32]). apply (tidy_blank_end _ 110); [by_dec|reflexivity|done].
    + eexists _, _, _. reflexivity.
    + change second_cmd with (str_bytes " wc -l" ++ [32]). apply (tidy_blank_end _ 108); [by_dec|reflexivity|done].
    + eexists _, _, _. reflexivity.
    + apply (tidy_word_end _ 116); [by_dec|reflexivity|done].
    + eexists _, _, _. reflexivity.
  - apply (text_at_buffer "cat < in | wc -l ; echo hi > out"). by_dec.
  - by_dec.
  - lia.
  - by_dec.
Defined.

Lemma redirection_witness : inevitably example_progs (fun _ => mk_reply 0 []) (wrote 5 [] old_files (str_bytes "log") (str_bytes "hi" ++ [10]))
  (line_state 2 5 6 (fun _ => exit 0) [] [] old_files (run_command 1 1 (buffer_of "echo hi > log") 1000 100 ;; exit 0)).
Proof.
  apply (redirection_truncates example_progs (fun _ => mk_reply 0 []) 2 (fun _ => exit 0) 5 6 [] [] old_files 0 1 _ 1000 (str_bytes "echo hi > log")
    (str_bytes "echo") [str_bytes "hi"] (str_bytes "log") [str_bytes "hi"; [10]]).
  - apply (text_at_buffer "echo hi > log"). by_dec.
  - split_and!; try by_dec; [apply (tidy_word_end _ 103); [by_dec|reflexivity|done]|eexists _, _, _; reflexivity].
  - lia.
  - by_dec.
  - reflexivity.
  - by_dec.
  - reflexivity.
Defined.

Lemma append_witness : inevitably example_progs (fun _ => mk_reply 0 []) (wrote 5 [] old_files (str_bytes "log") (str_bytes "hi" ++ [10] ++ str_bytes "3456789"))
  (line_state 2 5 6 (fun _ => exit 0) [] [] old_files (run_command 1 1 (buffer_of "echo hi >> log") 1000 100 ;; exit 0)).
Proof.
  apply (append_overwrites example_progs (fun _ => mk_reply 0 []) 2 (fun _ => exit 0) 5 6 [] [] old_files 0 0 _ 1000 (str_bytes "echo hi >> log")
    (str_bytes "echo") [str_bytes "hi"] (str_bytes "log") [str_bytes "hi"; [10]]).
  - apply (text_at_buffer "echo hi >> log"). by_dec.
  - split_and!; try by_dec; [apply (tidy_word_end _ 103); [by_dec|reflexivity|done]|eexists _, _, _; reflexivity].
  - lia.
  - by_dec.
  - reflexivity.
  - by_dec.
  - reflexivity.
Defined.
