(* ===== verification/Sh.v ===== *)
(** * user/sh.c

    The shell: its parser, on the buffer as memory, and [runcmd], as a tree of
    calls.  A parsed command holds pairs of pointers into the buffer, the start
    and the end of each string; [nulterminate] puts the NULs, after which the
    strings can be read.  [malloc] is taken to succeed, as the code does. *)

From S2P Require Import Prelude Mem Cstring Uprog Ulib.

(** [struct cmd] and the structures that extend it, over the type of strings. *)
Inductive cmd (A : Type) : Type :=
| EXEC (argv : list A)
| REDIR (c : cmd A) (file : A) (mode fd : Z)
| PIPE (left right : cmd A)
| LIST (left right : cmd A)
| BACK (c : cmd A).
Arguments EXEC {A} argv.
Arguments REDIR {A} c file mode fd.
Arguments PIPE {A} left right.
Arguments LIST {A} left right.
Arguments BACK {A} c.

Definition MAXARGS : Z := 10.

(** ** Running *)

Definition sh_panic {A} (s : string) : U A := err "%s" [Str (Some (str_bytes s))] ;; exit 1.

Definition fork1 : U Z :=
  let? pid := fork in
  if pid =? -1 then sh_panic "fork" else Done pid.

Fixpoint runcmd (c : cmd (list Z)) : U unit :=
  match c with
  | EXEC [] => exit 1
  | EXEC (prog :: args) =>
      exec prog (prog :: args) ;;
      err "exec %s failed" [Str (Some prog)] ;;
      exit 0
  | REDIR c file mode fd =>
      close fd ;;
      let? r := open file mode in
      if r <? 0 then err "open %s failed" [Str (Some file)] ;; exit 1
      else runcmd c ;; exit 0
  | LIST lc rc =>
      let? pid := fork1 in
      (if pid =? 0 then runcmd lc else Done tt) ;;
      wait ;;
      runcmd rc ;;
      exit 0
  | PIPE lc rc =>
      let? ' (r, p) := pipe in
      if r <? 0 then sh_panic "pipe"
      else
        let? pid := fork1 in
        (if pid =? 0 then
           close 1 ;; dup (snd p) ;; close (fst p) ;; close (snd p) ;; runcmd lc
         else Done tt) ;;
        let? pid := fork1 in
        (if pid =? 0 then
           close 0 ;; dup (fst p) ;; close (fst p) ;; close (snd p) ;; runcmd rc
         else Done tt) ;;
        close (fst p) ;; close (snd p) ;; wait ;; wait ;;
        exit 0
  | BACK c =>
      let? pid := fork1 in
      (if pid =? 0 then runcmd c else Done tt) ;;
      exit 0
  end.

(** ** Tokens *)

Definition whitespace : list Z := [32; 9; 13; 10; 11].
Definition symbols : list Z := str_bytes "<|>&;()".

(** [strchr(l, c)] as a condition. *)
Definition among (l : list Z) (c : Z) : bool := match strchr l c with Some _ => true | None => false end.

(** [while(s < es && strchr(whitespace, *s)) s++], for [n] = es - s. *)
Fixpoint skip_ws (n : nat) (m : mem) (s : Z) : Z :=
  match n with
  | O => s
  | S n' => if among whitespace (load8 m s) then skip_ws n' m (s + 1) else s
  end.

Fixpoint skip_arg (n : nat) (m : mem) (s : Z) : Z :=
  match n with
  | O => s
  | S n' => if negb (among whitespace (load8 m s)) && negb (among symbols (load8 m s))
            then skip_arg n' m (s + 1) else s
  end.

(** The kind of the token, where it starts and ends, and where the next one
    starts. *)
Definition gettoken (m : mem) (s es : Z) : Z * Z * Z * Z :=
  let s := skip_ws (Z.to_nat (es - s)) m s in
  let q := s in
  let c := load8 m s in
  let '(ret, s) :=
    if c =? 0 then (c, s)
    else if (c =? 124) || (c =? 40) || (c =? 41) || (c =? 59) || (c =? 38) || (c =? 60) then (c, s + 1)
    else if c =? 62 then
      let s := s + 1 in
      if load8 m s =? 62 then (43, s + 1) else (c, s)
    else (97, skip_arg (Z.to_nat (es - s)) m s) in
  let eq := s in
  (ret, q, eq, skip_ws (Z.to_nat (es - s)) m s).

Definition peek (m : mem) (s es : Z) (toks : string) : Z * bool :=
  let s := skip_ws (Z.to_nat (es - s)) m s in
  let c := load8 m s in
  (s, negb (c =? 0) && among (str_bytes toks) c).

(** ** Parsing *)

(** A result and the new [*ps]; [panic] prints and exits; [POut] is out of fuel. *)
Inductive parsed (A : Type) : Type :=
| POk (a : A) (s : Z)
| PPanic (msg : string)
| POut.
Arguments POk {A} a s.
Arguments PPanic {A} msg.
Arguments POut {A}.

Definition pbind {A B} (p : parsed A) (f : A -> Z -> parsed B) : parsed B :=
  match p with POk a s => f a s | PPanic msg => PPanic msg | POut => POut end.

Definition pcmd : Type := cmd (Z * Z).

(** A redirection that [parseredirs] has read: the file, the mode and the
    descriptor. *)
Definition rd : Type := (Z * Z) * Z * Z.

(** [redircmd] around a command, the first redirection innermost. *)
Definition add_redirs {A} (c : cmd A) (l : list (A * Z * Z)) : cmd A :=
  fold_left (fun c '(file, mode, fd) => REDIR c file mode fd) l c.

Definition redir_args (tok : Z) : Z * Z :=
  if tok =? 60 then (O_RDONLY, 0)
  else if tok =? 62 then (Z.lor (Z.lor O_WRONLY O_CREATE) O_TRUNC, 1)
  else (Z.lor O_WRONLY O_CREATE, 1).

(** The command that the redirections go around is given by the caller: in
    [parseexec] it is still being filled in. *)
Fixpoint parseredirs (fuel : nat) (m : mem) (s es : Z) : parsed (list rd) :=
  match fuel with
  | O => POut
  | S f =>
      let '(s, b) := peek m s es "<>" in
      if b : bool then
        let '(tok, _, _, s) := gettoken m s es in
        let '(t, q, eq, s) := gettoken m s es in
        if negb (t =? 97) then PPanic "missing file for redirection"
        else
          let '(mode, fd) := redir_args tok in
          pbind (parseredirs f m s es) (fun l s => POk (((q, eq), mode, fd) :: l) s)
      else POk [] s
  end.

Definition loop_fuel (s es : Z) : nat := S (Z.to_nat (es - s)).

(** The loop of [parseexec]: the arguments and the redirections among them. *)
Fixpoint parseargs (fuel : nat) (m : mem) (s es argc : Z) : parsed (list (Z * Z) * list rd) :=
  match fuel with
  | O => POut
  | S f =>
      let '(s, b) := peek m s es "|)&;" in
      if b : bool then POk ([], []) s
      else
        let '(tok, q, eq, s) := gettoken m s es in
        if tok =? 0 then POk ([], []) s
        else if negb (tok =? 97) then PPanic "syntax"
        else
          let argc := argc + 1 in
          if MAXARGS <=? argc then PPanic "too many args"
          else
            pbind (parseredirs (loop_fuel s es) m s es) (fun rs s =>
            pbind (parseargs f m s es argc) (fun '(args, rs') s => POk ((q, eq) :: args, rs ++ rs') s))
  end.

(** [while(peek(ps, es, "&"))] of [parseline]. *)
Fixpoint parsebacks (fuel : nat) (m : mem) (s es : Z) (c : pcmd) : parsed pcmd :=
  match fuel with
  | O => POut
  | S f =>
      let '(s, b) := peek m s es "&" in
      if b : bool then
        let '(_, _, _, s) := gettoken m s es in
        parsebacks f m s es (BACK c)
      else POk c s
  end.

(** [fuel] bounds the depth of the calls. *)
Fixpoint parseline (fuel : nat) (m : mem) (s es : Z) : parsed pcmd :=
  match fuel with
  | O => POut
  | S f =>
      pbind (parsepipe f m s es) (fun c s =>
      pbind (parsebacks (loop_fuel s es) m s es c) (fun c s =>
      let '(s, b) := peek m s es ";" in
      if b : bool then
        let '(_, _, _, s) := gettoken m s es in
        pbind (parseline f m s es) (fun r s => POk (LIST c r) s)
      else POk c s))
  end
with parsepipe (fuel : nat) (m : mem) (s es : Z) : parsed pcmd :=
  match fuel with
  | O => POut
  | S f =>
      pbind (parseexec f m s es) (fun c s =>
      let '(s, b) := peek m s es "|" in
      if b : bool then
        let '(_, _, _, s) := gettoken m s es in
        pbind (parsepipe f m s es) (fun r s => POk (PIPE c r) s)
      else POk c s)
  end
with parseblock (fuel : nat) (m : mem) (s es : Z) : parsed pcmd :=
  match fuel with
  | O => POut
  | S f =>
      let '(s, b) := peek m s es "(" in
      if negb b then PPanic "parseblock"
      else
        let '(_, _, _, s) := gettoken m s es in
        pbind (parseline f m s es) (fun c s =>
        let '(s, b) := peek m s es ")" in
        if negb b then PPanic "syntax - missing )"
        else
          let '(_, _, _, s) := gettoken m s es in
          pbind (parseredirs (loop_fuel s es) m s es) (fun rs s => POk (add_redirs c rs) s))
  end
with parseexec (fuel : nat) (m : mem) (s es : Z) : parsed pcmd :=
  match fuel with
  | O => POut
  | S f =>
      let '(s, b) := peek m s es "(" in
      if b : bool then parseblock f m s es
      else
        pbind (parseredirs (loop_fuel s es) m s es) (fun rs s =>
        pbind (parseargs (loop_fuel s es) m s es 0) (fun '(args, rs') s =>
        POk (add_redirs (EXEC args) (rs ++ rs')) s))
  end.

(** A NUL at the end of every string. *)
Fixpoint nulterminate (m : mem) (c : pcmd) : mem :=
  match c with
  | EXEC argv => fold_left (fun m '(_, eq) => store8 m eq 0) argv m
  | REDIR c (_, efile) _ _ => store8 (nulterminate m c) efile 0
  | PIPE l r | LIST l r => nulterminate (nulterminate m l) r
  | BACK c => nulterminate m c
  end.

(** What [parsecmd] returns or how it fails. *)
Inductive parse_result : Type :=
| Parsed (m : mem) (c : pcmd)
| Leftovers (s : Z)
| Failed (msg : string)
| OutOfFuel.

Definition parse_fuel (s es : Z) : nat := (4 * Z.to_nat (es - s) + 4)%nat.

Definition parsecmd (m : mem) (s es : Z) : parse_result :=
  match parseline (parse_fuel s es) m s es with
  | POk c s =>
      let '(s, _) := peek m s es "" in
      if negb (s =? es) then Leftovers s else Parsed (nulterminate m c) c
  | PPanic msg => Failed msg
  | POut => OutOfFuel
  end.

(** The strings that the pointers of a command stand for. *)
Fixpoint strings (m : mem) (c : pcmd) : cmd (list Z) :=
  let str (p : Z * Z) := cstr (Z.to_nat 4096) m (fst p) in
  match c with
  | EXEC argv => EXEC (map str argv)
  | REDIR c f mode fd => REDIR (strings m c) (str f) mode fd
  | PIPE l r => PIPE (strings m l) (strings m r)
  | LIST l r => LIST (strings m l) (strings m r)
  | BACK c => BACK (strings m c)
  end.

(** ** The program *)

Definition run_parsed (m : mem) (r : parse_result) : U unit :=
  match r with
  | Parsed m c => runcmd (strings m c)
  | Leftovers s => err "leftovers: %s" [Str (Some (cstr (Z.to_nat 4096) m s))] ;; sh_panic "syntax"
  | Failed msg => sh_panic msg
  | OutOfFuel => NoFuel
  end.

(** The line that [gets] put in the buffer of [nbuf] bytes, or the end. *)
Definition sh_getcmd (m : mem) (buf nbuf : Z) : U (option mem) :=
  write 2 (str_bytes "$ ") ;;
  let m := memset m buf 0 nbuf in
  let? l := gets nbuf in
  let m := store_bytes m buf (l ++ [0]) in
  Done (if load8 m buf =? 0 then None else Some m).

(** Three descriptors are open. *)
Definition sh_console (_ : unit) : U (unit + unit) :=
  let? fd := open (str_bytes "console") O_RDWR in
  if fd <? 0 then Done (inr tt)
  else if 3 <=? fd then close fd ;; Done (inr tt)
  else Done (inl tt).

Definition sh_body (buf : Z) (m : mem) : U (mem + unit) :=
  let? r := sh_getcmd m buf 100 in
  match r with
  | None => Done (inr tt)
  | Some m =>
      match strlen 101 (at_mem m buf) with
      | None => Crash "strlen: no NUL"
      | Some n =>
          if (load8 m buf =? 99) && (load8 m (buf + 1) =? 100) && (load8 m (buf + 2) =? 32) then
            let m := store8 m (buf + n - 1) 0 in
            let dir := cstr 101 m (buf + 3) in
            let? c := chdir dir in
            (if c <? 0 then err "cannot cd %s" [Str (Some dir)] else Done tt) ;;
            Done (inl m)
          else
            let? pid := fork1 in
            (if pid =? 0 then run_parsed m (parsecmd m buf (buf + n)) else Done tt) ;;
            wait ;;
            Done (inl m)
      end
  end.

Definition sh_main (fuel : nat) (buf : Z) (m : mem) : U unit :=
  uloop 4 sh_console tt ;;
  uloop fuel (sh_body buf) m ;;
  exit 0.
