(* ===== verification/ShSpec.v ===== *)
(** * What sh.c's parser makes of a line

    The tokens of the language, the lines in which they can be spaced, and what
    [peek] and [gettoken] do at each position of such a line. *)

From S2P Require Import Prelude Mem Cstring Uprog Ulib Sh.

(** ** Characters and tokens *)

Definition is_ws (c : Z) : Prop := among whitespace c = true.
Definition plain (c : Z) : Prop := 0 < c < 256 /\ among whitespace c = false /\ among symbols c = false.
#[export] Instance plain_dec c : Decision (plain c).
Proof. unfold plain. apply _. Defined.

Definition word (w : list Z) : Prop := w <> [] /\ Forall plain w.

Definition sym_toks : list (list Z) := map str_bytes ["|"; "("; ")"; ";"; "&"; "<"; ">"; ">>"]%string.
Definition token (t : list Z) : Prop := word t \/ t ∈ sym_toks.

(** What [gettoken] returns for a token. *)
Definition code (t : list Z) : Z :=
  if decide (t = str_bytes ">>") then 43
  else match t with c :: _ => if among symbols c then c else 97 | [] => 0 end.

(** Two tokens may touch unless they would be read as one. *)
Definition joins (t : list Z) (b : list Z) (ts : list (list Z)) : Prop :=
  b <> [] \/ match ts with
             | [] => True
             | t' :: _ => (~ word t \/ ~ word t') /\ ~ (t = str_bytes ">" /\ head t' = Some 62)
             end.

(** The texts of a sequence of tokens. *)
Inductive spaced : list (list Z) -> list Z -> Prop :=
| sp_nil : spaced [] []
| sp_cons t ts b l : token t -> Forall is_ws b -> joins t b ts -> spaced ts l -> spaced (t :: ts) (t ++ b ++ l).

(** The parser is at [s]: what is left up to [es] is the tokens [ts]. *)
Definition pos (m : mem) (s es : Z) (ts : list (list Z)) : Prop :=
  exists b l, Forall is_ws b /\ spaced ts l /\ text_at m s (b ++ l) /\ es = s + Z.of_nat (length (b ++ l)).

(** A string that a pair of pointers marks off. *)
Definition span (m : mem) (p : Z * Z) (w : list Z) : Prop :=
  word w /\ snd p = fst p + Z.of_nat (length w) /\
  (forall k c, w !! k = Some c -> load8 m (fst p + Z.of_nat k) = c) /\ ~ plain (load8 m (snd p)).

(** *** Single characters *)

Lemma among_iff l c : among l c = true <-> c ∈ l.
Proof.
  unfold among. induction l as [|a l IH]; cbn; [by rewrite elem_of_nil|]. rewrite elem_of_cons.
  destruct (Z.eqb_spec a c) as [->|]; [naive_solver|]. destruct (strchr l c); cbn in *; naive_solver.
Qed.

Lemma ws_cases c : is_ws c -> c = 32 \/ c = 9 \/ c = 13 \/ c = 10 \/ c = 11.
Proof. intros H. apply among_iff in H. unfold whitespace in H. rewrite !elem_of_cons, elem_of_nil in H. naive_solver. Qed.

Lemma sym_toks_eq : sym_toks = [[124]; [40]; [41]; [59]; [38]; [60]; [62]; [62; 62]].
Proof. reflexivity. Qed.

Lemma sym_head t : t ∈ sym_toks -> exists c, head t = Some c /\ among symbols c = true /\ among whitespace c = false /\ 0 < c < 256.
Proof.
  intros H. rewrite sym_toks_eq, !elem_of_cons, elem_of_nil in H.
  destruct_or! H; try done; subst t; (eexists; split; [reflexivity|]); by vm_compute.
Qed.

Lemma token_head t : token t -> exists c t', t = c :: t' /\ among whitespace c = false /\ 0 < c < 256.
Proof.
  intros [[Hne Hw]|Hs].
  - destruct t as [|c t]; [done|]. apply Forall_cons in Hw as [(Hc & Hws & _) _]. by exists c, t.
  - destruct (sym_head t Hs) as (c & Hh & _ & Hws & Hc). destruct t as [|a t]; [done|]. injection Hh as ->. by exists c, t.
Qed.

Lemma spaced_head ts l : spaced ts l -> match ts with [] => l = [] | t :: _ => exists c t' l', t = c :: t' /\ l = c :: l' /\ among whitespace c = false /\ 0 < c < 256 end.
Proof.
  intros [|t ts' b l' Ht _ _ _]; [done|]. destruct (token_head t Ht) as (c & t' & -> & Hc & Hr). cbn. by eexists c, t', _.
Qed.

(** *** Skipping *)

Lemma skip_ws_run m b : forall s l n, text_at m s (b ++ l) -> Forall is_ws b -> (forall c l', l = c :: l' -> among whitespace c = false) ->
  n = length (b ++ l) -> skip_ws n m s = s + Z.of_nat (length b).
Proof.
  induction b as [|c b IH]; intros s l n Hs Hb Hl ->; cbn [app length].
  - rewrite Z.add_0_r. destruct l as [|c l]; [done|]. cbn [length skip_ws]. destruct Hs as (H & _). unfold at_mem in H.
    rewrite Z.add_0_r in H. rewrite H. by rewrite (Hl c l eq_refl).
  - apply Forall_cons in Hb as [Hc Hb]. destruct Hs as (H & _ & Hs). unfold at_mem in H. rewrite Z.add_0_r in H.
    cbn [skip_ws]. rewrite H, Hc. rewrite (IH (s + 1) l) by (try done; by apply str_at_0 in Hs). lia.
Qed.

Lemma skip_arg_run m w : forall s l n, text_at m s (w ++ l) -> Forall plain w ->
  (forall c l', l = c :: l' -> among whitespace c = true \/ among symbols c = true) ->
  n = length (w ++ l) -> skip_arg n m s = s + Z.of_nat (length w).
Proof.
  induction w as [|c w IH]; intros s l n Hs Hw Hl ->; cbn [app length].
  - rewrite Z.add_0_r. destruct l as [|c l]; [done|]. cbn [length skip_arg]. destruct Hs as (H & _). unfold at_mem in H.
    rewrite Z.add_0_r in H. rewrite H. destruct (Hl c l eq_refl) as [-> | ->]; [done|]. by destruct (among whitespace c).
  - apply Forall_cons in Hw as [(Hc & H1 & H2) Hw]. destruct Hs as (H & _ & Hs). unfold at_mem in H. rewrite Z.add_0_r in H.
    cbn [skip_arg]. rewrite H, H1, H2. cbn [negb andb]. rewrite (IH (s + 1) l) by (try done; by apply str_at_0 in Hs). lia.
Qed.

Lemma text_drop m s a l : text_at m s (a ++ l) -> text_at m (s + Z.of_nat (length a)) l.
Proof. intros H. apply str_at_app in H. rewrite Z.add_0_l in H. by apply str_at_0. Qed.

Lemma text_head m s c l : text_at m s (c :: l) -> load8 m s = c.
Proof. intros (H & _). unfold at_mem in H. by rewrite Z.add_0_r in H. Qed.
Lemma text_nil m s : text_at m s [] -> load8 m s = 0.
Proof. intros H. cbn in H. unfold at_mem in H. by rewrite Z.add_0_r in H. Qed.

(** To the start of the next token. *)
Lemma pos_skip m s es ts : pos m s es ts -> exists l, spaced ts l /\
  let s' := skip_ws (Z.to_nat (es - s)) m s in text_at m s' l /\ es = s' + Z.of_nat (length l) /\ s <= s'.
Proof.
  intros (b & l & Hb & Hsp & Ht & ->). exists l. split; [done|]. cbv zeta.
  rewrite (skip_ws_run m b s l) by first [done | lia | pose proof (spaced_head _ _ Hsp) as H; destruct ts; [intros; congruence|];
    destruct H as (c & t' & l' & _ & -> & H & _); intros ? ? [= <- <-]; exact H].
  split; [by apply text_drop|]. rewrite length_app. lia.
Qed.

Lemma pos_at m s es ts l : spaced ts l -> text_at m s l -> es = s + Z.of_nat (length l) -> pos m s es ts.
Proof. intros Hsp Ht He. by exists [], l. Qed.

(** [peek] moves to the next token and looks at its first character. *)
Lemma peek_pos m s es ts toks : pos m s es ts -> exists s', peek m s es toks =
  (s', match ts with [] => false | t :: _ => among (str_bytes toks) (hd 0 t) end) /\ pos m s' es ts /\ (ts = [] -> s' = es).
Proof.
  intros H. destruct (pos_skip _ _ _ _ H) as (l & Hsp & Ht & He & _). unfold peek.
  set (s' := skip_ws (Z.to_nat (es - s)) m s) in *. exists s'. split; [|split; [by eapply pos_at|]].
  - f_equal. pose proof (spaced_head _ _ Hsp) as Hh. destruct ts as [|t ts].
    + subst l. by rewrite (text_nil _ _ Ht).
    + destruct Hh as (c & t' & l' & -> & -> & _ & Hc). rewrite (text_head _ _ _ _ Ht). cbn [hd]. by destruct (Z.eqb_spec c 0); [lia|].
  - intros ->. pose proof (spaced_head _ _ Hsp) as ->. cbn in He. lia.
Qed.

(** *** gettoken *)

(** [gettoken] when the token at [q] ends at [q + |t|] and returns [code t]. *)
Lemma gettoken_end m s es t b l : let q := skip_ws (Z.to_nat (es - s)) m s in
  text_at m q (t ++ b ++ l) -> es = q + Z.of_nat (length (t ++ b ++ l)) -> Forall is_ws b ->
  (forall c l', l = c :: l' -> among whitespace c = false) ->
  skip_ws (Z.to_nat (es - (q + Z.of_nat (length t)))) m (q + Z.of_nat (length t)) = q + Z.of_nat (length t) + Z.of_nat (length b).
Proof.
  intros q Ht He Hb Hl. apply (skip_ws_run m b _ l); [by apply text_drop|done|done|]. rewrite He, length_app. lia.
Qed.

(** A word, which what follows ends. *)
Lemma gettoken_word m s es t b l : let q := skip_ws (Z.to_nat (es - s)) m s in
  text_at m q (t ++ b ++ l) -> es = q + Z.of_nat (length (t ++ b ++ l)) -> Forall is_ws b ->
  (forall c l', l = c :: l' -> among whitespace c = false) -> word t ->
  (forall c l', b ++ l = c :: l' -> among whitespace c = true \/ among symbols c = true) ->
  gettoken m s es = (97, q, q + Z.of_nat (length t), q + Z.of_nat (length t) + Z.of_nat (length b)).
Proof.
  intros q Ht He Hb Hl [Hne Hw] Hend. unfold gettoken. fold q. destruct t as [|c t]; [done|].
  pose proof (Forall_inv Hw) as (Hc & _ & Hsym). rewrite (text_head _ _ _ _ Ht).
  assert (forall x, among symbols x = true -> (c =? x) = false) as Hne' by (intros x Hx; apply Z.eqb_neq; intros ->; congruence).
  rewrite (proj2 (Z.eqb_neq c 0)) by lia. rewrite !Hne' by reflexivity. cbn [orb].
  rewrite (skip_arg_run m (c :: t) q (b ++ l)) by first [done | rewrite He; lia].
  pose proof (gettoken_end m s es (c :: t) b l Ht He Hb Hl) as H. fold q in H. by rewrite H.
Qed.

(** A symbol; a [>] is not followed by another. *)
Lemma gettoken_sym m s es t b l : let q := skip_ws (Z.to_nat (es - s)) m s in
  text_at m q (t ++ b ++ l) -> es = q + Z.of_nat (length (t ++ b ++ l)) -> Forall is_ws b ->
  (forall c l', l = c :: l' -> among whitespace c = false) -> t ∈ sym_toks ->
  (t = str_bytes ">" -> load8 m (q + 1) <> 62) ->
  gettoken m s es = (code t, q, q + Z.of_nat (length t), q + Z.of_nat (length t) + Z.of_nat (length b)).
Proof.
  intros q Ht He Hb Hl Hs Hgt. pose proof (gettoken_end m s es t b l Ht He Hb Hl) as Hend. fold q in Hend.
  unfold gettoken. fold q. rewrite sym_toks_eq, !elem_of_cons, elem_of_nil in Hs. destruct_or! Hs; try done; subst t.
  all: try (rewrite (text_head _ _ _ _ Ht); match type of Ht with text_at _ _ (?t ++ _) => change (Z.of_nat (length t)) with 1 in Hend |- * end;
    cbn [Z.eqb Pos.eqb orb]; by rewrite Hend).
  - rewrite (text_head _ _ _ _ Ht). cbn [Z.eqb Pos.eqb orb]. specialize (Hgt eq_refl). rewrite (proj2 (Z.eqb_neq _ _) Hgt).
    change (Z.of_nat (length [62])) with 1 in Hend |- *. by rewrite Hend.
  - rewrite (text_head _ _ _ _ Ht). cbn [Z.eqb Pos.eqb orb]. pose proof (text_drop m q [62] (62 :: b ++ l) Ht) as Ht2.
    change (Z.of_nat (length [62])) with 1 in Ht2. rewrite (text_head _ _ _ _ Ht2). cbn [Z.eqb Pos.eqb].
    change (Z.of_nat (length [62; 62])) with 2 in Hend |- *. replace (q + 1 + 1) with (q + 2) by lia. by rewrite Hend.
Qed.

Lemma word_not_sym t : word t -> t ∈ sym_toks -> False.
Proof.
  intros [_ Hw] Hs. destruct (sym_head t Hs) as (c & Hh & Hc & _). destruct t as [|a t]; [done|]. injection Hh as ->.
  destruct (Forall_inv Hw) as (_ & _ & ?). congruence.
Qed.

Lemma code_word t : word t -> code t = 97.
Proof.
  intros [Hne Hw]. unfold code. destruct t as [|c t]; [done|]. destruct (Forall_inv Hw) as (Hc & _ & Hs). case_decide as E.
  - injection E as -> _. done.
  - by rewrite Hs.
Qed.

(** The next character after a token and its blanks. *)
Lemma after_token t b ts l c l' : joins t b ts -> Forall is_ws b -> spaced ts l -> b ++ l = c :: l' ->
  (word t -> among whitespace c = true \/ among symbols c = true) /\ (t = str_bytes ">" -> c <> 62).
Proof.
  intros Hj Hb Hsp E. destruct b as [|x b].
  - cbn in E. destruct Hj as [?|Hj]; [done|]. destruct Hsp as [|t' ts b' l2 Ht' Hb' Hj' Hsp]; [done|].
    destruct Ht' as [Hw'|Hs'].
    + destruct Hj as [[?|?] Hj]; [|done]. split; [done|]. destruct Hw' as [Hne Hw']. destruct t' as [|a t']; [done|].
      cbn in E. injection E as -> _. intros -> ->. by apply Hj.
    + destruct (sym_head t' Hs') as (a & Ha & H1 & _). destruct t' as [|a' t']; [done|]. injection Ha as ->. cbn in E. injection E as -> _.
      split; [by right|]. destruct Hj as [_ Hj]. intros -> ->. by apply Hj.
  - injection E as -> _. apply Forall_cons in Hb as [Hc _]. split; [by left|]. intros _ ->. by apply ws_cases in Hc as [?|[?|[?|[?|?]]]].
Qed.

Lemma gettoken_pos m s es t ts : pos m s es (t :: ts) -> exists q s', gettoken m s es = (code t, q, q + Z.of_nat (length t), s') /\
  pos m s' es ts /\ (word t -> span m (q, q + Z.of_nat (length t)) t) /\ s < s'.
Proof.
  intros H. destruct (pos_skip _ _ _ _ H) as (l & Hsp & Ht & He & Hle). set (q := skip_ws (Z.to_nat (es - s)) m s) in *.
  inversion Hsp as [|t' ts' b l' Htok Hb Hj Hsp' E1 E2]. subst t' ts' l. set (s' := q + Z.of_nat (length t) + Z.of_nat (length b)).
  exists q, s'. assert (forall c l2, l' = c :: l2 -> among whitespace c = false) as Hl.
  { pose proof (spaced_head _ _ Hsp') as Hh. destruct ts; [intros; congruence|]. destruct Hh as (c & t2 & l2 & _ & -> & H1 & _).
    by intros ? ? [= <- <-]. }
  assert (pos m s' es ts) as Hpos.
  { apply (pos_at m s' es ts l'); [done| |rewrite He, !length_app; lia].
    unfold s'. apply text_drop. by apply text_drop. }
  assert (0 < Z.of_nat (length t)) as Hlen by (destruct (token_head t Htok) as (c & t2 & -> & _); cbn; lia).
  split; [|split; [done|split; [|unfold s'; lia]]].
  - destruct Htok as [Hw|Hs].
    + rewrite (code_word t Hw). apply (gettoken_word m s es t b l' Ht He Hb Hl Hw). intros c l2 E. by eapply after_token.
    + apply (gettoken_sym m s es t b l' Ht He Hb Hl Hs). intros ->. fold q.
      pose proof (text_drop m q [62] (b ++ l') Ht) as Ht2. change (Z.of_nat (length [62])) with 1 in Ht2.
      destruct (b ++ l') as [|c l2] eqn:E; [by rewrite (text_nil _ _ Ht2)|]. rewrite (text_head _ _ _ _ Ht2).
      by eapply (after_token _ _ _ _ _ _ Hj Hb Hsp' E).
  - intros Hw. split; [done|]. split; [done|]. cbn [fst snd]. split.
    + intros k c Hk. destruct (str_at_lookup _ _ _ k c Ht) as [<- _]; [by apply lookup_app_l_Some|]. unfold at_mem. by rewrite Z.add_0_l.
    + pose proof (text_drop m q t (b ++ l') Ht) as Ht2. intros (Hr & H1 & H2). destruct (b ++ l') as [|c l2] eqn:E.
      * rewrite (text_nil _ _ Ht2) in Hr. lia.
      * rewrite (text_head _ _ _ _ Ht2) in *. destruct (after_token _ _ _ _ _ _ Hj Hb Hsp' E) as [Ha _]. destruct (Ha Hw); congruence.
Qed.

Lemma gettoken_nil m s es : pos m s es [] -> exists q eq, gettoken m s es = (0, q, eq, es) /\ pos m es es [].
Proof.
  intros H. destruct (pos_skip _ _ _ _ H) as (l & Hsp & Ht & He & _). pose proof (spaced_head _ _ Hsp) as ->. cbn in He.
  unfold gettoken. rewrite Z.add_0_r in He. rewrite <- He in *. rewrite (text_nil _ _ Ht). cbn [Z.eqb]. eexists _, _. split.
  - by rewrite Z.sub_diag.
  - apply (pos_at m es es [] []); [constructor|done|cbn; lia].
Qed.

(** There are no more tokens than characters. *)
Lemma pos_length m s es ts : pos m s es ts -> Z.of_nat (length ts) <= es - s.
Proof.
  intros (b & l & _ & Hsp & _ & ->). rewrite length_app. enough (length ts <= length l)%nat by lia.
  induction Hsp as [|t ts b' l' Ht _ _ _ IH]; [done|]. destruct (token_head t Ht) as (c & t' & -> & _). cbn. rewrite !length_app. lia.
Qed.
