(* ===== verification/ShParse.v ===== *)
(** * The parser of sh.c gives back the command that a line shows

    The tokens of a command tree, with parentheses where the grammar needs them,
    and the parser on every spacing of them. *)

From S2P Require Import Prelude Mem Cstring Uprog Ulib Sh ShSpec.

(** ** Trees and their tokens *)

(** Two trees of the same shape, with related strings. *)
Inductive cmd_rel {A B} (R : A -> B -> Prop) : cmd A -> cmd B -> Prop :=
| r_exec a b : Forall2 R a b -> cmd_rel R (EXEC a) (EXEC b)
| r_redir c d f g mode fd : cmd_rel R c d -> R f g -> cmd_rel R (REDIR c f mode fd) (REDIR d g mode fd)
| r_pipe c d c' d' : cmd_rel R c d -> cmd_rel R c' d' -> cmd_rel R (PIPE c c') (PIPE d d')
| r_list c d c' d' : cmd_rel R c d -> cmd_rel R c' d' -> cmd_rel R (LIST c c') (LIST d d')
| r_back c d : cmd_rel R c d -> cmd_rel R (BACK c) (BACK d).

Abbreviation tree := (cmd (list Z)).

Definition op_tok (mode fd : Z) : list Z :=
  if fd =? 0 then [60] else if mode =? fst (redir_args 62) then [62] else [62; 62].

(** The grammar's level of a command: a simple one, a pipe, one in the
    background, a list. *)
Definition lvl (t : tree) : nat :=
  match t with EXEC _ | REDIR _ _ _ _ => 0 | PIPE _ _ => 1 | BACK _ => 2 | LIST _ _ => 3 end.

(** The tokens of a command in a place for level [p]. *)
Fixpoint tokens (p : nat) (t : tree) : list (list Z) :=
  let b := match t with
           | EXEC ws => ws
           | REDIR c f mode fd => tokens 0 c ++ [op_tok mode fd; f]
           | PIPE l r => tokens 0 l ++ [124] :: tokens 1 r
           | BACK c => tokens 2 c ++ [[38]]
           | LIST l r => tokens 2 l ++ [59] :: tokens 3 r
           end in
  if (lvl t <=? p)%nat then b else [40] :: b ++ [[41]].

Definition rspec : Type := list Z * Z * Z.
Definition good_rd (r : rspec) : Prop :=
  let '(f, mode, fd) := r in word f /\ (mode, fd) ∈ [redir_args 60; redir_args 62; redir_args 43].

(** At most nine words to a command, words and file names of plain characters,
    and the redirections that the shell knows. *)
Fixpoint wf (t : tree) : Prop :=
  match t with
  | EXEC ws => Forall word ws /\ (length ws <= 9)%nat
  | REDIR c f mode fd => wf c /\ good_rd (f, mode, fd)
  | PIPE l r | LIST l r => wf l /\ wf r
  | BACK c => wf c
  end.

Definition rtoks (rs : list rspec) : list (list Z) := flat_map (fun '(f, mode, fd) => [op_tok mode fd; f]) rs.

Definition rd_rel (m : mem) (p : rd) (r : rspec) : Prop :=
  let '(q, mode, fd) := p in let '(f, mode', fd') := r in span m q f /\ mode = mode' /\ fd = fd'.

(** What may come after a command. *)
Definition stop (rest : list (list Z)) : Prop :=
  match rest with [] => True | t :: _ => t ∈ [[124]; [41]; [38]; [59]] end.
Definition starts_with (c : Z) (ts : list (list Z)) : bool := match ts with [] => false | t :: _ => hd 0 t =? c end.
Definition no_redir_next (ts : list (list Z)) : Prop := match ts with [] => True | t :: _ => among (str_bytes "<>") (hd 0 t) = false end.

Lemma stop_cases rest : stop rest -> rest = [] \/ exists c ts, rest = [c] :: ts /\ (c = 124 \/ c = 41 \/ c = 38 \/ c = 59).
Proof.
  destruct rest as [|t ts]; [by left|]. cbn. rewrite !elem_of_cons, elem_of_nil. intros H. right.
  destruct_or! H; try done; subst t; eexists _, _; split; try reflexivity; lia.
Qed.

Lemma stop_no_redir rest : stop rest -> no_redir_next rest.
Proof. intros H. destruct (stop_cases _ H) as [-> | (c & ts & -> & [-> | [-> | [-> | ->]]])]; done. Qed.

(** No plain character is in a set of symbols. *)
Lemma plain_among c toks : plain c -> (forall x, x ∈ str_bytes toks -> x ∈ symbols) -> among (str_bytes toks) c = false.
Proof.
  intros (_ & _ & Hs) Hsub. destruct (among (str_bytes toks) c) eqn:E; [|done]. apply among_iff, Hsub, among_iff in E. congruence.
Qed.

Ltac sub_symbols := let x := fresh in let H := fresh in intros x H; revert H; vm_compute; clear; set_solver.

Lemma word_head w : word w -> exists c w', w = c :: w' /\ plain c.
Proof. intros [Hne Hw]. destruct w as [|c w]; [done|]. exists c, w. split; [done|]. by apply Forall_inv in Hw. Qed.

Lemma word_no_redir w ts : word w -> no_redir_next (w :: ts).
Proof. intros Hw. destruct (word_head w Hw) as (c & w' & -> & Hc). apply plain_among; [done|sub_symbols]. Qed.

Lemma op_tok_good f mode fd : good_rd (f, mode, fd) -> redir_args (code (op_tok mode fd)) = (mode, fd) /\
  among (str_bytes "<>") (hd 0 (op_tok mode fd)) = true.
Proof.
  intros [_ H]. rewrite !elem_of_cons, elem_of_nil in H. destruct_or! H; try done; injection H as -> ->; done.
Qed.

(** ** Redirections and arguments *)

Lemma redirs_ok m es rest : no_redir_next rest -> forall rs s fuel, pos m s es (rtoks rs ++ rest) -> Forall good_rd rs -> (length rs < fuel)%nat ->
  exists prs s', parseredirs fuel m s es = POk prs s' /\ Forall2 (rd_rel m) prs rs /\ pos m s' es rest.
Proof.
  intros Hrest. induction rs as [|[[f mode] fd] rs IH]; intros s [|fuel] Hp Hg Hf; cbn in Hf; try lia; cbn [parseredirs].
  - destruct (peek_pos _ _ _ _ "<>" Hp) as (s' & -> & Hp' & _). cbn [rtoks flat_map app] in Hp'. exists [], s'. split; [|by split; [constructor|]].
    cbn [rtoks flat_map app]. destruct rest as [|t ts]; [done|]. by rewrite Hrest.
  - apply Forall_cons in Hg as [Hg Hgs]. destruct (op_tok_good _ _ _ Hg) as [Hargs Hop].
    destruct (peek_pos _ _ _ _ "<>" Hp) as (s1 & Hpk & Hp1 & _). rewrite Hpk. cbn [rtoks flat_map app] in *. rewrite Hop.
    destruct (gettoken_pos _ _ _ _ _ Hp1) as (q1 & s2 & -> & Hp2 & _).
    destruct (gettoken_pos _ _ _ _ _ Hp2) as (q & s3 & -> & Hp3 & Hspan & _). destruct Hg as [Hw _]. rewrite (code_word f Hw). cbn [Z.eqb Pos.eqb negb].
    rewrite Hargs. destruct (IH s3 fuel Hp3 Hgs ltac:(lia)) as (prs & s4 & -> & Hprs & Hp4). cbn [pbind]. eexists _, s4. split; [done|].
    split; [|done]. constructor; [|done]. split; [by apply Hspan|done].
Qed.

Lemma rtoks_length rs : (length rs <= length (rtoks rs))%nat.
Proof. unfold rtoks. induction rs as [|[[f mode] fd] rs IH]; cbn; lia. Qed.

Lemma loop_fuel_enough m s es ts n : pos m s es ts -> (n <= length ts)%nat -> (n < loop_fuel s es)%nat.
Proof. intros H Hn. apply pos_length in H. unfold loop_fuel. lia. Qed.

Lemma args_ok m es rest : stop rest -> forall ws rs s fuel argc, pos m s es (ws ++ rtoks rs ++ rest) -> Forall word ws -> Forall good_rd rs ->
  (ws = [] -> rs = []) -> (length ws < fuel)%nat -> argc + Z.of_nat (length ws) <= 9 ->
  exists args prs s', parseargs fuel m s es argc = POk (args, prs) s' /\ Forall2 (span m) args ws /\ Forall2 (rd_rel m) prs rs /\ pos m s' es rest.
Proof.
  intros Hstop. induction ws as [|w ws IH]; intros rs s [|fuel] argc Hp Hw Hg Hnil Hf Hn; cbn in Hf; try lia; cbn [parseargs].
  - specialize (Hnil eq_refl) as ->. cbn [rtoks flat_map app] in Hp. destruct (peek_pos _ _ _ _ "|)&;" Hp) as (s' & -> & Hp' & _).
    destruct (stop_cases _ Hstop) as [-> | (c & ts & -> & Hc)].
    + destruct (gettoken_nil _ _ _ Hp') as (q & eq & -> & Hp2). cbn. exists [], [], es. by repeat split; try constructor.
    + assert (among (str_bytes "|)&;") (hd 0 [c]) = true) as -> by (destruct Hc as [-> | [-> | [-> | ->]]]; reflexivity).
      exists [], [], s'. by repeat split; try constructor.
  - apply Forall_cons in Hw as [Hw Hws]. cbn [app] in Hp. destruct (peek_pos _ _ _ _ "|)&;" Hp) as (s1 & -> & Hp1 & _).
    destruct (word_head w Hw) as (c & w' & Ew & Hc). assert (among (str_bytes "|)&;") (hd 0 w) = false) as -> by (rewrite Ew; apply plain_among; [done|sub_symbols]).
    destruct (gettoken_pos _ _ _ _ _ Hp1) as (q & s2 & -> & Hp2 & Hspan & _). rewrite (code_word w Hw). cbn [Z.eqb Pos.eqb negb].
    cbn [length] in Hn. unfold MAXARGS. destruct (Z.leb_spec 10 (argc + 1)); [lia|].
    destruct ws as [|w2 ws].
    + destruct (redirs_ok m es rest (stop_no_redir _ Hstop) rs s2 (loop_fuel s2 es) Hp2 Hg) as (prs & s3 & -> & Hprs & Hp3).
      { eapply loop_fuel_enough; [exact Hp2|]. cbn. rewrite length_app. pose proof (rtoks_length rs). lia. }
      cbn [pbind]. destruct (IH [] s3 fuel (argc + 1) Hp3 ltac:(constructor) ltac:(constructor) ltac:(done) ltac:(cbn in *; lia) ltac:(cbn; lia))
        as (args & prs' & s4 & -> & Hargs & Hprs' & Hp4). cbn [pbind]. apply Forall2_nil_inv_r in Hargs as ->. apply Forall2_nil_inv_r in Hprs' as ->.
      exists [(q, q + Z.of_nat (length w))], prs, s4. rewrite app_nil_r. split; [done|]. split; [by constructor; [apply Hspan|constructor]|done].
    + destruct (redirs_ok m es ((w2 :: ws) ++ rtoks rs ++ rest) (word_no_redir _ _ (Forall_inv Hws)) [] s2 (loop_fuel s2 es) Hp2 ltac:(constructor))
        as (prs0 & s3 & -> & Hprs0 & Hp3); [cbn; unfold loop_fuel; lia|]. apply Forall2_nil_inv_r in Hprs0 as ->.
      cbn [pbind]. destruct (IH rs s3 fuel (argc + 1) Hp3 Hws Hg ltac:(done) ltac:(lia) ltac:(lia)) as (args & prs & s4 & -> & Hargs & Hprs & Hp4).
      cbn [pbind app]. exists ((q, q + Z.of_nat (length w)) :: args), prs, s4. split; [done|]. split; [by constructor; [apply Hspan|]|done].
Qed.

(** ** Commands *)

Lemma tokens_eq p t : tokens p t = if (lvl t <=? p)%nat then tokens 3 t else [40] :: tokens 3 t ++ [[41]].
Proof. by destruct t. Qed.

Lemma tokens_over p t : (p < lvl t)%nat -> tokens p t = [40] :: tokens 3 t ++ [[41]].
Proof. intros H. rewrite tokens_eq. destruct (Nat.leb_spec (lvl t) p); [lia|done]. Qed.

Lemma tokens_within p t : (lvl t <= p)%nat -> tokens p t = tokens 3 t.
Proof. intros H. rewrite tokens_eq. destruct (Nat.leb_spec (lvl t) p); [done|lia]. Qed.

Lemma tokens_skip p q t : (p <= q)%nat -> (lvl t <= p \/ q < lvl t)%nat -> tokens q t = tokens p t.
Proof. intros H [Hl|Hl]; [rewrite (tokens_within p), (tokens_within q) by lia; done|rewrite (tokens_over p), (tokens_over q) by lia; done]. Qed.

Fixpoint nodes (t : tree) : nat :=
  match t with
  | EXEC _ => 1
  | REDIR c _ _ _ | BACK c => S (nodes c)
  | PIPE l r | LIST l r => S (nodes l + nodes r)
  end.

(** Given enough depth, the parser reads [t] and leaves [rest]. *)
Definition parses (f : nat -> parsed pcmd) (m : mem) (es : Z) (t : tree) (rest : list (list Z)) : Prop :=
  exists N c s', (forall fuel, (N <= fuel)%nat -> f fuel = POk c s') /\ cmd_rel (span m) c t /\ pos m s' es rest.

Definition closes (rest : list (list Z)) : Prop := match rest with [] => True | t :: _ => t = [41] end.

Definition E_ok (m : mem) (es : Z) (t : tree) : Prop := forall s rest, stop rest -> pos m s es (tokens 0 t ++ rest) ->
  parses (fun f => parseexec f m s es) m es t rest.
Definition P_ok (m : mem) (es : Z) (t : tree) : Prop := forall s rest, stop rest -> starts_with 124 rest = false -> pos m s es (tokens 1 t ++ rest) ->
  parses (fun f => parsepipe f m s es) m es t rest.
Definition L_ok (m : mem) (es : Z) (t : tree) : Prop := forall s rest, closes rest -> pos m s es (tokens 3 t ++ rest) ->
  parses (fun f => parseline f m s es) m es t rest.

Lemma cmd_rel_redirs m rs prs : Forall2 (rd_rel m) prs rs -> forall c t, cmd_rel (span m) c t -> cmd_rel (span m) (add_redirs c prs) (add_redirs t rs).
Proof.
  induction 1 as [|[[q mode] fd] [[f mode'] fd'] prs rs (Hq & -> & ->) _ IH]; intros c t Hc; [done|]. cbn. by apply IH; constructor.
Qed.

(** A simple command is a list of words or a block, with redirections. *)
Lemma exec_split t : lvl t = 0%nat -> wf t -> exists core rs, t = add_redirs core rs /\ tokens 0 t = tokens 0 core ++ rtoks rs /\
  wf core /\ Forall good_rd rs /\ ((exists ws, core = EXEC ws) \/ (0 < lvl core)%nat /\ (nodes core < nodes t)%nat).
Proof.
  induction t as [ws|c IH f mode fd|l _ r _|l _ r _|c _]; try done; intros _ Hwf.
  - exists (EXEC ws), []. repeat split; try done; try apply Hwf; try constructor; [cbn; by rewrite app_nil_r|eauto].
  - destruct Hwf as [Hc Hg]. destruct (lvl c) eqn:El.
    + destruct (IH eq_refl Hc) as (core & rs & -> & Et & Hcore & Hrs & Hk). exists core, (rs ++ [(f, mode, fd)]). repeat split; try done.
      * unfold add_redirs. by rewrite fold_left_app.
      * cbn [tokens lvl Nat.leb]. rewrite Et. unfold rtoks. by rewrite flat_map_app, app_assoc.
      * apply Forall_app. split; [done|by constructor].
      * destruct Hk as [Hk|[Hk Hn]]; [by left|right; cbn; lia].
    + exists c, [(f, mode, fd)]. repeat split; try done; [by constructor|right; cbn; lia].
Qed.

(** The background marks at the end of a command. *)
Lemma back_split t : exists t0 n, t = Nat.iter n BACK t0 /\ tokens 2 t = tokens 1 t0 ++ repeat [38] n /\ (nodes t0 + n = nodes t)%nat /\
  (wf t -> wf t0) /\ (lvl t0 <> 2)%nat.
Proof.
  induction t as [| | | |c (t0 & n & -> & Et & Hn & Hwf & Hl)]; try (match goal with |- exists t0 n, ?t = _ /\ _ => exists t, 0%nat end;
    split; [done|]; split; [cbn [repeat]; rewrite app_nil_r; apply tokens_skip; cbn; lia|split; [lia|by split]]).
  exists t0, (S n). split; [done|]. split; [|by split; [cbn; lia|]]. change (tokens 2 (BACK ?c)) with (tokens 2 c ++ [[38]]). rewrite Et, <- app_assoc.
  f_equal. clear. induction n as [|n IH]; [done|]. cbn. by rewrite IH.
Qed.

Lemma starts_closes c rest : closes rest -> c <> 41 -> starts_with c rest = false.
Proof. intros Hc Hne. destruct rest as [|t ts]; [done|]. cbn in Hc. subst t. cbn [starts_with hd]. apply Z.eqb_neq. lia. Qed.

Lemma closes_stop rest : closes rest -> stop rest.
Proof. destruct rest as [|t ts]; [done|]. cbn. intros ->. set_solver. Qed.

Lemma peek1_pos m s es ts toks c : pos m s es ts -> str_bytes toks = [c] -> exists s', peek m s es toks = (s', starts_with c ts) /\ pos m s' es ts.
Proof.
  intros H E. destruct (peek_pos _ _ _ _ toks H) as (s' & -> & Hp & _). exists s'. split; [|done]. f_equal. destruct ts as [|t ts]; [done|]. cbn [starts_with].
  rewrite E. apply Bool.eq_iff_eq_true. rewrite among_iff, Z.eqb_eq. set_solver.
Qed.

(** A block in parentheses, with redirections. *)
Lemma block_ok m es core rs s rest : L_ok m es core -> Forall good_rd rs -> stop rest ->
  pos m s es ([40] :: tokens 3 core ++ [41] :: rtoks rs ++ rest) -> parses (fun f => parseexec f m s es) m es (add_redirs core rs) rest.
Proof.
  intros HL Hrs Hst Hp.
  destruct (peek1_pos _ _ _ _ "(" 40 Hp eq_refl) as (s1 & Epk1 & Hp1).
  destruct (peek1_pos _ _ _ _ "(" 40 Hp1 eq_refl) as (s2 & Epk2 & Hp2). cbn in Epk1, Epk2.
  destruct (gettoken_pos _ _ _ _ _ Hp2) as (q3 & s3 & Eg3 & Hp3 & _).
  destruct (HL s3 ([41] :: rtoks rs ++ rest) eq_refl Hp3) as (N & c & s4 & HN & Hc & Hp4).
  destruct (peek1_pos _ _ _ _ ")" 41 Hp4 eq_refl) as (s5 & Epk5 & Hp5). cbn in Epk5.
  destruct (gettoken_pos _ _ _ _ _ Hp5) as (q6 & s6 & Eg6 & Hp6 & _).
  destruct (redirs_ok m es rest (stop_no_redir _ Hst) rs s6 (loop_fuel s6 es) Hp6 Hrs) as (prs & s7 & Er & Hprs & Hp7).
  { eapply loop_fuel_enough; [exact Hp6|]. rewrite length_app. pose proof (rtoks_length rs). lia. }
  exists (S (S N)), (add_redirs c prs), s7. split; [|split; [by apply cmd_rel_redirs|done]].
  intros [|[|fuel]] Hf; try lia. cbn [parseexec]. rewrite Epk1. cbn [parseblock]. rewrite Epk2. cbn [negb]. rewrite Eg3, HN by lia. cbn [pbind].
  rewrite Epk5. cbn [negb]. rewrite Eg6, Er. done.
Qed.

Lemma not_paren ws rs rest : Forall word ws -> Forall good_rd rs -> stop rest -> starts_with 40 (ws ++ rtoks rs ++ rest) = false.
Proof.
  intros Hw Hg Hst. destruct ws as [|w ws]; cbn [app].
  - destruct rs as [|[[f mode] fd] rs]; cbn [rtoks flat_map app].
    + destruct (stop_cases _ Hst) as [-> | (c & ts & -> & Hc)]; [done|]. cbn [starts_with hd]. apply Z.eqb_neq. lia.
    + destruct (op_tok_good _ _ _ (Forall_inv Hg)) as [_ Ho]. cbn [starts_with]. apply Z.eqb_neq. intros E. by rewrite E in Ho.
  - destruct (word_head w (Forall_inv Hw)) as (c & w' & -> & _ & _ & Hc). cbn [starts_with hd app]. apply Z.eqb_neq. intros ->. by vm_compute in Hc.
Qed.

(** Words with redirections after them. *)
Lemma words_ok m es ws rs s rest : Forall word ws -> (length ws <= 9)%nat -> Forall good_rd rs -> stop rest ->
  pos m s es (ws ++ rtoks rs ++ rest) -> parses (fun f => parseexec f m s es) m es (add_redirs (EXEC ws) rs) rest.
Proof.
  intros Hw Hn Hg Hst Hp. destruct (peek1_pos _ _ _ _ "(" 40 Hp eq_refl) as (s1 & Epk & Hp1). rewrite not_paren in Epk by done.
  assert (exists prs1 args prs2 s2 s3, parseredirs (loop_fuel s1 es) m s1 es = POk prs1 s2 /\ parseargs (loop_fuel s2 es) m s2 es 0 = POk (args, prs2) s3 /\
    Forall2 (span m) args ws /\ Forall2 (rd_rel m) (prs1 ++ prs2) rs /\ pos m s3 es rest) as (prs1 & args & prs2 & s2 & s3 & Er & Ea & Hargs & Hprs & Hp3).
  { destruct ws as [|w ws].
    - destruct (redirs_ok m es rest (stop_no_redir _ Hst) rs s1 (loop_fuel s1 es) Hp1 Hg) as (prs & s2 & Er & Hprs & Hp2).
      { eapply loop_fuel_enough; [exact Hp1|]. cbn. rewrite length_app. pose proof (rtoks_length rs). lia. }
      destruct (args_ok m es rest Hst [] [] s2 (loop_fuel s2 es) 0 Hp2) as (args & prs2 & s3 & Ea & Hargs & H2 & Hp3); try done; try (cbn; unfold loop_fuel; lia).
      apply Forall2_nil_inv_r in H2 as ->. exists prs, args, [], s2, s3. by rewrite app_nil_r.
    - destruct (redirs_ok m es ((w :: ws) ++ rtoks rs ++ rest) (word_no_redir _ _ (Forall_inv Hw)) [] s1 (loop_fuel s1 es) Hp1 ltac:(constructor))
        as (prs & s2 & Er & H0 & Hp2); [cbn; unfold loop_fuel; lia|]. apply Forall2_nil_inv_r in H0 as ->.
      destruct (args_ok m es rest Hst (w :: ws) rs s2 (loop_fuel s2 es) 0 Hp2) as (args & prs & s3 & Ea & Hargs & Hprs & Hp3); try done; try lia.
      { eapply loop_fuel_enough; [exact Hp2|]. rewrite length_app. lia. }
      by exists [], args, prs, s2, s3. }
  exists 1%nat, (add_redirs (EXEC args) (prs1 ++ prs2)), s3. split; [|split; [by apply cmd_rel_redirs; [|constructor]|done]].
  intros [|fuel] Hf; [lia|]. cbn [parseexec]. rewrite Epk, Er. cbn [pbind]. rewrite Ea. done.
Qed.

(** ** The induction over the grammar *)

Section levels.
Context (m : mem) (es : Z).

(** What holds of every smaller command. *)
Definition below (n : nat) : Prop := forall t, wf t -> (nodes t < n)%nat -> E_ok m es t /\ P_ok m es t /\ L_ok m es t.

Lemma E_simple t : below (nodes t) -> wf t -> lvl t = 0%nat -> E_ok m es t.
Proof.
  intros IH Hwf Hl s rest Hst Hp. destruct (exec_split t Hl Hwf) as (core & rs & Et & Etok & Hc & Hrs & Hk). rewrite Etok, <- app_assoc in Hp.
  destruct Hk as [[ws ->]|[Hk Hn]].
  - subst t. destruct Hc. by apply words_ok.
  - rewrite (tokens_over 0 core Hk) in Hp. rewrite Et. apply block_ok; try done; [by apply IH|]. cbn [app] in Hp. by rewrite <- app_assoc in Hp.
Qed.

Lemma E_block t : (0 < lvl t)%nat -> L_ok m es t -> E_ok m es t.
Proof.
  intros Hl HL s rest Hst Hp. rewrite (tokens_over 0 t Hl) in Hp. apply (block_ok m es t []); try done. cbn [app] in Hp. by rewrite <- app_assoc in Hp.
Qed.

Lemma P_exec t : (lvl t <> 1)%nat -> E_ok m es t -> P_ok m es t.
Proof.
  intros Hl HE s rest Hst Hno Hp. rewrite (tokens_skip 0 1 t) in Hp by lia. destruct (HE s rest Hst Hp) as (N & c & s1 & HN & Hc & Hp1).
  destruct (peek1_pos _ _ _ _ "|" 124 Hp1 eq_refl) as (s2 & Epk & Hp2). rewrite Hno in Epk.
  exists (S N), c, s2. split; [|done]. intros [|fuel] Hf; [lia|]. cbn [parsepipe]. rewrite HN by lia. cbn [pbind]. by rewrite Epk.
Qed.

Lemma P_pipe l r : E_ok m es l -> P_ok m es r -> P_ok m es (PIPE l r).
Proof.
  intros HE HP s rest Hst Hno Hp. change (tokens 1 (PIPE l r)) with (tokens 0 l ++ [124] :: tokens 1 r) in Hp. rewrite <- app_assoc in Hp.
  destruct (HE s ([124] :: tokens 1 r ++ rest) ltac:(cbn; set_solver) Hp) as (N1 & c1 & s1 & HN1 & Hc1 & Hp1).
  destruct (peek1_pos _ _ _ _ "|" 124 Hp1 eq_refl) as (s2 & Epk & Hp2). cbn in Epk, Hp2.
  destruct (gettoken_pos _ _ _ _ _ Hp2) as (q & s3 & Eg & Hp3 & _).
  destruct (HP s3 rest Hst Hno Hp3) as (N2 & c2 & s4 & HN2 & Hc2 & Hp4).
  exists (S (N1 `max` N2)), (PIPE c1 c2), s4. split; [|split; [by constructor|done]]. intros [|fuel] Hf; [lia|]. cbn [parsepipe].
  rewrite HN1 by lia. cbn [pbind]. rewrite Epk, Eg, HN2 by lia. done.
Qed.

Lemma backs_ok rest : starts_with 38 rest = false -> forall n s c t fuel, pos m s es (repeat [38] n ++ rest) -> cmd_rel (span m) c t -> (n < fuel)%nat ->
  exists c' s', parsebacks fuel m s es c = POk c' s' /\ cmd_rel (span m) c' (Nat.iter n BACK t) /\ pos m s' es rest.
Proof.
  intros Hno. induction n as [|n IH]; intros s c t [|fuel] Hp Hc Hf; try lia; cbn [parsebacks]; cbn [repeat app] in Hp;
    destruct (peek1_pos _ _ _ _ "&" 38 Hp eq_refl) as (s1 & -> & Hp1).
  { rewrite Hno. eauto. }
  cbn [starts_with hd Z.eqb Pos.eqb]. destruct (gettoken_pos _ _ _ _ _ Hp1) as (q & s2 & -> & Hp2 & _).
  destruct (IH s2 (BACK c) (BACK t) fuel Hp2 ltac:(by constructor) ltac:(lia)) as (c' & s' & -> & Hc' & Hp'). exists c', s'. split; [done|]. split; [|done].
  by rewrite Nat.iter_succ_r.
Qed.

(** A command of the second level, then what [parseline] does with it. *)
Lemma backs_line t s rest : (forall t0 n, t = Nat.iter n BACK t0 -> (nodes t0 + n = nodes t)%nat -> wf t0 -> (lvl t0 <> 2)%nat -> P_ok m es t0) -> wf t ->
  stop rest -> starts_with 38 rest = false -> starts_with 124 rest = false -> pos m s es (tokens 2 t ++ rest) ->
  exists N c0 s0 c s', (forall fuel, (N <= fuel)%nat -> parsepipe fuel m s es = POk c0 s0) /\ parsebacks (loop_fuel s0 es) m s0 es c0 = POk c s' /\
    cmd_rel (span m) c t /\ pos m s' es rest.
Proof.
  intros HP Hwf Hst H1 H2 Hp. destruct (back_split t) as (t0 & n & Et & Etok & Hn & Hw & Hl). rewrite Etok, <- app_assoc in Hp.
  destruct (HP t0 n Et Hn (Hw Hwf) Hl s (repeat [38] n ++ rest)) as (N & c0 & s0 & HN & Hc0 & Hp0); try done.
  { destruct n; [done|]. cbn. set_solver. }
  { by destruct n. }
  destruct (backs_ok rest H1 n s0 c0 t0 (loop_fuel s0 es) Hp0 Hc0) as (c & s' & Eb & Hc & Hp').
  { eapply loop_fuel_enough; [exact Hp0|]. rewrite length_app, repeat_length. lia. }
  exists N, c0, s0, c, s'. by rewrite Et.
Qed.

Lemma L_plain t : (lvl t <> 3)%nat -> wf t -> (forall t0 n, t = Nat.iter n BACK t0 -> (nodes t0 + n = nodes t)%nat -> wf t0 -> (lvl t0 <> 2)%nat -> P_ok m es t0) ->
  L_ok m es t.
Proof.
  intros Hl Hwf HP s rest Hcl Hp. rewrite (tokens_skip 2 3 t) in Hp by (destruct t; cbn in *; lia).
  destruct (backs_line t s rest HP Hwf) as (N & c0 & s0 & c & s1 & HN & Eb & Hc & Hp1); try done; try (by apply starts_closes); [by apply closes_stop|].
  destruct (peek1_pos _ _ _ _ ";" 59 Hp1 eq_refl) as (s2 & Epk & Hp2). rewrite starts_closes in Epk by done.
  exists (S N), c, s2. split; [|done]. intros [|fuel] Hf; [lia|]. cbn [parseline]. rewrite HN by lia. cbn [pbind]. rewrite Eb. cbn [pbind]. by rewrite Epk.
Qed.

Lemma L_list l r : wf l -> (forall t0 n, l = Nat.iter n BACK t0 -> (nodes t0 + n = nodes l)%nat -> wf t0 -> (lvl t0 <> 2)%nat -> P_ok m es t0) -> L_ok m es r ->
  L_ok m es (LIST l r).
Proof.
  intros Hwf HP HL s rest Hcl Hp. change (tokens 3 (LIST l r)) with (tokens 2 l ++ [59] :: tokens 3 r) in Hp. rewrite <- app_assoc in Hp.
  destruct (backs_line l s ([59] :: tokens 3 r ++ rest) HP Hwf ltac:(cbn; set_solver) eq_refl eq_refl Hp) as (N1 & c0 & s0 & c & s1 & HN1 & Eb & Hc & Hp1).
  destruct (peek1_pos _ _ _ _ ";" 59 Hp1 eq_refl) as (s2 & Epk & Hp2). cbn in Epk, Hp2.
  destruct (gettoken_pos _ _ _ _ _ Hp2) as (q & s3 & Eg & Hp3 & _). destruct (HL s3 rest Hcl Hp3) as (N2 & c2 & s4 & HN2 & Hc2 & Hp4).
  exists (S (N1 `max` N2)), (LIST c c2), s4. split; [|split; [by constructor|done]]. intros [|fuel] Hf; [lia|]. cbn [parseline].
  rewrite HN1 by lia. cbn [pbind]. rewrite Eb. cbn [pbind]. rewrite Epk, Eg, HN2 by lia. done.
Qed.

Lemma levels t : wf t -> E_ok m es t /\ P_ok m es t /\ L_ok m es t.
Proof.
  intros Hwf. remember (nodes t) as n eqn:En. revert t Hwf En. induction (lt_wf n) as [n _ IH']. intros t Hwf ->.
  assert (below (nodes t)) as IH by (intros t' Hw' Hn; by eapply (IH' (nodes t'))). clear IH'.
  assert (lvl t <= 1 -> P_ok m es t)%nat as HP1.
  { intros Hl. destruct (decide (lvl t = 0%nat)) as [H0|H0]; [apply P_exec; [lia|by apply E_simple]|].
    destruct t as [| |l r| |]; try (cbn in *; lia). destruct Hwf. apply P_pipe; (apply IH; [done|cbn; lia]). }
  assert (L_ok m es t) as HL.
  { destruct (decide (lvl t = 3%nat)) as [H3|H3].
    - destruct t as [| | |l r|]; try done. destruct Hwf. apply L_list; [done| |apply IH; [done|cbn; lia]]. intros t0 n -> Hn Hw _. apply IH; [done|cbn; lia].
    - apply L_plain; try done. intros t0 n Et Hn Hw Hl. destruct n as [|n]; [|apply IH; [done|lia]]. cbn in Et. subst t0. apply HP1. destruct t; cbn in *; lia. }
  assert (E_ok m es t) as HE by (destruct (decide (lvl t = 0%nat)); [by apply E_simple|apply E_block; [lia|done]]).
  split; [done|]. split; [|done]. destruct (decide (lvl t = 1%nat)); [apply HP1; lia|by apply P_exec].
Qed.
End levels.
