(* ===== verification/ShClaims.v ===== *)
(** * sh.c reads every line, and reads back the command that a line shows

    The depth of the parser's calls is bounded on every buffer, and a line that
    is the tokens of a command, however they are spaced, runs that command. *)

From S2P Require Import Prelude Mem Cstring Uprog Ulib Sh ShSpec ShParse.

(** ** The parser always answers *)

(** Not out of fuel, and the position has only moved forward. *)
Definition answers {A} (s es : Z) (p : parsed A) : Prop :=
  match p with POk _ s' => s <= s' <= es | PPanic _ => True | POut => False end.

Lemma answers_bind {A B} s es (p : parsed A) (f : A -> Z -> parsed B) :
  answers s es p -> (forall a s', s <= s' <= es -> answers s es (f a s')) -> answers s es (pbind p f).
Proof. destruct p as [a s'| |]; cbn; auto. Qed.

Lemma answers_from {A} s s1 es (p : parsed A) : s <= s1 -> answers s1 es p -> answers s es p.
Proof. destruct p; cbn; [lia|done|done]. Qed.

Section forward.
Context (m : mem) (es : Z) (Hes : load8 m es = 0).

Lemma skip_ws_range n s : s <= skip_ws n m s <= s + Z.of_nat n.
Proof. revert s. induction n as [|n IH]; intros s; cbn [skip_ws]; [lia|]. destruct (among _ _); [|lia]. specialize (IH (s + 1)). lia. Qed.

Lemma skip_arg_range n s : s <= skip_arg n m s <= s + Z.of_nat n.
Proof. revert s. induction n as [|n IH]; intros s; cbn [skip_arg]; [lia|]. destruct (_ && _); [|lia]. specialize (IH (s + 1)). lia. Qed.

Lemma skip_ws_stop n s : s + Z.of_nat n = es -> skip_ws n m s < es -> among whitespace (load8 m (skip_ws n m s)) = false.
Proof.
  revert s. induction n as [|n IH]; intros s Hn; cbn [skip_ws]; [lia|]. destruct (among whitespace (load8 m s)) eqn:E; [|done]. apply IH. lia.
Qed.

Lemma peek_forward s toks : s <= es -> exists s' b, peek m s es toks = (s', b) /\ s <= s' <= es /\ (b = true -> load8 m s' <> 0).
Proof.
  intros H. unfold peek. eexists _, _. split; [reflexivity|]. pose proof (skip_ws_range (Z.to_nat (es - s)) s). split; [lia|].
  rewrite andb_true_iff, negb_true_iff, Z.eqb_neq. by intros [].
Qed.

(** A token that is not the end moves the position. *)
Lemma token_forward s : s <= es -> load8 m s <> 0 -> among whitespace (load8 m s) = false ->
  among symbols (load8 m s) = false -> s < skip_arg (Z.to_nat (es - s)) m s.
Proof using Hes.
  intros H H0 Hw Hs. destruct (Z.to_nat (es - s)) as [|n] eqn:En; [assert (s = es) as -> by lia; done|]. cbn [skip_arg]. rewrite Hw, Hs. cbn [negb andb].
  pose proof (skip_arg_range n (s + 1)). lia.
Qed.

Lemma gettoken_forward s : s <= es -> exists tok q eq s', gettoken m s es = (tok, q, eq, s') /\ s <= s' <= es /\ (tok <> 0 -> s < s') /\
  (load8 m s <> 0 -> s < s').
Proof using Hes.
  intros H. unfold gettoken. cbv zeta. set (q := skip_ws (Z.to_nat (es - s)) m s). pose proof (skip_ws_range (Z.to_nat (es - s)) s) as Hq. fold q in Hq.
  assert (q < es -> among whitespace (load8 m q) = false) as Hw by (apply skip_ws_stop; lia).
  match goal with |- context [let '(ret, s) := ?b in _] => set (body := b) end.
  assert (exists tok e, body = (tok, e) /\ q <= e <= es /\ (load8 m q <> 0 -> q < e) /\ (load8 m q = 0 -> tok = 0)) as (tok & e & -> & He & Hp & H0).
  { destruct (Z.eqb_spec (load8 m q) 0) as [E0|E0]; [exists (load8 m q), q; subst body; rewrite E0; cbn; repeat split; try done; lia|].
    assert (q < es) as Hlt by (destruct (Z.eq_dec q es) as [E|]; [by rewrite E in E0|lia]). subst body. cbv iota.
    destruct (_ || _) eqn:Esym; [eexists _, _; repeat split; try done; lia|]. destruct (Z.eqb_spec (load8 m q) 62) as [E62|E62].
    - destruct (Z.eqb_spec (load8 m (q + 1)) 62) as [E|E]; eexists _, _; repeat split; try done; try lia.
      assert (q + 1 <> es) by (intros E1; rewrite E1, Hes in E; done). lia.
    - eexists _, _. split; [reflexivity|]. pose proof (skip_arg_range (Z.to_nat (es - q)) q). split; [lia|]. split; [|done]. intros _.
      apply token_forward; [lia|done|by apply Hw|]. destruct (among symbols (load8 m q)) eqn:Ea; [|done]. apply among_iff in Ea.
      change symbols with [60; 124; 62; 38; 59; 40; 41] in Ea. rewrite !elem_of_cons, elem_of_nil in Ea. rewrite !orb_false_iff, !Z.eqb_neq in Esym.
      exfalso. destruct_or! Ea; tauto. }
  eexists _, _, _, _. split; [reflexivity|]. pose proof (skip_ws_range (Z.to_nat (es - e)) e) as Hs. split; [lia|]. split.
  - intros Ht. enough (q < e) by lia. apply Hp. tauto.
  - intros Hs0. destruct (Z.eq_dec q s) as [E|E]; [|lia]. rewrite E in Hp. specialize (Hp Hs0). lia.
Qed.

Lemma parseredirs_answers fuel s : s <= es -> es - s < Z.of_nat fuel -> answers s es (parseredirs fuel m s es).
Proof using Hes.
  revert s. induction fuel as [|fuel IH]; intros s Hs Hf; [lia|]. cbn [parseredirs].
  destruct (peek_forward s "<>" Hs) as (s1 & [|] & -> & H1 & Hb); [|cbn; lia]. specialize (Hb eq_refl).
  destruct (gettoken_forward s1 ltac:(lia)) as (t2 & q2 & e2 & s2 & -> & H2 & _ & Hlt). specialize (Hlt Hb).
  destruct (gettoken_forward s2 ltac:(lia)) as (t3 & q3 & e3 & s3 & -> & H3 & _). destruct (negb _); [done|]. destruct (redir_args t2) as [mode fd].
  apply (answers_from s s3); [lia|]. apply answers_bind; [apply IH; lia|]. cbn. lia.
Qed.

Lemma loop_fuel_covers s : s <= es -> es - s < Z.of_nat (loop_fuel s es).
Proof. unfold loop_fuel. lia. Qed.

Lemma parseargs_answers fuel s argc : s <= es -> es - s < Z.of_nat fuel -> answers s es (parseargs fuel m s es argc).
Proof using Hes.
  revert s argc. induction fuel as [|fuel IH]; intros s argc Hs Hf; [lia|]. cbn [parseargs].
  destruct (peek_forward s "|)&;" Hs) as (s1 & [|] & -> & H1 & _); [cbn; lia|].
  destruct (gettoken_forward s1 ltac:(lia)) as (t2 & q2 & e2 & s2 & -> & H2 & Hlt & _). destruct (Z.eqb_spec t2 0) as [E|E]; [cbn; lia|]. specialize (Hlt E).
  destruct (negb _); [done|]. destruct (_ <=? _); [done|]. apply (answers_from s s2); [lia|].
  apply answers_bind; [apply parseredirs_answers; [lia|apply loop_fuel_covers; lia]|]. intros rs s3 H3. apply (answers_from s2 s3); [lia|].
  apply answers_bind; [apply IH; lia|]. intros [args rs'] s4 H4. cbn. lia.
Qed.

Lemma parsebacks_answers fuel s c : s <= es -> es - s < Z.of_nat fuel -> answers s es (parsebacks fuel m s es c).
Proof using Hes.
  revert s c. induction fuel as [|fuel IH]; intros s c Hs Hf; [lia|]. cbn [parsebacks].
  destruct (peek_forward s "&" Hs) as (s1 & [|] & -> & H1 & Hb); [|cbn; lia]. specialize (Hb eq_refl).
  destruct (gettoken_forward s1 ltac:(lia)) as (t2 & q2 & e2 & s2 & -> & H2 & _ & Hlt). specialize (Hlt Hb). apply (answers_from s s2); [lia|]. apply IH; lia.
Qed.

(** The depth that each routine needs, in the bytes that are left. *)
Lemma parse_answers fuel : forall s, s <= es ->
  (4 * (es - s) + 4 <= Z.of_nat fuel -> answers s es (parseline fuel m s es)) /\
  (4 * (es - s) + 3 <= Z.of_nat fuel -> answers s es (parsepipe fuel m s es)) /\
  (4 * (es - s) + 2 <= Z.of_nat fuel -> answers s es (parseexec fuel m s es)) /\
  (4 * (es - s) + 1 <= Z.of_nat fuel -> answers s es (parseblock fuel m s es)).
Proof using Hes.
  induction fuel as [|fuel IH]; intros s Hs; [lia|]. repeat split; intros Hf.
  - cbn [parseline]. apply answers_bind; [apply IH; lia|]. intros c s1 H1. apply (answers_from s s1); [lia|].
    apply answers_bind; [apply parsebacks_answers; [lia|apply loop_fuel_covers; lia]|]. intros c' s2 H2.
    destruct (peek_forward s2 ";" ltac:(lia)) as (s3 & [|] & -> & H3 & Hb); [|cbn; lia]. specialize (Hb eq_refl).
    destruct (gettoken_forward s3 ltac:(lia)) as (t & q & e & s4 & -> & H4 & _ & Hlt). specialize (Hlt Hb). apply (answers_from s1 s4); [lia|].
    apply answers_bind; [apply IH; lia|]. cbn. lia.
  - cbn [parsepipe]. apply answers_bind; [apply IH; lia|]. intros c s1 H1.
    destruct (peek_forward s1 "|" ltac:(lia)) as (s3 & [|] & -> & H3 & Hb); [|cbn; lia]. specialize (Hb eq_refl).
    destruct (gettoken_forward s3 ltac:(lia)) as (t & q & e & s4 & -> & H4 & _ & Hlt). specialize (Hlt Hb). apply (answers_from s s4); [lia|].
    apply answers_bind; [apply IH; lia|]. cbn. lia.
  - cbn [parseexec]. destruct (peek_forward s "(" Hs) as (s1 & [|] & -> & H1 & _); apply (answers_from s s1); try lia; [apply IH; lia|].
    apply answers_bind; [apply parseredirs_answers; [lia|apply loop_fuel_covers; lia]|]. intros rs s2 H2. apply (answers_from s1 s2); [lia|].
    apply answers_bind; [apply parseargs_answers; [lia|apply loop_fuel_covers; lia]|]. intros [args rs'] s3 H3. cbn. lia.
  - cbn [parseblock]. destruct (peek_forward s "(" Hs) as (s1 & [|] & -> & H1 & Hb); [|done]. specialize (Hb eq_refl). cbn [negb].
    destruct (gettoken_forward s1 ltac:(lia)) as (t & q & e & s2 & -> & H2 & _ & Hlt). specialize (Hlt Hb). apply (answers_from s s2); [lia|].
    apply answers_bind; [apply IH; lia|]. intros c s3 H3. destruct (peek_forward s3 ")" ltac:(lia)) as (s4 & [|] & -> & H4 & _); [|done]. cbn [negb].
    destruct (gettoken_forward s4 ltac:(lia)) as (t5 & q5 & e5 & s5 & -> & H5 & _). apply (answers_from s2 s5); [lia|].
    apply answers_bind; [apply parseredirs_answers; [lia|apply loop_fuel_covers; lia]|]. cbn. lia.
Qed.
End forward.

(** *** More depth changes nothing *)

Lemma pbind_mono {A B} (p p' : parsed A) (f f' : A -> Z -> parsed B) : (p <> POut -> p' = p) -> (forall a s, f a s <> POut -> f' a s = f a s) ->
  pbind p f <> POut -> pbind p' f' = pbind p f.
Proof. intros Hp Hf H. destruct p as [a s|msg|]; [rewrite Hp by done; by apply Hf|by rewrite Hp|done]. Qed.

Lemma parse_more fuel : forall m s es,
  (parseline fuel m s es <> POut -> parseline (S fuel) m s es = parseline fuel m s es) /\
  (parsepipe fuel m s es <> POut -> parsepipe (S fuel) m s es = parsepipe fuel m s es) /\
  (parseexec fuel m s es <> POut -> parseexec (S fuel) m s es = parseexec fuel m s es) /\
  (parseblock fuel m s es <> POut -> parseblock (S fuel) m s es = parseblock fuel m s es).
Proof.
  induction fuel as [|fuel IH]; intros m s es; [by repeat split|]. remember (S fuel) as f' eqn:Ef. repeat split.
  - rewrite Ef at 1 3. cbn [parseline]. apply pbind_mono; [apply IH|]. intros c s1. apply pbind_mono; [done|]. intros c' s2.
    destruct (peek m s2 es ";") as [s3 [|]]; [|done]. destruct (gettoken m s3 es) as [[[t q] e] s4]. apply pbind_mono; [apply IH|done].
  - rewrite Ef at 1 3. cbn [parsepipe]. apply pbind_mono; [apply IH|]. intros c s1.
    destruct (peek m s1 es "|") as [s3 [|]]; [|done]. destruct (gettoken m s3 es) as [[[t q] e] s4]. apply pbind_mono; [apply IH|done].
  - rewrite Ef at 1 3. cbn [parseexec]. destruct (peek m s es "(") as [s1 [|]]; [apply IH|done].
  - rewrite Ef at 1 3. cbn [parseblock]. destruct (peek m s es "(") as [s1 [|]]; [|done]. cbn [negb]. destruct (gettoken m s1 es) as [[[t q] e] s4].
    apply pbind_mono; [apply IH|done].
Qed.

Lemma parseline_more m s es f f' : (f <= f')%nat -> parseline f m s es <> POut -> parseline f' m s es = parseline f m s es.
Proof. induction 1 as [|f' _ IH]; [done|]. intros H. specialize (IH H). destruct (parse_more f' m s es) as [Hm _]. rewrite Hm; congruence. Qed.

(** ** The strings of a parsed command *)

Fixpoint ends (c : pcmd) : list Z :=
  match c with
  | EXEC argv => map snd argv
  | REDIR c f _ _ => ends c ++ [snd f]
  | PIPE l r | LIST l r => ends l ++ ends r
  | BACK c => ends c
  end.

Lemma nulterminate_argv (argv : list (Z * Z)) m x : load8 (fold_left (fun m '(_, eq) => store8 m eq 0) argv m) x = if decide (x ∈ map snd argv) then 0 else load8 m x.
Proof.
  revert m. induction argv as [|[p e] argv IH]; intros m; [done|]. cbn [fold_left map snd]. rewrite IH, load8_store8.
  destruct (Z.eqb_spec x e); repeat case_decide; try done; set_solver.
Qed.

Lemma nulterminate_load c : forall m x, load8 (nulterminate m c) x = if decide (x ∈ ends c) then 0 else load8 m x.
Proof.
  induction c as [argv|c IH [p e] mode fd|l IHl r IHr|l IHl r IHr|c IH]; intros m x; cbn [nulterminate ends snd].
  - apply nulterminate_argv.
  - rewrite load8_store8, IH. destruct (Z.eqb_spec x e); repeat case_decide; try done; set_solver.
  - rewrite IHr, IHl. repeat case_decide; try done; set_solver.
  - rewrite IHr, IHl. repeat case_decide; try done; set_solver.
  - apply IH.
Qed.

Fixpoint tree_words (t : tree) : list (list Z) :=
  match t with
  | EXEC ws => ws
  | REDIR c f _ _ => tree_words c ++ [f]
  | PIPE l r | LIST l r => tree_words l ++ tree_words r
  | BACK c => tree_words c
  end.

Lemma span_ends m c t : cmd_rel (span m) c t -> Forall (fun e => ~ plain (load8 m e)) (ends c).
Proof.
  induction 1 as [a b H|c d f g mode fd _ IH Hf|c d c' d' _ IH _ IH'|c d c' d' _ IH _ IH'|c d _ IH]; cbn; rewrite ?Forall_app; try done.
  - induction H as [|p w ps ws Hp _ IH]; constructor; [apply Hp|done].
  - split; [done|]. constructor; [apply Hf|constructor].
Qed.

Lemma plain_pos m a c : load8 m a = c -> plain c -> 0 < c.
Proof. intros E (H0 & _). pose proof (load8_range m a). lia. Qed.

(** A string that the NULs cut off. *)
Lemma span_cstr m m' es p w : span m p w -> Forall (fun e => ~ plain (load8 m e)) es -> snd p ∈ es -> (length w <= Z.to_nat 4096)%nat ->
  (forall x, load8 m' x = if decide (x ∈ es) then 0 else load8 m x) -> cstr (Z.to_nat 4096) m' (fst p) = w.
Proof.
  intros ([_ Hw] & Hsnd & Hb & _) Hes Hin Hn Hm. apply cstr_at; [|exact Hn]. rewrite Forall_forall in Hes, Hw. apply str_at_intro.
  - apply Forall_forall. intros c Hc. apply list_elem_of_lookup in Hc as Hk. destruct Hk as [k Hk]. eapply plain_pos; [by apply Hb|by apply Hw].
  - intros k c Hk. rewrite Hm. case_decide as Hd; [|by apply Hb]. destruct (Hes _ Hd). rewrite (Hb k c Hk). apply Hw. by eapply list_elem_of_lookup_2.
  - rewrite Hm, <- Hsnd. by case_decide.
Qed.

Lemma strings_cut m m' es c t : cmd_rel (span m) c t -> Forall (fun e => ~ plain (load8 m e)) es -> ends c ⊆ es ->
  Forall (fun w => (length w <= Z.to_nat 4096)%nat) (tree_words t) -> (forall x, load8 m' x = if decide (x ∈ es) then 0 else load8 m x) -> strings m' c = t.
Proof.
  intros H Hes Hsub Hw Hm. revert Hsub Hw.
  induction H as [a b H|c d f g mode fd _ IH Hf|c d c' d' _ IH _ IH'|c d c' d' _ IH _ IH'|c d _ IH]; cbn [ends tree_words strings]; intros Hsub Hw;
    rewrite ?Forall_app in Hw; try (destruct Hw as [Hw1 Hw2]; f_equal; [apply IH; [set_solver +Hsub|assumption]|apply IH'; [set_solver +Hsub|assumption]]).
  - f_equal. induction H as [|p w ps ws Hp _ IH]; [done|]. apply Forall_cons in Hw as [Hw Hws]. cbn [map] in *. f_equal; [|apply IH; [set_solver +Hsub|assumption]].
    eapply span_cstr; [exact Hp|exact Hes|set_solver +Hsub|exact Hw|exact Hm].
  - destruct Hw as [Hw1 Hw2]. f_equal; [apply IH; [set_solver +Hsub|assumption]|]. eapply span_cstr; [exact Hf|exact Hes|set_solver +Hsub|exact (Forall_inv Hw2)|exact Hm].
  - f_equal. apply IH; assumption.
Qed.

Lemma tree_words_tokens t : forall p w, w ∈ tree_words t -> w ∈ tokens p t.
Proof.
  enough (forall w, w ∈ tree_words t -> w ∈ tokens 3 t) as H.
  { intros p w Hw. rewrite tokens_eq. destruct (_ <=? p)%nat; [by apply H|]. specialize (H w Hw). set_solver. }
  assert (forall p t w, w ∈ tokens 3 t -> w ∈ tokens p t) as Hup by (intros p t' w Hw; rewrite tokens_eq; destruct (_ <=? p)%nat; set_solver).
  induction t as [ws|c IH f mode fd|l IHl r IHr|l IHl r IHr|c IH]; intros w; cbn [tree_words tokens lvl Nat.leb]; [done| | | |];
    rewrite ?elem_of_app, ?elem_of_cons, ?elem_of_nil; [intros [H|H]..|intros H]; eauto 6.
Qed.

Lemma spaced_length ts l t : spaced ts l -> t ∈ ts -> (length t <= length l)%nat.
Proof. induction 1 as [|t' ts b l _ _ _ _ IH]; rewrite ?elem_of_nil, ?elem_of_cons; [done|]. rewrite !length_app. intros [->|H]; [lia|]. specialize (IH H). lia. Qed.

(** ** The claims *)

Lemma text_at_end m s l : text_at m s l -> load8 m (s + Z.of_nat (length l)) = 0.
Proof. intros H. apply str_at_end in H. exact H. Qed.

Lemma parsecmd_tree m s t b l : wf t -> Forall is_ws b -> spaced (tokens 3 t) l -> text_at m s (b ++ l) ->
  let es := s + Z.of_nat (length (b ++ l)) in exists c, parsecmd m s es = Parsed (nulterminate m c) c /\ cmd_rel (span m) c t.
Proof.
  intros Hwf Hb Hl Ht es. assert (pos m s es (tokens 3 t ++ [])) as Hp by (rewrite app_nil_r; by exists b, l).
  destruct (levels m es t Hwf) as (_ & _ & HL). destruct (HL s [] I Hp) as (N & c & s' & HN & Hc & Hp').
  assert (answers s es (parseline (parse_fuel s es) m s es)) as Ha by (apply parse_answers; [by apply text_at_end|lia|unfold parse_fuel; lia]).
  assert (parseline (parse_fuel s es) m s es = POk c s') as E.
  { rewrite <- (HN (N `max` parse_fuel s es)%nat) by lia. symmetry. apply parseline_more; [lia|]. intros E. by rewrite E in Ha. }
  exists c. split; [|done]. unfold parsecmd. rewrite E. destruct (peek_pos _ _ _ _ "" Hp') as (s2 & -> & _ & Es). by rewrite (Es eq_refl), Z.eqb_refl.
Qed.

(** C25: [parsecmd] returns on every buffer that ends in a NUL, whatever the bytes
    before it: the calls never nest deeper than four for each byte and four
    more, and no loop of the parser runs on without reading.  The result is a
    command, a message and the end of the process, or what was left over. *)
Theorem parsecmd_terminates (m : mem) (s es : Z) : s <= es -> load8 m es = 0 -> parsecmd m s es <> OutOfFuel.
Proof.
  intros Hs He. destruct (parse_answers m es He (parse_fuel s es) s Hs) as [H _]. specialize (H ltac:(unfold parse_fuel; lia)). unfold parsecmd.
  destruct (parseline _ m s es) as [c s'| |]; [|done|done]. destruct (peek m s' es "") as [s2 b]. by destruct (negb _).
Qed.

(** C11: The parser is the inverse of writing a command down.  Take any tree of
    lists, background commands, pipes, blocks, redirections and words, of any
    depth; write its tokens, with parentheses only where the grammar needs them,
    with any white space between them and before them, none where two tokens
    cannot run together.  On that line the shell runs exactly that tree: the
    NULs that [nulterminate] puts end every word and file name and touch nothing
    else. *)
Theorem shell_runs_tree (m : mem) (s : Z) (t : tree) (b l : list Z) :
  wf t -> Forall is_ws b -> spaced (tokens 3 t) l -> text_at m s (b ++ l) -> (length l <= Z.to_nat 4096)%nat ->
  let es := s + Z.of_nat (length (b ++ l)) in
  (exists m' c, parsecmd m s es = Parsed m' c /\ strings m' c = t) /\ run_parsed m (parsecmd m s es) = runcmd t.
Proof.
  intros Hwf Hb Hl Ht Hn es. destruct (parsecmd_tree m s t b l Hwf Hb Hl Ht) as (c & E & Hc). fold es in E.
  assert (strings (nulterminate m c) c = t) as Es.
  { eapply strings_cut; [exact Hc|exact (span_ends _ _ _ Hc)|reflexivity| |apply nulterminate_load]. apply Forall_forall. intros w Hw.
    pose proof (spaced_length _ _ w Hl (tree_words_tokens t 3 w Hw)). eapply Nat.le_trans; [eassumption|exact Hn]. }
  split; [by eexists _, _|]. rewrite E. cbn [run_parsed]. by rewrite Es.
Qed.

(** ** The claims at work *)

Lemma spaced_blanks ts : Forall token ts -> spaced ts (flat_map (fun t => t ++ [32]) ts).
Proof.
  induction 1 as [|t ts Ht _ IH]; [constructor|]. cbn [flat_map]. rewrite <- app_assoc. constructor; [done| |by left|done]. repeat constructor.
Qed.

Lemma parsecmd_terminates_witness : parsecmd (buffer_of "(a;;>>|&") 1000 1008 <> OutOfFuel.
Proof. apply (parsecmd_terminates (buffer_of "(a;;>>|&") 1000 1008); [lia|vm_compute; reflexivity]. Defined.

Definition demo_line : string := "echo hi & ; ( ls | wc ) > out ".
Definition demo_tree : tree :=
  LIST (BACK (EXEC [str_bytes "echo"; str_bytes "hi"]))
       (REDIR (PIPE (EXEC [str_bytes "ls"]) (EXEC [str_bytes "wc"])) (str_bytes "out") (fst (redir_args 62)) 1).

#[local] Instance word_dec w : Decision (word w).
Proof. unfold word. apply _. Defined.
#[local] Instance good_rd_dec r : Decision (good_rd r).
Proof. destruct r as [[f mode] fd]. unfold good_rd. apply _. Defined.
#[local] Instance wf_dec t : Decision (wf t).
Proof. induction t; cbn; apply _. Defined.
#[local] Instance token_dec t : Decision (token t).
Proof. unfold token. apply _. Defined.

Lemma shell_runs_tree_witness :
  run_parsed (buffer_of demo_line) (parsecmd (buffer_of demo_line) 1000 (1000 + Z.of_nat (length ([] ++ str_bytes demo_line)))) = runcmd demo_tree.
Proof.
  apply (shell_runs_tree (buffer_of demo_line) 1000 demo_tree [] (str_bytes demo_line)).
  - by_dec.
  - constructor.
  - assert (str_bytes demo_line = flat_map (fun t => t ++ [32]) (tokens 3 demo_tree)) as -> by (vm_compute; reflexivity).
    apply spaced_blanks. by_dec.
  - apply text_at_buffer. by_dec.
  - by_dec.
Defined.
