(* ===== verification/Umalloc.v ===== *)
(** * user/umalloc.c

    The allocator on the memory of a process: the free blocks are a circular
    list through their headers, in the order of their addresses, starting at
    [base].  [sbrk] is [sys_sbrk] and [growproc] of the kernel as far as the size
    of the process goes; whether the kernel finds memory for a size is a
    parameter. *)

From S2P Require Import Prelude Mem.

(** [union header]: the next free block and the size, in units of 16 bytes. *)
Definition HDR : Z := 16.
Definition hptr (m : mem) (p : Z) : Z := load64 m p.
Definition hsize (m : mem) (p : Z) : Z := load32 m (p + 8).
Definition set_hptr (m : mem) (p v : Z) : mem := store64 m p v.
Definition set_hsize (m : mem) (p v : Z) : mem := store32 m (p + 8) v.

Record ust : Type := Ust { u_mem : mem; u_freep : Z; u_brk : Z }.
Definition set_u_mem (m : mem) (s : ust) : ust := Ust m (u_freep s) (u_brk s).
Definition set_u_freep (p : Z) (s : ust) : ust := Ust (u_mem s) p (u_brk s).
Definition set_u_brk (b : Z) (s : ust) : ust := Ust (u_mem s) (u_freep s) b.

(** The loop of [free]: the block after which [bp] goes. *)
Fixpoint free_find (fuel : nat) (m : mem) (bp p : Z) : option Z :=
  match fuel with
  | O => None
  | S f =>
      let nx := hptr m p in
      if (p <? bp) && (bp <? nx) then Some p
      else if (nx <=? p) && ((p <? bp) || (bp <? nx)) then Some p
      else free_find f m bp nx
  end.

(** The rest of [free]: the block joins its neighbours where it touches them. *)
Definition join_right (m : mem) (bp p : Z) : mem :=
  if bp + HDR * hsize m bp =? hptr m p then
    let m := set_hsize m bp (u32 (hsize m bp + hsize m (hptr m p))) in
    set_hptr m bp (hptr m (hptr m p))
  else set_hptr m bp (hptr m p).
Definition join_left (m : mem) (bp p : Z) : mem :=
  if p + HDR * hsize m p =? bp then
    let m := set_hsize m p (u32 (hsize m p + hsize m bp)) in
    set_hptr m p (hptr m bp)
  else set_hptr m p bp.

Definition free (fuel : nat) (ap : Z) (s : ust) : option ust :=
  let bp := ap - HDR in
  p ← free_find fuel (u_mem s) bp (u_freep s);
  Some (set_u_freep p (set_u_mem (join_left (join_right (u_mem s) bp p) bp p) s)).

Section malloc.
(** Whether the kernel can give the process this size. *)
Context (grants : Z -> bool).

(** The old size, or -1.  A negative [n] shrinks the process, unless the
    unsigned sum is past the old size. *)
Definition sbrk (n : Z) (s : ust) : ust * Z :=
  if 0 <? n then
    if grants (u_brk s + n) then (set_u_brk (u_brk s + n) s, u_brk s) else (s, -1)
  else if n <? 0 then
    let sz := u64 (u_brk s + n) in
    (set_u_brk (if u_brk s <=? sz then u_brk s else sz) s, u_brk s)
  else (s, u_brk s).

(** [sbrk] takes an [int]. *)
Definition morecore (fuel : nat) (nu : Z) (s : ust) : option (ust * Z) :=
  let nu := if nu <? 4096 then 4096 else nu in
  let '(s, p) := sbrk (s32 (nu * HDR)) s in
  if p =? -1 then Some (s, 0)
  else
    let s := set_u_mem (set_hsize (u_mem s) p nu) s in
    s ← free fuel (p + HDR) s;
    Some (s, u_freep s).

(** The block at [p], or its tail, and the new memory. *)
Definition take_block (m : mem) (nunits prevp p : Z) : mem * Z :=
  if hsize m p =? nunits then (set_hptr m prevp (hptr m p), p)
  else
    let m := set_hsize m p (hsize m p - nunits) in
    let p := p + HDR * hsize m p in
    (set_hsize m p nunits, p).

Fixpoint malloc_loop (fuel : nat) (nunits prevp p : Z) (s : ust) : option (ust * Z) :=
  match fuel with
  | O => None
  | S f =>
      if nunits <=? hsize (u_mem s) p then
        let '(m, p) := take_block (u_mem s) nunits prevp p in
        Some (set_u_freep prevp (set_u_mem m s), p + HDR)
      else if p =? u_freep s then
        '(s, p) ← morecore f nunits s;
        if p =? 0 then Some (s, 0) else malloc_loop f nunits p (hptr (u_mem s) p) s
      else malloc_loop f nunits p (hptr (u_mem s) p) s
  end.

Definition units (nbytes : Z) : Z := (nbytes + HDR - 1) / HDR + 1.

(** [base] is the address of the list's first header. *)
Definition malloc (fuel : nat) (base nbytes : Z) (s : ust) : option (ust * Z) :=
  let nunits := u32 (units nbytes) in
  let s := if u_freep s =? 0 then set_u_freep base (set_u_mem (set_hsize (set_hptr (u_mem s) base base) base 0) s) else s in
  malloc_loop fuel nunits (u_freep s) (hptr (u_mem s) (u_freep s)) s.
End malloc.

(** ** The free list *)

Abbreviation blocks := (list (Z * Z)).

(** The headers from [x] on hold the blocks [L], and the last points to [y]. *)
Fixpoint seg (m : mem) (x : Z) (L : blocks) (y : Z) : Prop :=
  match L with
  | [] => x = y
  | (a, n) :: L' => x = a /\ hsize m a = n /\ seg m (hptr m a) L' y
  end.

(** In order, and no two blocks touch. *)
Fixpoint ordered (e : Z) (L : blocks) : Prop :=
  match L with [] => True | (a, n) :: L' => e < a /\ 0 <= n /\ ordered (a + HDR * n) L' end.

Lemma seg_app m x L1 L2 y : seg m x (L1 ++ L2) y <-> exists z, seg m x L1 z /\ seg m z L2 y.
Proof.
  revert x. induction L1 as [|[a n] L1 IH]; intros x; cbn [app seg].
  - split; [by exists x|]. by intros (z & -> & ?).
  - rewrite IH. split; [intros (-> & ? & z & ? & ?); by exists z|intros (z & (-> & ? & ?) & ?); eauto].
Qed.

(** Memory that has not changed but in some headers. *)
Definition same_but (m m' : mem) (P : Z -> Prop) : Prop := forall x, ~ P x -> load8 m' x = load8 m x.
Definition header (p x : Z) : Prop := p <= x < p + HDR.

Lemma same_hptr m m' P a : same_but m m' P -> (forall x, header a x -> ~ P x) -> hptr m' a = hptr m a.
Proof. intros H Hh. apply loadn_ext. intros x Hx. apply H, Hh. unfold header, HDR. lia. Qed.
Lemma same_hsize m m' P a : same_but m m' P -> (forall x, header a x -> ~ P x) -> hsize m' a = hsize m a.
Proof. intros H Hh. apply loadn_ext. intros x Hx. apply H, Hh. unfold header, HDR. lia. Qed.

Lemma seg_frame m m' P L : same_but m m' P -> forall x y, (forall a n z, (a, n) ∈ L -> header a z -> ~ P z) -> seg m x L y -> seg m' x L y.
Proof.
  intros H. induction L as [|[a n] L IH]; intros x y Hd; [done|]. intros (-> & Hn & Hs).
  assert (forall z, header a z -> ~ P z) as Ha by (intros z; apply (Hd a n); left).
  split; [done|]. rewrite (same_hsize _ _ _ _ H Ha), (same_hptr _ _ _ _ H Ha). split; [done|]. apply IH; [|done]. intros a' n' z Hin. apply (Hd a' n'). by right.
Qed.

Lemma same_set_hptr m p v : same_but m (set_hptr m p v) (header p).
Proof. intros x Hx. apply load8_storen_out. unfold header, HDR in Hx. lia. Qed.
Lemma same_set_hsize m p v : same_but m (set_hsize m p v) (header p).
Proof. intros x Hx. apply load8_storen_out. unfold header, HDR in Hx. lia. Qed.
Lemma same_trans m m' m'' P : same_but m m' P -> same_but m' m'' P -> same_but m m'' P.
Proof. intros H H' x Hx. by rewrite H', H. Qed.
Lemma same_weaken m m' (P Q : Z -> Prop) : same_but m m' P -> (forall x, P x -> Q x) -> same_but m m' Q.
Proof. intros H HPQ x Hx. apply H. auto. Qed.

Lemma hptr_set m p v : 0 <= v < 2 ^ 64 -> hptr (set_hptr m p v) p = v.
Proof. apply load64_store64_same. Qed.
Lemma hsize_set m p v : 0 <= v < 2 ^ 32 -> hsize (set_hsize m p v) p = v.
Proof. intros H. unfold hsize, set_hsize, load32, store32. rewrite loadn_storen_same. by apply Z.mod_small. Qed.
Lemma hsize_set_hptr m p v : hsize (set_hptr m p v) p = hsize m p.
Proof. apply loadn_storen_out. lia. Qed.
Lemma hptr_set_hsize m p v : hptr (set_hsize m p v) p = hptr m p.
Proof. apply loadn_storen_out. lia. Qed.

Lemma ordered_in e L a n : ordered e L -> (a, n) ∈ L -> e < a /\ 0 <= n.
Proof.
  revert e. induction L as [|[b k] L IH]; intros e; [by rewrite elem_of_nil|]. cbn. intros (H1 & H2 & H3). rewrite elem_of_cons. intros [E|Hin].
  - injection E as -> ->. done.
  - destruct (IH _ H3 Hin). unfold HDR in *. lia.
Qed.

Lemma ordered_weaken e e' L : e' <= e -> ordered e L -> ordered e' L.
Proof. destruct L as [|[a n] L]; [done|]. cbn. intros H (? & ? & ?). repeat split; try done; lia. Qed.

Lemma ordered_mid e L1 a n L2 : ordered e (L1 ++ (a, n) :: L2) -> e < a /\ 0 <= n /\ ordered (a + HDR * n) L2.
Proof.
  revert e. induction L1 as [|[b k] L1 IH]; intros e; cbn; [done|]. intros (H1 & H2 & H3). apply IH in H3. unfold HDR in *. destruct H3 as (? & ? & ?).
  repeat split; try done; lia.
Qed.

(** The end of the last block. *)
Definition last_end (e : Z) (L : blocks) : Z := match last L with Some (a, n) => a + HDR * n | None => e end.

Lemma last_end_cons e a n L : last_end e ((a, n) :: L) = last_end (a + HDR * n) L.
Proof. unfold last_end. rewrite last_cons. by destruct (last L) as [[]|]. Qed.

Lemma ordered_app e L1 L2 : ordered e (L1 ++ L2) <-> ordered e L1 /\ ordered (last_end e L1) L2.
Proof.
  revert e. induction L1 as [|[a n] L1 IH]; intros e; [cbn; tauto|]. rewrite last_end_cons. cbn [app ordered]. rewrite IH. tauto.
Qed.

(** The bytes of a list of blocks. *)
Definition inside (L : blocks) (x : Z) : Prop := exists a n, (a, n) ∈ L /\ a <= x < a + HDR * n.

Lemma inside_nil x : inside [] x <-> False.
Proof. split; [|done]. by intros (a & n & ?%elem_of_nil & _). Qed.
Lemma inside_cons a n L x : inside ((a, n) :: L) x <-> a <= x < a + HDR * n \/ inside L x.
Proof.
  split.
  - intros (b & k & Hin & Hx). apply elem_of_cons in Hin as [E|Hin]; [injection E as -> ->; by left|right; by exists b, k].
  - intros [Hx|(b & k & Hin & Hx)]; [exists a, n|exists b, k]; split; try done; [left|by right].
Qed.
Lemma inside_app L1 L2 x : inside (L1 ++ L2) x <-> inside L1 x \/ inside L2 x.
Proof.
  induction L1 as [|[a n] L1 IH]; cbn [app]; [rewrite inside_nil; tauto|]. rewrite !inside_cons, IH. tauto.
Qed.

(** ** Where [free] puts a block *)

Lemma free_find_S f m bp p : free_find (S f) m bp p =
  if (p <? bp) && (bp <? hptr m p) then Some p
  else if (hptr m p <=? p) && ((p <? bp) || (bp <? hptr m p)) then Some p
  else free_find f m bp (hptr m p).
Proof. done. Qed.

Lemma free_find_up m base bp L : forall x n fuel, seg m x ((x, n) :: L) base -> base <= x < bp -> ordered x L -> bp ∉ map fst L -> (length L < fuel)%nat ->
  exists p s L1 L2, free_find fuel m bp x = Some p /\ (x, n) :: L = L1 ++ (p, s) :: L2 /\ p < bp /\ (forall a n, (a, n) ∈ L2 -> bp < a).
Proof.
  induction L as [|[b k] L IH]; intros x n [|fuel] (_ & Hn & Hs) Hx Ho Hin Hf; cbn in Hf; try lia; cbn [free_find].
  - cbn in Hs. rewrite Hs. exists x, n, [], []. split; [by zdec; try lia|]. split; [done|]. split; [lia|]. by intros a k ?%elem_of_nil.
  - pose proof Hs as (E & _). rewrite E in *. destruct Ho as (Hxb & Hk & Ho). cbn [map fst] in Hin. apply not_elem_of_cons in Hin as [Hne Hin].
    destruct (Z.ltb_spec bp b) as [Hlt|Hge].
    + exists x, n, [], ((b, k) :: L). split; [by zdec; try lia|]. split; [done|]. split; [lia|]. intros a' n' H'. apply elem_of_cons in H' as [E'|H'].
      * injection E' as -> ->. done.
      * destruct (ordered_in _ _ _ _ Ho H'). unfold HDR in *. lia.
    + assert (ordered b L) as Hob by (eapply ordered_weaken; [|exact Ho]; unfold HDR; lia).
      destruct (IH b k fuel Hs ltac:(lia) Hob Hin ltac:(lia)) as (p & s & L1 & L2 & E1 & E2 & Hp & HL2).
      exists p, s, ((x, n) :: L1), L2. rewrite E2. split; [|done]. by zdec; try lia.
Qed.

(** From a block past [bp] the loop goes round to [base] first. *)
Lemma free_find_round m base bp L : forall x n fuel fuel', seg m x ((x, n) :: L) base -> base < bp -> bp < x -> ordered x L -> 
  free_find fuel' m bp base <> None -> fuel = (S (length L) + fuel')%nat -> free_find fuel m bp x = free_find fuel' m bp base.
Proof.
  induction L as [|[b k] L IH]; intros x n fuel fuel' (_ & Hn & Hs) Hb Hx Ho Hd ->; cbn [length Nat.add]; rewrite free_find_S.
  - cbn in Hs. rewrite Hs. by zdec; try lia.
  - pose proof Hs as (E & _). rewrite E in *. destruct Ho as (Hxb & Hk & Ho).
    rewrite (IH b k (S (length L + fuel')) fuel' Hs Hb ltac:(lia)); [|eapply ordered_weaken; [|exact Ho]; unfold HDR; lia|done|done].
    by zdec; try lia.
Qed.

Lemma free_find_more fuel m bp p q : free_find fuel m bp p = Some q -> forall fuel', (fuel <= fuel')%nat -> free_find fuel' m bp p = Some q.
Proof.
  revert p. induction fuel as [|fuel IH]; intros p H [|fuel'] Hf; try done; try lia. cbn [free_find] in *. repeat case_match; try done. apply IH; [done|lia].
Qed.

(** The block after which [bp] goes is the last one below it. *)
Lemma free_find_ok m base bp L freep fuel : seg m base ((base, 0) :: L) base -> ordered base L -> base < bp -> bp ∉ map fst L -> freep ∈ base :: map fst L ->
  (2 * length L + 2 <= fuel)%nat ->
  exists p s L1 L2, free_find fuel m bp freep = Some p /\ (base, 0) :: L = L1 ++ (p, s) :: L2 /\ p < bp /\ (forall a n, (a, n) ∈ L2 -> bp < a).
Proof.
  intros Hs Ho Hb Hin Hfp Hf.
  destruct (free_find_up m base bp L base 0 (S (length L)) Hs ltac:(lia) Ho Hin ltac:(lia)) as (p & s & L1 & L2 & E1 & E2 & Hp & HL2).
  apply elem_of_cons in Hfp as [->|Hfp].
  { exists p, s, L1, L2. split; [eapply free_find_more; [exact E1|lia]|done]. }
  apply list_elem_of_fmap in Hfp as ([x n] & Ex & Hx). cbn in Ex. subst x. apply list_elem_of_split in Hx as (M1 & M2 & EL).
  rewrite EL in Hs. change ((base, 0) :: M1 ++ (freep, n) :: M2) with (((base, 0) :: M1) ++ (freep, n) :: M2) in Hs.
  apply seg_app in Hs as (z & _ & Hs). pose proof Hs as (-> & _ & _).
  rewrite EL in Ho. apply ordered_mid in Ho as (Hlt & Hn & HM2). assert (ordered freep M2) as HoM by (eapply ordered_weaken; [|exact HM2]; unfold HDR; lia).
  assert (length L = length M1 + S (length M2))%nat as EN by (by rewrite EL, length_app).
  destruct (Z.ltb_spec freep bp) as [Hfb|Hfb].
  - destruct (free_find_up m base bp M2 freep n fuel Hs ltac:(lia) HoM) as (p' & s' & K1 & K2 & F1 & F2 & Hp' & HK2); [|lia|].
    { intros H. apply Hin. rewrite EL, map_app. cbn. set_solver. }
    exists p', s', (((base, 0) :: M1) ++ K1), K2. rewrite <- app_assoc, <- F2, EL. done.
  - exists p, s, L1, L2. split; [|done]. rewrite (free_find_round m base bp M2 freep n fuel (fuel - S (length M2)) Hs Hb); [|..]; try done; try lia.
    + apply (free_find_more _ _ _ _ _ E1). lia.
    + assert (freep <> bp); [|lia]. intros ->. apply Hin. rewrite EL, map_app. cbn. set_solver.
    + rewrite (free_find_more _ _ _ _ _ E1); [done|lia].
Qed.

(** *** The block joins its neighbours *)

Definition merge_right (bp bs : Z) (L : blocks) : blocks :=
  match L with (a, n) :: L' => if bp + HDR * bs =? a then (bp, bs + n) :: L' else (bp, bs) :: L | [] => [(bp, bs)] end.
Definition merge_left (p s : Z) (R : blocks) : blocks :=
  match R with (b, k) :: R' => if p + HDR * s =? b then (p, s + k) :: R' else (p, s) :: R | [] => [(p, s)] end.

Lemma join_right_same m bp p : same_but m (join_right m bp p) (header bp).
Proof.
  unfold join_right. case_match; [|apply same_set_hptr]. eapply same_trans; [apply same_set_hsize|apply same_set_hptr].
Qed.

Lemma join_left_same m1 bp p : same_but m1 (join_left m1 bp p) (header p).
Proof.
  unfold join_left. case_match; [|apply same_set_hptr]. eapply same_trans; [apply same_set_hsize|apply same_set_hptr].
Qed.

Section join.
Context (m : mem) (base bp bs p s : Z) (L2 : blocks).
Hypothesis Hbase : 0 < base < bp /\ bp + HDR * bs < 2 ^ 64.
Hypothesis Hbs : hsize m bp = bs /\ 0 < bs.
Hypothesis Hp : p + HDR <= bp /\ p + HDR * s <= bp /\ 0 <= s.
Hypothesis Hseg : seg m p ((p, s) :: L2) base.
Hypothesis Hord : ordered (p + HDR * s) L2.
Hypothesis Habove : forall a n, (a, n) ∈ L2 -> bp + HDR * bs <= a /\ 0 < n.
Hypothesis Hsum : s + bs < 2 ^ 31 /\ forall a n, (a, n) ∈ L2 -> n < 2 ^ 31.

#[local] Set Default Proof Using "All".

Lemma join_right_seg : seg (join_right m bp p) bp (merge_right bp bs L2) base.
Proof.
  pose proof (join_right_same m bp p) as Hsame. destruct Hbs as [Eb Hb]. destruct Hseg as (_ & Es & Hs). destruct L2 as [|[a n] L] eqn:EL.
  - cbn in Hs. unfold join_right, merge_right. rewrite Hs, Eb. destruct (Z.eqb_spec (bp + HDR * bs) base); [unfold HDR in *; lia|]. cbn [seg].
    rewrite hsize_set_hptr, hptr_set by (unfold HDR in *; lia). done.
  - destruct (Habove a n ltac:(left)) as [Ha Hn]. destruct Hsum as [Hsum1 Hsum2]. specialize (Hsum2 a n ltac:(left)).
    pose proof Hs as (E & En & HsL). assert (seg (join_right m bp p) a ((a, n) :: L) base) as Hs'.
    { rewrite E in Hs. eapply seg_frame; [exact Hsame| |exact Hs]. intros a' n' z Hin Hz. unfold header in *. destruct (Habove a' n' Hin). unfold HDR in *. lia. }
    revert Hs' Hsame. unfold join_right, merge_right. rewrite E, Eb, En. intros Hs' Hsame. destruct (Z.eqb_spec (bp + HDR * bs) a) as [Eq|Ne].
    + set (m0 := set_hsize m bp (u32 (bs + n))) in *. assert (same_but m m0 (header bp)) as H0 by apply same_set_hsize.
      assert (hptr m0 p = a) as Ep by (rewrite (same_hptr _ _ _ _ H0); [done|]; intros x; unfold header, HDR in *; lia).
      assert (hptr m0 a = hptr m a) as Ea by (apply (same_hptr _ _ _ _ H0); intros x; unfold header, HDR in *; lia). rewrite Ep, Ea in *.
      cbn [seg] in *. destruct Hs' as (_ & _ & Hs'). rewrite (same_hptr _ _ _ _ Hsame) in Hs' by (intros x; unfold header, HDR in *; lia).
      split; [done|]. rewrite hsize_set_hptr. unfold m0 at 1. rewrite hsize_set by (unfold u32; lia). split; [unfold u32; rewrite Z.mod_small; lia|].
      by rewrite hptr_set by (apply load64_range).
    + cbn [seg]. rewrite hsize_set_hptr, hptr_set by (rewrite <- E; apply load64_range). done.
Qed.
Lemma merge_right_shape : exists k R, merge_right bp bs L2 = (bp, k) :: R /\ bs <= k < bs + 2 ^ 31 /\ forall a n, (a, n) ∈ R -> (a, n) ∈ L2.
Proof.
  destruct Hsum as [Hs1 Hs2]. unfold merge_right. destruct L2 as [|[a n] L]; [exists bs, []; split; [done|]; split; [lia|done]|].
  destruct (Habove a n ltac:(left)). specialize (Hs2 a n ltac:(left)). case_match; eexists _, _; (split; [reflexivity|]); (split; [lia|]); [|done].
  intros a' n' Hin. by right.
Qed.

Lemma join_seg : seg (join_left (join_right m bp p) bp p) p (merge_left p s (merge_right bp bs L2)) base.
Proof.
  pose proof (join_right_same m bp p) as H1. pose proof join_right_seg as Hs1. destruct merge_right_shape as (k & R & ER & Hk & HR). rewrite ER in *.
  set (m1 := join_right m bp p) in *. pose proof (join_left_same m1 bp p) as H2. destruct Hseg as (_ & Es & _).
  assert (hsize m1 p = s) as Es1 by (rewrite (same_hsize _ _ _ _ H1); [done|]; intros x; unfold header, HDR in *; lia).
  destruct Hs1 as (_ & Ek & HsR). assert (forall m', same_but m1 m' (header p) -> seg m' (hptr m1 bp) R base) as HsR'.
  { intros m' H'. eapply seg_frame; [exact H'| |exact HsR]. intros a n z Hin Hz. destruct (Habove a n (HR a n Hin)). unfold header, HDR in *. lia. }
  specialize (HsR' _ H2). revert HsR' H2. unfold join_left, merge_left. rewrite Es1, Ek. destruct (Z.eqb_spec (p + HDR * s) bp) as [E|E]; intros HsR' H2.
  - set (m0 := set_hsize m1 p (u32 (s + k))) in *. assert (same_but m1 m0 (header p)) as H0 by apply same_set_hsize.
    assert (hptr m0 bp = hptr m1 bp) as Eb by (apply (same_hptr _ _ _ _ H0); intros x; unfold header, HDR in *; lia). rewrite Eb in *. cbn [seg].
    split; [done|]. rewrite hsize_set_hptr. unfold m0 at 1. rewrite hsize_set by (unfold u32; lia). split; [unfold u32; rewrite Z.mod_small; lia|].
    by rewrite hptr_set by (apply load64_range).
  - cbn [seg]. split; [done|]. rewrite hsize_set_hptr. split; [done|]. rewrite hptr_set by (unfold HDR in *; lia). split; [done|].
    rewrite (same_hsize _ _ _ _ H2), (same_hptr _ _ _ _ H2) by (intros x; unfold header, HDR in *; lia). done.
Qed.

Lemma merge_ordered e : e < p -> ordered e (merge_left p s (merge_right bp bs L2)).
Proof.
  intros He. assert (ordered (p + HDR * s) L2) as Ho by done. unfold merge_left, merge_right. destruct L2 as [|[a n] L].
  - case_match; cbn; unfold HDR in *; repeat split; lia.
  - destruct (Habove a n ltac:(left)). cbn [ordered] in Ho. destruct Ho as (H1 & H2 & H3).
    destruct (Z.eqb_spec (bp + HDR * bs) a) as [E|E]; destruct (Z.eqb_spec (p + HDR * s) bp) as [E'|E']; cbn [ordered]; repeat split; try (unfold HDR in *; lia); try done;
      eapply ordered_weaken; try exact H3; unfold HDR in *; lia.
Qed.

Lemma merge_elems a n : (a, n) ∈ merge_left p s (merge_right bp bs L2) -> (a, n) = (p, s) \/ (a, n) ∈ L2 \/
  (a = bp \/ a = p /\ 0 < s) /\ bs <= n /\ (a + HDR * n = bp + HDR * bs \/ exists b k, (b, k) ∈ L2 /\ a + HDR * n = b + HDR * k).
Proof.
  unfold merge_left, merge_right. destruct L2 as [|[b k] L].
  - case_match eqn:E; rewrite !elem_of_cons, elem_of_nil; intros H; destruct_or! H; try done; try (by left); injection H as -> ->; right; right;
      unfold HDR in *; zbool; (split; [lia|]); (split; [lia|]); left; lia.
  - destruct (Habove b k ltac:(left)). destruct (Z.eqb_spec (bp + HDR * bs) b); destruct (Z.eqb_spec (p + HDR * s) bp); rewrite !elem_of_cons; intros Hin;
      destruct_or! Hin; try (by left); try (right; left; by auto); injection Hin as -> ->; right; right; unfold HDR in *; (split; [lia|]); (split; [lia|]);
      first [left; lia|right; exists b, k; split; [left|lia]].
Qed.

(** One of the blocks is as large as the one that was put in. *)
Lemma merge_large : exists a n, (a, n) ∈ merge_left p s (merge_right bp bs L2) /\ bs <= n.
Proof.
  destruct merge_right_shape as (k & R & -> & Hk & _). cbn [merge_left]. case_match; eexists _, _; (split; [|shelve]); [left|right; left].
  Unshelve. all: lia.
Qed.

Lemma merge_inside x : inside (merge_left p s (merge_right bp bs L2)) x <-> inside ((p, s) :: L2) x \/ bp <= x < bp + HDR * bs.
Proof.
  unfold merge_left, merge_right. destruct L2 as [|[a n] L].
  - case_match eqn:E; rewrite !inside_cons, inside_nil; unfold HDR in *; zbool; lia.
  - destruct (Habove a n ltac:(left)). destruct (Z.eqb_spec (bp + HDR * bs) a); destruct (Z.eqb_spec (p + HDR * s) bp);
      rewrite !inside_cons; unfold HDR in *; split; intros [?|?]; try tauto; try lia; destruct_or?; try tauto; try lia.
Qed.
End join.

(** The free list of a process. *)
Record flist (base h0 : Z) (s : ust) (L : blocks) : Prop := {
  fl_range : 0 < base /\ base + HDR <= h0 <= u_brk s /\ u_brk s <= 2 ^ 35;
  fl_seg : seg (u_mem s) base ((base, 0) :: L) base;
  fl_ord : ordered base L;
  fl_in : forall a n, (a, n) ∈ L -> h0 <= a /\ 0 < n /\ a + HDR * n <= u_brk s;
  fl_freep : u_freep s ∈ base :: map fst L
}.

(** The headers of the list. *)
Definition headers (base : Z) (L : blocks) (x : Z) : Prop := exists a, a ∈ base :: map fst L /\ header a x.

(** A block to put into the list, and the block that the loop of [free] found. *)
Section placed.
Context (base h0 : Z) (s : ust) (L : blocks) (bp bs p sz : Z) (L1 L2 : blocks).
Hypothesis Hfl : flist base h0 s L.
Hypothesis Hblk : h0 <= bp /\ 0 < bs /\ bp + HDR * bs <= u_brk s.
Hypothesis Hsz : hsize (u_mem s) bp = bs.
Hypothesis Hout : forall x, bp <= x < bp + HDR * bs -> ~ inside L x.
Hypothesis EN : (base, 0) :: L = L1 ++ (p, sz) :: L2.
Hypothesis Hp : p < bp.
Hypothesis HL2 : forall a n, (a, n) ∈ L2 -> bp < a.

#[local] Set Default Proof Using "All".

Lemma placed_ordered : ordered (base - 1) (L1 ++ (p, sz) :: L2).
Proof. destruct Hfl as [_ _ Ho _ _]. rewrite <- EN. cbn. split; [lia|]. split; [lia|]. eapply ordered_weaken; [|exact Ho]. unfold HDR. lia. Qed.

Lemma placed_in b : b ∈ L1 ++ (p, sz) :: L2 -> b = (base, 0) \/ b ∈ L.
Proof. rewrite <- EN. by rewrite elem_of_cons. Qed.

Lemma placed_node : p = base /\ sz = 0 \/ (p, sz) ∈ L.
Proof. destruct (placed_in (p, sz)) as [H|H]; [set_solver +|injection H; by left|by right]. Qed.

Lemma placed_before : p + HDR <= bp /\ p + HDR * sz <= bp /\ 0 <= sz.
Proof.
  destruct Hfl as [Hr _ _ Hin _]. destruct placed_node as [[-> ->]|H]; [unfold HDR in *; lia|]. destruct (Hin _ _ H) as (_ & Hn & _).
  assert (~ bp < p + HDR * sz); [|unfold HDR in *; lia]. intros Hlt. apply (Hout bp); [unfold HDR in *; lia|]. exists p, sz. split; [done|lia].
Qed.

Lemma placed_after a n : (a, n) ∈ L2 -> (a, n) ∈ L /\ bp + HDR * bs <= a /\ 0 < n /\ a + HDR * n <= u_brk s.
Proof.
  destruct Hfl as [Hr _ _ Hin _]. intros Ha. pose proof (HL2 a n Ha) as Hlt. destruct (placed_in (a, n)) as [H|H]; [set_solver +Ha|injection H as -> ->; unfold HDR in *; lia|].
  split; [done|]. destruct (Hin _ _ H) as (_ & Hn & He). split; [|done]. assert (~ a < bp + HDR * bs); [|lia]. intros Hc. apply (Hout a); [lia|]. exists a, n.
  split; [done|unfold HDR; lia].
Qed.

Lemma placed_below a n : (a, n) ∈ L1 -> a + HDR <= p.
Proof.
  intros Ha. pose proof placed_ordered as HoN. pose proof (placed_in (a, n) ltac:(set_solver +Ha)) as Hm. destruct Hfl as [Hr _ _ Hin _].
  assert (a + HDR * n < p) as Hlt.
  { apply list_elem_of_split in Ha as (K1 & K2 & E). rewrite E, <- app_assoc in HoN. apply ordered_mid in HoN as (_ & _ & HoN). by apply ordered_mid in HoN as (? & _). }
  destruct Hm as [H|H]; [injection H as -> ->|destruct (Hin _ _ H); unfold HDR in *; lia].
  destruct placed_node as [[E _]|H']; [unfold HDR in *; lia|destruct (Hin _ _ H'); unfold HDR in *; lia].
Qed.

Definition placed : blocks := L1 ++ merge_left p sz (merge_right bp bs L2).
Definition placed_mem : mem := join_left (join_right (u_mem s) bp p) bp p.

Lemma placed_bounds : (0 < base < bp /\ bp + HDR * bs < 2 ^ 64) /\ (forall a n, (a, n) ∈ L2 -> bp + HDR * bs <= a /\ 0 < n) /\
  (sz + bs < 2 ^ 31 /\ forall a n, (a, n) ∈ L2 -> n < 2 ^ 31) /\ ordered (p + HDR * sz) L2.
Proof.
  destruct Hfl as [Hr _ _ Hin _]. pose proof placed_before as Hpp. split; [unfold HDR in *; lia|]. split; [intros a n Ha; destruct (placed_after a n Ha); lia|]. split.
  - split; [|intros a n Ha; destruct (placed_after a n Ha) as (_ & ? & ? & ?); unfold HDR in *; lia].
    destruct placed_node as [[-> ->]|H]; [|destruct (Hin _ _ H)]; unfold HDR in *; lia.
  - pose proof placed_ordered as HoN. by apply ordered_mid in HoN as (_ & _ & ?).
Qed.

Lemma placed_at : seg (u_mem s) base L1 p /\ seg (u_mem s) p ((p, sz) :: L2) base.
Proof. destruct Hfl as [_ Hs _ _ _]. rewrite EN in Hs. apply seg_app in Hs as (z & Hs1 & Hs2). pose proof Hs2 as (-> & _). done. Qed.

Lemma placed_bs : hsize (u_mem s) bp = bs /\ 0 < bs.
Proof. destruct Hblk as (_ & ? & _). done. Qed.

Lemma placed_same : same_but (u_mem s) placed_mem (fun x => header p x \/ header bp x).
Proof.
  eapply same_trans; [eapply same_weaken; [apply join_right_same|by right]|]. eapply same_weaken; [apply join_left_same|by left].
Qed.

Lemma placed_seg : seg placed_mem base placed base.
Proof.
  destruct placed_bounds as (B1 & B2 & B3 & B4). destruct placed_at as [Hs1 Hs2].
  apply seg_app. exists p. split; [|apply (join_seg _ _ _ _ _ _ _ B1 placed_bs placed_before Hs2 B4 B2 B3)].
  eapply seg_frame; [exact placed_same| |exact Hs1]. intros a n x Ha Hx. pose proof (placed_below a n Ha). unfold header, HDR in *. lia.
Qed.

Lemma placed_order : ordered (base - 1) placed.
Proof.
  destruct placed_bounds as (B1 & B2 & B3 & B4). pose proof placed_ordered as HoN. apply ordered_app in HoN as (H1 & H2 & H3 & H4). apply ordered_app. split; [done|].
  by apply (merge_ordered _ _ _ _ _ _ _ B1 placed_bs placed_before (proj2 placed_at) B4 B2 B3).
Qed.

Lemma placed_inside x : inside placed x <-> inside L x \/ bp <= x < bp + HDR * bs.
Proof.
  destruct placed_bounds as (B1 & B2 & B3 & B4). unfold placed. rewrite inside_app.
  rewrite (merge_inside _ _ _ _ _ _ _ B1 placed_bs placed_before (proj2 placed_at) B4 B2 B3).
  assert (inside L x <-> inside (L1 ++ (p, sz) :: L2) x) as ->; [|rewrite inside_app; tauto]. rewrite <- EN, inside_cons. unfold HDR. split; [by right|]. intros [?|?]; [lia|done].
Qed.

Lemma placed_elems a n : (a, n) ∈ placed -> (a, n) = (base, 0) \/ h0 <= a /\ 0 < n /\ a + HDR * n <= u_brk s.
Proof.
  destruct placed_bounds as (B1 & B2 & B3 & B4). destruct Hfl as [_ _ _ Hin _]. unfold placed. rewrite elem_of_app. intros [Ha|Ha].
  { destruct (placed_in (a, n)) as [?|Hi]; [set_solver +Ha|by left|right; by apply Hin]. }
  apply (merge_elems _ _ _ _ _ _ _ B1 placed_bs placed_before (proj2 placed_at) B4 B2 B3) in Ha as [E|[Ha|(Hsrc & Hn & He)]].
  - injection E as -> ->. destruct placed_node as [[-> ->]|Hi]; [by left|right; by apply Hin].
  - right. destruct (placed_after _ _ Ha) as (Hi & _). by apply Hin.
  - right. split; [|split; [lia|]].
    + destruct Hsrc as [->|[-> H0]]; [apply Hblk|]. destruct placed_node as [[_ ->]|Hi]; [lia|]. by destruct (Hin _ _ Hi).
    + destruct He as [->|(b & k & Hb & ->)]; [apply Hblk|]. by destruct (placed_after _ _ Hb) as (_ & _ & _ & ?).
Qed.

Lemma placed_large : exists a n, (a, n) ∈ placed /\ bs <= n.
Proof.
  destruct placed_bounds as (B1 & B2 & B3 & B4).
  destruct (merge_large _ _ _ _ _ _ _ B1 placed_bs placed_before (proj2 placed_at) B4 B2 B3) as (a & n & Ha & Hn). exists a, n. split; [|done].
  apply elem_of_app. by right.
Qed.

Lemma placed_length : (length placed <= S (S (length L)))%nat.
Proof.
  assert (length ((base, 0) :: L) = length (L1 ++ (p, sz) :: L2)) as E by (by rewrite EN). unfold placed. rewrite length_app in *. cbn in E.
  enough (length (merge_left p sz (merge_right bp bs L2)) <= S (S (length L2)))%nat by lia. unfold merge_left, merge_right. repeat case_match; simplify_eq; cbn; lia.
Qed.

(** The list still starts with [base], and [p] is in it. *)
Lemma placed_base : exists L', placed = (base, 0) :: L' /\ p ∈ base :: map fst L'.
Proof.
  destruct placed_bounds as (B1 & _). unfold placed. destruct L1 as [|[a n] L1'] eqn:E1.
  - cbn in EN. injection EN as <- <- _. exists (merge_right bp bs L2). split; [|left]. cbn [app]. unfold merge_right, merge_left.
    destruct L2 as [|[a n] K]; [|destruct (bp + HDR * bs =? a)]; destruct (Z.eqb_spec (base + HDR * 0) bp); try done; unfold HDR in *; lia.
  - cbn in EN. injection EN as <- <- _. exists (L1' ++ merge_left p sz (merge_right bp bs L2)). split; [done|]. right. rewrite map_app. apply elem_of_app. right. unfold merge_left.
    destruct (merge_right bp bs L2) as [|[b k] R]; [left|]. destruct (p + HDR * sz =? b); left.
Qed.
End placed.

(** [free] puts a block that is not in the list into it. *)
Lemma free_flist base h0 s L bp bs fuel : flist base h0 s L -> h0 <= bp /\ 0 < bs /\ bp + HDR * bs <= u_brk s -> hsize (u_mem s) bp = bs ->
  (forall x, bp <= x < bp + HDR * bs -> ~ inside L x) -> (2 * length L + 2 <= fuel)%nat ->
  exists m p L', free fuel (bp + HDR) s = Some (Ust m p (u_brk s)) /\ flist base h0 (Ust m p (u_brk s)) L' /\
    (forall x, inside L' x <-> inside L x \/ bp <= x < bp + HDR * bs) /\ (exists a n, (a, n) ∈ L' /\ bs <= n) /\
    same_but (u_mem s) m (fun x => headers base L x \/ header bp x) /\ (length L' <= S (length L))%nat.
Proof.
  intros Hfl Hblk Hsz Hout Hf. pose proof Hfl as [Hr Hs Ho Hin Hfp].
  destruct (free_find_ok (u_mem s) base bp L (u_freep s) fuel Hs Ho ltac:(unfold HDR in *; lia)) as (p & sz & L1 & L2 & Ef & EN & Hp & HL2); try done.
  { intros H. apply list_elem_of_fmap in H as ([a n] & -> & Ha). destruct (Hin _ _ Ha) as (_ & Hn & _). cbn in *. apply (Hout a); [unfold HDR in *; lia|]. exists a, n.
    split; [done|unfold HDR; lia]. }
  destruct (placed_base base h0 s L bp bs p sz L1 L2 Hfl Hblk Hsz Hout EN Hp HL2) as (L' & EL' & HpL').
  pose proof (placed_order base h0 s L bp bs p sz L1 L2 Hfl Hblk Hsz Hout EN Hp HL2) as HoN. rewrite EL' in HoN. destruct HoN as (_ & _ & HoL').
  exists (placed_mem s bp p), p, L'. split.
  { unfold free. replace (bp + HDR - HDR) with bp by lia. rewrite Ef. done. }
  split; [split; cbn [u_mem u_freep u_brk]; try done|split; [|split; [|split]]].
  - rewrite <- EL'. by eapply placed_seg.
  - eapply ordered_weaken; [|exact HoL']. unfold HDR. lia.
  - intros a n Ha. assert ((a, n) ∈ placed bp bs p sz L1 L2) as Ha' by (rewrite EL'; by right). eapply placed_elems in Ha' as [E|H]; try done. injection E as -> ->.
    destruct (ordered_in _ _ _ _ HoL' Ha). unfold HDR in *. lia.
  - intros x. rewrite <- (placed_inside base h0 s L bp bs p sz L1 L2) by done. rewrite EL', inside_cons. unfold HDR. split; [tauto|intros [?|?]; [lia|done]].
  - destruct (placed_large base h0 s L bp bs p sz L1 L2) as (a & n & Ha & Hn); try done. rewrite EL' in Ha. apply elem_of_cons in Ha as [E|Ha]; [|by exists a, n].
    injection E as -> ->. lia.
  - eapply same_weaken; [by eapply placed_same|]. intros x [H|H]; [left|by right]. exists p. split; [|done].
    destruct (placed_node base h0 s L bp bs p sz L1 L2) as [[-> _]|Hpl]; try done; [left|]. right. apply list_elem_of_fmap. by exists (p, sz).
  - pose proof (placed_length base h0 s L bp bs p sz L1 L2 Hfl Hblk Hsz Hout EN Hp HL2) as Hlen. rewrite EL' in Hlen. cbn in Hlen. lia.
Qed.
