(* ===== verification/UmallocSpec.v ===== *)
(** * What the allocator of umalloc.c promises

    The heap is split into free blocks and the blocks that the program holds;
    [malloc] and [free] move bytes between the two, and touch no byte of a block
    that is held. *)

From S2P Require Import Prelude Mem Umalloc.

(** ** The search of [malloc] *)

Definition last_addr (q : Z) (S : blocks) : Z := match last S with Some (a, _) => a | None => q end.

Lemma last_addr_cons q a n S : last_addr q ((a, n) :: S) = last_addr a S.
Proof. unfold last_addr. rewrite last_cons. by destruct (last S) as [[]|]. Qed.

Lemma malloc_loop_S grants f nunits q p s : malloc_loop grants (S f) nunits q p s =
  if nunits <=? hsize (u_mem s) p then
    let '(m, p') := take_block (u_mem s) nunits q p in Some (set_u_freep q (set_u_mem m s), p' + HDR)
  else if p =? u_freep s then
    '(s, p) ← morecore grants f nunits s;
    if p =? 0 then Some (s, 0) else malloc_loop grants f nunits p (hptr (u_mem s) p) s
  else malloc_loop grants f nunits p (hptr (u_mem s) p) s.
Proof. done. Qed.

(** Blocks that are too small are passed over. *)
Lemma malloc_walk grants nunits s f y S : forall q x, seg (u_mem s) x S y -> (forall a n, (a, n) ∈ S -> n < nunits /\ a <> u_freep s) ->
  malloc_loop grants (length S + f) nunits q x s = malloc_loop grants f nunits (last_addr q S) y s.
Proof.
  induction S as [|[a n] S IH]; intros q x Hs Hsm; [by cbn in Hs; subst y|]. destruct Hs as (-> & Hn & Hs). cbn [length Nat.add]. rewrite malloc_loop_S, last_addr_cons.
  destruct (Hsm a n ltac:(left)) as [H1 H2]. rewrite Hn. zdec; try lia. apply IH; [done|]. intros a' n' H'. apply (Hsm a' n'). by right.
Qed.

Lemma seg_last m q K y : seg m (hptr m q) K y -> hptr m (last_addr q K) = y.
Proof. revert q. induction K as [|[a n] K IH]; intros q; [done|]. rewrite last_addr_cons. cbn [seg]. intros (_ & _ & Hs). by apply IH. Qed.

Lemma first_fit nunits (S : blocks) : (forall a n, (a, n) ∈ S -> n < nunits) \/ exists K1 p n K2, S = K1 ++ (p, n) :: K2 /\ nunits <= n /\ forall a n, (a, n) ∈ K1 -> n < nunits.
Proof.
  induction S as [|[a n] S IH]; [left; by intros ? ? ?%elem_of_nil|]. destruct (Z.le_gt_cases nunits n) as [H|H].
  - right. exists [], a, n, S. split; [done|]. split; [done|]. by intros ? ? ?%elem_of_nil.
  - destruct IH as [IH|(K1 & p & k & K2 & -> & Hk & HK)].
    + left. intros a' n' [E|Hin]%elem_of_cons; [injection E as -> ->; lia|by eapply IH].
    + right. exists ((a, n) :: K1), p, k, K2. split; [done|]. split; [done|]. intros a' n' [E|Hin]%elem_of_cons; [injection E as -> ->; lia|by eapply HK].
Qed.

Section search.
Context (base h0 : Z) (s : ust) (L : blocks) (Hfl : flist base h0 s L).

#[local] Set Default Proof Using "All".

Lemma nodes_ordered : ordered (base - 1) ((base, 0) :: L).
Proof. destruct Hfl as [_ _ Ho _ _]. cbn. split; [lia|]. split; [lia|]. eapply ordered_weaken; [|exact Ho]. unfold HDR. lia. Qed.

(** The list as it is seen from [freep]. *)
Lemma rotated : exists M1 sf M2, (base, 0) :: L = M1 ++ (u_freep s, sf) :: M2 /\ hsize (u_mem s) (u_freep s) = sf /\
  seg (u_mem s) (hptr (u_mem s) (u_freep s)) (M2 ++ M1) (u_freep s) /\ (forall a n, (a, n) ∈ M2 ++ M1 -> a <> u_freep s) /\ (length (M2 ++ M1) = length L)%nat.
Proof.
  pose proof nodes_ordered as HoN. destruct Hfl as [_ Hs _ _ Hfp]. assert (u_freep s ∈ map fst ((base, 0) :: L)) as H by done.
  apply list_elem_of_fmap in H as ([f sf] & Ef & Hin). cbn in Ef. apply list_elem_of_split in Hin as (M1 & M2 & E). rewrite E in Hs, HoN. rewrite Ef.
  exists M1, sf, M2. split; [done|]. apply seg_app in Hs as (z & Hs1 & -> & Hn & Hs2). split; [done|]. split; [apply seg_app; eauto|]. split.
  - intros a n [Ha|Ha]%elem_of_app ->.
    + apply ordered_mid in HoN as (_ & Hsf & HoN). destruct (ordered_in _ _ _ _ HoN Ha). unfold HDR in *. lia.
    + apply list_elem_of_split in Ha as (K1 & K2 & ->). rewrite <- app_assoc in HoN. apply ordered_mid in HoN as (_ & Hk & HoN).
      apply ordered_mid in HoN as (? & _). unfold HDR in *. lia.
  - assert (length ((base, 0) :: L) = length (M1 ++ (f, sf) :: M2)) as El by (by rewrite E). rewrite length_app in *. cbn in El. lia.
Qed.

(** A node that follows another, and is not [base], is next to it in the list. *)
Lemma after_node q p n : q ∈ base :: map fst L -> hptr (u_mem s) q = p -> p <> base -> hsize (u_mem s) p = n ->
  exists P1 sq P2, (base, 0) :: L = P1 ++ (q, sq) :: (p, n) :: P2.
Proof.
  intros Hq Ep Hne En. assert (q ∈ map fst ((base, 0) :: L)) as H by done. apply list_elem_of_fmap in H as ([q' sq] & Eq & Hin). cbn in Eq. subst q'.
  apply list_elem_of_split in Hin as (P1 & P2 & E). destruct Hfl as [_ Hs _ _ _]. rewrite E in Hs. apply seg_app in Hs as (z & _ & -> & _ & Hs).
  rewrite Ep in Hs. destruct P2 as [|[b k] P2]; [by cbn in Hs|]. destruct Hs as (-> & Hk & _). exists P1, sq, P2. rewrite E. congruence.
Qed.

(** Either a block is found, with the one before it, or none is large enough. *)
Lemma search grants nunits : 0 < nunits ->
  (exists P1 q sq p n P2 d, (base, 0) :: L = P1 ++ (q, sq) :: (p, n) :: P2 /\ nunits <= n /\ (d <= length L)%nat /\
     forall f, malloc_loop grants (d + f) nunits (u_freep s) (hptr (u_mem s) (u_freep s)) s = malloc_loop grants f nunits q p s) \/
  (forall a n, (a, n) ∈ L -> n < nunits) /\
    exists q, forall f, malloc_loop grants (length L + f) nunits (u_freep s) (hptr (u_mem s) (u_freep s)) s = malloc_loop grants f nunits q (u_freep s) s.
Proof.
  intros Hpos. destruct rotated as (M1 & sf & M2 & E & Esf & Hs & Hne & Hlen).
  assert (forall b, b ∈ M2 ++ M1 -> b ∈ (base, 0) :: L) as Hsub by (intros b Hb; rewrite E; set_solver +Hb).
  assert (forall K1 K2, M2 ++ M1 = K1 ++ K2 -> last_addr (u_freep s) K1 ∈ base :: map fst L) as Hlast.
  { intros K1 K2 EK. unfold last_addr. destruct (last K1) as [[a n]|] eqn:El; [|apply Hfl]. change (base :: map fst L) with (map fst ((base, 0) :: L)).
    apply list_elem_of_fmap. exists (a, n). split; [done|]. apply Hsub. rewrite EK. apply elem_of_app. left. apply last_Some in El as (l & ->). set_solver +. }
  assert (forall K1 p n K2, M2 ++ M1 = K1 ++ K2 -> seg (u_mem s) (hptr (u_mem s) (u_freep s)) K1 p -> hsize (u_mem s) p = n -> nunits <= n ->
    exists P1 sq P2, (base, 0) :: L = P1 ++ (last_addr (u_freep s) K1, sq) :: (p, n) :: P2) as Hfound.
  { intros K1 p n K2 EK HsK Hn Hle. apply after_node; [by eapply Hlast|by apply seg_last| |done]. intros ->. destruct Hfl as [_ (_ & H0 & _) _ _ _]. lia. }
  destruct (first_fit nunits (M2 ++ M1)) as [Hall|(K1 & p & n & K2 & EK & Hn & HK1)].
  - destruct (Z.le_gt_cases nunits sf) as [Hsf|Hsf].
    + left. destruct (Hfound (M2 ++ M1) (u_freep s) sf [] ltac:(by rewrite app_nil_r) Hs Esf Hsf) as (P1 & sq & P2 & EP).
      exists P1, (last_addr (u_freep s) (M2 ++ M1)), sq, (u_freep s), sf, P2, (length L). split; [done|]. split; [done|]. split; [done|].
      intros f. rewrite <- Hlen. apply malloc_walk; [done|]. eauto.
    + right. split; [|exists (last_addr (u_freep s) (M2 ++ M1)); intros f; rewrite <- Hlen; apply malloc_walk; eauto].
      intros a n Ha. assert ((a, n) ∈ M1 ++ (u_freep s, sf) :: M2) as Ha' by (rewrite <- E; by right). apply elem_of_app in Ha' as [Ha'|Ha'].
      * apply (Hall a). set_solver +Ha'.
      * apply elem_of_cons in Ha' as [Ea|Ha']; [injection Ea as _ ->; lia|]. apply (Hall a). set_solver +Ha'.
  - left. pose proof Hs as Hs'. rewrite EK in Hs'. apply seg_app in Hs' as (z & HsK & -> & Hsz & _).
    destruct (Hfound K1 p n ((p, n) :: K2) EK HsK Hsz Hn) as (P1 & sq & P2 & EP).
    exists P1, (last_addr (u_freep s) K1), sq, p, n, P2, (length K1). split; [done|]. split; [done|].
    split; [rewrite <- Hlen, EK, length_app; lia|]. intros f. apply malloc_walk; [done|]. intros a k Ha. split; [by eapply HK1|]. apply (Hne a k). rewrite EK. set_solver +Ha.
Qed.
End search.

(** ** Taking a block *)

Section take.
Context (base h0 : Z) (s : ust) (L P1 : blocks) (q sq p n : Z) (P2 : blocks) (nunits : Z).
Hypothesis Hfl : flist base h0 s L.
Hypothesis EN : (base, 0) :: L = P1 ++ (q, sq) :: (p, n) :: P2.
Hypothesis Hn : 0 < nunits <= n.

#[local] Set Default Proof Using "All".

(** The headers of two blocks of the list do not overlap. *)
Lemma nodes_gap X a k Y b j Z : (base, 0) :: L = X ++ (a, k) :: Y ++ (b, j) :: Z -> a + HDR <= b /\ a + HDR * k < b /\ h0 <= b.
Proof.
  intros E. pose proof (nodes_ordered _ _ _ _ Hfl) as HoN. destruct Hfl as [Hr _ _ Hin _]. rewrite E in HoN. apply ordered_mid in HoN as (Ha & Hk & HoN).
  apply ordered_mid in HoN as (Hb & _). assert ((a, k) ∈ (base, 0) :: L) as Ha' by (rewrite E; set_solver +).
  assert ((b, j) ∈ (base, 0) :: L) as Hb' by (rewrite E; set_solver +). apply elem_of_cons in Ha', Hb'.
  assert (base <= a) by (destruct Ha' as [H|H]; [injection H as -> _; lia|destruct (Hin _ _ H); unfold HDR in *; lia]).
  assert (h0 <= b) as Hb0 by (destruct Hb' as [H'|H']; [injection H' as -> ->; unfold HDR in *; lia|by destruct (Hin _ _ H')]).
  split; [|done]. destruct Ha' as [H'|H']; [injection H' as -> ->; unfold HDR in *; lia|destruct (Hin _ _ H') as (_ & ? & _); unfold HDR in *; lia].
Qed.

Lemma take_block_in : (p, n) ∈ L.
Proof. assert ((p, n) ∈ (base, 0) :: L) as H by (rewrite EN; set_solver +). apply elem_of_cons in H as [H|H]; [injection H as -> ->; lia|done]. Qed.

Lemma take_split : exists K, (base, 0) :: K = P1 ++ [(q, sq)] /\ L = K ++ (p, n) :: P2 /\ q ∈ base :: map fst K.
Proof.
  assert (P1 ++ (q, sq) :: (p, n) :: P2 = (P1 ++ [(q, sq)]) ++ (p, n) :: P2) as E' by (by rewrite <- app_assoc). rewrite E' in EN.
  destruct (P1 ++ [(q, sq)]) as [|b K] eqn:E; [by destruct P1|]. cbn [app] in EN. injection EN as <- EL. exists K. split; [done|]. split; [done|].
  change (base :: map fst K) with (map fst ((base, 0) :: K)). rewrite <- E, map_app. apply elem_of_app. right. left.
Qed.

Lemma take_pre x : (exists k, (x, k) ∈ P1 ++ [(q, sq)]) -> x + HDR <= p.
Proof.
  intros (k & Hx). apply list_elem_of_split in Hx as (X & Y & E). apply (nodes_gap X x k Y p n P2). rewrite EN. 
  change ((q, sq) :: (p, n) :: P2) with ([(q, sq)] ++ (p, n) :: P2). rewrite app_assoc, E, <- app_assoc. done.
Qed.

Lemma take_pre_q x k : (x, k) ∈ P1 -> x + HDR <= q.
Proof. intros Hx. apply list_elem_of_split in Hx as (X & Y & E). apply (nodes_gap X x k Y q sq ((p, n) :: P2)). by rewrite EN, E, <- app_assoc. Qed.

Lemma take_post x k : (x, k) ∈ P2 -> p + HDR * n < x /\ q + HDR <= x.
Proof.
  intros Hx. apply list_elem_of_split in Hx as (X & Y & E). split.
  - apply (nodes_gap (P1 ++ [(q, sq)]) p n X x k Y). rewrite EN, E, <- app_assoc. done.
  - apply (nodes_gap P1 q sq ((p, n) :: X) x k Y). rewrite EN, E. done.
Qed.

Lemma take_segs : seg (u_mem s) base P1 q /\ hsize (u_mem s) q = sq /\ hptr (u_mem s) q = p /\ hsize (u_mem s) p = n /\ seg (u_mem s) (hptr (u_mem s) p) P2 base.
Proof. destruct Hfl as [_ Hs _ _ _]. rewrite EN in Hs. apply seg_app in Hs as (z & Hs1 & -> & Hsq & Eqp & Hsp & Hs2). done. Qed.

(** The whole block. *)
Lemma take_whole : n = nunits -> let m := set_hptr (u_mem s) q (hptr (u_mem s) p) in
  seg m base (P1 ++ (q, sq) :: P2) base /\ hsize m p = nunits /\ same_but (u_mem s) m (header q).
Proof.
  intros En m. destruct take_segs as (H1 & H2 & H3 & H4 & H5). assert (same_but (u_mem s) m (header q)) as Hsame by apply same_set_hptr.
  pose proof (take_pre q ltac:(exists sq; set_solver +)). split; [|split; [|done]].
  - apply seg_app. exists q. split; [eapply seg_frame; [exact Hsame| |exact H1]; intros a k z Ha; pose proof (take_pre_q a k Ha); unfold header, HDR in *; lia|].
    cbn [seg]. split; [done|]. unfold m at 1 3. rewrite hsize_set_hptr, hptr_set by apply load64_range. split; [done|].
    eapply seg_frame; [exact Hsame| |exact H5]. intros a k z Ha. pose proof (take_post a k Ha). unfold header, HDR in *. lia.
  - rewrite (same_hsize _ _ _ _ Hsame) by (intros x; unfold header, HDR in *; lia). lia.
Qed.

(** The tail of a larger block. *)
Lemma take_tail : nunits < n -> let b := p + HDR * (n - nunits) in let m := set_hsize (set_hsize (u_mem s) p (n - nunits)) b nunits in
  seg m base (P1 ++ (q, sq) :: (p, n - nunits) :: P2) base /\ hsize m b = nunits /\ same_but (u_mem s) m (fun x => header p x \/ header b x).
Proof.
  intros En b m. destruct take_segs as (H1 & H2 & H3 & H4 & H5). pose proof (load32_range (u_mem s) (p + 8)) as Hrange. fold (hsize (u_mem s) p) in Hrange.
  assert (same_but (u_mem s) m (fun x => header p x \/ header b x)) as Hsame.
  { eapply same_trans; [eapply same_weaken; [apply same_set_hsize|by left]|eapply same_weaken; [apply same_set_hsize|by right]]. }
  pose proof (take_pre q ltac:(exists sq; set_solver +)). split; [|split; [apply hsize_set; lia|done]].
  apply seg_app. exists q. split.
  { eapply seg_frame; [exact Hsame| |exact H1]. intros a k z Ha. pose proof (take_pre_q a k Ha). unfold header, b, HDR in *. lia. }
  cbn [seg]. split; [done|]. rewrite (same_hsize _ _ _ q Hsame), (same_hptr _ _ _ q Hsame) by (intros x; unfold header, b, HDR in *; lia). split; [done|]. split; [done|].
  assert (same_but (set_hsize (u_mem s) p (n - nunits)) m (header b)) as Hb by apply same_set_hsize.
  rewrite (same_hsize _ _ _ p Hb), (same_hptr _ _ _ p Hb) by (intros x; unfold header, b, HDR in *; lia). rewrite hsize_set, hptr_set_hsize by lia. split; [done|].
  eapply seg_frame; [exact Hsame| |exact H5]. intros a k z Ha. pose proof (take_post a k Ha). unfold header, b, HDR in *. lia.
Qed.
(** What is left of the list, [R] in place of the block, is a list again. *)
Lemma take_left m R K : (base, 0) :: K = P1 ++ [(q, sq)] -> L = K ++ (p, n) :: P2 -> q ∈ base :: map fst K ->
  seg m base (P1 ++ (q, sq) :: R ++ P2) base -> (R = [] \/ R = [(p, n - nunits)] /\ nunits < n) -> flist base h0 (Ust m q (u_brk s)) (K ++ R ++ P2).
Proof.
  intros EK EL Hq Hs HR. destruct Hfl as [Hr _ Ho Hin _]. rewrite EL in Ho. apply ordered_app in Ho as (Ho1 & Ho2 & _ & Ho3). split; cbn [u_mem u_freep u_brk]; [done| | | |].
  - change ((base, 0) :: K ++ R ++ P2) with (((base, 0) :: K) ++ R ++ P2). by rewrite EK, <- app_assoc.
  - apply ordered_app. split; [done|]. destruct HR as [->|[-> Hlt]]; cbn [app ordered].
    + eapply ordered_weaken; [|exact Ho3]. unfold HDR in *. lia.
    + split; [done|]. split; [lia|]. eapply ordered_weaken; [|exact Ho3]. unfold HDR. lia.
  - intros a k Ha. assert ((a, k) ∈ L \/ a = p /\ k = n - nunits /\ nunits < n) as [H|(-> & -> & Hlt)].
    { rewrite EL. destruct HR as [->|[-> Hlt]]; [left; set_solver +Ha|]. rewrite !elem_of_app, elem_of_cons, elem_of_nil in Ha.
      destruct_or! Ha; try done; [left; set_solver +Ha|injection Ha as -> ->; by right|left; set_solver +Ha]. }
    + by apply Hin.
    + destruct (Hin _ _ take_block_in) as (? & ? & ?). unfold HDR in *. lia.
  - rewrite map_app. set_solver +Hq.
Qed.

Lemma take_flist : exists m b L', take_block (u_mem s) nunits q p = (m, b) /\ flist base h0 (Ust m q (u_brk s)) L' /\ hsize m b = nunits /\
  h0 <= b /\ b + HDR * nunits <= u_brk s /\ (forall x, inside L x <-> inside L' x \/ b <= x < b + HDR * nunits) /\
  (forall x, b <= x < b + HDR * nunits -> ~ inside L' x) /\ same_but (u_mem s) m (fun x => headers base L x \/ header b x).
Proof.
  destruct take_split as (K & EK & EL & Hq). pose proof take_block_in as HpL. destruct take_segs as (_ & _ & _ & Hsz & _). pose proof Hfl as [Hr _ _ Hin _].
  destruct (Hin _ _ HpL) as (Hp0 & _ & Hp1).
  assert (forall x, p <= x < p + HDR * n -> ~ inside (K ++ P2) x) as Hapart.
  { intros x Hx (a & k & Ha & Hax). apply elem_of_app in Ha as [Ha|Ha].
    - apply list_elem_of_split in Ha as (X & Y & E). destruct (nodes_gap ((base, 0) :: X) a k Y p n P2) as (_ & ? & _); [by rewrite EL, E, <- app_assoc|]. lia.
    - destruct (take_post a k Ha). lia. }
  unfold take_block. rewrite Hsz. destruct (Z.eqb_spec n nunits) as [En|En].
  - destruct (take_whole En) as (Hs & Hb & Hsame). eexists _, _, (K ++ [] ++ P2). split; [reflexivity|]. split; [apply (take_left _ [] K); auto|]. split; [done|].
    split; [done|]. split; [lia|]. split; [|split].
    + intros x. rewrite EL. cbn [app]. rewrite !inside_app, inside_cons. rewrite En. tauto.
    + intros x Hx. cbn [app]. apply Hapart. lia.
    + eapply same_weaken; [exact Hsame|]. intros x Hx. left. exists q. split; [|done]. rewrite EL, map_app. set_solver +Hq.
  - assert (nunits < n) as Hlt by lia. destruct (take_tail Hlt) as (Hs & Hb & Hsame). pose proof (load32_range (u_mem s) (p + 8)) as Hrange. fold (hsize (u_mem s) p) in Hrange.
    rewrite hsize_set by lia. eexists _, _, (K ++ [(p, n - nunits)] ++ P2). split; [reflexivity|]. split; [apply (take_left _ [(p, n - nunits)] K); auto|].
    split; [done|]. split; [unfold HDR in *; lia|]. split; [unfold HDR in *; lia|]. split; [|split].
    + intros x. rewrite EL. cbn [app]. rewrite !inside_app, !inside_cons. unfold HDR in *. split; intros Hx; destruct_or! Hx; try tauto; [|lia..]. 
      destruct (Z.lt_ge_cases x (p + 16 * (n - nunits))); [left; right; left; lia|right; lia].
    + intros x Hx Hi. cbn [app] in Hi. apply inside_app in Hi. rewrite inside_cons in Hi. apply (Hapart x); [unfold HDR in *; lia|]. rewrite inside_app. unfold HDR in *.
      destruct_or! Hi; [by left|lia|by right].
    + eapply same_weaken; [exact Hsame|]. intros x [Hx|Hx]; [left|by right]. exists p. split; [|done]. right. apply list_elem_of_fmap. by exists (p, n).
Qed.
End take.

(** ** The heap *)

Definition held (A : gmap Z Z) (x : Z) : Prop := exists a n, A !! a = Some n /\ a <= x < a + HDR * n.

(** The state that [malloc] works on: the first call sets up the list. *)
Definition started (base : Z) (s : ust) : ust :=
  if u_freep s =? 0 then set_u_freep base (set_u_mem (set_hsize (set_hptr (u_mem s) base base) base 0) s) else s.

(** From [h0] to the end of the process every byte is either in one of the free
    blocks [L] or in one of the blocks [A], by address and size, that the program
    holds. *)
Record heap (base h0 : Z) (s : ust) (L : blocks) (A : gmap Z Z) : Prop := {
  hp_list : flist base h0 (started base s) L;
  hp_start : A <> ∅ -> u_freep s <> 0;
  hp_held : forall a n, A !! a = Some n -> h0 <= a /\ 0 < n /\ a + HDR * n <= u_brk s /\ hsize (u_mem s) a = n;
  hp_disj : forall a n b k, A !! a = Some n -> A !! b = Some k -> a <> b -> a + HDR * n <= b \/ b + HDR * k <= a;
  hp_apart : forall x, held A x -> ~ inside L x;
  hp_cover : forall x, h0 <= x < u_brk s -> inside L x \/ held A x
}.

(** The bytes that the program holds are as they were. *)
Definition keeps (A : gmap Z Z) (s s' : ust) : Prop := forall x, held A x -> load8 (u_mem s') x = load8 (u_mem s) x.

Lemma started_id base s : u_freep s <> 0 -> started base s = s.
Proof. intros H. unfold started. by destruct (Z.eqb_spec (u_freep s) 0). Qed.

Lemma started_brk base s : u_brk (started base s) = u_brk s.
Proof. unfold started. by case_match. Qed.

Lemma started_freep base h0 s L : flist base h0 (started base s) L -> u_freep (started base s) <> 0.
Proof.
  intros [Hr _ _ Hin Hfp]. apply elem_of_cons in Hfp as [->|Hfp]; [lia|]. apply list_elem_of_fmap in Hfp as ([a n] & -> & Ha). destruct (Hin _ _ Ha).
  cbn. unfold HDR in *. lia.
Qed.

Lemma started_same base s : same_but (u_mem s) (u_mem (started base s)) (header base).
Proof. unfold started. case_match; [|done]. eapply same_trans; [apply same_set_hptr|apply same_set_hsize]. Qed.

(** No header of the list is in a block that is held. *)
Lemma held_headers base h0 s L A x : heap base h0 s L A -> held A x -> ~ headers base L x.
Proof.
  intros [Hl _ Hheld _ Hap _] Hx (a & Ha & Hh). pose proof Hx as (b & k & Hb & Hbx). destruct (Hheld _ _ Hb) as (Hb0 & _). destruct Hl as [Hr _ _ Hin _].
  apply elem_of_cons in Ha as [->|Ha]; [unfold header in *; lia|]. apply list_elem_of_fmap in Ha as ([c n] & -> & Hc). destruct (Hin _ _ Hc) as (_ & Hn & _).
  apply (Hap x Hx). exists c, n. split; [done|]. unfold header, HDR in *. cbn in Hh. lia.
Qed.

Lemma heap_started base h0 s L A : heap base h0 s L A -> heap base h0 (started base s) L A /\ keeps A s (started base s).
Proof.
  intros Hh. pose proof Hh as [Hl Hs Hheld Hd Hap Hc]. pose proof (started_freep _ _ _ _ Hl) as Hf. pose proof (started_same base s) as Hsame.
  assert (forall a n x, A !! a = Some n -> header a x -> ~ header base x) as Hhd.
  { intros a n x Ha Hx Hb. destruct (Hheld _ _ Ha) as (? & _). destruct Hl as [Hr _ _ _ _]. unfold header in *. lia. }
  split.
  - split; rewrite ?started_brk; try done.
    + by rewrite (started_id base (started base s)).
    + intros a n Ha. destruct (Hheld _ _ Ha) as (? & ? & ? & Hsz). rewrite (same_hsize _ _ _ _ Hsame); [done|]. intros x. by apply (Hhd a n).
  - intros x Hx. apply Hsame. intros Hb. destruct Hx as (a & n & Ha & Hx). destruct (Hheld _ _ Ha) as (? & _). destruct Hl as [Hr _ _ _ _]. unfold header in *. lia.
Qed.

Lemma held_delete A a n x : A !! a = Some n -> (held A x <-> a <= x < a + HDR * n \/ held (delete a A) x).
Proof.
  intros Ha. split.
  - intros (b & k & Hb & Hx). destruct (decide (b = a)) as [->|Hne]; [left; by simplify_eq|]. right. exists b, k. by rewrite lookup_delete_ne.
  - intros [Hx|(b & k & Hb & Hx)]; [by exists a, n|]. apply lookup_delete_Some in Hb as [_ Hb]. by exists b, k.
Qed.

Lemma flist_freep base h0 s L : flist base h0 s L -> u_freep s <> 0.
Proof.
  intros [Hr _ _ Hin Hfp]. apply elem_of_cons in Hfp as [->|Hfp]; [lia|]. apply list_elem_of_fmap in Hfp as ([a n] & -> & Ha). destruct (Hin _ _ Ha).
  cbn. unfold HDR in *. lia.
Qed.

Lemma free_heap base h0 s L A a n fuel : heap base h0 s L A -> A !! a = Some n -> (2 * length L + 2 <= fuel)%nat ->
  exists s' L', free fuel (a + HDR) s = Some s' /\ heap base h0 s' L' (delete a A) /\ keeps (delete a A) s s' /\ u_brk s' = u_brk s /\
    (forall x, inside L' x <-> inside L x \/ a <= x < a + HDR * n).
Proof.
  intros Hh Ha Hf. pose proof Hh as [Hl Hs Hheld Hd Hap Hc]. destruct (Hheld _ _ Ha) as (Ha0 & Hn & Hae & Hsz).
  rewrite started_id in Hl by (apply Hs; intros ->; by rewrite lookup_empty in Ha).
  destruct (free_flist base h0 s L a n fuel Hl) as (m & p & L' & Ef & Hl' & Hin' & _ & Hsame & _); try done.
  { intros x Hx. apply Hap. by exists a, n. }
  exists (Ust m p (u_brk s)), L'. split; [done|]. assert (forall x, held (delete a A) x -> held A x /\ ~ a <= x < a + HDR * n) as Hdel.
  { intros x Hx. split; [apply (held_delete A a n x Ha); by right|]. destruct Hx as (b & k & Hb & Hx). apply lookup_delete_Some in Hb as [Hne Hb].
    destruct (Hd _ _ _ _ Ha Hb Hne); lia. }
  assert (forall x, held (delete a A) x -> load8 m x = load8 (u_mem s) x) as Hkeep.
  { intros x Hx. destruct (Hdel x Hx) as [Hx1 Hx2]. apply Hsame. intros [H|H]; [by eapply held_headers in H|]. apply Hx2. unfold header, HDR in *. lia. }
  split; [|done]. split; cbn [u_mem u_freep u_brk].
  - by rewrite started_id by apply (flist_freep _ _ _ _ Hl').
  - intros _. apply (flist_freep _ _ _ _ Hl').
  - intros b k Hb. pose proof Hb as Hb'. apply lookup_delete_Some in Hb' as [_ Hb']. destruct (Hheld _ _ Hb') as (? & ? & ? & <-). split; [done|]. split; [done|]. split; [done|].
    apply loadn_ext. intros x Hx. apply Hkeep. exists b, (hsize (u_mem s) b). split; [done|]. unfold HDR. lia.
  - intros b k c j Hb Hc'. apply lookup_delete_Some in Hb as [_ Hb]. apply lookup_delete_Some in Hc' as [_ Hc']. by apply Hd.
  - intros x Hx. destruct (Hdel x Hx) as [Hx1 Hx2]. rewrite Hin'. intros [H|H]; [by eapply Hap in H|done].
  - intros x Hx. rewrite Hin'. destruct (Hc x Hx) as [H|H]; [tauto|]. apply (held_delete A a n x Ha) in H. tauto.
Qed.

(** ** More memory *)

Lemma flist_grow base h0 s L m b : flist base h0 s L -> u_brk s <= b <= 2 ^ 35 -> same_but (u_mem s) m (fun x => u_brk s <= x) -> flist base h0 (Ust m (u_freep s) b) L.
Proof.
  intros [Hr Hs Ho Hin Hfp] Hb Hsame. split; cbn [u_mem u_freep u_brk]; try done; [lia| |].
  - eapply seg_frame; [exact Hsame| |exact Hs]. intros a n z Ha Hz. apply elem_of_cons in Ha as [E|Ha]; [injection E as -> ->; unfold header in *; lia|].
    destruct (Hin _ _ Ha) as (? & ? & ?). unfold header, HDR in *. lia.
  - intros a n Ha. destruct (Hin _ _ Ha) as (? & ? & ?). lia.
Qed.

Lemma units_bounds nbytes : 0 <= nbytes <= 2 ^ 31 - 32 -> 0 < units nbytes /\ units nbytes * HDR < 2 ^ 31 /\ u32 (units nbytes) = units nbytes /\ nbytes <= HDR * (units nbytes - 1).
Proof. intros H. unfold units, HDR, u32. rewrite Z.mod_small; lia. Qed.

Section grants.
Context (grants : Z -> bool) (Hmem : forall b, grants b = true -> b <= 2 ^ 35).

#[local] Set Default Proof Using "All".

Definition wanted (nunits : Z) : Z := if nunits <? 4096 then 4096 else nunits.

(** The heap has grown by one free block, or the kernel has refused. *)
Lemma morecore_ok base h0 s L nunits fuel : flist base h0 s L -> 0 < nunits -> nunits * HDR < 2 ^ 31 -> (2 * length L + 2 <= fuel)%nat ->
  let nu := wanted nunits in
  if grants (u_brk s + nu * HDR) then
    exists m p L', morecore grants fuel nunits s = Some (Ust m p (u_brk s + nu * HDR), p) /\ flist base h0 (Ust m p (u_brk s + nu * HDR)) L' /\
      (forall x, inside L' x <-> inside L x \/ u_brk s <= x < u_brk s + nu * HDR) /\ (exists a n, (a, n) ∈ L' /\ nunits <= n) /\
      same_but (u_mem s) m (fun x => headers base L x \/ u_brk s <= x) /\ (length L' <= S (length L))%nat
  else morecore grants fuel nunits s = Some (s, 0).
Proof.
  intros Hl Hpos Hmax Hf nu. assert (0 < nu * HDR < 2 ^ 31 /\ nunits <= nu) as Hnu by (unfold nu, wanted, HDR in *; destruct (Z.ltb_spec nunits 4096); lia).
  unfold morecore. fold (wanted nunits). fold nu. assert (s32 (nu * HDR) = nu * HDR) as -> by (apply s32_id; lia).
  unfold sbrk. destruct (Z.ltb_spec 0 (nu * HDR)); [|lia]. destruct (grants (u_brk s + nu * HDR)) eqn:Eg; [|done]. pose proof (Hmem _ Eg) as Hb.
  pose proof Hl as [Hr _ _ Hin _]. destruct (Z.eqb_spec (u_brk s) (-1)) as [Em|Em]; [unfold HDR in *; lia|]. set (m0 := set_hsize (u_mem s) (u_brk s) nu).
  assert (same_but (u_mem s) m0 (fun x => u_brk s <= x)) as H0 by (eapply same_weaken; [apply same_set_hsize|]; unfold header; lia).
  pose proof (flist_grow _ _ _ _ m0 (u_brk s + nu * HDR) Hl ltac:(lia) H0) as Hl0.
  destruct (free_flist base h0 _ L (u_brk s) nu fuel Hl0) as (m & p & L' & Ef & Hl' & Hin' & (a & n & Ha & Hn) & Hsame & Hlen); cbn [u_brk u_mem]; try done.
  { unfold HDR in *. lia. }
  { apply hsize_set. unfold HDR in *. lia. }
  { intros x Hx (b & k & Hbk & Hbx). destruct (Hin _ _ Hbk). lia. }
  cbn [u_brk u_mem] in *. exists m, p, L'. unfold set_u_mem, set_u_brk. cbn [u_mem u_freep u_brk]. fold m0. rewrite Ef. split; [done|]. split; [done|].
  split; [intros x; by rewrite Hin', (Z.mul_comm HDR)|]. split; [exists a, n; split; [done|lia]|]. split; [|done].
  eapply same_trans; [eapply same_weaken; [exact H0|by right]|]. eapply same_weaken; [exact Hsame|]. intros x [H'|H']; [by left|right]. unfold header in H'. lia.
Qed.

(** The bytes that [malloc] may write: those of the list, and new ones. *)
Definition writable (base : Z) (L : blocks) (brk x : Z) : Prop := headers base L x \/ inside L x \/ brk <= x.

(** One block has left the list. *)
Definition took (base h0 : Z) (m : mem) (L : blocks) (brk nunits : Z) (s' : ust) (r : Z) : Prop :=
  let b := r - HDR in
  exists L', flist base h0 s' L' /\ hsize (u_mem s') b = nunits /\ h0 <= b /\ b + HDR * nunits <= u_brk s' /\ brk <= u_brk s' /\
    (forall x, inside L x \/ brk <= x < u_brk s' <-> inside L' x \/ b <= x < b + HDR * nunits) /\
    (forall x, b <= x < b + HDR * nunits -> ~ inside L' x) /\ same_but m (u_mem s') (writable base L brk).

Lemma inside_headers base h0 s L x : flist base h0 s L -> headers base L x -> header base x \/ inside L x.
Proof.
  intros [_ _ _ Hin _] (a & Ha & Hx). apply elem_of_cons in Ha as [->|Ha]; [by left|right]. apply list_elem_of_fmap in Ha as ([c n] & -> & Hc).
  destruct (Hin _ _ Hc) as (_ & ? & _). exists c, n. split; [done|]. unfold header, HDR in *. cbn in Hx. lia.
Qed.

(** A search that finds a block. *)
Lemma found_took base h0 s L P1 q sq p n P2 nunits f : flist base h0 s L -> (base, 0) :: L = P1 ++ (q, sq) :: (p, n) :: P2 -> 0 < nunits <= n ->
  exists s' r, malloc_loop grants (S f) nunits q p s = Some (s', r) /\ r <> 0 /\ u_brk s' = u_brk s /\ took base h0 (u_mem s) L (u_brk s) nunits s' r.
Proof.
  intros Hl EN Hn. destruct (take_flist base h0 s L P1 q sq p n P2 nunits Hl EN Hn) as (m & b & L' & Et & Hl' & Hsz & Hb & Hbe & Hin & Hout & Hsame).
  destruct (take_segs base h0 s L P1 q sq p n P2 nunits Hl EN Hn) as (_ & _ & _ & Hszp & _). rewrite malloc_loop_S, Hszp. destruct (Z.leb_spec nunits n); [|lia]. rewrite Et.
  eexists _, _. split; [reflexivity|]. pose proof Hl as [Hr _ _ _ _]. split; [unfold HDR in *; lia|]. split; [done|]. unfold took. cbn [u_brk u_mem set_u_mem set_u_freep].
  replace (b + HDR - HDR) with b by lia. exists L'. repeat (split; [done|]). split; [|split; [done|]].
  - intros x. rewrite Hin. split; [intros [?|?]; [done|lia]|tauto].
  - eapply same_weaken; [exact Hsame|]. intros x [Hx|Hx]; [by left|]. right. left. apply Hin. right. unfold header, HDR in *. lia.
Qed.

(** A block out of the list that [morecore] made. *)
Lemma grown_took base h0 s L s1 L1 nunits s' r : flist base h0 s L -> flist base h0 s1 L1 -> u_brk s <= u_brk s1 -> u_brk s' = u_brk s1 ->
  (forall x, inside L1 x <-> inside L x \/ u_brk s <= x < u_brk s1) -> same_but (u_mem s) (u_mem s1) (fun x => headers base L x \/ u_brk s <= x) ->
  took base h0 (u_mem s1) L1 (u_brk s1) nunits s' r -> took base h0 (u_mem s) L (u_brk s) nunits s' r.
Proof.
  intros Hl Hl1 Hle Hbrk Hin1 Hs1 (L' & Hl' & Hsz & Hb & Hbe & _ & Hin & Hout & Hs2). exists L'. rewrite Hbrk in *. repeat (split; [done|]). split; [|split; [done|]].
  - intros x. rewrite <- Hin, Hin1. split; [tauto|]. intros [?|?]; [done|lia].
  - eapply same_trans; [eapply same_weaken; [exact Hs1|]; unfold writable; tauto|]. eapply same_weaken; [exact Hs2|].
    assert (forall x, inside L1 x -> writable base L (u_brk s) x) as Hi by (intros x Hx; apply Hin1 in Hx; unfold writable; destruct Hx; [tauto|right; right; lia]).
    intros x [Hx|[Hx|Hx]]; [|by apply Hi|right; right; lia]. apply (inside_headers _ _ _ _ _ Hl1) in Hx as [Hx|Hx]; [|by apply Hi]. left. exists base. split; [left|done].
Qed.

Lemma malloc_flist base h0 s L nbytes fuel : flist base h0 (started base s) L -> 0 <= nbytes <= 2 ^ 31 - 32 -> (4 * length L + 8 <= fuel)%nat ->
  let nunits := units nbytes in
  exists s' r, malloc grants fuel base nbytes s = Some (s', r) /\
    (r <> 0 /\ took base h0 (u_mem (started base s)) L (u_brk s) nunits s' r /\
       (u_brk s' = u_brk s \/ (forall a n, (a, n) ∈ L -> n < nunits) /\ u_brk s' = u_brk s + wanted nunits * HDR) \/
     r = 0 /\ s' = started base s /\ (forall a n, (a, n) ∈ L -> n < nunits) /\ grants (u_brk s + wanted nunits * HDR) = false).
Proof.
  intros Hl Hb Hf nunits. destruct (units_bounds _ Hb) as (Hpos & Hmax & Hu & _). fold nunits in Hpos, Hmax, Hu. unfold malloc. fold nunits. fold (started base s). rewrite Hu.
  rewrite <- (started_brk base s). set (s0 := started base s) in *. clearbody s0.
  destruct (search base h0 s0 L Hl grants nunits Hpos) as [(P1 & q & sq & p & n & P2 & d & EN & Hn & Hd & Hloop)|[Hno (q & Hloop)]].
  { replace fuel with (d + S (fuel - d - 1))%nat by lia. rewrite Hloop.
    destruct (found_took base h0 s0 L P1 q sq p n P2 nunits (fuel - d - 1) Hl EN ltac:(lia)) as (s' & r & -> & Hr & Hbrk & Ht). exists s', r. split; [done|]. left. tauto. }
  replace fuel with (length L + S (fuel - length L - 1))%nat by lia. rewrite Hloop, malloc_loop_S. set (f := (fuel - length L - 1)%nat).
  assert (hsize (u_mem s0) (u_freep s0) < nunits) as Hsm.
  { destruct (rotated _ _ _ _ Hl) as (M1 & sf & M2 & E & Esf & _). assert ((u_freep s0, sf) ∈ (base, 0) :: L) as H by (rewrite E; set_solver +).
    apply elem_of_cons in H as [H|H]; [injection H as _ ->; lia|]. rewrite Esf. by eapply Hno. }
  destruct (Z.leb_spec nunits (hsize (u_mem s0) (u_freep s0))); [lia|]. rewrite Z.eqb_refl.
  pose proof (morecore_ok base h0 s0 L nunits f Hl Hpos Hmax ltac:(unfold f; lia)) as Hm. cbv zeta in Hm.
  destruct (grants (u_brk s0 + wanted nunits * HDR)) eqn:Eg; [|rewrite Hm; cbn; eexists _, _; split; [reflexivity|]; by right].
  destruct Hm as (m & p & L1 & Em & Hl1 & Hin1 & (a & k & Ha & Hk) & Hsame1 & Hlen1). rewrite Em. cbn [mbind option_bind]. set (s1 := Ust m p (u_brk s0 + wanted nunits * HDR)) in *.
  destruct (Z.eqb_spec p 0) as [Ep|_]; [by destruct (flist_freep _ _ _ _ Hl1)|].
  destruct (search base h0 s1 L1 Hl1 grants nunits Hpos) as [(P1 & q1 & sq & b & n & P2 & d & EN & Hn & Hd & Hloop1)|[Hno1 _]]; [|specialize (Hno1 _ _ Ha); lia].
  change p with (u_freep s1) at 1 2. replace f with (d + S (f - d - 1))%nat by (unfold f; lia). rewrite Hloop1.
  destruct (found_took base h0 s1 L1 P1 q1 sq b n P2 nunits (f - d - 1) Hl1 EN ltac:(lia)) as (s' & r & -> & Hr & Hbrk & Ht). exists s', r. split; [done|]. left.
  split; [done|]. split; [|right; by rewrite Hbrk]. apply (grown_took base h0 s0 L s1 L1 nunits s' r); try done.
  cbn. unfold wanted, HDR. destruct (_ <? _); lia.
Qed.
End grants.

(** ** The claims *)

Lemma heap_took base h0 s L A nunits s' r : heap base h0 s L A -> 0 < nunits -> u_freep s <> 0 -> took base h0 (u_mem s) L (u_brk s) nunits s' r ->
  A !! (r - HDR) = None /\ keeps A s s' /\ exists L', heap base h0 s' L' (<[r - HDR := nunits]> A) /\
    (forall x, inside L x \/ u_brk s <= x < u_brk s' <-> inside L' x \/ r - HDR <= x < r - HDR + HDR * nunits).
Proof.
  intros Hh Hpos Hf0 (L' & Hl' & Hsz & Hb & Hbe & Hbrk & Hin & Hout & Hsame). pose proof Hh as [Hl Hs Hheld Hd Hap Hc]. set (b := r - HDR) in *.
  assert (forall x, held A x -> h0 <= x < u_brk s) as Hrange by (intros x (a & n & Ha & Hx); destruct (Hheld _ _ Ha) as (? & ? & ? & _); lia).
  assert (forall x, held A x -> ~ b <= x < b + HDR * nunits) as Hfresh.
  { intros x Hx Hbx. destruct (proj2 (Hin x) (or_intror Hbx)) as [Hi|Hi]; [by eapply Hap in Hi|specialize (Hrange x Hx); lia]. }
  assert (keeps A s s') as Hkeep.
  { intros x Hx. apply Hsame. intros [H|[H|H]]; [by eapply held_headers in H|by eapply Hap in H|specialize (Hrange x Hx); lia]. }
  assert (A !! b = None) as Hnone.
  { destruct (A !! b) as [n|] eqn:E; [|done]. destruct (Hheld _ _ E) as (? & ? & _). exfalso. apply (Hfresh b); [exists b, n; split; [done|]|]; unfold HDR in *; lia. }
  split; [done|]. split; [done|]. exists L'. split; [|done].
  assert (forall x, held (<[b:=nunits]> A) x <-> b <= x < b + HDR * nunits \/ held A x) as Hins.
  { intros x. rewrite (held_delete _ b nunits) by apply lookup_insert_eq. by rewrite delete_insert_id. }
  split.
  - by rewrite started_id by apply (flist_freep _ _ _ _ Hl').
  - intros _. apply (flist_freep _ _ _ _ Hl').
  - intros a n Ha. apply lookup_insert_Some in Ha as [[<- <-]|[Hne Ha]]; [done|]. destruct (Hheld _ _ Ha) as (? & ? & ? & <-). split; [done|]. split; [done|]. split; [lia|].
    apply loadn_ext. intros x Hx. apply Hkeep. exists a, (hsize (u_mem s) a). split; [done|]. unfold HDR. lia.
  - assert (forall a n, A !! a = Some n -> a + HDR * n <= b \/ b + HDR * nunits <= a) as Hsep.
    { intros a n Ha. destruct (Hheld _ _ Ha) as (? & ? & _). destruct (Z.le_gt_cases (a + HDR * n) b); [by left|right].
      destruct (Z.le_gt_cases (b + HDR * nunits) a); [done|]. exfalso. apply (Hfresh (Z.max a b)); [exists a, n; split; [done|]|]; unfold HDR in *; lia. }
    intros a n c k Ha Hc' Hne. apply lookup_insert_Some in Ha as [[<- <-]|[_ Ha]]; apply lookup_insert_Some in Hc' as [[<- <-]|[_ Hc']]; [done| | |by apply Hd].
    + destruct (Hsep _ _ Hc'); [by right|by left].
    + by apply Hsep.
  - intros x Hx Hi. apply Hins in Hx as [Hx|Hx]; [by eapply Hout in Hi|]. destruct (proj2 (Hin x) (or_introl Hi)) as [Hi'|Hi']; [by eapply Hap in Hi'|]. specialize (Hrange x Hx). lia.
  - intros x Hx. rewrite Hins. destruct (Z.lt_ge_cases x (u_brk s)) as [Hlt|Hge].
    + destruct (Hc x ltac:(lia)) as [Hi|Hi]; [|tauto]. destruct (proj1 (Hin x) (or_introl Hi)); tauto.
    + destruct (proj1 (Hin x)) as [?|?]; [right; lia| |]; tauto.
Qed.

Lemma malloc_heap grants base h0 s L A nbytes fuel : (forall b, grants b = true -> b <= 2 ^ 35) -> heap base h0 s L A -> 0 <= nbytes <= 2 ^ 31 - 32 ->
  (4 * length L + 8 <= fuel)%nat ->
  exists s' r, malloc grants fuel base nbytes s = Some (s', r) /\ keeps A s s' /\
    (r <> 0 /\ A !! (r - HDR) = None /\ (u_brk s' = u_brk s \/ forall a n, (a, n) ∈ L -> n < units nbytes) /\
       (exists L', heap base h0 s' L' (<[r - HDR := units nbytes]> A) /\
          forall x, inside L x \/ u_brk s <= x < u_brk s' <-> inside L' x \/ r - HDR <= x < r - HDR + HDR * units nbytes) \/
     r = 0 /\ heap base h0 s' L A /\ (forall a n, (a, n) ∈ L -> n < units nbytes) /\ grants (u_brk s + wanted (units nbytes) * HDR) = false).
Proof.
  intros Hmem Hh Hb Hf. destruct (heap_started _ _ _ _ _ Hh) as [Hh0 Hk0]. pose proof (hp_list _ _ _ _ _ Hh) as Hl.
  destruct (malloc_flist grants Hmem base h0 s L nbytes fuel Hl Hb Hf) as (s' & r & -> & [(Hr & Ht & Hbrk)|(Er & Es & Hno & Hg)]); exists s', r; (split; [done|]).
  - destruct (units_bounds _ Hb) as (Hpos & _). rewrite <- (started_brk base s) in Ht.
    destruct (heap_took _ _ _ _ _ _ _ _ Hh0 Hpos (started_freep _ _ _ _ Hl) Ht) as (Hnone & Hk & L' & Hh' & Hin). rewrite started_brk in Hin.
    split; [intros x Hx; rewrite Hk by done; by apply Hk0|]. left. split; [done|]. split; [done|]. split; [tauto|]. eauto.
  - subst s' r. split; [done|]. right. done.
Qed.

(** C13: [malloc], over every heap that the allocator can have made.  Every byte of
    the heap is free or held.  A call returns, within a number of steps that is
    linear in the list.  Either it gives back a pointer: the block behind it has
    room for the bytes asked for, its header says so, it was free or is new
    memory, it overlaps no block that the program holds, and from then on it is
    held and no longer free; no byte of the blocks held before has changed; and
    the process has grown only if no free block was large enough.  Or it gives
    back 0, because no free block was large enough and the kernel refused to
    grow the process; the heap is as it was.  The hypothesis on [grants] says
    that a process is smaller than 32 GiB. *)
Theorem malloc_correct (grants : Z -> bool) (base h0 : Z) (s : ust) (L : blocks) (A : gmap Z Z) (nbytes : Z) (fuel : nat) :
  (forall b, grants b = true -> b <= 2 ^ 35) -> heap base h0 s L A -> 0 <= nbytes <= 2 ^ 31 - 32 -> (4 * length L + 8 <= fuel)%nat ->
  exists s' r, malloc grants fuel base nbytes s = Some (s', r) /\ keeps A s s' /\
    (r <> 0 /\ nbytes <= HDR * (units nbytes - 1) /\ A !! (r - HDR) = None /\
       (u_brk s' = u_brk s \/ forall a n, (a, n) ∈ L -> n < units nbytes) /\
       (exists L', heap base h0 s' L' (<[r - HDR := units nbytes]> A) /\
          forall x, inside L x \/ u_brk s <= x < u_brk s' <-> inside L' x \/ r - HDR <= x < r - HDR + HDR * units nbytes) \/
     r = 0 /\ heap base h0 s' L A /\ (forall a n, (a, n) ∈ L -> n < units nbytes) /\ grants (u_brk s + wanted (units nbytes) * HDR) = false).
Proof.
  intros Hmem Hh Hb Hf. destruct (malloc_heap grants base h0 s L A nbytes fuel Hmem Hh Hb Hf) as (s' & r & E & Hk & Hres). exists s', r. split; [done|]. split; [done|].
  destruct (units_bounds _ Hb) as (_ & _ & _ & Hn). tauto.
Qed.

(** C22: [free] of a block that is held: the call returns within a number of steps
    that is linear in the list, the bytes of the block become free and no others
    do, the blocks that are still held keep every byte, and the list is again in
    order with no two free blocks side by side. *)
Theorem free_correct (base h0 : Z) (s : ust) (L : blocks) (A : gmap Z Z) (a n : Z) (fuel : nat) :
  heap base h0 s L A -> A !! a = Some n -> (2 * length L + 2 <= fuel)%nat ->
  exists s' L', free fuel (a + HDR) s = Some s' /\ heap base h0 s' L' (delete a A) /\ keeps (delete a A) s s' /\ u_brk s' = u_brk s /\
    (forall x, inside L' x <-> inside L x \/ a <= x < a + HDR * n).
Proof. apply free_heap. Qed.

(** [free] undoes [malloc]: after a block has been asked for and given back,
    the program holds what it held before, and the free bytes are those that were
    free before and those by which the process has grown. *)
Theorem malloc_free (grants : Z -> bool) (base h0 : Z) (s : ust) (L : blocks) (A : gmap Z Z) (nbytes : Z) (fuel : nat) :
  (forall b, grants b = true -> b <= 2 ^ 35) -> heap base h0 s L A -> 0 <= nbytes <= 2 ^ 31 - 32 -> (4 * length L + 8 <= fuel)%nat ->
  exists s1 r, malloc grants fuel base nbytes s = Some (s1, r) /\
    (r <> 0 -> exists N, forall fuel', (N <= fuel')%nat -> exists s2 L2, free fuel' r s1 = Some s2 /\ heap base h0 s2 L2 A /\ keeps A s s2 /\
       forall x, inside L2 x <-> inside L x \/ u_brk s <= x < u_brk s2).
Proof.
  intros Hmem Hh Hb Hf. destruct (malloc_heap grants base h0 s L A nbytes fuel Hmem Hh Hb Hf) as (s1 & r & E & Hk & [(Hr & Hnone & _ & L1 & Hh1 & Hin)|(Er & _)]);
    [|exists s1, r; split; [done|]; intros H; by destruct H]. exists s1, r. split; [done|]. intros _. exists (2 * length L1 + 2)%nat. intros fuel' Hf'.
  destruct (free_heap base h0 s1 L1 _ (r - HDR) (units nbytes) fuel' Hh1 (lookup_insert_eq _ _ _) Hf') as (s2 & L2 & Ef & Hh2 & Hk2 & Hbrk & Hin2).
  rewrite delete_insert_id in * by done. replace (r - HDR + HDR) with r in Ef by lia. exists s2, L2. split; [done|]. split; [done|]. split.
  - intros x Hx. rewrite Hk2 by done. by apply Hk.
  - intros x. rewrite Hin2, <- Hin, Hbrk. done.
Qed.

(** *** The claims at work *)

Definition new_heap : ust := Ust (fun _ => 0) 0 8192.
Definition all_of_ram (b : Z) : bool := b <=? 2 ^ 27.

Lemma new_heap_ok : heap 4096 8192 new_heap [] ∅.
Proof.
  split.
  - split; cbn [u_mem u_freep u_brk started new_heap Z.eqb set_u_mem set_u_freep].
    + unfold HDR. lia.
    + cbn [seg]. split; [reflexivity|]. split; vm_compute; reflexivity.
    + exact I.
    + by intros ? ? ?%elem_of_nil.
    + left.
  - by intros [].
  - intros a n Ha. by rewrite lookup_empty in Ha.
  - intros a n b k Ha. by rewrite lookup_empty in Ha.
  - intros x (a & n & Ha & _). by rewrite lookup_empty in Ha.
  - cbn [u_brk new_heap]. lia.
Qed.

Lemma all_of_ram_small b : all_of_ram b = true -> b <= 2 ^ 35.
Proof. intros H. apply Z.leb_le in H. lia. Qed.

Lemma malloc_correct_witness : exists s' r, malloc all_of_ram 8 4096 100 new_heap = Some (s', r) /\ keeps ∅ new_heap s'.
Proof.
  destruct (malloc_correct all_of_ram 4096 8192 new_heap [] ∅ 100 8 all_of_ram_small new_heap_ok ltac:(lia) ltac:(cbn [length]; lia)) as (s' & r & E & Hk & _).
  exists s', r. exact (conj E Hk).
Defined.

Lemma malloc_free_witness : exists s1 r, malloc all_of_ram 8 4096 100 new_heap = Some (s1, r).
Proof.
  destruct (malloc_free all_of_ram 4096 8192 new_heap [] ∅ 100 8 all_of_ram_small new_heap_ok ltac:(lia) ltac:(cbn [length]; lia)) as (s' & r & E & _).
  exists s', r. exact E.
Defined.

(** One block of three units, and it is held. *)
Definition one_block : ust := Ust (set_hsize (set_hptr (fun _ => 0) 4096 4096) 8192 3) 4096 8240.

Lemma one_block_ok : heap 4096 8192 one_block [] {[ 8192 := 3 ]}.
Proof.
  split.
  - split; cbn [u_mem u_freep u_brk started one_block Z.eqb].
    + unfold HDR. lia.
    + cbn [seg]. split; [reflexivity|]. split; vm_compute; reflexivity.
    + exact I.
    + by intros ? ? ?%elem_of_nil.
    + left.
  - done.
  - intros a n [<- <-]%lookup_singleton_Some. unfold HDR. cbn [u_brk one_block]. split; [lia|]. split; [lia|]. split; [lia|]. vm_compute. reflexivity.
  - intros a n b k [<- <-]%lookup_singleton_Some [<- <-]%lookup_singleton_Some Hne. by destruct Hne.
  - intros x _ ?%inside_nil. done.
  - intros x Hx. right. exists 8192, 3. split; [apply lookup_singleton_eq|]. cbn [u_brk one_block] in Hx. unfold HDR. lia.
Qed.

Lemma free_correct_witness : exists s' L', free 2 (8192 + HDR) one_block = Some s' /\ heap 4096 8192 s' L' (delete 8192 {[ 8192 := 3 ]}).
Proof.
  destruct (free_correct 4096 8192 one_block [] {[ 8192 := 3 ]} 8192 3 2 one_block_ok (lookup_singleton_eq _ _) ltac:(cbn [length]; lia)) as (s' & L' & E & Hh & _).
  exists s', L'. exact (conj E Hh).
Defined.

(** A request of four gigabytes less one byte is met by growing the process by
    sixteen bytes: [sbrk] takes an [int], and the size in bytes is cut down to
    one.  The pointer that comes back is the end of the process. *)
Lemma malloc_cut_short :
  match malloc all_of_ram 8 4096 4294967295 new_heap with
  | Some (s', r) => r = u_brk s' /\ u_brk s' = u_brk new_heap + 16
  | None => False
  end.
Proof. vm_compute. done. Qed.
