(* ===== verification/Grep.v ===== *)
(** * user/grep.c

    The matcher of regular expressions and the loop that reads a file through a
    buffer of 1024 bytes and prints the lines that match.  Patterns and lines
    are the bytes of C strings before the NUL. *)

From S2P Require Import Prelude Mem Cstring Uprog Ulib.

(** ['^'], ['$'], ['.'], ['*'] and the newline. *)
Definition CARET : Z := 94.
Definition DOLLAR : Z := 36.
Definition DOT : Z := 46.
Definition STAR : Z := 42.
Definition NL : Z := 10.

(** The [do ... while] of [matchstar]; [here] is [matchhere] of the rest of the
    expression. *)
Fixpoint matchstar (c : Z) (here : list Z -> bool) (text : list Z) : bool :=
  if here text then true
  else match text with
       | t :: text' => if (t =? c) || (c =? DOT) then matchstar c here text' else false
       | [] => false
       end.

Fixpoint matchhere (re text : list Z) : bool :=
  match re with
  | [] => true
  | c :: re1 =>
      match re1 with
      | s :: re2 => if s =? STAR then matchstar c (matchhere re2) text
                    else match text with
                         | t :: text' => if (c =? DOT) || (c =? t) then matchhere re1 text' else false
                         | [] => false
                         end
      | [] => if c =? DOLLAR then match text with [] => true | _ => false end
              else match text with
                   | t :: text' => if (c =? DOT) || (c =? t) then matchhere re1 text' else false
                   | [] => false
                   end
      end
  end.

(** The [do ... while] of [match]. *)
Fixpoint match_loop (re text : list Z) : bool :=
  if matchhere re text then true
  else match text with [] => false | _ :: text' => match_loop re text' end.

Definition match_re (re text : list Z) : bool :=
  match re with
  | c :: re' => if c =? CARET then matchhere re' text else match_loop re text
  | [] => match_loop re text
  end.

(** The inner loop: [p] is an index of [buf]. *)
Definition grep_line (pattern : list Z) (t : mem * Z) : U (mem * Z + mem * Z) :=
  let '(buf, p) := t in
  match strchr_loop 1025 (at_mem buf p) NL 0 with
  | None => Crash "strchr: no NUL"
  | Some None => Done (inr (buf, p))
  | Some (Some i) =>
      let q := p + i in
      let buf := store8 buf q 0 in
      if match_re pattern (cstr 1024 buf p) then
        let buf := store8 buf q NL in
        write 1 (load_bytes buf p (Z.to_nat (q + 1 - p))) ;;
        Done (inl (buf, q + 1))
      else Done (inl (buf, q + 1))
  end.

(** One turn of the outer loop: [m] bytes of [buf] hold an unfinished line. *)
Definition grep_body (pattern : list Z) (fd : Z) (t : mem * Z) : U (mem * Z + unit) :=
  let '(buf, m) := t in
  let? ' (n, d) := read fd (u32 (1024 - m - 1)) in
  if n <=? 0 then Done (inr tt)
  else
    let m := m + n in
    let buf := store8 (store_bytes buf (m - n) d) m 0 in
    let? ' (buf, p) := uloop 1025 (grep_line pattern) (buf, 0) in
    if 0 <? m then
      let m := m - p in
      Done (inl (umemmove buf 0 p m, m))
    else Done (inl (buf, m)).

Definition grep (fuel : nat) (buf : mem) (pattern : list Z) (fd : Z) : U unit :=
  uloop fuel (grep_body pattern fd) (buf, 0).

Definition grep_files (fuel : nat) (buf : mem) (pattern : list Z) (files : list (list Z)) : U unit :=
  ufor files (fun f =>
    let? fd := open f O_RDONLY in
    if fd <? 0 then
      say "grep: cannot open %s" [Str (Some f)] ;;
      exit 1
    else
      grep fuel buf pattern fd ;;
      close fd ;;
      Done tt).

Definition grep_main (fuel : nat) (buf : mem) (argv : list (list Z)) : U unit :=
  match argv with
  | _ :: pattern :: files =>
      match files with
      | [] => grep fuel buf pattern 0 ;; exit 0
      | _ => grep_files fuel buf pattern files ;; exit 0
      end
  | _ => err "usage: grep pattern [file ...]" [] ;; exit 1
  end.

(** ** The language of an expression *)

Inductive atom : Type := Lit (c : Z) | Any.
Inductive item : Type := One (a : atom) | Many (a : atom) | End.

Definition atom_of (c : Z) : atom := if c =? DOT then Any else Lit c.

Definition sat (a : atom) (t : Z) : Prop := match a with Lit c => t = c | Any => True end.

(** How an expression reads: [c*] wherever a star follows a character, [$] as
    an anchor only at the end. *)
Fixpoint items (re : list Z) : list item :=
  match re with
  | [] => []
  | c :: re1 =>
      match re1 with
      | s :: re2 => if s =? STAR then Many (atom_of c) :: items re2 else One (atom_of c) :: items re1
      | [] => if c =? DOLLAR then [End] else [One (atom_of c)]
      end
  end.

(** [den ii text rest]: the items match [text] up to [rest]. *)
Inductive den : list item -> list Z -> list Z -> Prop :=
| den_nil t : den [] t t
| den_one a ii c t r : sat a c -> den ii t r -> den (One a :: ii) (c :: t) r
| den_many a ii u t r : Forall (sat a) u -> den ii t r -> den (Many a :: ii) (u ++ t) r
| den_end ii r : den ii [] r -> den (End :: ii) [] r.

Lemma sat_atom c t : sat (atom_of c) t <-> (c =? DOT) || (c =? t) = true.
Proof.
  unfold atom_of. rewrite orb_true_iff. destruct (c =? DOT); cbn; [tauto|].
  rewrite Z.eqb_eq. split; [intros ->; tauto|intros [?|?]; congruence].
Qed.

Lemma matchstar_iff c here text :
  matchstar c here text = true <-> exists u t, text = u ++ t /\ Forall (sat (atom_of c)) u /\ here t = true.
Proof.
  induction text as [|x text IH]; cbn.
  - destruct (here []) eqn:E; split; try done.
    + intros _. by exists [], [].
    + intros (u & t & H & _ & Ht). symmetry in H. apply app_eq_nil in H as [_ ->]. congruence.
  - destruct (here (x :: text)) eqn:E.
    { split; [|done]. intros _. by exists [], (x :: text). }
    assert ((x =? c) || (c =? DOT) = true <-> sat (atom_of c) x) as Hs.
    { rewrite sat_atom, Z.eqb_sym. by rewrite orb_comm. }
    destruct ((x =? c) || (c =? DOT)); cbn.
    + rewrite IH. split.
      * intros (u & t & -> & Hu & Ht). exists (x :: u), t. split; [done|]. split; [|done]. constructor; [by apply Hs|done].
      * intros ([|y u] & t & H & Hu & Ht); cbn in H; [congruence|]. injection H as -> ->.
        apply Forall_cons in Hu as [_ Hu]. by exists u, t.
    + split; [done|]. intros ([|y u] & t & H & Hu & Ht); cbn in H; [congruence|]. injection H as -> ->.
      apply Forall_cons in Hu as [Hy _]. by apply Hs in Hy.
Qed.

(** [matchhere] decides the language. *)
Lemma matchhere_iff n : forall re text, (length re <= n)%nat ->
  matchhere re text = true <-> exists r, den (items re) text r.
Proof.
  induction n as [|n IH]; intros [|c re1] text Hn; cbn in Hn; try lia;
    [split; [intros _; exists text; constructor|done]..|].
  assert (forall re, (length re <= n)%nat ->
    match text with t :: text' => if (c =? DOT) || (c =? t) then matchhere re text' else false | [] => false end = true <->
    exists r, den (One (atom_of c) :: items re) text r) as Hone.
  { intros re Hre. destruct text as [|t text]; [split; [done|]; intros (r & H); inversion H|].
    pose proof (sat_atom c t) as Hs. destruct ((c =? DOT) || (c =? t)).
    - rewrite IH by done. split; intros (r & H).
      + exists r. constructor; [by apply Hs|done].
      + inversion H; subst. by exists r.
    - split; [done|]. intros (r & H). inversion H; subst. tauto. }
  cbn [matchhere items]. destruct re1 as [|s re2].
  - destruct (Z.eqb_spec c DOLLAR) as [->|]; [|apply (Hone []); cbn; lia].
    destruct text; split; try done.
    + intros _. exists []. repeat constructor.
    + intros (r & H). inversion H.
  - cbn in Hn. destruct (Z.eqb_spec s STAR) as [->|]; [|apply (Hone (s :: re2)); cbn; lia].
    rewrite matchstar_iff. split.
    + intros (u & t & -> & Hu & (r & Ht)%IH); [|lia]. exists r. by constructor.
    + intros (r & H). inversion H; subst. exists u, t. split; [done|]. split; [done|]. apply IH; [lia|]. by exists r.
Qed.

Lemma match_loop_iff re text :
  match_loop re text = true <-> exists u t r, text = u ++ t /\ den (items re) t r.
Proof.
  induction text as [|x text IH]; cbn.
  - destruct (matchhere re []) eqn:E; split; try done.
    + intros _. apply (matchhere_iff _ _ _ (le_n _)) in E as (r & H). by exists [], [], r.
    + intros (u & t & r & H & Hd). symmetry in H. apply app_eq_nil in H as [_ ->].
      rewrite (proj2 (matchhere_iff _ re [] (le_n _))) in E; [done|]. by exists r.
  - destruct (matchhere re (x :: text)) eqn:E.
    + split; [|done]. intros _. apply (matchhere_iff _ _ _ (le_n _)) in E as (r & H). by exists [], (x :: text), r.
    + rewrite IH. split.
      * intros (u & t & r & -> & H). by exists (x :: u), t, r.
      * intros ([|y u] & t & r & H & Hd); cbn in H; [|injection H as -> ->; by exists u, t, r]. subst t.
        rewrite (proj2 (matchhere_iff _ re (x :: text) (le_n _))) in E; [done|]. by exists r.
Qed.

(** C32: [match] decides the language of the expression: an expression that
    starts with [^] matches a line when its items match from the start of the
    line, any other when they match from some point of it on. *)
Theorem match_decides re text :
  match_re re text = true <->
  if decide (head re = Some CARET) then exists r, den (items (tail re)) text r
  else exists u t r, text = u ++ t /\ den (items re) t r.
Proof.
  unfold match_re. destruct re as [|c re']; [apply match_loop_iff|]. cbn [head tail].
  destruct (Z.eqb_spec c CARET) as [->|Hne].
  - rewrite decide_True by done. apply (matchhere_iff _ _ _ (le_n _)).
  - rewrite decide_False by congruence. apply match_loop_iff.
Qed.
