(* ===== verification/GrepSpec.v ===== *)
(** * The loop of grep

    What [grep] prints for an input that arrives in pieces of any size. *)

From S2P Require Import Prelude Mem Cstring Uprog Ulib Grep.

(** ** Strings by position *)

Lemma str_at_iff p i l :
  str_at p i l <-> (forall j, (j < length l)%nat -> p (i + Z.of_nat j) = nth j l 0) /\ Forall (fun a => a <> 0) l /\
    p (i + Z.of_nat (length l)) = 0.
Proof.
  revert i. induction l as [|a l IH]; intros i; cbn [str_at length].
  - rewrite Z.add_0_r. split; [intros H|by intros (_ & _ & ?)]. split; [lia|]. by split.
  - rewrite IH. split.
    + intros (H1 & H2 & H3 & H4 & H5). split; [|split; [by constructor|]].
      * intros [|j] Hj; [by rewrite Z.add_0_r|]. cbn. rewrite <- H3 by lia. f_equal. lia.
      * rewrite <- H5. f_equal. lia.
    + intros (H1 & [H2 H3]%Forall_cons & H4). split; [|split; [done|split; [|split; [done|]]]].
      * specialize (H1 0%nat ltac:(lia)). by rewrite Z.add_0_r in H1.
      * intros j Hj. specialize (H1 (S j) ltac:(lia)). cbn in H1. rewrite <- H1. f_equal. lia.
      * rewrite <- H4. f_equal. lia.
Qed.

Lemma load_bytes_at m a l : (forall j, (j < length l)%nat -> load8 m (a + Z.of_nat j) = nth j l 0) -> load_bytes m a (length l) = l.
Proof.
  intros H. apply nth_ext with (d := 0) (d' := 0); [apply load_bytes_length|]. intros j Hj. rewrite load_bytes_length in Hj.
  rewrite load_bytes_nth by done. by apply H.
Qed.

Lemma strchr_none l c : strchr l c = None -> c ∉ l.
Proof.
  induction l as [|a l IH]; cbn; intros H; [apply not_elem_of_nil|]. destruct (Z.eqb_spec a c); [done|].
  destruct (strchr l c); [done|]. apply not_elem_of_cons. split; [done|]. by apply IH.
Qed.

Lemma strchr_some l c k : strchr l c = Some k -> exists l1 l2, l = l1 ++ c :: l2 /\ length l1 = k /\ c ∉ l1.
Proof.
  revert k. induction l as [|a l IH]; intros k; cbn; intros H; [done|]. destruct (Z.eqb_spec a c) as [->|].
  - injection H as <-. exists [], l. split; [done|]. split; [done|]. apply not_elem_of_nil.
  - destruct (strchr l c) as [j|]; [|done]. cbn in H. injection H as <-. destruct (IH j eq_refl) as (l1 & l2 & -> & <- & Hn).
    exists (a :: l1), l2. split; [done|]. split; [done|]. apply not_elem_of_cons. done.
Qed.

(** ** What is to be printed *)

(** The lines of [inp] that match, [acc] being the start of the first line. *)
Fixpoint grep_lines (pat acc inp : list Z) : list Z :=
  match inp with
  | [] => []
  | c :: r => if c =? NL then (if match_re pat acc then acc ++ [NL] else []) ++ grep_lines pat [] r
              else grep_lines pat (acc ++ [c]) r
  end.

(** The line that the input leaves unfinished. *)
Fixpoint pending (acc inp : list Z) : list Z :=
  match inp with
  | [] => acc
  | c :: r => if c =? NL then pending [] r else pending (acc ++ [c]) r
  end.

(** No line, the one already begun by [k] bytes included, exceeds [b] bytes. *)
Fixpoint short (b k : nat) (inp : list Z) : Prop :=
  match inp with
  | [] => (k <= b)%nat
  | c :: r => (k <= b)%nat /\ if c =? NL then short b 0 r else short b (S k) r
  end.

Lemma grep_lines_app pat l : forall acc r,
  grep_lines pat acc (l ++ r) = grep_lines pat acc l ++ grep_lines pat (pending acc l) r.
Proof.
  induction l as [|c l IH]; intros acc r; cbn; [done|]. destruct (c =? NL); [|apply IH].
  by rewrite IH, app_assoc.
Qed.

Lemma pending_app l : forall acc r, pending acc (l ++ r) = pending (pending acc l) r.
Proof. induction l as [|c l IH]; intros acc r; cbn; [done|]. destruct (c =? NL); apply IH. Qed.

Lemma no_newline pat l : NL ∉ l -> forall acc, grep_lines pat acc l = [] /\ pending acc l = acc ++ l.
Proof.
  induction l as [|c l IH]; intros H acc; cbn; [by rewrite app_nil_r|]. apply not_elem_of_cons in H as [H1 H2].
  destruct (Z.eqb_spec c NL); [congruence|]. destruct (IH H2 (acc ++ [c])) as [-> ->]. split; [done|]. by rewrite <- app_assoc.
Qed.

Lemma pending_no_newline l : forall acc, NL ∉ acc -> NL ∉ pending acc l.
Proof.
  induction l as [|c l IH]; intros acc H; cbn; [done|]. destruct (Z.eqb_spec c NL) as [|Hc]; apply IH; [apply not_elem_of_nil|].
  apply not_elem_of_app. split; [done|]. apply not_elem_of_cons. split; [congruence|apply not_elem_of_nil].
Qed.

Lemma short_pending b l : forall acc r, short b (length acc) (l ++ r) -> short b (length (pending acc l)) r.
Proof.
  induction l as [|c l IH]; intros acc r; cbn; [done|]. intros [_ H]. destruct (c =? NL); [by apply (IH [])|].
  apply IH. rewrite length_app. cbn. by rewrite Nat.add_1_r.
Qed.

Lemma pending_bytes (P : Z -> Prop) l : forall acc, Forall P acc -> Forall P l -> Forall P (pending acc l).
Proof.
  induction l as [|c l IH]; intros acc Ha Hl; cbn; [done|]. apply Forall_cons in Hl as [Hc Hl].
  destruct (c =? NL); apply IH; try done. apply Forall_app. split; [done|by constructor].
Qed.

Lemma short_le b k inp : short b k inp -> (k <= b)%nat.
Proof. destruct inp; cbn; [done|tauto]. Qed.

Lemma pending_length l : forall acc, (length (pending acc l) <= length acc + length l)%nat.
Proof.
  induction l as [|c l IH]; intros acc; cbn; [lia|]. destruct (c =? NL); [specialize (IH []); cbn in IH; lia|].
  specialize (IH (acc ++ [c])). rewrite length_app in IH. cbn in IH. lia.
Qed.

(** ** The inner loop *)

(** A line of the buffer, its newline overwritten. *)
Lemma line_mem b b' p line T :
  str_at (at_mem b p) 0 (line ++ NL :: T) ->
  let q := p + Z.of_nat (length line) in
  (forall x, x <> q -> load8 b' x = load8 b x) ->
  (load8 b' q = 0 -> str_at (at_mem b' p) 0 line) /\
  (load8 b' q = NL -> load_bytes b' p (length line + 1) = line ++ [NL]) /\
  str_at (at_mem b' (q + 1)) 0 T.
Proof.
  intros (Hb & [Hnz1 [_ Hnz2]%Forall_cons]%Forall_app & He)%str_at_iff q Hb'. unfold at_mem in *.
  rewrite length_app in Hb, He. cbn [length] in Hb, He.
  assert (forall j, (j < length line)%nat -> load8 b' (p + Z.of_nat j) = nth j line 0) as Hline.
  { intros j Hj. rewrite Hb' by (unfold q; lia). specialize (Hb j ltac:(lia)). by rewrite app_nth1 in Hb. }
  split; [|split].
  - intros Hq. apply str_at_iff. split; [exact Hline|]. split; [done|]. by rewrite Z.add_0_l.
  - intros Hq. replace (length line + 1)%nat with (length (line ++ [NL])) by (by rewrite length_app).
    apply load_bytes_at. intros j Hj. rewrite length_app in Hj. cbn in Hj. destruct (decide (j < length line)%nat).
    + rewrite app_nth1 by done. by apply Hline.
    + rewrite app_nth2 by lia. replace (j - length line)%nat with 0%nat by lia. cbn. rewrite <- Hq. f_equal. lia.
  - apply str_at_iff. split; [|split; [done|]].
    + intros j Hj. rewrite Hb' by (unfold q; lia). specialize (Hb (S (length line + j)) ltac:(lia)).
      rewrite app_nth2, <- Nat.add_succ_r, Nat.add_comm, Nat.add_sub in Hb by lia. cbn in Hb. rewrite <- Hb. f_equal. lia.
    + rewrite Hb' by (unfold q; lia). rewrite <- He. f_equal. lia.
Qed.

Lemma grep_line_run fd pat n : forall T f b p ch inp,
  (length T <= n)%nat -> (n < f)%nat -> (length T <= 1023)%nat -> str_at (at_mem b p) 0 T ->
  exists b' p', run_io fd (uloop f (grep_line pat) (b, p)) ch inp =
      mk_io (grep_lines pat [] T) (Some (inl (b', p'))) ch inp /\
    p' = p + Z.of_nat (length T) - Z.of_nat (length (pending [] T)) /\ str_at (at_mem b' p') 0 (pending [] T).
Proof.
  induction n as [|n IH]; intros T f b p ch inp Hn Hf Hmax Hs; (destruct f as [|f]; [lia|]); cbn [uloop grep_line].
  - destruct T; [|cbn in Hn; lia]. rewrite (strchr_refines (at_mem b p) NL []) by (first [done|cbn; lia]). cbn.
    exists b, p. split; [done|]. split; [lia|done].
  - rewrite (strchr_refines (at_mem b p) NL T) by (first [done|lia]).
    destruct (strchr T NL) as [k|] eqn:E; cbn [fmap option_fmap option_map].
    2:{ apply strchr_none in E. destruct (no_newline pat T E []) as [-> ->]. cbn. exists b, p. split; [done|]. split; [lia|done]. }
    apply strchr_some in E as (line & T' & -> & <- & Hnl).
    rewrite length_app in Hn, Hmax. cbn [length] in Hn, Hmax. rewrite !Z.add_0_l.
    set (q := p + Z.of_nat (length line)).
    destruct (line_mem b (store8 b q 0) p line T' Hs) as (H0 & _ & Hr0); [intros x Hx; rewrite load8_store8; zdec; [done|done]|].
    destruct (line_mem b (store8 (store8 b q 0) q NL) p line T' Hs) as (_ & H1 & Hr1);
      [intros x Hx; rewrite !load8_store8; zdec; [done|done]|].
    rewrite (cstr_at _ _ _ line) by (first [apply H0; rewrite load8_store8; by zdec|lia]).
    rewrite grep_lines_app, pending_app. destruct (no_newline pat line Hnl []) as [-> ->]. cbn [grep_lines pending app].
    change (NL =? NL) with true. cbv iota. rewrite length_app. cbn [length].
    destruct (match_re pat line).
    + destruct (IH T' f (store8 (store8 b q 0) q NL) (q + 1) ch inp) as (b' & p' & Hrun & Hp & Hstr); [lia|lia|lia|apply Hr1|].
      exists b', p'. split; [|split; [lia|done]].
      replace (Z.to_nat (q + 1 - p)) with (length line + 1)%nat by lia.
      rewrite H1 by (rewrite load8_store8; by zdec).
      cbn [ubind write sysv run_io]. change (1 =? 1) with true. cbv iota. by rewrite Hrun.
    + destruct (IH T' f (store8 b q 0) (q + 1) ch inp) as (b' & p' & Hrun & Hp & Hstr); [lia|lia|lia|apply Hr0|].
      exists b', p'. split; [|split; [lia|done]]. cbn [ubind]. exact Hrun.
Qed.

(** ** The outer loop *)

Lemma piece_spec n ch inp : 0 < n -> inp <> [] ->
  exists d rest, piece n ch inp = d /\ inp = d ++ rest /\ drop (length d) inp = rest /\ d <> [] /\ Z.of_nat (length d) <= n.
Proof.
  intros Hn Hi. exists (piece n ch inp), (drop (length (piece n ch inp)) inp). split; [done|].
  set (k := Nat.min (Nat.max 1 (hd (Z.to_nat n) ch)) (Z.to_nat n)).
  assert (1 <= k <= Z.to_nat n)%nat as Hk by (unfold k; lia).
  assert (piece n ch inp = take k inp) as -> by done. rewrite length_take.
  split; [|split; [done|split; [|lia]]].
  - destruct (decide (k <= length inp)%nat).
    + replace (k `min` length inp)%nat with k by lia. by rewrite take_drop.
    + rewrite take_ge, drop_ge by lia. by rewrite app_nil_r.
  - destruct inp; [done|]. destruct k; [lia|]. done.
Qed.

(** The buffer after a [read]. *)
Lemma read_mem buf B d m :
  m = Z.of_nat (length B) -> (forall j, (j < length B)%nat -> load8 buf (Z.of_nat j) = nth j B 0) ->
  Forall (fun c => 0 < c < 256) B -> Forall (fun c => 0 < c < 256) d ->
  str_at (at_mem (store8 (store_bytes buf m d) (m + Z.of_nat (length d)) 0) 0) 0 (B ++ d).
Proof.
  intros -> HB Hb Hd. apply str_at_iff. unfold at_mem. rewrite length_app. split; [|split].
  - intros j Hj. rewrite load8_store8, load8_store_bytes. zdec; try lia.
    + rewrite app_nth2 by lia. rewrite u8_small.
      * f_equal. lia.
      * assert (Forall (fun c => 0 <= c < 256) d) as Hd'. { eapply Forall_impl; [exact Hd|]. cbv beta. lia. }
        rewrite Forall_nth in Hd'. apply Hd'. lia.
    + rewrite app_nth1 by lia. rewrite <- HB by lia. f_equal; lia.
  - apply Forall_app. split; (eapply Forall_impl; [eassumption|]); cbv beta; lia.
  - rewrite load8_store8. zdec; [done|lia].
Qed.

Lemma grep_run fd pat : forall n inp f buf B ch,
  (length inp <= n)%nat -> (n < f)%nat -> Forall (fun c => 0 < c < 256) B -> Forall (fun c => 0 < c < 256) inp -> NL ∉ B ->
  short 1022 (length B) inp -> (forall j, (j < length B)%nat -> load8 buf (Z.of_nat j) = nth j B 0) ->
  exists ch', run_io fd (uloop f (grep_body pat fd) (buf, Z.of_nat (length B))) ch inp =
    mk_io (grep_lines pat B inp) (Some (inl tt)) ch' [].
Proof.
  induction n as [|n IH]; intros inp f buf B ch Hn Hf HB Hi Hnl Hsh Hbuf; (destruct f as [|f]; [lia|]); cbn [uloop grep_body].
  all: pose proof (short_le _ _ _ Hsh) as HBl.
  all: assert (u32 (1024 - Z.of_nat (length B) - 1) = 1023 - Z.of_nat (length B)) as -> by (unfold u32; rewrite Z.mod_small; lia).
  all: cbn [read ubind run_io]; rewrite Z.eqb_refl.
  { destruct inp; [|cbn in Hn; lia]. unfold piece. rewrite take_nil. cbn. by eexists. }
  destruct (decide (inp = [])) as [->|Hne]. { unfold piece. rewrite take_nil. cbn. by eexists. }
  destruct (piece_spec (1023 - Z.of_nat (length B)) ch inp) as (d & rest & -> & -> & -> & Hd & Hdl); [lia|done|].
  rewrite length_app in Hn. apply Forall_app in Hi as [Hid Hir].
  assert (0 < length d)%nat as Hd0 by (destruct d; cbn; [done|lia]). cbn [r_val r_data].
  destruct (Z.leb_spec (Z.of_nat (length d)) 0); [lia|]. rewrite Z.add_simpl_r.
  destruct (grep_line_run fd pat 1023 (B ++ d) 1025 (store8 (store_bytes buf (Z.of_nat (length B)) d) (Z.of_nat (length B) + Z.of_nat (length d)) 0)
    0 (tl ch) rest) as (b' & p' & Hrun & Hp & Hstr); [rewrite length_app; lia|lia|rewrite length_app; lia|by apply read_mem|].
  assert (pending [] (B ++ d) = pending B d) as Epd.
  { rewrite pending_app. by destruct (no_newline pat B Hnl []) as [_ ->]. }
  assert (grep_lines pat [] (B ++ d) = grep_lines pat B d) as Egr.
  { rewrite grep_lines_app. by destruct (no_newline pat B Hnl []) as [-> ->]. }
  rewrite Epd, Egr, length_app in *.
  erewrite run_io_bind.
  2:{ erewrite run_io_bind by exact Hrun. destruct (Z.ltb_spec 0 (Z.of_nat (length B) + Z.of_nat (length d))); [|lia].
      unfold io_write. cbn. by rewrite app_nil_r. }
  cbn [ubind]. replace (Z.of_nat (length B) + Z.of_nat (length d) - p') with (Z.of_nat (length (pending B d))) by lia.
  destruct (IH rest f (umemmove b' 0 p' (Z.of_nat (length (pending B d)))) (pending B d) (tl ch)) as (ch' & Hrun'); try done; try lia.
  - apply pending_bytes; done.
  - by apply pending_no_newline.
  - by apply short_pending.
  - apply str_at_iff in Hstr as (Hstr & _). intros j Hj. rewrite load8_umemmove, load8_memmove by lia. zdec; try lia.
    specialize (Hstr j Hj). unfold at_mem in Hstr. rewrite <- Hstr. f_equal. lia.
  - rewrite Hrun'. exists ch'. unfold io_write. cbn. by rewrite grep_lines_app.
Qed.

(** C31: whatever the sizes of the pieces that [read] returns, [grep] prints
    exactly the lines of its input that match, in order, for an input without
    NUL bytes whose lines fit the buffer; a last line without a newline is not
    printed. *)
Theorem grep_prints_matches fd pat buf ch inp fuel :
  Forall (fun c => 0 < c < 256) inp -> short 1022 0 inp -> (length inp < fuel)%nat ->
  exists ch', run_io fd (grep fuel buf pat fd) ch inp = mk_io (grep_lines pat [] inp) (Some (inl tt)) ch' [].
Proof.
  intros Hi Hs Hf. apply (grep_run fd pat (length inp) inp fuel buf []); try done; [apply not_elem_of_nil|cbn; lia].
Qed.

(** The two lines of three that match ["b.$"], read in pieces of three bytes. *)
Lemma grep_witness : exists ch',
  run_io 0 (grep 20 (fun _ => 0) (str_bytes "b.$") 0) (replicate 9 3%nat) (str_bytes "abc" ++ [10] ++ str_bytes "bcd" ++ [10] ++ str_bytes "bb" ++ [10]) =
    mk_io (str_bytes "abc" ++ [10] ++ str_bytes "bb" ++ [10]) (Some (inl tt)) ch' [].
Proof.
  apply (grep_prints_matches 0 (str_bytes "b.$") (fun _ => 0) (replicate 9 3%nat) (str_bytes "abc" ++ [10] ++ str_bytes "bcd" ++ [10] ++ str_bytes "bb" ++ [10]) 20).
  - repeat constructor; done.
  - vm_compute. repeat split; lia.
  - vm_compute. lia.
Defined.

(** A line that fills the buffer ends the search: the next [read] asks for no
    bytes, and its answer is taken for the end of the file. *)
Lemma grep_stops_at_long_line :
  let r := run_io 0 (grep 2000 (fun _ => 0) (str_bytes "b") 0) [] (replicate 1023 97 ++ [10; 98; 10]) in
  io_out r = [] /\ io_end r = Some (inl tt) /\ io_left r = [10; 98; 10].
Proof. vm_compute. repeat split. Qed.
